(** * gsc-mcp-server: retry/pagination client, formatters, rollup and
      opportunity analyses

    A shallow embedding of the TypeScript sources
      - [src/gsc/client.ts]                  ([GSCClient])
      - [src/server/tools/formatters.ts]     (formatters and opportunity tools)
      - [src/server/tools/searchAnalytics.ts] (period comparison and rollup)

    Conventions of the embedding.
      - A JavaScript [string] is a [string] of the Standard Library; the
        sources only build and inspect ASCII text here (dates, URLs, error
        messages), so a code unit is a byte.
      - A JavaScript [number] that counts rows or milliseconds is a [Z]; a
        metric ([clicks], [impressions], [ctr], [position]) is a rational
        [Q], the exact value that the IEEE double of the source approximates.
      - A rejected promise / thrown exception is an explicit [Outcome]; the
        remote service is a state transformer on an abstract [World]. *)

From Stdlib Require Import ZArith QArith Qround Qabs List String Ascii Bool Lia.
From Stdlib Require Import DecimalString OrdersEx.
From Stdlib Require Import Sorting.Sorted Sorting.Permutation.
Import ListNotations.

Local Open Scope string_scope.
Local Open Scope Z_scope.
Local Open Scope list_scope.

(* ================================================================== *)
(** ** JavaScript string primitives *)
(* ================================================================== *)

Module JsString.

(** [s.startsWith(p)] *)
Fixpoint startsWith (s p : string) {struct p} : bool :=
  match p with
  | EmptyString => true
  | String c p' =>
      match s with
      | EmptyString => false
      | String d s' => Ascii.eqb c d && startsWith s' p'
      end
  end.

(** [s.includes(needle)] *)
Fixpoint includes (s needle : string) : bool :=
  startsWith s needle ||
  match s with
  | EmptyString => false
  | String _ s' => includes s' needle
  end.

(** [s.slice(n)] for [0 <= n]. *)
Fixpoint sliceFrom (s : string) (n : nat) {struct n} : string :=
  match n with
  | O => s
  | S n' =>
      match s with
      | EmptyString => EmptyString
      | String _ s' => sliceFrom s' n'
      end
  end.

Definition lowerAscii (c : ascii) : ascii :=
  let n := nat_of_ascii c in
  if (Nat.leb 65 n && Nat.leb n 90)%bool then ascii_of_nat (n + 32) else c.

(** [s.toLowerCase()] on ASCII text. *)
Fixpoint toLowerCase (s : string) : string :=
  match s with
  | EmptyString => EmptyString
  | String c s' => String (lowerAscii c) (toLowerCase s')
  end.

(** [s.replace(/\/$/, '')]: drop one trailing slash. *)
Fixpoint dropTrailingSlash (s : string) : string :=
  match s with
  | EmptyString => EmptyString
  | String c EmptyString => if Ascii.eqb c "/" then EmptyString else s
  | String c s' => String c (dropTrailingSlash s')
  end.

(** Truthiness of a string: [!s] is [true] exactly for the empty one. *)
Definition isEmpty (s : string) : bool :=
  match s with EmptyString => true | _ => false end.

(** [a || b] on strings. *)
Definition orElse (a b : string) : string := if isEmpty a then b else a.

End JsString.

(* ================================================================== *)
(** ** [src/gsc/client.ts] *)
(* ================================================================== *)

Module Client.

Import JsString.

Definition MAX_RETRIES : nat := 3.
Definition RETRY_DELAY_MS : Z := 1000.
Definition MAX_ROWS_PER_REQUEST : Z := 25000.

(** An [Error] object.  [withRetry] turns any other thrown value [v] into
    [new Error(String(v))]; a failure of an operation is recorded in that
    normal form. *)
Record Error : Type := mkError { message : string }.

(** What an awaited call of the client produces.  [ThrownUndefined] is the
    [throw lastError] after the retry loop when the loop never ran. *)
Inductive Outcome (A : Type) : Type :=
| Returned (a : A)
| Thrown (e : Error)
| ThrownUndefined.
Arguments Returned {A} a.
Arguments Thrown {A} e.
Arguments ThrownUndefined {A}.

(** What [withRetry] does, as seen from outside: it invokes the operation
    and it sleeps. *)
Inductive RetryEvent : Type :=
| Attempt
| Sleep (ms : Z).

(** [isRetryableError] *)
Definition isRetryableError (error : Error) : bool :=
  let message := toLowerCase (message error) in
  if includes message "quota" || includes message "rate limit" then true
  else if includes message "econnreset" || includes message "etimedout"
          || includes message "enotfound" then true
  else if includes message "500" || includes message "503" then true
  else false.

Section WithWorld.

(** The state of everything outside the process (the remote service). *)
Variable World : Type.

(** An operation handed to [withRetry]: one remote call, which either
    resolves to a value or rejects with an error. *)
Definition Operation (T : Type) : Type := World -> World * (Error + T).

Definition throwLast {T} (lastError : option Error) : Outcome T :=
  match lastError with
  | Some e => Thrown e
  | None => ThrownUndefined
  end.

(** The [for] loop of [withRetry], from iteration [attempt] on.  [fuel]
    bounds the number of iterations left; [withRetry] supplies
    [retries + 1], which the loop condition never lets run out. *)
Fixpoint withRetry_loop {T} (fuel : nat) (operation : Operation T)
    (retries attempt : nat) (lastError : option Error) (w : World)
    : World * Outcome T * list RetryEvent :=
  if (attempt <=? retries)%nat then
    match fuel with
    | O => (w, throwLast lastError, [])
    | S fuel' =>
        match operation w with
        | (w1, inr v) => (w1, Returned v, [Attempt])
        | (w1, inl e) =>
            let isRetryable := isRetryableError e in
            if negb isRetryable || (attempt =? retries)%nat then
              (w1, Thrown e, [Attempt])
            else
              let delay := RETRY_DELAY_MS * 2 ^ Z.of_nat attempt in
              let '(w2, r, tr) :=
                withRetry_loop fuel' operation retries (S attempt) (Some e) w1 in
              (w2, r, Attempt :: Sleep delay :: tr)
        end
    end
  else (w, throwLast lastError, []).

Definition withRetry {T} (operation : Operation T) (retries : nat) (w : World)
    : World * Outcome T * list RetryEvent :=
  withRetry_loop (S retries) operation retries 0 None w.

(** *** Sites and sitemaps *)

Record SiteData : Type := mkSiteData {
  sd_siteUrl : option string;
  sd_permissionLevel : option string }.

Record SiteInfo : Type := mkSiteInfo {
  siteUrl : string;
  permissionLevel : string }.

Record SitemapData : Type := mkSitemapData {
  smd_path : option string;
  smd_lastSubmitted : option string;
  smd_isPending : option bool;
  smd_isSitemapsIndex : option bool;
  smd_type : option string;
  smd_lastDownloaded : option string;
  smd_warnings : option string;
  smd_errors : option string }.

Record SitemapInfo : Type := mkSitemapInfo {
  path : string;
  lastSubmitted : option string;
  isPending : option bool;
  isSitemapsIndex : option bool;
  type : option string;
  lastDownloaded : option string;
  warnings : option string;
  errors : option string }.

(** [x || undefined] / [x || d] on optional strings and booleans. *)
Definition truthyString (x : option string) : option string :=
  match x with
  | Some s => if isEmpty s then None else Some s
  | None => None
  end.

Definition truthyBool (x : option bool) : option bool :=
  match x with
  | Some true => Some true
  | _ => None
  end.

Definition stringOr (x : option string) (d : string) : string :=
  match truthyString x with Some s => s | None => d end.

(** The remote operations used below. *)
Variable sites_get : string -> Operation SiteData.
Variable sitemaps_get : string -> string -> Operation SitemapData.

(** [try { return f(await call) } catch { return null }] *)
Definition tryOrNull {A B} (r : World * Outcome A * list RetryEvent) (f : A -> B)
    : World * Outcome (option B) * list RetryEvent :=
  match r with
  | (w, Returned a, tr) => (w, Returned (Some (f a)), tr)
  | (w, Thrown _, tr) => (w, Returned None, tr)
  | (w, ThrownUndefined, tr) => (w, Returned None, tr)
  end.

(** [getSite] *)
Definition getSite (siteUrl : string) (w : World)
    : World * Outcome (option SiteInfo) * list RetryEvent :=
  tryOrNull (withRetry (sites_get siteUrl) MAX_RETRIES w)
    (fun data =>
       {| siteUrl := stringOr (sd_siteUrl data) siteUrl;
          permissionLevel := stringOr (sd_permissionLevel data) "unknown" |}).

(** [getSitemap].  [Number(warnings)] is kept as the text it converts. *)
Definition getSitemap (siteUrl feedpath : string) (w : World)
    : World * Outcome (option SitemapInfo) * list RetryEvent :=
  tryOrNull (withRetry (sitemaps_get siteUrl feedpath) MAX_RETRIES w)
    (fun data =>
       {| path := stringOr (smd_path data) feedpath;
          lastSubmitted := truthyString (smd_lastSubmitted data);
          isPending := truthyBool (smd_isPending data);
          isSitemapsIndex := truthyBool (smd_isSitemapsIndex data);
          type := truthyString (smd_type data);
          lastDownloaded := truthyString (smd_lastDownloaded data);
          warnings := truthyString (smd_warnings data);
          errors := truthyString (smd_errors data) |}).

(** *** Search analytics *)

Record FilterGroup : Type := mkFilterGroup {
  groupType : option string;
  filters : list (string * string * string) }.

(** [SearchAnalyticsQuery] (types.ts) *)
Record SearchAnalyticsQuery : Type := mkQuery {
  q_siteUrl : string;
  q_startDate : string;
  q_endDate : string;
  q_dimensions : option (list string);
  q_dimensionFilterGroups : option (list FilterGroup);
  q_rowLimit : option Z;
  q_startRow : option Z;
  q_dataState : option string;
  q_aggregationType : option string }.

(** What [webmasters.searchanalytics.query] is called with. *)
Record Request : Type := mkRequest {
  rq_siteUrl : string;
  rq_startDate : string;
  rq_endDate : string;
  rq_dimensions : option (list string);
  rq_dimensionFilterGroups : option (list FilterGroup);
  rq_rowLimit : Z;
  rq_startRow : Z;
  rq_dataState : option string;
  rq_aggregationType : option string }.

(** A row as the service sends it, and as the client hands it on. *)
Record ApiRow : Type := mkApiRow {
  api_keys : option (list string);
  api_clicks : option Q;
  api_impressions : option Q;
  api_ctr : option Q;
  api_position : option Q }.

Record SearchAnalyticsRow : Type := mkRow {
  keys : option (list string);
  clicks : Q;
  impressions : Q;
  ctr : Q;
  position : Q }.

Record ApiResponse : Type := mkApiResponse {
  data_rows : option (list ApiRow);
  data_responseAggregationType : option string }.

Record SearchAnalyticsResponse : Type := mkResponse {
  rows : option (list SearchAnalyticsRow);
  responseAggregationType : option string }.

(** [x || 0] on an optional number. *)
Definition numberOrZero (x : option Q) : Q :=
  match x with Some v => v | None => 0%Q end.

Definition convertRow (row : ApiRow) : SearchAnalyticsRow :=
  {| keys := api_keys row;
     clicks := numberOrZero (api_clicks row);
     impressions := numberOrZero (api_impressions row);
     ctr := numberOrZero (api_ctr row);
     position := numberOrZero (api_position row) |}.

Definition convertResponse (data : ApiResponse) : SearchAnalyticsResponse :=
  {| rows := option_map (map convertRow) (data_rows data);
     responseAggregationType := truthyString (data_responseAggregationType data) |}.

(** One retry-wrapped call of the remote query: the request, what
    [withRetry] did for it, and what came back. *)
Record Call : Type := mkCall {
  call_request : Request;
  call_events : list RetryEvent;
  call_result : Outcome SearchAnalyticsResponse }.

Definition Result : Type := World * Outcome SearchAnalyticsResponse * list Call.

Variable searchanalytics_query : Request -> Operation ApiResponse.

Definition rowLimitOf (query : SearchAnalyticsQuery) : Z :=
  match q_rowLimit query with Some n => n | None => 1000 end.

Definition startRowOf (query : SearchAnalyticsQuery) : Z :=
  match q_startRow query with Some n => n | None => 0 end.

Definition requestOf (query : SearchAnalyticsQuery) : Request :=
  {| rq_siteUrl := q_siteUrl query;
     rq_startDate := q_startDate query;
     rq_endDate := q_endDate query;
     rq_dimensions := q_dimensions query;
     rq_dimensionFilterGroups := q_dimensionFilterGroups query;
     rq_rowLimit := rowLimitOf query;
     rq_startRow := startRowOf query;
     rq_dataState := q_dataState query;
     rq_aggregationType := q_aggregationType query |}.

Definition mapOutcome {A B} (f : A -> B) (o : Outcome A) : Outcome B :=
  match o with
  | Returned a => Returned (f a)
  | Thrown e => Thrown e
  | ThrownUndefined => ThrownUndefined
  end.

(** The body of [searchAnalytics] below the pagination test: one
    [withRetry] around one remote query. *)
Definition searchAnalyticsOnce (query : SearchAnalyticsQuery) (w : World) : Result :=
  let request := requestOf query in
  let '(w1, r, events) := withRetry (searchanalytics_query request) MAX_RETRIES w in
  let response := mapOutcome convertResponse r in
  (w1, response, [mkCall request events response]).

(** [{ ...query, rowLimit: rowsToFetch, startRow }] *)
Definition withPage (query : SearchAnalyticsQuery) (rowsToFetch startRow : Z)
    : SearchAnalyticsQuery :=
  {| q_siteUrl := q_siteUrl query;
     q_startDate := q_startDate query;
     q_endDate := q_endDate query;
     q_dimensions := q_dimensions query;
     q_dimensionFilterGroups := q_dimensionFilterGroups query;
     q_rowLimit := Some rowsToFetch;
     q_startRow := Some startRow;
     q_dataState := q_dataState query;
     q_aggregationType := q_aggregationType query |}.

(** [n || d] on an optional row count. *)
Definition countOr (x : option Z) (d : Z) : Z :=
  match x with
  | Some n => if n =? 0 then d else n
  | None => d
  end.

Definition rowCount (rs : list SearchAnalyticsRow) : Z := Z.of_nat (List.length rs).

(** The [while] loop of [searchAnalyticsPaginated].  [self] is
    [this.searchAnalytics]; [None] means that [fuel] ran out. *)
Fixpoint paginate (fuel : nat) (self : SearchAnalyticsQuery -> World -> option Result)
    (query : SearchAnalyticsQuery) (totalRowsRequested : Z)
    (allRows : list SearchAnalyticsRow) (startRow : Z)
    (aggregationType : option string) (w : World) (log : list Call)
    : option Result :=
  if rowCount allRows <? totalRowsRequested then
    match fuel with
    | O => None
    | S fuel' =>
        let rowsToFetch :=
          Z.min MAX_ROWS_PER_REQUEST (totalRowsRequested - rowCount allRows) in
        match self (withPage query rowsToFetch startRow) w with
        | None => None
        | Some (w1, Thrown e, calls) => Some (w1, Thrown e, log ++ calls)
        | Some (w1, ThrownUndefined, calls) => Some (w1, ThrownUndefined, log ++ calls)
        | Some (w1, Returned response, calls) =>
            match rows response with
            | None | Some [] =>
                Some (w1, Returned (mkResponse (Some allRows) aggregationType),
                      log ++ calls)
            | Some rs =>
                let allRows' := allRows ++ rs in
                let aggregationType' := responseAggregationType response in
                if rowCount rs <? rowsToFetch then
                  Some (w1, Returned (mkResponse (Some allRows') aggregationType'),
                        log ++ calls)
                else
                  paginate fuel' self query totalRowsRequested allRows'
                    (startRow + rowsToFetch) aggregationType' w1 (log ++ calls)
            end
        end
    end
  else Some (w, Returned (mkResponse (Some allRows) aggregationType), log).

(** [searchAnalyticsPaginated].  Every iteration that goes on has added at
    least one row, so [totalRowsRequested] iterations are enough. *)
Definition searchAnalyticsPaginated (self : SearchAnalyticsQuery -> World -> option Result)
    (query : SearchAnalyticsQuery) (w : World) : option Result :=
  let startRow := countOr (q_startRow query) 0 in
  let totalRowsRequested := countOr (q_rowLimit query) MAX_ROWS_PER_REQUEST in
  paginate (Z.to_nat totalRowsRequested) self query totalRowsRequested
    [] startRow None w [].

(** [searchAnalytics] and [searchAnalyticsPaginated] call each other;
    [depth] bounds the nesting of these calls. *)
Fixpoint searchAnalytics_rec (depth : nat) (query : SearchAnalyticsQuery) (w : World)
    : option Result :=
  if rowLimitOf query >? MAX_ROWS_PER_REQUEST then
    match depth with
    | O => None
    | S depth' => searchAnalyticsPaginated (searchAnalytics_rec depth') query w
    end
  else Some (searchAnalyticsOnce query w).

(** [searchAnalytics]: a page never asks for more than
    [MAX_ROWS_PER_REQUEST] rows, so one level of nesting is all there is. *)
Definition searchAnalytics (query : SearchAnalyticsQuery) (w : World) : option Result :=
  searchAnalytics_rec 1 query w.

End WithWorld.

Arguments withRetry {World T} operation retries w.
Arguments withRetry_loop {World T} fuel operation retries attempt lastError w.
Arguments getSite {World} sites_get siteUrl w.
Arguments getSitemap {World} sitemaps_get siteUrl feedpath w.
Arguments searchAnalyticsOnce {World} searchanalytics_query query w.
Arguments paginate {World} fuel self query totalRowsRequested allRows startRow
  aggregationType w log.
Arguments searchAnalyticsPaginated {World} self query w.
Arguments searchAnalytics_rec {World} searchanalytics_query depth query w.
Arguments searchAnalytics {World} searchanalytics_query query w.
Arguments Result World : clear implicits.

End Client.

(* ================================================================== *)
(** ** JavaScript numbers, arrays and dates *)
(* ================================================================== *)

Module JsNumber.

(** [Math.round(x)]: the nearest integer, a tie going up. *)
Definition Math_round (x : Q) : Z := Qfloor (x + (1 # 2))%Q.

(** [String(n)] for an integer [n]. *)
Definition stringOfZ (n : Z) : string := NilZero.string_of_int (Z.to_int n).

Fixpoint zeros (n : nat) : string :=
  match n with
  | O => EmptyString
  | S n' => String "0" (zeros n')
  end.

(** [s.padStart(width, '0')] *)
Definition padStart0 (width : nat) (s : string) : string :=
  (zeros (width - String.length s) ++ s)%string.

Fixpoint takeString (n : nat) (s : string) : string :=
  match n, s with
  | S n', String c s' => String c (takeString n' s')
  | _, _ => EmptyString
  end.

(** [x.toFixed(f)] for [|x| < 10^21] (from there on the source prints the
    number in exponential notation, which is not modelled): the sign, then
    the integer [n] nearest to [|x| * 10^f] (the larger one on a tie) with a
    point before its last [f] digits. *)
Definition toFixed (x : Q) (f : nat) : string :=
  let s := if Qle_bool 0%Q x then "" else "-" in
  let n := Qfloor (Qabs x * inject_Z (10 ^ Z.of_nat f) + (1 # 2))%Q in
  let m := padStart0 (f + 1) (stringOfZ n) in
  let k := String.length m in
  let a := takeString (k - f) m in
  let b := JsString.sliceFrom m (k - f) in
  match f with
  | O => (s ++ m)%string
  | _ => (s ++ a ++ "." ++ b)%string
  end.

End JsNumber.

Module JsArray.

Section Sort.

Variable A : Type.

(** A comparator [(a, b) => ...], by the sign of what it returns. *)
Variable cmp : A -> A -> comparison.

Fixpoint insertSorted (x : A) (l : list A) : list A :=
  match l with
  | [] => [x]
  | y :: l' =>
      match cmp x y with
      | Gt => y :: insertSorted x l'
      | _ => x :: l
      end
  end.

(** [l.sort(cmp)]: the sort of the language is stable, which fixes its
    result for a consistent comparator; this is the stable insertion sort. *)
Definition sort (l : list A) : list A := fold_right insertSorted [] l.

(** [l.slice(0, end)] *)
Definition slice0 (l : list A) (end_ : Z) : list A :=
  if end_ <? 0 then firstn (Z.to_nat (Z.of_nat (List.length l) + end_)) l
  else firstn (Z.to_nat end_) l.

End Sort.

Arguments insertSorted {A} cmp x l.
Arguments sort {A} cmp l.
Arguments slice0 {A} l end_.

(** [l.reduce((a, b) => a + b, 0)] *)
Definition sum (l : list Q) : Q := fold_left Qplus l 0%Q.

(** [a.localeCompare(b)] on the keys compared here (digits and hyphens of one
    shape): the order of the code units. *)
Definition localeCompare (a b : string) : comparison := String_as_OT.compare a b.

End JsArray.

Module JsDate.

Definition msPerDay : Z := 86400000.

(** A [Date] is its time value, milliseconds since 1970-01-01T00:00Z.  The
    local time zone is a fixed offset [tz] in minutes east of UTC. *)
Definition LocalTime (tz t : Z) : Z := t + tz * 60000.
Definition UTC (tz t : Z) : Z := t - tz * 60000.

Definition Day (t : Z) : Z := t / msPerDay.
Definition TimeWithinDay (t : Z) : Z := t mod msPerDay.

(** Sunday is 0. *)
Definition WeekDay (t : Z) : Z := (Day t + 4) mod 7.

(** Day number of a date of the proleptic Gregorian calendar
    (month 1..12), and back. *)
Definition daysFromCivil (y m d : Z) : Z :=
  let y' := if m <=? 2 then y - 1 else y in
  let era := y' / 400 in
  let yoe := y' - era * 400 in
  let mp := if m >? 2 then m - 3 else m + 9 in
  let doy := (153 * mp + 2) / 5 + d - 1 in
  let doe := yoe * 365 + yoe / 4 - yoe / 100 + doy in
  era * 146097 + doe - 719468.

Definition civilFromDays (days : Z) : Z * Z * Z :=
  let z := days + 719468 in
  let era := z / 146097 in
  let doe := z - era * 146097 in
  let yoe := (doe - doe / 1460 + doe / 36524 - doe / 146096) / 365 in
  let doy := doe - (365 * yoe + yoe / 4 - yoe / 100) in
  let mp := (5 * doy + 2) / 153 in
  let d := doy - (153 * mp + 2) / 5 + 1 in
  let m := if mp <? 10 then mp + 3 else mp - 9 in
  let y := yoe + era * 400 in
  ((if m <=? 2 then y + 1 else y), m, d).

Definition YearFromTime (t : Z) : Z := fst (fst (civilFromDays (Day t))).
(** January is 0. *)
Definition MonthFromTime (t : Z) : Z := snd (fst (civilFromDays (Day t))) - 1.
Definition DateFromTime (t : Z) : Z := snd (civilFromDays (Day t)).

Definition MakeDay (year month date : Z) : Z :=
  daysFromCivil (year + month / 12) (month mod 12 + 1) 1 + date - 1.
Definition MakeDate (day time : Z) : Z := day * msPerDay + time.

Definition getFullYear (tz t : Z) : Z := YearFromTime (LocalTime tz t).
Definition getMonth (tz t : Z) : Z := MonthFromTime (LocalTime tz t).
Definition getDate (tz t : Z) : Z := DateFromTime (LocalTime tz t).
Definition getDay (tz t : Z) : Z := WeekDay (LocalTime tz t).
Definition getTime (t : Z) : Z := t.

(** [d.setDate(date)]: the new time value. *)
Definition setDate (tz t date : Z) : Z :=
  let lt := LocalTime tz t in
  UTC tz (MakeDate (MakeDay (YearFromTime lt) (MonthFromTime lt) date)
            (TimeWithinDay lt)).

Definition isLeap (y : Z) : bool :=
  ((y mod 4 =? 0) && negb (y mod 100 =? 0)) || (y mod 400 =? 0).

Definition daysInMonth (y m : Z) : Z :=
  if m =? 2 then (if isLeap y then 29 else 28)
  else if (m =? 4) || (m =? 6) || (m =? 9) || (m =? 11) then 30
  else 31.

Definition digitValue (c : ascii) : option Z :=
  let n := Z.of_nat (nat_of_ascii c) in
  if (48 <=? n) && (n <=? 57) then Some (n - 48) else None.

Fixpoint digitsValue (acc : Z) (l : list ascii) : option Z :=
  match l with
  | [] => Some acc
  | c :: l' =>
      match digitValue c with
      | Some v => digitsValue (10 * acc + v) l'
      | None => None
      end
  end.

(** [new Date(s)] for a date-only string [YYYY-MM-DD] of a calendar day:
    midnight UTC of that day.  [None] for any other text, which this model
    does not interpret. *)
Definition parse (s : string) : option Z :=
  match list_ascii_of_string s with
  | [y1; y2; y3; y4; h1; m1; m2; h2; d1; d2] =>
      if Ascii.eqb h1 "-" && Ascii.eqb h2 "-" then
        match digitsValue 0 [y1; y2; y3; y4], digitsValue 0 [m1; m2],
              digitsValue 0 [d1; d2] with
        | Some y, Some m, Some d =>
            if (1 <=? m) && (m <=? 12) && (1 <=? d) && (d <=? daysInMonth y m)
            then Some (MakeDate (daysFromCivil y m d) 0)
            else None
        | _, _, _ => None
        end
      else None
  | _ => None
  end.

Definition pad (width : nat) (n : Z) : string :=
  JsNumber.padStart0 width (JsNumber.stringOfZ n).

(** [d.toISOString().split('T')[0]]: the UTC calendar day. *)
Definition toISODate (t : Z) : string :=
  let '(y, m, d) := civilFromDays (Day t) in
  let year :=
    if (0 <=? y) && (y <=? 9999) then pad 4 y
    else if y <? 0 then ("-" ++ pad 6 (- y))%string
    else ("+" ++ pad 6 y)%string in
  (year ++ "-" ++ pad 2 m ++ "-" ++ pad 2 d)%string.

End JsDate.

(* ================================================================== *)
(** ** [src/server/tools/formatters.ts] *)
(* ================================================================== *)

Module Formatters.

Import JsString.

(** [formatPosition] *)
Definition formatPosition (position : Q) : Q :=
  (inject_Z (JsNumber.Math_round (position * 10)) / 10)%Q.

(** [formatCtr(ctr, true)] *)
Definition formatCtrCompact (ctr : Q) : string :=
  (JsNumber.toFixed (ctr * 100) 2 ++ "%")%string.

(** [formatCtr(ctr, false)] *)
Definition formatCtrFull (ctr : Q) : Q :=
  (inject_Z (JsNumber.Math_round (ctr * 10000)) / 10000)%Q.

Definition formatCtr (ctr : Q) (compact : bool) : Q + string :=
  if compact then inr (formatCtrCompact ctr) else inl (formatCtrFull ctr).

(** [url.slice(p.length) || '/'] *)
Definition stripped (url p : string) : string :=
  orElse (sliceFrom url (String.length p)) "/".

(** The four prefixes tried for a domain property. *)
Definition domainPrefixes (domain : string) : list string :=
  [ ("https://" ++ domain)%string;
    ("https://www." ++ domain)%string;
    ("http://" ++ domain)%string;
    ("http://www." ++ domain)%string ].

(** [for (const p of prefixes) if (url.startsWith(p)) return ...; return url] *)
Fixpoint stripFirst (url : string) (prefixes : list string) : string :=
  match prefixes with
  | [] => url
  | p :: rest => if startsWith url p then stripped url p else stripFirst url rest
  end.

(** [stripUrlPrefix] *)
Definition stripUrlPrefix (url : string) (siteUrl : option string) : string :=
  match siteUrl with
  | None => url
  | Some siteUrl =>
      if isEmpty siteUrl || isEmpty url then url
      else
        let prefix := siteUrl in
        if startsWith prefix "sc-domain:" then
          (* [replace] rewrites the first occurrence, which is this prefix *)
          let domain := sliceFrom prefix (String.length "sc-domain:") in
          stripFirst url (domainPrefixes domain)
        else
          let prefix := dropTrailingSlash prefix in
          if startsWith url prefix then stripped url prefix else url
  end.

(** [DEFAULT_ROW_LIMIT] *)
Definition DEFAULT_ROW_LIMIT : Z := 25.

End Formatters.


(** Comparisons of numbers. *)
Module JsCompare.

Definition ltb (a b : Q) : bool := negb (Qle_bool b a).
Definition leb (a b : Q) : bool := Qle_bool a b.
(** Truthiness of a number: it is not zero. *)
Definition truthy (a : Q) : bool := negb (Qeq_bool a 0).

End JsCompare.

(** An insertion-ordered [Map] with string keys. *)
Module JsMap.

Section Map.

Variable V : Type.

Definition t : Type := list (string * V).

Fixpoint has (m : t) (key : string) : bool :=
  match m with
  | [] => false
  | (k, _) :: m' => String.eqb k key || has m' key
  end.

Fixpoint get (m : t) (key : string) : option V :=
  match m with
  | [] => None
  | (k, v) :: m' => if String.eqb k key then Some v else get m' key
  end.

(** [m.set(key, v)]: a new key goes last, a known key keeps its place. *)
Fixpoint set (m : t) (key : string) (v : V) : t :=
  match m with
  | [] => [(key, v)]
  | (k, v') :: m' =>
      if String.eqb k key then (k, v) :: m' else (k, v') :: set m' key v
  end.

End Map.

Arguments has {V} m key.
Arguments get {V} m key.
Arguments set {V} m key v.

End JsMap.

(* ================================================================== *)
(** ** [src/server/tools/searchAnalytics.ts] *)
(* ================================================================== *)

Module SearchAnalyticsTools.

Import Client.

(** [row.keys?.[i]] *)
Definition keyAt (row : SearchAnalyticsRow) (i : nat) : option string :=
  match keys row with
  | Some ks => nth_error ks i
  | None => None
  end.

(** *** [report.comparePeriods] *)

Record Totals : Type := mkTotals {
  t_clicks : Q;
  t_impressions : Q;
  t_ctr : Q;
  t_position : Q;
  t_count : Z }.

Definition totalsStep (acc : Totals) (row : SearchAnalyticsRow) : Totals :=
  {| t_clicks := t_clicks acc + clicks row;
     t_impressions := t_impressions acc + impressions row;
     t_ctr := 0;
     t_position := t_position acc + position row;
     t_count := t_count acc + 1 |}.

(** [result.rows?.reduce(...)] *)
Definition totalsOf (rows : option (list SearchAnalyticsRow)) : option Totals :=
  option_map (fun rs => fold_left totalsStep rs (mkTotals 0 0 0 0 0)) rows.

Record Changes : Type := mkChanges {
  ch_clicks : Q;
  ch_clicksPercent : string;
  ch_impressions : Q;
  ch_impressionsPercent : string;
  ch_avgPosition : Q + string }.

(** [base ? ((now - base) / base * 100).toFixed(1) + '%' : 'N/A'] *)
Definition percentChange (now base : Q) : string :=
  if JsCompare.truthy base
  then (JsNumber.toFixed ((now - base) / base * 100) 1 ++ "%")%string
  else "N/A".

Definition changesOf (totals1 totals2 : option Totals) : option Changes :=
  match totals1, totals2 with
  | Some totals1, Some totals2 =>
      Some
        {| ch_clicks := t_clicks totals1 - t_clicks totals2;
           ch_clicksPercent := percentChange (t_clicks totals1) (t_clicks totals2);
           ch_impressions := t_impressions totals1 - t_impressions totals2;
           ch_impressionsPercent :=
             percentChange (t_impressions totals1) (t_impressions totals2);
           ch_avgPosition :=
             if negb (t_count totals1 =? 0) && negb (t_count totals2 =? 0)
             then inl (Formatters.formatPosition
                         (t_position totals1 / inject_Z (t_count totals1)
                          - t_position totals2 / inject_Z (t_count totals2)))
             else inr "N/A" |}
  | _, _ => None
  end.

(** The [changes] block of [report.comparePeriods] for the rows of the two
    periods. *)
Definition comparePeriods_changes (rows1 rows2 : option (list SearchAnalyticsRow))
    : option Changes :=
  changesOf (totalsOf rows1) (totalsOf rows2).

(** *** [rollupByGranularity] *)

Inductive Granularity : Type := Weekly | Monthly | Auto.

Record Bucket : Type := mkBucket {
  b_clicks : Q;
  b_impressions : Q;
  b_positions : list Q;
  b_dates : list string }.

Definition emptyBucket : Bucket := mkBucket 0 0 [] [].

(** The bucket key of a parsed date under a granularity that is not
    [Auto] any more. *)
Definition bucketKeyOf (tz : Z) (actualGranularity : Granularity) (date : Z) : string :=
  match actualGranularity with
  | Monthly =>
      (JsNumber.stringOfZ (JsDate.getFullYear tz date) ++ "-"
       ++ JsNumber.padStart0 2 (JsNumber.stringOfZ (JsDate.getMonth tz date + 1)))%string
  | _ =>
      let monday :=
        JsDate.setDate tz date (JsDate.getDate tz date - JsDate.getDay tz date + 1) in
      JsDate.toISODate monday
  end.

(** One turn of the grouping loop for a row with a date. *)
Definition addRow (buckets : JsMap.t Bucket) (bucketKey dateStr : string)
    (row : SearchAnalyticsRow) : JsMap.t Bucket :=
  let buckets :=
    if negb (JsMap.has buckets bucketKey)
    then JsMap.set buckets bucketKey emptyBucket
    else buckets in
  match JsMap.get buckets bucketKey with
  | Some bucket =>
      JsMap.set buckets bucketKey
        {| b_clicks := b_clicks bucket + clicks row;
           b_impressions := b_impressions bucket + impressions row;
           b_positions := b_positions bucket ++ [position row];
           b_dates := b_dates bucket ++ [dateStr] |}
  | None => buckets
  end.

(** The grouping loop; [None] when a date key is not a calendar day that
    [JsDate.parse] reads. *)
Fixpoint groupRows (tz : Z) (actualGranularity : Granularity)
    (rows : list SearchAnalyticsRow) (buckets : JsMap.t Bucket)
    : option (JsMap.t Bucket) :=
  match rows with
  | [] => Some buckets
  | row :: rest =>
      match keyAt row 0 with
      | None => groupRows tz actualGranularity rest buckets
      | Some dateStr =>
          if JsString.isEmpty dateStr then groupRows tz actualGranularity rest buckets
          else
            match JsDate.parse dateStr with
            | None => None
            | Some date =>
                groupRows tz actualGranularity rest
                  (addRow buckets (bucketKeyOf tz actualGranularity date) dateStr row)
            end
      end
  end.

Definition bucketRow (entry : string * Bucket) : SearchAnalyticsRow :=
  let '(bucketKey, bucket) := entry in
  let avgPosition :=
    if (0 <? List.length (b_positions bucket))%nat
    then (JsArray.sum (b_positions bucket)
          / inject_Z (Z.of_nat (List.length (b_positions bucket))))%Q
    else 0%Q in
  {| keys := Some [bucketKey];
     clicks := b_clicks bucket;
     impressions := b_impressions bucket;
     ctr := if JsCompare.ltb 0 (b_impressions bucket)
            then b_clicks bucket / b_impressions bucket else 0;
     position := avgPosition |}.

(** [a.keys?.[0] || ''] *)
Definition sortKey (row : SearchAnalyticsRow) : string :=
  match keyAt row 0 with Some k => k | None => "" end.

Definition byKey (a b : SearchAnalyticsRow) : comparison :=
  JsArray.localeCompare (sortKey a) (sortKey b).

(** [Math.ceil((end - start) / msPerDay)] *)
Definition daySpan (start end_ : Z) : Z := - ((start - end_) / JsDate.msPerDay).

(** What ['auto'] resolves to; [None] keeps the daily rows. *)
Definition resolveAuto (start end_ : Z) : option Granularity :=
  let days := daySpan start end_ in
  if days >? 90 then Some Monthly
  else if days >? 21 then Some Weekly
  else None.

Definition rollupWith (tz : Z) (actualGranularity : Granularity)
    (rows : list SearchAnalyticsRow) : option (list SearchAnalyticsRow) :=
  match groupRows tz actualGranularity rows [] with
  | Some buckets => Some (JsArray.sort byKey (map bucketRow buckets))
  | None => None
  end.

(** [rollupByGranularity], in a process whose local time is [tz] minutes
    east of UTC. *)
Definition rollupByGranularity (tz : Z) (rows : list SearchAnalyticsRow)
    (granularity : Granularity) (startDate endDate : string)
    : option (list SearchAnalyticsRow) :=
  match granularity with
  | Auto =>
      match JsDate.parse startDate, JsDate.parse endDate with
      | Some start, Some end_ =>
          match resolveAuto start end_ with
          | Some actualGranularity => rollupWith tz actualGranularity rows
          | None => Some rows
          end
      | _, _ => None
      end
  | _ => rollupWith tz granularity rows
  end.

End SearchAnalyticsTools.

(* ================================================================== *)
(** ** The opportunity tools ([handleOpportunityTool]) *)
(* ================================================================== *)

Module Opportunities.

Import Client.
Import SearchAnalyticsTools.

(** [x || ''] on an optional string. *)
Definition orEmpty (x : option string) : string :=
  match x with Some s => s | None => "" end.

(** *** [opportunities.lowCtrHighPos] *)

(** The arguments of the tool as the caller gave them. *)
Record LowCtrArgs : Type := mkLowCtrArgs {
  a_siteUrl : option string;
  a_compact : bool;
  a_minImpressions : option Q;
  a_maxCtr : option Q;
  a_minPosition : option Q;
  a_maxPosition : option Q;
  a_limit : option Z }.

Definition orDefault {A} (x : option A) (d : A) : A :=
  match x with Some v => v | None => d end.

Definition minImpressions (args : LowCtrArgs) : Q := orDefault (a_minImpressions args) 100%Q.
Definition maxCtr (args : LowCtrArgs) : Q := orDefault (a_maxCtr args) (3 # 100).
Definition minPosition (args : LowCtrArgs) : Q := orDefault (a_minPosition args) 4%Q.
Definition maxPosition (args : LowCtrArgs) : Q := orDefault (a_maxPosition args) 20%Q.
Definition limit (args : LowCtrArgs) : Z := orDefault (a_limit args) Formatters.DEFAULT_ROW_LIMIT.

(** The filter of both versions of the tool. *)
Definition isOpportunity (args : LowCtrArgs) (row : SearchAnalyticsRow) : bool :=
  JsCompare.leb (minImpressions args) (impressions row)
  && JsCompare.ltb (ctr row) (maxCtr args)
  && JsCompare.leb (minPosition args) (position row)
  && JsCompare.leb (position row) (maxPosition args).

(** [Math.round(row.impressions * 0.05 - row.clicks)] *)
Definition potentialClicksOf (row : SearchAnalyticsRow) : Z :=
  JsNumber.Math_round (impressions row * (5 # 100) - clicks row)%Q.

(** An entry of [opportunities]: the compact object, or the full one. *)
Inductive Opportunity : Type :=
| CompactOpportunity (q page : string) (clicks imp : Q) (ctr : string) (pos : Q)
    (potential : Z)
| FullOpportunity (query page : string) (clicks impressions ctr position : Q)
    (potentialClicks : Z).

Definition toOpportunity (args : LowCtrArgs) (row : SearchAnalyticsRow) : Opportunity :=
  let potentialClicks := potentialClicksOf row in
  if a_compact args then
    CompactOpportunity (orEmpty (keyAt row 0))
      (Formatters.stripUrlPrefix (orEmpty (keyAt row 1)) (a_siteUrl args))
      (clicks row) (impressions row) (Formatters.formatCtrCompact (ctr row))
      (Formatters.formatPosition (position row)) potentialClicks
  else
    FullOpportunity (orEmpty (keyAt row 0))
      (Formatters.stripUrlPrefix (orEmpty (keyAt row 1)) (a_siteUrl args))
      (clicks row) (impressions row) (Formatters.formatCtrFull (ctr row))
      (Formatters.formatPosition (position row)) potentialClicks.

(** [o.potential ?? o.potentialClicks] *)
Definition potentialOf (o : Opportunity) : Z :=
  match o with
  | CompactOpportunity _ _ _ _ _ _ potential => potential
  | FullOpportunity _ _ _ _ _ _ potentialClicks => potentialClicks
  end.

(** [(a, b) => potential(b) - potential(a)] *)
Definition byPotentialDesc (a b : Opportunity) : comparison :=
  Z.compare (potentialOf b) (potentialOf a).

Definition lowCtrOpportunities (args : LowCtrArgs) (rows : option (list SearchAnalyticsRow))
    : list Opportunity :=
  JsArray.slice0
    (JsArray.sort byPotentialDesc
       (map (toOpportunity args) (filter (isOpportunity args) (orDefault rows []))))
    (limit args).

(** [opportunities.reduce((sum, o) => sum + potential(o), 0)] *)
Definition totalPotential (opportunities : list Opportunity) : Z :=
  fold_left (fun sum o => sum + potentialOf o) opportunities 0.

(** The tool on the rows that the query returned: the opportunities and
    the total of the summary. *)
Definition lowCtrHighPos (args : LowCtrArgs) (rows : option (list SearchAnalyticsRow))
    : list Opportunity * Z :=
  let opportunities := lowCtrOpportunities args rows in
  (opportunities, totalPotential opportunities).

(** The earlier version of the tool: unformatted entries ([LowCtrOpportunity]
    of types.ts) and a default [limit] of 50. *)
Record LowCtrOpportunity : Type := mkLowCtrOpportunity {
  o_query : string;
  o_page : option string;
  o_clicks : Q;
  o_impressions : Q;
  o_ctr : Q;
  o_position : Q;
  o_potentialClicks : Z }.

Definition toLowCtrOpportunity (row : SearchAnalyticsRow) : LowCtrOpportunity :=
  {| o_query := orEmpty (keyAt row 0);
     o_page := keyAt row 1;
     o_clicks := clicks row;
     o_impressions := impressions row;
     o_ctr := ctr row;
     o_position := position row;
     o_potentialClicks := potentialClicksOf row |}.

Definition byPotentialClicksDesc (a b : LowCtrOpportunity) : comparison :=
  Z.compare (o_potentialClicks b) (o_potentialClicks a).

Definition lowCtrHighPos_v1 (args : LowCtrArgs) (rows : option (list SearchAnalyticsRow))
    : list LowCtrOpportunity * Z :=
  let opportunities :=
    JsArray.slice0
      (JsArray.sort byPotentialClicksDesc
         (map toLowCtrOpportunity (filter (isOpportunity args) (orDefault rows []))))
      (orDefault (a_limit args) 50) in
  (opportunities, fold_left (fun sum o => sum + o_potentialClicks o) opportunities 0).

(** *** [opportunities.cannibalization] *)

Record CannibalizationArgs : Type := mkCannibalizationArgs {
  c_siteUrl : option string;
  c_compact : bool;
  c_minImpressions : option Q;
  c_limit : option Z }.

Record PageEntry : Type := mkPageEntry {
  pe_page : string;
  pe_clicks : Q;
  pe_impressions : Q;
  pe_ctr : Q;
  pe_position : Q }.

(** One turn of the loop that fills [queryMap]. *)
Definition addPage (queryMap : JsMap.t (list PageEntry)) (row : SearchAnalyticsRow)
    : JsMap.t (list PageEntry) :=
  let query := orEmpty (keyAt row 0) in
  let page := orEmpty (keyAt row 1) in
  let queryMap :=
    if negb (JsMap.has queryMap query) then JsMap.set queryMap query [] else queryMap in
  match JsMap.get queryMap query with
  | Some pages =>
      JsMap.set queryMap query
        (pages ++ [mkPageEntry page (clicks row) (impressions row) (ctr row) (position row)])
  | None => queryMap
  end.

Definition groupByQuery (rows : list SearchAnalyticsRow) : JsMap.t (list PageEntry) :=
  fold_left addPage rows [].

(** [pages.reduce((sum, p) => sum + p.impressions, 0)] *)
Definition totalImpressionsOf (pages : list PageEntry) : Q :=
  fold_left (fun sum p => (sum + pe_impressions p)%Q) pages 0%Q.

Definition byPosition (a b : PageEntry) : comparison :=
  Qcompare (pe_position a) (pe_position b).

Definition consolidate (page : string) : string :=
  ("Consider consolidating content into " ++ page ++ " and redirecting other pages.")%string.

Definition menu : string :=
  "Multiple pages competing. Consider: 1) Consolidate into one authoritative page, 2) Differentiate content focus, or 3) Use canonical tags.".

(** A page of an issue after formatting; the fields left [undefined] are
    dropped from the object. *)
Record FormattedPage : Type := mkFormattedPage {
  fp_page : string;
  fp_clicks : Q;
  fp_impressions : option Q;
  fp_imp : option Q;
  fp_ctr : Q + string;
  fp_position : Q }.

Definition formatPage (args : CannibalizationArgs) (p : PageEntry) : FormattedPage :=
  {| fp_page := Formatters.stripUrlPrefix (pe_page p) (c_siteUrl args);
     fp_clicks := pe_clicks p;
     fp_impressions := if c_compact args then None else Some (pe_impressions p);
     fp_imp := if c_compact args then Some (pe_impressions p) else None;
     fp_ctr := Formatters.formatCtr (pe_ctr p) (c_compact args);
     fp_position := Formatters.formatPosition (pe_position p) |}.

Record Issue : Type := mkIssue {
  i_query : string;
  i_pages : list FormattedPage;
  i_totalImpressions : Q;
  i_recommendation : string }.

(** The recommendation for the pages of a group, best first. *)
Definition recommendationFor (siteUrl : option string) (sorted : list PageEntry) : string :=
  match sorted with
  | bestPage :: _ =>
      if JsCompare.ltb (pe_position bestPage) 5
      then consolidate (Formatters.stripUrlPrefix (pe_page bestPage) siteUrl)
      else menu
  | [] => menu
  end.

(** The loop over [queryMap] that collects the issues. *)
Fixpoint collectIssues (args : CannibalizationArgs) (groups : JsMap.t (list PageEntry))
    : list Issue :=
  match groups with
  | [] => []
  | (query, pages) :: rest =>
      if (List.length pages <? 2)%nat then collectIssues args rest
      else
        let totalImpressions := totalImpressionsOf pages in
        if JsCompare.ltb totalImpressions (orDefault (c_minImpressions args) 50%Q)
        then collectIssues args rest
        else
          let sorted := JsArray.sort byPosition pages in
          mkIssue query (map (formatPage args) sorted) totalImpressions
            (recommendationFor (c_siteUrl args) sorted)
          :: collectIssues args rest
  end.

Definition byTotalImpressionsDesc (a b : Issue) : comparison :=
  Qcompare (i_totalImpressions b) (i_totalImpressions a).

(** All the issues, before sorting and truncation. *)
Definition issuesOf (args : CannibalizationArgs) (rows : option (list SearchAnalyticsRow))
    : list Issue :=
  collectIssues args (groupByQuery (orDefault rows [])).

(** [topIssues] *)
Definition cannibalization (args : CannibalizationArgs)
    (rows : option (list SearchAnalyticsRow)) : list Issue :=
  JsArray.slice0 (JsArray.sort byTotalImpressionsDesc (issuesOf args rows))
    (orDefault (c_limit args) Formatters.DEFAULT_ROW_LIMIT).

(** The earlier version of the tool: pages as grouped ([CannibalizationIssue]
    of types.ts), no prefix stripping, a default [limit] of 30. *)
Record CannibalizationIssue : Type := mkCannibalizationIssue {
  ci_query : string;
  ci_pages : list PageEntry;
  ci_totalImpressions : Q;
  ci_recommendation : string }.

Fixpoint collectIssues_v1 (minImpressions : Q) (groups : JsMap.t (list PageEntry))
    : list CannibalizationIssue :=
  match groups with
  | [] => []
  | (query, pages) :: rest =>
      if (List.length pages <? 2)%nat then collectIssues_v1 minImpressions rest
      else
        let totalImpressions := totalImpressionsOf pages in
        if JsCompare.ltb totalImpressions minImpressions
        then collectIssues_v1 minImpressions rest
        else
          let sorted := JsArray.sort byPosition pages in
          mkCannibalizationIssue query sorted totalImpressions
            (recommendationFor None sorted)
          :: collectIssues_v1 minImpressions rest
  end.

Definition byTotalDesc_v1 (a b : CannibalizationIssue) : comparison :=
  Qcompare (ci_totalImpressions b) (ci_totalImpressions a).

Definition cannibalization_v1 (args : CannibalizationArgs)
    (rows : option (list SearchAnalyticsRow)) : list CannibalizationIssue :=
  JsArray.slice0
    (JsArray.sort byTotalDesc_v1
       (collectIssues_v1 (orDefault (c_minImpressions args) 50%Q)
          (groupByQuery (orDefault rows []))))
    (orDefault (c_limit args) 30).

End Opportunities.


From Stdlib Require Import Lqa.

(* ================================================================== *)
(** ** [src/gsc/client.ts]: the list and write operations *)
(* ================================================================== *)

Module ClientMore.

Import JsString Client.

(** [x || []] on an optional array: an array is truthy, empty or not. *)
Definition listOr {A : Type} (x : option (list A)) : list A :=
  match x with Some l => l | None => [] end.

(** What [sites.list] and [sitemaps.list] answer. *)
Record SitesListData : Type := mkSitesListData {
  siteEntry : option (list SiteData) }.

Record SitemapsListData : Type := mkSitemapsListData {
  sitemap : option (list SitemapData) }.

Definition toSiteInfo (site : SiteData) : SiteInfo :=
  {| siteUrl := stringOr (sd_siteUrl site) "";
     permissionLevel := stringOr (sd_permissionLevel site) "unknown" |}.

Definition toSitemapInfo (sitemap : SitemapData) : SitemapInfo :=
  {| path := stringOr (smd_path sitemap) "";
     lastSubmitted := truthyString (smd_lastSubmitted sitemap);
     isPending := truthyBool (smd_isPending sitemap);
     isSitemapsIndex := truthyBool (smd_isSitemapsIndex sitemap);
     type := truthyString (smd_type sitemap);
     lastDownloaded := truthyString (smd_lastDownloaded sitemap);
     warnings := truthyString (smd_warnings sitemap);
     errors := truthyString (smd_errors sitemap) |}.

Section WithWorld.

Variable World : Type.

Variable sites_list : Operation World SitesListData.
Variable sitemaps_list : string -> Operation World SitemapsListData.
Variable sitemaps_submit : string -> string -> Operation World unit.
Variable sitemaps_delete : string -> string -> Operation World unit.

(** [f(await this.withRetry(...))] with no [try] around it. *)
Definition awaitThen {A B : Type} (r : World * Outcome A * list RetryEvent)
    (f : A -> B) : World * Outcome B * list RetryEvent :=
  let '(w, o, events) := r in (w, mapOutcome f o, events).

(** [listSites] *)
Definition listSites (w : World) : World * Outcome (list SiteInfo) * list RetryEvent :=
  awaitThen (withRetry sites_list MAX_RETRIES w)
    (fun data => map toSiteInfo (listOr (siteEntry data))).

(** [listSitemaps] *)
Definition listSitemaps (siteUrl : string) (w : World)
    : World * Outcome (list SitemapInfo) * list RetryEvent :=
  awaitThen (withRetry (sitemaps_list siteUrl) MAX_RETRIES w)
    (fun data => map toSitemapInfo (listOr (sitemap data))).

(** [submitSitemap] *)
Definition submitSitemap (siteUrl feedpath : string) (w : World)
    : World * Outcome unit * list RetryEvent :=
  awaitThen (withRetry (sitemaps_submit siteUrl feedpath) MAX_RETRIES w)
    (fun _ => tt).

(** [deleteSitemap] *)
Definition deleteSitemap (siteUrl feedpath : string) (w : World)
    : World * Outcome unit * list RetryEvent :=
  awaitThen (withRetry (sitemaps_delete siteUrl feedpath) MAX_RETRIES w)
    (fun _ => tt).

End WithWorld.

Arguments awaitThen {World A B} r f.
Arguments listSites {World} sites_list w.
Arguments listSitemaps {World} sitemaps_list siteUrl w.
Arguments submitSitemap {World} sitemaps_submit siteUrl feedpath w.
Arguments deleteSitemap {World} sitemaps_delete siteUrl feedpath w.

End ClientMore.

(* ================================================================== *)
(** ** [src/server/tools/formatters.ts]: rows *)
(* ================================================================== *)

Module FormattersMore.

Import JsString Client Formatters.

Inductive Format : Type := FullFormat | CompactFormat.

(** [FormatOptions] *)
Record FormatOptions : Type := mkFormatOptions {
  format : option Format;
  fo_siteUrl : option string }.

(** [const { format = 'full' } = options; format === 'compact'] *)
Definition isCompact (options : FormatOptions) : bool :=
  match format options with
  | Some CompactFormat => true
  | _ => false
  end.

(** [key.startsWith('http://') || key.startsWith('https://')] *)
Definition looksLikeUrl (key : string) : bool :=
  startsWith key "http://" || startsWith key "https://".

Definition processKey (siteUrl key : string) : string :=
  if looksLikeUrl key then stripUrlPrefix key (Some siteUrl) else key.

(** [if (keys && siteUrl) keys = keys.map(...)] *)
Definition processKeys (keys : option (list string)) (siteUrl : option string)
    : option (list string) :=
  match keys, truthyString siteUrl with
  | Some ks, Some site => Some (map (processKey site) ks)
  | _, _ => keys
  end.

(** The object that [formatRow] builds: with the short names [key] /
    [keys], [clicks], [imp], [ctr], [pos] in the compact format, with
    [keys], [clicks], [impressions], [ctr], [position] in the full one. *)
Inductive FormattedRow : Type :=
| CompactRow (key : option string) (keys : option (list string))
    (clicks imp : Q) (ctr : Q + string) (pos : Q)
| FullRow (keys : option (list string))
    (clicks impressions : Q) (ctr : Q + string) (position : Q).

(** [formatRow] *)
Definition formatRow (row : SearchAnalyticsRow) (options : FormatOptions)
    : FormattedRow :=
  let keys := processKeys (keys row) (fo_siteUrl options) in
  if isCompact options then
    let '(key1, keys') :=
      match keys with
      | Some [k] => (Some k, None)
      | Some (_ :: _ :: _) => (None, keys)
      | _ => (None, None)
      end in
    CompactRow key1 keys' (clicks row) (impressions row)
      (formatCtr (ctr row) true) (formatPosition (position row))
  else
    FullRow keys (clicks row) (impressions row)
      (formatCtr (ctr row) false) (formatPosition (position row)).

(** [formatRows] *)
Definition formatRows (rows : option (list SearchAnalyticsRow))
    (options : FormatOptions) : list FormattedRow :=
  match rows with
  | None => []
  | Some rs => map (fun row => formatRow row options) rs
  end.

End FormattersMore.

(* ================================================================== *)
(** ** [src/server/tools/searchAnalytics.ts]: what the handler reports *)
(* ================================================================== *)

Module SearchAnalyticsReport.

Import JsString Client ClientMore Formatters FormattersMore SearchAnalyticsTools.

(** The arguments of [searchanalytics.query] that the handler itself
    reads.  [qa_granularity] is [None] for ['daily'], which is also what
    a missing [granularity] stands for. *)
Record QueryArgs : Type := mkQueryArgs {
  qa_siteUrl : string;
  qa_startDate : string;
  qa_endDate : string;
  qa_dimensions : option (list string);
  qa_granularity : option Granularity;
  qa_format : option Format }.

(** [dimensions?.includes('date')] *)
Definition includesDate (dimensions : option (list string)) : bool :=
  match dimensions with
  | Some ds => existsb (String.eqb "date") ds
  | None => false
  end.

(** The response after
    [if (dimensions?.includes('date') && granularity !== 'daily' && response.rows)];
    [None] where [rollupByGranularity] is given a date that the model does
    not read. *)
Definition rolledUp (tz : Z) (args : QueryArgs) (response : SearchAnalyticsResponse)
    : option SearchAnalyticsResponse :=
  match qa_granularity args, rows response with
  | Some granularity, Some rs =>
      if includesDate (qa_dimensions args) then
        match rollupByGranularity tz rs granularity (qa_startDate args)
                (qa_endDate args) with
        | Some out => Some (mkResponse (Some out) (responseAggregationType response))
        | None => None
        end
      else Some response
  | _, _ => Some response
  end.

(** [response.rows?.reduce(..., { clicks: 0, impressions: 0 })] *)
Definition queryTotalsStep (acc : Q * Q) (row : SearchAnalyticsRow) : Q * Q :=
  ((fst acc + clicks row)%Q, (snd acc + impressions row)%Q).

Definition queryTotals (rows : option (list SearchAnalyticsRow)) : option (Q * Q) :=
  option_map (fun rs => fold_left queryTotalsStep rs (0%Q, 0%Q)) rows.

(** What both formats of the answer carry: [summary.rowCount] and
    [summary.aggregationType] (full format only), the totals and the rows. *)
Record QueryReport : Type := mkQueryReport {
  qr_rowCount : Z;
  qr_aggregationType : option string;
  qr_totals : option (Q * Q);
  qr_rows : list FormattedRow }.

Definition queryReport (tz : Z) (args : QueryArgs) (response : SearchAnalyticsResponse)
    : option QueryReport :=
  match rolledUp tz args response with
  | Some response =>
      Some
        {| qr_rowCount :=
             match rows response with Some rs => rowCount rs | None => 0 end;
           qr_aggregationType := responseAggregationType response;
           qr_totals := queryTotals (rows response);
           qr_rows :=
             formatRows (rows response)
               {| format :=
                    Some (match qa_format args with Some f => f | None => FullFormat end);
                  fo_siteUrl := Some (qa_siteUrl args) |} |}
  | None => None
  end.

(** The [totals] block of one period of [report.comparePeriods]. *)
Record PeriodTotals : Type := mkPeriodTotals {
  pt_clicks : Q;
  pt_impressions : Q;
  pt_avgPosition : Q }.

Definition periodTotals (totals : option Totals) : option PeriodTotals :=
  option_map
    (fun t =>
       {| pt_clicks := t_clicks t;
          pt_impressions := t_impressions t;
          pt_avgPosition :=
            if negb (t_count t =? 0)
            then formatPosition (t_position t / inject_Z (t_count t))
            else 0%Q |})
    totals.

End SearchAnalyticsReport.

(* ================================================================== *)
(** ** [src/server/tools/opportunities.ts]: [report.weeklySummary] and
       the summaries of the opportunity tools *)
(* ================================================================== *)

Module WeeklySummary.

Import JsString Client Formatters FormattersMore SearchAnalyticsTools Opportunities.

(** [24 * 60 * 60 * 1000] *)
Definition dayMs : Z := 24 * 60 * 60 * 1000.

(** The four dates of the two weeks, as time values. *)
Record Windows : Type := mkWindows {
  w_end : Z;
  w_weekStart : Z;
  w_prevWeekEnd : Z;
  w_prevWeekStart : Z }.

Definition windowsOf (end_ : Z) : Windows :=
  let weekStart := JsDate.getTime end_ - 6 * dayMs in
  let prevWeekEnd := JsDate.getTime weekStart - dayMs in
  let prevWeekStart := JsDate.getTime prevWeekEnd - 6 * dayMs in
  mkWindows end_ weekStart prevWeekEnd prevWeekStart.

(** [endDate ? new Date(endDate) : new Date(Date.now() - 24 * 60 * 60 * 1000)];
    [None] for a text that [JsDate.parse] does not read. *)
Definition endOf (endDate : option string) (now : Z) : option Z :=
  match truthyString endDate with
  | Some s => JsDate.parse s
  | None => Some (now - dayMs)
  end.

(** [d.toISOString().split('T')[0]] *)
Definition formatDateStr (d : Z) : string := JsDate.toISODate d.

(** The [startDate] and [endDate] of the queries for the current and for
    the previous week. *)
Definition currentRange (w : Windows) : string * string :=
  (formatDateStr (w_weekStart w), formatDateStr (w_end w)).

Definition previousRange (w : Windows) : string * string :=
  (formatDateStr (w_prevWeekStart w), formatDateStr (w_prevWeekEnd w)).

(** The accumulator of [calcTotals]. *)
Record WeekTotals : Type := mkWeekTotals {
  wt_clicks : Q;
  wt_impressions : Q;
  wt_ctr : Q;
  wt_position : Q;
  wt_totalImpressions : Q }.

Definition weekStep (acc : WeekTotals) (row : SearchAnalyticsRow) : WeekTotals :=
  {| wt_clicks := wt_clicks acc + clicks row;
     wt_impressions := wt_impressions acc + impressions row;
     wt_ctr := 0;
     wt_position := wt_position acc + position row * impressions row;
     wt_totalImpressions := wt_totalImpressions acc + impressions row |}.

(** [calcTotals] *)
Definition calcTotals (rows : option (list SearchAnalyticsRow)) : option WeekTotals :=
  match rows with
  | None => None
  | Some [] => None
  | Some rs => Some (fold_left weekStep rs (mkWeekTotals 0 0 0 0 0))
  end.

(** [t?.impressions ? t.clicks / t.impressions : 0] *)
Definition ctrOfTotals (t : option WeekTotals) : Q :=
  match t with
  | Some t =>
      if JsCompare.truthy (wt_impressions t)
      then (wt_clicks t / wt_impressions t)%Q else 0%Q
  | None => 0%Q
  end.

(** [t?.totalImpressions ? t.position / t.totalImpressions : 0] *)
Definition posOfTotals (t : option WeekTotals) : Q :=
  match t with
  | Some t =>
      if JsCompare.truthy (wt_totalImpressions t)
      then (wt_position t / wt_totalImpressions t)%Q else 0%Q
  | None => 0%Q
  end.

(** The [totals] and [previousPeriod] blocks. *)
Record TotalsBlock : Type := mkTotalsBlock {
  tb_clicks : Q;
  tb_impressions : Q;
  tb_ctr : Q + string;
  tb_position : Q }.

Definition blockOf (t : WeekTotals) : TotalsBlock :=
  {| tb_clicks := wt_clicks t;
     tb_impressions := wt_impressions t;
     tb_ctr := formatCtr (ctrOfTotals (Some t)) true;
     tb_position := formatPosition (posOfTotals (Some t)) |}.

Definition totalsBlock (current : option WeekTotals) : TotalsBlock :=
  match current with
  | Some t => blockOf t
  | None => mkTotalsBlock 0 0 (inr "0.00%") 0
  end.

Definition previousBlock (previous : option WeekTotals) : option TotalsBlock :=
  option_map blockOf previous.

(** [`${diff >= 0 ? '+' : ''}${text}`] *)
Definition signed (diff : Q) (text : string) : string :=
  ((if Qle_bool 0 diff then "+" else "") ++ text)%string.

(** [changes.ctr]; the other entries of [changes] print a number as it
    is and are not modelled. *)
Definition ctrChange (current previous : option WeekTotals) : option string :=
  match current, previous with
  | Some _, Some _ =>
      let diff := (ctrOfTotals current - ctrOfTotals previous)%Q in
      Some (signed diff (JsNumber.toFixed (diff * 100) 2 ++ "%"))
  | _, _ => None
  end.

(** [summary.opportunitiesFound] of [opportunities.lowCtrHighPos]. *)
Definition opportunitiesFound (args : LowCtrArgs)
    (rows : option (list SearchAnalyticsRow)) : nat :=
  List.length (fst (lowCtrHighPos args rows)).

(** [summary.issuesFound] and [summary.totalQueriesAnalyzed] of
    [opportunities.cannibalization]: [topIssues.length] and
    [queryMap.size]. *)
Definition issuesFound (args : CannibalizationArgs)
    (rows : option (list SearchAnalyticsRow)) : nat :=
  List.length (cannibalization args rows).

Definition totalQueriesAnalyzed (rows : option (list SearchAnalyticsRow)) : nat :=
  List.length (groupByQuery (orDefault rows [])).

End WeeklySummary.

(* ================================================================== *)
(** ** [src/auth/oauth.ts], [src/server/tools/index.ts],
       [src/server/tools/sitemaps.ts], [src/server/tools/urlInspection.ts]
       and [src/server/resources/index.ts] *)
(* ================================================================== *)

Module Tools.

Import JsString Client ClientMore.

(** The two characters that a string of this file cannot spell out. *)
Definition quote : string := String (ascii_of_nat 34) "".
Definition newline : string := String (ascii_of_nat 10) "".

(** *** Scopes *)

Inductive Scope : Type := Readonly | Full.

(** [hasScope(requiredScope)], for the scope of the configuration. *)
Definition hasScope (configScope requiredScope : Scope) : bool :=
  match requiredScope with
  | Readonly => true
  | Full => match configScope with Full => true | Readonly => false end
  end.

(** [getScopeUpgradeMessage] *)
Definition getScopeUpgradeMessage (feature : string) : string :=
  ("The " ++ quote ++ feature ++ quote ++ " feature requires full scope access."
   ++ newline ++ "To upgrade, run: gsc-mcp init --scope full")%string.

(** What a handler reads from the machine it runs on: whether
    [GSCClient.create()] succeeds, and the scope that [loadConfig()]
    finds (or the error that it throws). *)
Record Env : Type := mkEnv {
  env_create : Outcome unit;
  env_scope : Outcome Scope }.

(** *** Tool results *)

(** [ToolResult]: one text, which is a plain message or the
    [JSON.stringify] of a body; [isError] is [false] when it is absent. *)
Record ToolResult (Body : Type) : Type := mkToolResult {
  text : string + Body;
  isError : bool }.
Arguments mkToolResult {Body} text isError.
Arguments text {Body} t.
Arguments isError {Body} t.

Definition textError {Body : Type} (message : string) : ToolResult Body :=
  mkToolResult (inl message) true.

Definition jsonResult {Body : Type} (body : Body) : ToolResult Body :=
  mkToolResult (inr body) false.

(** What an awaited handler leaves behind: the world, the result or the
    exception, and what the client did on the way. *)
Definition Handled (World Body : Type) : Type :=
  World * Outcome (ToolResult Body) * list RetryEvent.

(** [const x = await first; rest(x)]: an exception of [first] is an
    exception of the whole. *)
Definition andThen {World A B : Type} (first : World * Outcome A * list RetryEvent)
    (rest : A -> World -> World * Outcome B * list RetryEvent)
    : World * Outcome B * list RetryEvent :=
  match first with
  | (w, Returned a, events) =>
      let '(w', r, events') := rest a w in (w', r, events ++ events')
  | (w, Thrown e, events) => (w, Thrown e, events)
  | (w, ThrownUndefined, events) => (w, ThrownUndefined, events)
  end.

(** An awaited call that touches the local machine only. *)
Definition local {World A : Type} (o : Outcome A) (w : World)
    : World * Outcome A * list RetryEvent := (w, o, []).

Definition done {World A : Type} (a : A) (w : World)
    : World * Outcome A * list RetryEvent := (w, Returned a, []).

(** *** [handleSitemapTool] *)

Record SitemapArgs : Type := mkSitemapArgs {
  sm_siteUrl : string;
  sm_feedpath : string }.

(** The objects that the handler serialises. *)
Inductive SitemapBody : Type :=
| SitemapList (siteUrl : string) (sitemapCount : nat) (sitemaps : list SitemapInfo)
| SitemapDetails (sitemap : SitemapInfo)
| SitemapDone (success : bool) (message siteUrl feedpath : string).

Section Sitemaps.

Variable World : Type.
Variable env : Env.
Variable sitemaps_list : string -> Operation World SitemapsListData.
Variable sitemaps_get : string -> string -> Operation World SitemapData.
Variable sitemaps_submit : string -> string -> Operation World unit.
Variable sitemaps_delete : string -> string -> Operation World unit.

(** [if (!(await hasScope('full'))) return upgrade; ...rest] *)
Definition requireFull {Body : Type} (feature : string)
    (rest : World -> Handled World Body) (w : World) : Handled World Body :=
  andThen (local (env_scope env) w)
    (fun scope w =>
       if negb (hasScope scope Full)
       then done (textError (getScopeUpgradeMessage feature)) w
       else rest w).

Definition handleSitemapTool (name : string) (args : SitemapArgs) (w : World)
    : Handled World SitemapBody :=
  andThen (local (env_create env) w)
    (fun _ w =>
       let siteUrl := sm_siteUrl args in
       let feedpath := sm_feedpath args in
       if String.eqb name "sitemaps.list" then
         andThen (listSitemaps sitemaps_list siteUrl w)
           (fun sitemaps =>
              done (jsonResult (SitemapList siteUrl (List.length sitemaps) sitemaps)))
       else if String.eqb name "sitemaps.get" then
         andThen (getSitemap sitemaps_get siteUrl feedpath w)
           (fun sitemap =>
              match sitemap with
              | None => done (textError ("Sitemap not found: " ++ feedpath))
              | Some sitemap => done (jsonResult (SitemapDetails sitemap))
              end)
       else if String.eqb name "sitemaps.submit" then
         requireFull "sitemaps.submit"
           (fun w =>
              andThen (submitSitemap sitemaps_submit siteUrl feedpath w)
                (fun _ =>
                   done (jsonResult
                           (SitemapDone true ("Sitemap submitted: " ++ feedpath)
                              siteUrl feedpath))))
           w
       else if String.eqb name "sitemaps.delete" then
         requireFull "sitemaps.delete"
           (fun w =>
              andThen (deleteSitemap sitemaps_delete siteUrl feedpath w)
                (fun _ =>
                   done (jsonResult
                           (SitemapDone true ("Sitemap deleted from GSC: " ++ feedpath)
                              siteUrl feedpath))))
           w
       else done (textError ("Unknown sitemap tool: " ++ name)) w).

End Sitemaps.

Arguments requireFull {World} env {Body} feature rest w.
Arguments handleSitemapTool {World} env sitemaps_list sitemaps_get sitemaps_submit
  sitemaps_delete name args w.

(** *** [handleUrlInspectionTool] *)

(** [UrlInspectionResult] (types.ts), as far as the handler reads it. *)
Record IndexStatusResult : Type := mkIndexStatusResult {
  isr_verdict : option string;
  isr_coverageState : option string;
  isr_robotsTxtState : option string;
  isr_indexingState : option string;
  isr_lastCrawlTime : option string;
  isr_pageFetchState : option string;
  isr_googleCanonical : option string;
  isr_userCanonical : option string;
  isr_crawledAs : option string }.

Record MobileIssue : Type := mkMobileIssue {
  mi_issueType : option string;
  mi_severity : option string;
  mi_message : option string }.

Record MobileUsabilityResult : Type := mkMobileUsabilityResult {
  mur_verdict : option string;
  mur_issues : option (list MobileIssue) }.

Record RichResultsResult : Type := mkRichResultsResult {
  rrr_verdict : option string;
  rrr_detectedItems : option (list (option string)) }.

Record InspectionResult : Type := mkInspectionResult {
  indexStatusResult : option IndexStatusResult;
  mobileUsabilityResult : option MobileUsabilityResult;
  richResultsResult : option RichResultsResult }.

(** [UrlInspectionResult]: [inspectionResult] may be absent. *)
Definition UrlInspectionResult : Type := option InspectionResult.

(** What [formatInspectionResult] builds. *)
Record IndexStatus : Type := mkIndexStatus {
  is_verdict : option string;
  is_coverageState : option string;
  is_indexingState : option string;
  is_lastCrawlTime : option string;
  is_crawledAs : option string;
  is_robotsTxtState : option string;
  is_pageFetchState : option string }.

Record Canonical : Type := mkCanonical {
  google : option string;
  user : option string;
  match_ : bool }.

Record MobileUsability : Type := mkMobileUsability {
  mu_verdict : option string;
  mu_issues : list MobileIssue }.

Record RichResults : Type := mkRichResults {
  rr_verdict : option string;
  rr_detectedTypes : list (option string) }.

Record FormattedInspection : Type := mkFormattedInspection {
  fi_url : string;
  fi_indexStatus : option IndexStatus;
  fi_canonical : option Canonical;
  fi_mobileUsability : option MobileUsability;
  fi_richResults : option RichResults }.

(** [a === b] on optional strings. *)
Definition sameText (a b : option string) : bool :=
  match a, b with
  | Some x, Some y => String.eqb x y
  | None, None => true
  | _, _ => false
  end.

(** [formatInspectionResult] *)
Definition formatInspectionResult (result : UrlInspectionResult) (url : string)
    : FormattedInspection :=
  let index := match result with Some ir => indexStatusResult ir | None => None end in
  let mobile := match result with Some ir => mobileUsabilityResult ir | None => None end in
  let rich := match result with Some ir => richResultsResult ir | None => None end in
  {| fi_url := url;
     fi_indexStatus :=
       option_map
         (fun r =>
            {| is_verdict := isr_verdict r;
               is_coverageState := isr_coverageState r;
               is_indexingState := isr_indexingState r;
               is_lastCrawlTime := isr_lastCrawlTime r;
               is_crawledAs := isr_crawledAs r;
               is_robotsTxtState := isr_robotsTxtState r;
               is_pageFetchState := isr_pageFetchState r |})
         index;
     fi_canonical :=
       option_map
         (fun r =>
            {| google := isr_googleCanonical r;
               user := isr_userCanonical r;
               match_ := sameText (isr_googleCanonical r) (isr_userCanonical r) |})
         index;
     fi_mobileUsability :=
       option_map
         (fun r => {| mu_verdict := mur_verdict r; mu_issues := listOr (mur_issues r) |})
         mobile;
     fi_richResults :=
       option_map
         (fun r =>
            {| rr_verdict := rrr_verdict r;
               rr_detectedTypes := listOr (rrr_detectedItems r) |})
         rich |}.

(** An entry of the batch: a formatted result, or the url with the
    message of the error. *)
Definition BatchEntry : Type := (FormattedInspection + string * string)%type.

(** [result.status === 'fulfilled' ? formatInspectionResult(...) : { url, error }] *)
Definition batchEntry (url : string) (settled : Outcome UrlInspectionResult)
    : BatchEntry :=
  match settled with
  | Returned value => inl (formatInspectionResult value url)
  | Thrown e => inr (url, message e)
  | ThrownUndefined => inr (url, "undefined")
  end.

(** ['indexStatus' in r && r.indexStatus?.verdict === 'PASS'] *)
Definition isIndexed (entry : BatchEntry) : bool :=
  match entry with
  | inl f =>
      match fi_indexStatus f with
      | Some status => sameText (is_verdict status) (Some "PASS")
      | None => false
      end
  | inr _ => false
  end.

Record BatchSummary : Type := mkBatchSummary {
  total : Z;
  indexed : Z;
  notIndexed : Z }.

Inductive InspectionBody : Type :=
| Inspection (formatted : FormattedInspection)
| Batch (summary : BatchSummary) (results : list BatchEntry).

(** The batch after [Promise.allSettled]: [results.map((result, index) => ...)]
    pairs the outcomes with the urls; there is one outcome per url. *)
Definition batchBody (urls : list string) (results : list (Outcome UrlInspectionResult))
    : InspectionBody :=
  let formatted := map (fun p => batchEntry (snd p) (fst p)) (combine results urls) in
  let indexed := Z.of_nat (List.length (filter isIndexed formatted)) in
  Batch {| total := Z.of_nat (List.length urls);
           indexed := indexed;
           notIndexed := Z.of_nat (List.length urls) - indexed |}
        formatted.

Record InspectionArgs : Type := mkInspectionArgs {
  ia_siteUrl : string;
  ia_inspectionUrl : string;
  ia_urls : list string }.

Section UrlInspection.

Variable World : Type.
Variable env : Env.
Variable urlInspection_inspect : string -> string -> Operation World UrlInspectionResult.

(** [client.inspectUrl] *)
Definition inspectUrl (siteUrl inspectionUrl : string) (w : World)
    : World * Outcome UrlInspectionResult * list RetryEvent :=
  awaitThen (withRetry (urlInspection_inspect inspectionUrl siteUrl) MAX_RETRIES w)
    (fun data => data).

(** [Promise.allSettled(urls.map((url) => client.inspectUrl(siteUrl, url)))]:
    the inspections run concurrently; what the handler sees of them is
    the list of their outcomes and the world that they leave. *)
Variable allSettled_inspectUrl :
  string -> list string -> World -> World * list (Outcome UrlInspectionResult).

Definition handleUrlInspectionTool (name : string) (args : InspectionArgs) (w : World)
    : Handled World InspectionBody :=
  requireFull env name
    (fun w =>
       andThen (local (env_create env) w)
         (fun _ w =>
            let siteUrl := ia_siteUrl args in
            if String.eqb name "urlInspection.inspect" then
              andThen (inspectUrl siteUrl (ia_inspectionUrl args) w)
                (fun result =>
                   done (jsonResult
                           (Inspection
                              (formatInspectionResult result (ia_inspectionUrl args)))))
            else if String.eqb name "urlInspection.batchInspect" then
              let urls := ia_urls args in
              if (10 <? List.length urls)%nat then
                done (textError "Maximum 10 URLs allowed per batch inspection") w
              else
                let '(w', results) := allSettled_inspectUrl siteUrl urls w in
                done (jsonResult (batchBody urls results)) w'
            else done (textError ("Unknown URL inspection tool: " ++ name)) w))
    w.

End UrlInspection.

Arguments inspectUrl {World} urlInspection_inspect siteUrl inspectionUrl w.
Arguments handleUrlInspectionTool {World} env urlInspection_inspect
  allSettled_inspectUrl name args w.

(** *** [handleToolCall] *)

Definition searchAnalyticsToolNames : list string :=
  ["searchanalytics.query"; "report.comparePeriods"].
Definition sitemapToolNames : list string :=
  ["sitemaps.list"; "sitemaps.get"; "sitemaps.submit"; "sitemaps.delete"].
Definition urlInspectionToolNames : list string :=
  ["urlInspection.inspect"; "urlInspection.batchInspect"].
Definition opportunityToolNames : list string :=
  ["opportunities.lowCtrHighPos"; "opportunities.cannibalization";
   "report.weeklySummary"].
Definition exportToolNames : list string := ["export.csv"; "export.json"].

(** [getAllTools], by name. *)
Definition getAllToolNames : list string :=
  searchAnalyticsToolNames ++ sitemapToolNames ++ urlInspectionToolNames
  ++ opportunityToolNames ++ exportToolNames.

(** [tools.some((t) => t.name === name)] *)
Definition someNamed (names : list string) (name : string) : bool :=
  existsb (fun n => String.eqb n name) names.

Section ToolCall.

Variable World Body Args : Type.

(** [args.siteUrl], read and written. *)
Variable getSiteUrl : Args -> option string.
Variable setSiteUrl : Args -> string -> Args.

Definition Handler : Type := string -> Args -> World -> Handled World Body.

Variable handleSearchAnalyticsTool : Handler.
Variable handleSitemapTool' : Handler.
Variable handleUrlInspectionTool' : Handler.
Variable handleOpportunityTool : Handler.
Variable handleExportTool : Handler.

(** [if (defaultProperty && !args.siteUrl) args.siteUrl = defaultProperty] *)
Definition injectDefault (args : Args) (defaultProperty : option string) : Args :=
  match truthyString defaultProperty, truthyString (getSiteUrl args) with
  | Some property, None => setSiteUrl args property
  | _, _ => args
  end.

Definition route (name : string) (args : Args) (w : World) : Handled World Body :=
  if someNamed searchAnalyticsToolNames name then handleSearchAnalyticsTool name args w
  else if someNamed sitemapToolNames name then handleSitemapTool' name args w
  else if someNamed urlInspectionToolNames name then handleUrlInspectionTool' name args w
  else if someNamed opportunityToolNames name then handleOpportunityTool name args w
  else if someNamed exportToolNames name then handleExportTool name args w
  else done (textError ("Unknown tool: " ++ name)) w.

(** [try { ... } catch (error) { return { ..., isError: true } }] *)
Definition catchAll (r : Handled World Body) : World * ToolResult Body * list RetryEvent :=
  match r with
  | (w, Returned result, events) => (w, result, events)
  | (w, Thrown e, events) => (w, textError ("Error: " ++ message e), events)
  | (w, ThrownUndefined, events) => (w, textError "Error: undefined", events)
  end.

Definition handleToolCall (name : string) (args : Args)
    (defaultProperty : option string) (w : World)
    : World * ToolResult Body * list RetryEvent :=
  catchAll (route name (injectDefault args defaultProperty) w).

End ToolCall.

Arguments injectDefault {Args} getSiteUrl setSiteUrl args defaultProperty.
Arguments route {World Body Args} handleSearchAnalyticsTool handleSitemapTool'
  handleUrlInspectionTool' handleOpportunityTool handleExportTool name args w.
Arguments catchAll {World Body} r.
Arguments handleToolCall {World Body Args} getSiteUrl setSiteUrl
  handleSearchAnalyticsTool handleSitemapTool' handleUrlInspectionTool'
  handleOpportunityTool handleExportTool name args defaultProperty w.

(** *** [getAllResources] *)

Record Resource : Type := mkResource {
  uri : string;
  name : string;
  description : option string;
  mimeType : option string }.

Definition baseResource : Resource :=
  mkResource "gsc://sites" "GSC Sites"
    (Some "List all Google Search Console properties you have access to")
    (Some "application/json").

Section Resources.

Variable World : Type.
Variable env : Env.
Variable sites_list : Operation World SitesListData.
Variable encodeURIComponent : string -> string.

Definition siteResource (site : SiteInfo) : Resource :=
  mkResource ("gsc://sites/" ++ encodeURIComponent (siteUrl site) ++ "/sitemaps")
    ("Sitemaps for " ++ siteUrl site)
    (Some ("List sitemaps for " ++ siteUrl site)%string)
    (Some "application/json").

(** [getAllResources]: the [try] block can fail in [GSCClient.create()]
    and in [listSites] only, before anything is added. *)
Definition getAllResources (w : World) : World * list Resource * list RetryEvent :=
  match andThen (local (env_create env) w) (fun _ w => listSites sites_list w) with
  | (w', Returned sites, events) => (w', baseResource :: map siteResource sites, events)
  | (w', _, events) => (w', [baseResource], events)
  end.

End Resources.

Arguments getAllResources {World} env sites_list encodeURIComponent w.

End Tools.

(* ================================================================== *)
(** ** [src/server/tools/export.ts] *)
(* ================================================================== *)

Module ExportTool.

Import JsString Client ClientMore SearchAnalyticsTools Opportunities Tools.

(** [value.replace(...)] of [escapeCSVValue]: every quote is doubled. *)
Fixpoint doubleQuotes (value : string) : string :=
  match value with
  | EmptyString => EmptyString
  | String c rest =>
      if Ascii.eqb c (ascii_of_nat 34)
      then String c (String c (doubleQuotes rest))
      else String c (doubleQuotes rest)
  end.

(** The test of [escapeCSVValue]: the value includes a comma, a quote
    or a newline. *)
Definition needsQuotes (value : string) : bool :=
  includes value "," || includes value quote || includes value newline.

(** [escapeCSVValue] *)
Definition escapeCSVValue (value : string) : string :=
  if needsQuotes value then (quote ++ doubleQuotes value ++ quote)%string
  else value.

(** [l.join(sep)] *)
Fixpoint join (sep : string) (l : list string) : string :=
  match l with
  | [] => EmptyString
  | x :: rest =>
      match rest with
      | [] => x
      | _ :: _ => (x ++ sep ++ join sep rest)%string
      end
  end.

Definition metricNames : list string := ["clicks"; "impressions"; "ctr"; "position"].

Section Csv.

(** [String(x)] for a number [x]. *)
Variable String_ : Q -> string.

(** The values of one data row. *)
Definition valuesOf (dimensions : list string) (row : SearchAnalyticsRow) : list string :=
  map (fun index => escapeCSVValue (orEmpty (keyAt row index)))
    (seq 0 (List.length dimensions))
  ++ [ String_ (clicks row);
       String_ (impressions row);
       (JsNumber.toFixed (ctr row * 100) 2 ++ "%")%string;
       JsNumber.toFixed (position row) 1 ].

(** [convertToCSV] *)
Definition convertToCSV (rows : list SearchAnalyticsRow) (dimensions : list string)
    : string :=
  match rows with
  | [] => (join "," dimensions ++ ",clicks,impressions,ctr,position" ++ newline)%string
  | _ :: _ =>
      join newline
        (join "," (dimensions ++ metricNames)
         :: map (fun row => join "," (valuesOf dimensions row)) rows)
  end.

(** The text of [export.csv] for a response:
    [convertToCSV(response.rows || [], dimensions)] with
    [dimensions = ['query']] when none are given. *)
Definition exportCsv (response : SearchAnalyticsResponse)
    (dimensions : option (list string)) : string :=
  convertToCSV (listOr (rows response))
    (match dimensions with Some ds => ds | None => ["query"] end).

End Csv.

End ExportTool.

(* ================================================================== *)
(** ** [src/server/tools/opportunities.ts]: the handler around the
       analyses *)
(* ================================================================== *)

Module OpportunityHandler.

Import JsString Client ClientMore Formatters FormattersMore SearchAnalyticsTools.
Import Opportunities WeeklySummary Tools.

(** The arguments of the opportunity tools as the caller gave them. *)
Record OpportunityInput : Type := mkOpportunityInput {
  in_siteUrl : string;
  in_format : option Format;
  in_startDate : option string;
  in_endDate : option string;
  in_minImpressions : option Q;
  in_maxCtr : option Q;
  in_minPosition : option Q;
  in_maxPosition : option Q;
  in_limit : option Z }.

(** [format === 'compact'] for [format = args.format || 'full'] *)
Definition compactOf (input : OpportunityInput) : bool :=
  match in_format input with
  | Some CompactFormat => true
  | _ => false
  end.

(** The default date range: the last 28 days before [today]. *)
Definition defaultEndDate (today : Z) : string := JsDate.toISODate today.
Definition defaultStartDate (today : Z) : string :=
  JsDate.toISODate (JsDate.getTime today - 28 * 24 * 60 * 60 * 1000).

(** The query of both tools, up to its [rowLimit]. *)
Definition pairQuery (input : OpportunityInput) (today : Z) (rowLimit : Z)
    : SearchAnalyticsQuery :=
  {| q_siteUrl := in_siteUrl input;
     q_startDate := orDefault (in_startDate input) (defaultStartDate today);
     q_endDate := orDefault (in_endDate input) (defaultEndDate today);
     q_dimensions := Some ["query"; "page"];
     q_dimensionFilterGroups := None;
     q_rowLimit := Some rowLimit;
     q_startRow := None;
     q_dataState := None;
     q_aggregationType := None |}.

Definition lowCtrArgsOf (input : OpportunityInput) : LowCtrArgs :=
  mkLowCtrArgs (Some (in_siteUrl input)) (compactOf input) (in_minImpressions input)
    (in_maxCtr input) (in_minPosition input) (in_maxPosition input) (in_limit input).

Definition cannibalizationArgsOf (input : OpportunityInput) : CannibalizationArgs :=
  mkCannibalizationArgs (Some (in_siteUrl input)) (compactOf input)
    (in_minImpressions input) (in_limit input).

(** What the two tools serialise: the entries and the numbers of the
    summary. *)
Inductive OpportunityBody : Type :=
| LowCtrBody (opportunities : list Opportunity)
    (opportunitiesFound : nat) (totalPotentialClicks : Z)
| CannibalizationBody (issues : list Issue)
    (issuesFound totalQueriesAnalyzed : nat).

Definition lowCtrBody (input : OpportunityInput) (response : SearchAnalyticsResponse)
    : OpportunityBody :=
  let result := lowCtrHighPos (lowCtrArgsOf input) (rows response) in
  LowCtrBody (fst result) (List.length (fst result)) (snd result).

Definition cannibalizationBody (input : OpportunityInput)
    (response : SearchAnalyticsResponse) : OpportunityBody :=
  let topIssues := cannibalization (cannibalizationArgsOf input) (rows response) in
  CannibalizationBody topIssues (List.length topIssues)
    (totalQueriesAnalyzed (rows response)).

Section Handler.

Variable World : Type.
Variable env : Env.
Variable searchanalytics_query : Request -> Operation World ApiResponse.

(** What an awaited branch of the handler leaves behind; the calls of
    the client are kept with their requests. *)
Definition Answer : Type :=
  World * Outcome (ToolResult OpportunityBody) * list Call.

(** [const response = await client.searchAnalytics(query); return body(response)] *)
Definition queryThen (query : SearchAnalyticsQuery)
    (body : SearchAnalyticsResponse -> OpportunityBody) (w : World) : option Answer :=
  match env_create env with
  | Returned _ =>
      match searchAnalytics searchanalytics_query query w with
      | Some (w', r, log) =>
          Some (w', mapOutcome (fun response => jsonResult (body response)) r, log)
      | None => None
      end
  | Thrown e => Some (w, Thrown e, [])
  | ThrownUndefined => Some (w, ThrownUndefined, [])
  end.

(** The branch [opportunities.lowCtrHighPos] of [handleOpportunityTool],
    called at the time [today]. *)
Definition handleLowCtrHighPos (today : Z) (input : OpportunityInput) (w : World)
    : option Answer :=
  queryThen (pairQuery input today 10000) (lowCtrBody input) w.

(** The branch [opportunities.cannibalization]. *)
Definition handleCannibalization (today : Z) (input : OpportunityInput) (w : World)
    : option Answer :=
  queryThen (pairQuery input today 25000) (cannibalizationBody input) w.

End Handler.

Arguments queryThen {World} env searchanalytics_query query body w.
Arguments handleLowCtrHighPos {World} env searchanalytics_query today input w.
Arguments handleCannibalization {World} env searchanalytics_query today input w.

End OpportunityHandler.
(* ================================================================== *)
(** ** [rollupByGranularity] on any host *)
(* ================================================================== *)

(** [SearchAnalyticsTools.rollupByGranularity] above runs on a host that
    reads calendar days only and keeps one offset from UTC.  Here the host
    is a parameter: any reading of date texts, Invalid Date included, and
    any rule for local time. *)

(** [Date] as the host of the program provides it. *)
Module HostDate.

Import JsDate.

(** What the program sees of its host: how [new Date(text)] reads a text
    ([None] is NaN, the time value of an Invalid Date), and the offset of
    local time from UTC in milliseconds, at a time value of UTC ([true])
    or of local time ([false]). *)
Record Host : Type := mkHost {
  Date_parse : string -> option Z;
  LocalTZA : Z -> bool -> Z }.

(** [TimeClip]: time values end 100 000 000 days from the epoch. *)
Definition TimeClip (t : Z) : option Z :=
  if Z.abs t <=? 8640000000000000 then Some t else None.

(** [new Date(text)]: the time value of the new date. *)
Definition newDate (host : Host) (text : string) : option Z :=
  match Date_parse host text with
  | Some t => TimeClip t
  | None => None
  end.

Definition LocalTime (host : Host) (t : Z) : Z := t + LocalTZA host t true.
Definition UTC (host : Host) (t : Z) : Z := t - LocalTZA host t false.

Definition getFullYear (host : Host) (t : Z) : Z := YearFromTime (LocalTime host t).
Definition getMonth (host : Host) (t : Z) : Z := MonthFromTime (LocalTime host t).
Definition getDate (host : Host) (t : Z) : Z := DateFromTime (LocalTime host t).
Definition getDay (host : Host) (t : Z) : Z := WeekDay (LocalTime host t).

(** [d.setDate(date)] for a date [d] with the time value [t]: the new
    time value. *)
Definition setDate (host : Host) (t date : Z) : option Z :=
  let lt := LocalTime host t in
  TimeClip (UTC host (MakeDate (MakeDay (YearFromTime lt) (MonthFromTime lt) date)
                        (TimeWithinDay lt))).

End HostDate.

Module HostRollup.

Import Client SearchAnalyticsTools HostDate.

(** The [RangeError] of [toISOString] on an Invalid Date. *)
Definition invalidTime : Error := mkError "Invalid time value".

(** [d.toISOString().split('T')[0]] *)
Definition toISODate (date : option Z) : Outcome string :=
  match date with
  | Some t => Returned (JsDate.toISODate t)
  | None => Thrown invalidTime
  end.

(** [monday = new Date(date); monday.setDate(date.getDate() - date.getDay() + 1)] *)
Definition mondayOf (host : Host) (date : option Z) : option Z :=
  match date with
  | Some t => setDate host t (getDate host t - getDay host t + 1)
  | None => None
  end.

(** The bucket key of a date under a granularity that is not [Auto] any
    more.  The getters of an Invalid Date give NaN. *)
Definition bucketKeyOf (host : Host) (actualGranularity : Granularity)
    (date : option Z) : Outcome string :=
  match actualGranularity with
  | Monthly =>
      Returned
        match date with
        | Some t =>
            (JsNumber.stringOfZ (getFullYear host t) ++ "-"
             ++ JsNumber.padStart0 2 (JsNumber.stringOfZ (getMonth host t + 1)))%string
        | None => "NaN-NaN"
        end
  | _ => toISODate (mondayOf host date)
  end.

(** The grouping loop; it ends where a key cannot be made. *)
Fixpoint groupRows (host : Host) (actualGranularity : Granularity)
    (rows : list SearchAnalyticsRow) (buckets : JsMap.t Bucket)
    : Outcome (JsMap.t Bucket) :=
  match rows with
  | [] => Returned buckets
  | row :: rest =>
      match keyAt row 0 with
      | None => groupRows host actualGranularity rest buckets
      | Some dateStr =>
          if JsString.isEmpty dateStr then groupRows host actualGranularity rest buckets
          else
            match bucketKeyOf host actualGranularity (newDate host dateStr) with
            | Returned bucketKey =>
                groupRows host actualGranularity rest
                  (addRow buckets bucketKey dateStr row)
            | Thrown e => Thrown e
            | ThrownUndefined => ThrownUndefined
            end
      end
  end.

(** What ['auto'] resolves to; [None] keeps the daily rows.  The
    difference of two dates is NaN when one of them is invalid, and NaN is
    neither above 90 nor above 21. *)
Definition resolve (host : Host) (startDate endDate : string) : option Granularity :=
  match newDate host startDate, newDate host endDate with
  | Some start, Some end_ => resolveAuto start end_
  | _, _ => None
  end.

Definition rollupWith (host : Host) (actualGranularity : Granularity)
    (rows : list SearchAnalyticsRow) : Outcome (list SearchAnalyticsRow) :=
  mapOutcome (fun buckets => JsArray.sort byKey (map bucketRow buckets))
    (groupRows host actualGranularity rows []).

(** [rollupByGranularity] *)
Definition rollupByGranularity (host : Host) (rows : list SearchAnalyticsRow)
    (granularity : Granularity) (startDate endDate : string)
    : Outcome (list SearchAnalyticsRow) :=
  match granularity with
  | Auto =>
      match resolve host startDate endDate with
      | Some actualGranularity => rollupWith host actualGranularity rows
      | None => Returned rows
      end
  | _ => rollupWith host granularity rows
  end.

End HostRollup.
(* ================================================================== *)
(** ** Specification vocabulary *)
(* ================================================================== *)

Module ClientSpec.

Import Client.

(** The number of rows that a call brought back, if it brought any list. *)
Definition returnedRows (c : Call) : option Z :=
  match call_result c with
  | Returned response => option_map rowCount (rows response)
  | _ => None
  end.

(** A call that came back with a non-empty page of at least the rows it
    asked for. *)
Definition fullPage (c : Call) : bool :=
  match returnedRows c with
  | Some n => (0 <? n) && (rq_rowLimit (call_request c) <=? n)
  | None => false
  end.

(** The remote query brings back exactly as many rows as a call asks for. *)
Definition returnsFullPages {World : Type}
    (searchanalytics_query : Request -> Operation World ApiResponse) : Prop :=
  forall (request : Request) (w : World),
    0 <= rq_rowLimit request ->
    exists w' data rs events,
      withRetry (searchanalytics_query request) MAX_RETRIES w = (w', Returned data, events)
      /\ data_rows data = Some rs
      /\ Z.of_nat (List.length rs) = rq_rowLimit request.

(** The ceiling of [rowLimit / 25000]. *)
Definition pageCount (rowLimit : Z) : nat :=
  Z.to_nat (Qceiling (inject_Z rowLimit / inject_Z MAX_ROWS_PER_REQUEST)).

(** The request of page [j] (from 0) of a paginated query. *)
Definition pageRequest (query : SearchAnalyticsQuery) (j : nat) : Request :=
  let offset := MAX_ROWS_PER_REQUEST * Z.of_nat j in
  requestOf (withPage query (Z.min MAX_ROWS_PER_REQUEST (rowLimitOf query - offset))
               (startRowOf query + offset)).

(** The calls of a pagination that starts at row [s]: each asks for 1 to
    25000 rows, and a call is followed by another one only if it came back
    full, the next one starting where it ended. *)
Inductive PageCalls : Z -> list Call -> Prop :=
| PageCalls_nil (s : Z) : PageCalls s []
| PageCalls_cons (s : Z) (c : Call) (rest : list Call) :
    rq_startRow (call_request c) = s ->
    1 <= rq_rowLimit (call_request c) <= MAX_ROWS_PER_REQUEST ->
    (rest <> [] -> fullPage c = true) ->
    PageCalls (s + rq_rowLimit (call_request c)) rest ->
    PageCalls s (c :: rest).

End ClientSpec.


(** Calendar arithmetic. *)
Module DateSpec.

Import JsDate.

(** What [civilFromDays] makes of a day of the era (a day number from 0 to
    146096 within a cycle of 400 years) is a year of the era and a month
    from which [daysFromCivil] finds the day again. *)
Definition eraCheck (doe : Z) : bool :=
  let yoe := (doe - doe / 1460 + doe / 36524 - doe / 146096) / 365 in
  let doy := doe - (365 * yoe + yoe / 4 - yoe / 100) in
  let mp := (5 * doy + 2) / 153 in
  let d := doy - (153 * mp + 2) / 5 + 1 in
  let m := if mp <? 10 then mp + 3 else mp - 9 in
  (0 <=? yoe) && (yoe <? 400) && (1 <=? m) && (m <=? 12)
  && ((if m >? 2 then m - 3 else m + 9) =? mp)
  && (yoe * 365 + yoe / 4 - yoe / 100 + ((153 * mp + 2) / 5 + d - 1) =? doe).

(** [f z], [f (z + 1)], ... [f (z + n - 1)] all hold. *)
Fixpoint allFrom (f : Z -> bool) (z : Z) (n : nat) : bool :=
  match n with
  | O => true
  | S n' => f z && allFrom f (z + 1) n'
  end.

End DateSpec.

(** Urls and what is left of them. *)
Module UrlSpec.

(** [url] begins with [p]. *)
Definition hasPrefix (p url : string) : Prop := exists rest, url = (p ++ rest)%string.

(** What is returned for the rest of a url: the rest, or a slash when
    nothing is left. *)
Definition remainder (rest : string) : string :=
  match rest with
  | EmptyString => "/"
  | _ => rest
  end.

(** [p] is [siteUrl] without its trailing slash, if it has one. *)
Definition withoutTrailingSlash (siteUrl p : string) : Prop :=
  siteUrl = (p ++ "/")%string
  \/ (siteUrl = p /\ forall q, siteUrl <> (q ++ "/")%string).

(** [s] without the prefix [p], if it begins with it. *)
Fixpoint dropPrefix (p s : string) : option string :=
  match p with
  | EmptyString => Some s
  | String c p' =>
      match s with
      | EmptyString => None
      | String d s' => if Ascii.eqb c d then dropPrefix p' s' else None
      end
  end.

(** The text of [s] from its first slash on. *)
Fixpoint fromSlash (s : string) : string :=
  match s with
  | EmptyString => EmptyString
  | String c s' => if Ascii.eqb c "/" then s else fromSlash s'
  end.

(** The path of an absolute http or https url: what follows its scheme
    and host, and a slash when nothing does. *)
Definition pathOf (url : string) : option string :=
  match dropPrefix "https://" url, dropPrefix "http://" url with
  | Some afterScheme, _ => Some (remainder (fromSlash afterScheme))
  | None, Some afterScheme => Some (remainder (fromSlash afterScheme))
  | None, None => None
  end.

(** A host name: a text without a slash. *)
Fixpoint noSlash (s : string) : bool :=
  match s with
  | EmptyString => true
  | String c s' => negb (Ascii.eqb c "/") && noSlash s'
  end.

(** What follows the host in a url: nothing, or a text that begins with
    a slash. *)
Definition pathStart (rest : string) : Prop :=
  rest = EmptyString \/ exists r, rest = String "/" r.

End UrlSpec.

(** Buckets of the rollup. *)
Module RollupSpec.

Import Client SearchAnalyticsTools.

(** The date string of a row, when it has a non-empty first key. *)
Definition dateKeyOf (row : SearchAnalyticsRow) : option string :=
  match keyAt row 0 with
  | Some d => if JsString.isEmpty d then None else Some d
  | None => None
  end.

(** The bucket that a row falls into. *)
Definition bucketKeyOfRow (tz : Z) (g : Granularity) (row : SearchAnalyticsRow)
    : option string :=
  match dateKeyOf row with
  | Some d => option_map (bucketKeyOf tz g) (JsDate.parse d)
  | None => None
  end.

Definition inBucket (tz : Z) (g : Granularity) (key : string) (row : SearchAnalyticsRow)
    : bool :=
  match bucketKeyOfRow tz g row with
  | Some k => String.eqb k key
  | None => false
  end.

(** The input rows of a bucket, in input order. *)
Definition members (tz : Z) (g : Granularity) (key : string)
    (rows : list SearchAnalyticsRow) : list SearchAnalyticsRow :=
  filter (inBucket tz g key) rows.

(** The granularity that a call works with, if it rolls up at all. *)
Definition effectiveGranularity (granularity : Granularity) (startDate endDate : string)
    : option Granularity :=
  match granularity with
  | Auto =>
      match JsDate.parse startDate, JsDate.parse endDate with
      | Some start, Some end_ => resolveAuto start end_
      | _, _ => None
      end
  | g => Some g
  end.

(** Every row that has a date key has a calendar day there. *)
Definition datesReadable (rows : list SearchAnalyticsRow) : Prop :=
  Forall (fun row => forall d, dateKeyOf row = Some d -> JsDate.parse d <> None) rows.

(** The bucket that the grouping loop builds from the rows of one key. *)
Definition bucketOf (ms : list SearchAnalyticsRow) : Bucket :=
  {| b_clicks := JsArray.sum (map clicks ms);
     b_impressions := JsArray.sum (map impressions ms);
     b_positions := map position ms;
     b_dates := map (fun row => match dateKeyOf row with Some d => d | None => "" end) ms |}.

(** What one turn of the loop does to a bucket. *)
Definition grown (b : Bucket) (d : string) (row : SearchAnalyticsRow) : Bucket :=
  {| b_clicks := b_clicks b + clicks row;
     b_impressions := b_impressions b + impressions row;
     b_positions := b_positions b ++ [position row];
     b_dates := b_dates b ++ [d] |}.

(** What the grouping loop holds for a key after the given rows. *)
Definition aggregate (tz : Z) (g : Granularity) (key : string)
    (rows : list SearchAnalyticsRow) : option Bucket :=
  match members tz g key rows with
  | [] => None
  | ms => Some (bucketOf ms)
  end.

(** The Monday on or before a day, as a day number. *)
Definition mondayOnOrBefore (day : Z) : Z := day - (day + 3) mod 7.

(** [row] with its [ctr] replaced. *)
Definition withCtr (f : SearchAnalyticsRow -> Q) (row : SearchAnalyticsRow)
    : SearchAnalyticsRow :=
  {| keys := keys row;
     clicks := clicks row;
     impressions := impressions row;
     ctr := f row;
     position := position row |}.

End RollupSpec.

(** Rankings and groups of the opportunity tools. *)
Module OpportunitySpec.

Import Client SearchAnalyticsTools Opportunities.

(** [l] cut after [limit] entries; a negative limit cuts [- limit]
    entries off the end instead. *)
Definition cutTo {O : Type} (limit : Z) (l : list O) : list O :=
  if 0 <=? limit then firstn (Z.to_nat limit) l
  else firstn (List.length l - Z.to_nat (- limit)) l.

(** [result] is [candidates] put in descending order of [score] and cut
    to [limit]. *)
Definition TopBy {O : Type} (score : O -> Z) (candidates : list O) (limit : Z)
    (result : list O) : Prop :=
  exists all,
    Permutation all candidates
    /\ StronglySorted (fun a b => score b <= score a) all
    /\ result = cutTo limit all.

(** The same for a score that is a rational. *)
Definition TopByQ {O : Type} (score : O -> Q) (candidates : list O) (limit : Z)
    (result : list O) : Prop :=
  exists all,
    Permutation all candidates
    /\ StronglySorted (fun a b => (score b <= score a)%Q) all
    /\ result = cutTo limit all.

Definition sumZ (l : list Z) : Z := fold_right Z.add 0 l.

(** [n] is [x] rounded: the whole number nearest to [x], and the greater
    one when two are equally near. *)
Definition rounded (x : Q) (n : Z) : Prop :=
  (inject_Z n - (1 # 2) <= x /\ x < inject_Z n + (1 # 2))%Q.

(** The query and the page entry that a row stands for. *)
Definition queryOf (row : SearchAnalyticsRow) : string := orEmpty (keyAt row 0).

Definition pageEntryOf (row : SearchAnalyticsRow) : PageEntry :=
  mkPageEntry (orEmpty (keyAt row 1)) (clicks row) (impressions row) (ctr row)
    (position row).

(** The page entries of a query, in input order. *)
Definition groupOf (query : string) (rows : list SearchAnalyticsRow) : list PageEntry :=
  map pageEntryOf (filter (fun row => String.eqb (queryOf row) query) rows).

(** What [queryMap] holds for a query after the given rows. *)
Definition groupAgg (query : string) (rows : list SearchAnalyticsRow)
    : option (list PageEntry) :=
  match groupOf query rows with
  | [] => None
  | pages => Some pages
  end.

(** Rows dimensioned by (query, page): no pair of keys comes twice. *)
Definition keyPair (row : SearchAnalyticsRow) : string * string :=
  (queryOf row, orEmpty (keyAt row 1)).

Definition uniqueKeys (rows : list SearchAnalyticsRow) : Prop :=
  NoDup (map keyPair rows).

Definition keyPair_dec (a b : string * string) : {a = b} + {a <> b}.
Proof. decide equality; apply string_dec. Defined.

(** The number of different pages among the entries of a group. *)
Definition distinctPages (pages : list PageEntry) : nat :=
  List.length (nodup string_dec (map pe_page pages)).

Definition minImpressionsOf (args : CannibalizationArgs) : Q :=
  orDefault (c_minImpressions args) 50%Q.

(** A group that the tool reports. *)
Definition qualifies (args : CannibalizationArgs) (pages : list PageEntry) : Prop :=
  (2 <= List.length pages)%nat /\ (minImpressionsOf args <= totalImpressionsOf pages)%Q.

Definition qualifiesb (args : CannibalizationArgs) (pages : list PageEntry) : bool :=
  negb (List.length pages <? 2)%nat
  && negb (JsCompare.ltb (totalImpressionsOf pages) (minImpressionsOf args)).

(** The issue that the tool makes of a group. *)
Definition issueOf (args : CannibalizationArgs) (entry : string * list PageEntry) : Issue :=
  let sorted := JsArray.sort byPosition (snd entry) in
  mkIssue (fst entry) (map (formatPage args) sorted) (totalImpressionsOf (snd entry))
    (recommendationFor (c_siteUrl args) sorted).

Definition issueOf_v1 (entry : string * list PageEntry) : CannibalizationIssue :=
  let sorted := JsArray.sort byPosition (snd entry) in
  mkCannibalizationIssue (fst entry) sorted (totalImpressionsOf (snd entry))
    (recommendationFor None sorted).

(** The issues of the earlier version, before sorting and truncation. *)
Definition issuesOf_v1 (args : CannibalizationArgs)
    (rows : option (list SearchAnalyticsRow)) : list CannibalizationIssue :=
  collectIssues_v1 (minImpressionsOf args) (groupByQuery (orDefault rows [])).

(** The first character of a text. *)
Definition firstChar (s : string) : option ascii :=
  match s with
  | String c _ => Some c
  | EmptyString => None
  end.

End OpportunitySpec.

(** Buckets of the rollup on any host. *)
Module HostRollupSpec.

Import Client SearchAnalyticsTools RollupSpec HostDate HostRollup.

(** What the making of the bucket key of a row comes to, if the row has
    a date key. *)
Definition keyOfRow (host : Host) (g : Granularity) (row : SearchAnalyticsRow)
    : option (Outcome string) :=
  option_map (fun d => bucketKeyOf host g (newDate host d)) (dateKeyOf row).

Definition inBucket (host : Host) (g : Granularity) (key : string)
    (row : SearchAnalyticsRow) : bool :=
  match keyOfRow host g row with
  | Some (Returned k) => String.eqb k key
  | _ => false
  end.

(** The input rows of a bucket, in input order. *)
Definition members (host : Host) (g : Granularity) (key : string)
    (rows : list SearchAnalyticsRow) : list SearchAnalyticsRow :=
  filter (inBucket host g key) rows.

(** What the grouping loop holds for a key after the given rows. *)
Definition aggregate (host : Host) (g : Granularity) (key : string)
    (rows : list SearchAnalyticsRow) : option Bucket :=
  match members host g key rows with
  | [] => None
  | ms => Some (bucketOf ms)
  end.

(** The days from [start] to [end_], a started day counting as one. *)
Definition days (start end_ : Z) : Z :=
  Qceiling (inject_Z (end_ - start) / inject_Z JsDate.msPerDay).

(** The granularity that a call works with, if it rolls up at all:
    ['auto'] is monthly for more than 90 days, weekly for more than 21,
    and no rollup otherwise or when a date of the range is invalid. *)
Definition effective (host : Host) (granularity : Granularity)
    (startDate endDate : string) : option Granularity :=
  match granularity with
  | Auto =>
      match newDate host startDate, newDate host endDate with
      | Some start, Some end_ =>
          if 90 <? days start end_ then Some Monthly
          else if 21 <? days start end_ then Some Weekly
          else None
      | _, _ => None
      end
  | g => Some g
  end.

(** The order of a dictionary on the codes of the characters: [a] comes
    before [b] when it is a proper prefix of [b], or when at the first
    place where they differ [a] has the lower code. *)
Inductive before : string -> string -> Prop :=
| before_prefix (y : ascii) (b : string) : before EmptyString (String y b)
| before_head (x y : ascii) (a b : string) :
    (N_of_ascii x < N_of_ascii y)%N -> before (String x a) (String y b)
| before_tail (x : ascii) (a b : string) :
    before a b -> before (String x a) (String x b).

(** The bucket key that an output row carries. *)
Definition keyText (row : SearchAnalyticsRow) : string :=
  match keys row with
  | Some (key :: _) => key
  | _ => EmptyString
  end.

(** A host on a fixed offset of [tz] minutes east of UTC that reads
    calendar days [YYYY-MM-DD] and nothing else. *)
Definition fixedHost (tz : Z) : Host :=
  mkHost JsDate.parse (fun _ _ => tz * 60000).

End HostRollupSpec.

(** What a caller of [withRetry] can observe. *)
Module RetrySpec.

Import Client.

(** [k] attempts from iteration [attempt] on, with the sleep of the
    doubling backoff after each one but the last. *)
Fixpoint backoffFrom (attempt k : nat) : list RetryEvent :=
  match k with
  | O => []
  | S k' =>
      Attempt ::
      match k' with
      | O => []
      | S _ => Sleep (RETRY_DELAY_MS * 2 ^ Z.of_nat attempt)
               :: backoffFrom (S attempt) k'
      end
  end.

(** The time slept in a trace, in milliseconds. *)
Fixpoint sleepTotal (events : list RetryEvent) : Z :=
  match events with
  | [] => 0
  | Attempt :: rest => sleepTotal rest
  | Sleep ms :: rest => ms + sleepTotal rest
  end.

Definition attempts (events : list RetryEvent) : nat :=
  List.length (filter (fun ev => match ev with Attempt => true | _ => false end) events).

(** From [w] the operation fails with the errors [es], one after the
    other, and leaves the world at [w']. *)
Inductive FailsThrough {World T : Type} (operation : Operation World T)
    : World -> list Error -> World -> Prop :=
| FailsThrough_nil (w : World) : FailsThrough operation w [] w
| FailsThrough_cons (w w1 w' : World) (e : Error) (es : list Error) :
    operation w = (w1, inl e) ->
    FailsThrough operation w1 es w' ->
    FailsThrough operation w (e :: es) w'.

(** What [withRetry] makes of the answer of the attempt it stops at. *)
Definition settle {T : Type} (x : Error + T) : Outcome T :=
  match x with
  | inl e => Thrown e
  | inr v => Returned v
  end.

(** The same message, whatever the case of its letters. *)
Definition sameUpToCase (a b : string) : Prop :=
  JsString.toLowerCase a = JsString.toLowerCase b.

(** An operation that fails with [msg] while the attempt counter is below
    [n] and then answers [v]. *)
Definition failingUntil {T : Type} (n : nat) (msg : string) (v : T)
    : Operation nat T :=
  fun k => (S k, if (k <? n)%nat then inl (mkError msg) else inr v).

End RetrySpec.

(** What the calls of a pagination brought back. *)
Module PagesSpec.

Import Client ClientMore.

(** The rows that a call brought back: none when it threw or when the
    answer had no list of rows. *)
Definition rowsOf (c : Call) : list SearchAnalyticsRow :=
  match call_result c with
  | Returned response => listOr (rows response)
  | _ => []
  end.

(** The service did not send more rows than the call asked for. *)
Definition honoursLimit (c : Call) : Prop :=
  rowCount (rowsOf c) <= rq_rowLimit (call_request c).

(** A service that has [n] rows in all and fails once the offset of a
    request reaches [failFrom]. *)
Definition flakyService (n failFrom : Z) : Request -> Operation unit ApiResponse :=
  fun request w =>
    if failFrom <=? rq_startRow request then (w, inl (mkError "403 Forbidden"))
    else
      (w, inr (mkApiResponse
                 (Some (repeat (mkApiRow (Some ["shoes"]) (Some 1%Q) (Some 10%Q)
                                  (Some (1 # 10)) (Some 3%Q))
                          (Z.to_nat (Z.min (rq_rowLimit request)
                                       (n - rq_startRow request)))))
                 (Some "auto"))).

End PagesSpec.

(** Reading a formatted row back. *)
Module FormatSpec.

Import Client ClientMore FormattersMore.

Definition clicksOf (f : FormattedRow) : Q :=
  match f with
  | CompactRow _ _ c _ _ _ => c
  | FullRow _ c _ _ _ => c
  end.

Definition impressionsOf (f : FormattedRow) : Q :=
  match f with
  | CompactRow _ _ _ i _ _ => i
  | FullRow _ _ i _ _ => i
  end.

Definition positionOf (f : FormattedRow) : Q :=
  match f with
  | CompactRow _ _ _ _ _ p => p
  | FullRow _ _ _ _ p => p
  end.

Definition ctrOf (f : FormattedRow) : Q + string :=
  match f with
  | CompactRow _ _ _ _ c _ => c
  | FullRow _ _ _ c _ => c
  end.

(** The keys of a formatted row, whether they sit under [key] or [keys]. *)
Definition keysOf (f : FormattedRow) : list string :=
  match f with
  | CompactRow (Some k) _ _ _ _ _ => [k]
  | CompactRow None ks _ _ _ _ => listOr ks
  | FullRow ks _ _ _ _ => listOr ks
  end.

(** A number with at most [d] decimals: a whole multiple of [10^-d]. *)
Definition hasDecimals (d : nat) (x : Q) : Prop :=
  exists n : Z, (x == inject_Z n / inject_Z (10 ^ Z.of_nat d))%Q.

Definition isDigit (c : ascii) : bool :=
  let n := nat_of_ascii c in (Nat.leb 48 n && Nat.leb n 57)%bool.

Fixpoint digitsOnly (s : string) : bool :=
  match s with
  | EmptyString => true
  | String c s' => isDigit c && digitsOnly s'
  end.

(** [url] ends with [s]. *)
Definition endsWith (url s : string) : Prop :=
  exists p : string, url = (p ++ s)%string.

End FormatSpec.

(** Sums over rows. *)
Module ReportSpec.

Import Client SearchAnalyticsTools RollupSpec.

(** The sum of a list of numbers. *)
Fixpoint total (l : list Q) : Q :=
  match l with
  | [] => 0%Q
  | x :: l' => (x + total l')%Q
  end.

(** A row that the rollup puts into a bucket: it has a date key. *)
Definition hasDate (row : SearchAnalyticsRow) : bool :=
  match dateKeyOf row with Some _ => true | None => false end.

(** The sum of a field over the buckets of a map. *)
Definition overBuckets (f : Bucket -> Q) (m : JsMap.t Bucket) : Q :=
  total (map (fun entry => f (snd entry)) m).

End ReportSpec.

(** Vocabulary for the weekly summary and the opportunity summaries. *)
Module WeeklySpec.

Import Client SearchAnalyticsTools Opportunities OpportunitySpec ReportSpec.

(** The position of each row, weighted with its impressions. *)
Definition weighted (row : SearchAnalyticsRow) : Q := (position row * impressions row)%Q.

(** A row whose ctr is its clicks over its impressions. *)
Definition consistent (row : SearchAnalyticsRow) : Prop :=
  (ctr row * impressions row == clicks row)%Q.

(** The rows that pass the filter of [opportunities.lowCtrHighPos]. *)
Definition passing (args : LowCtrArgs) (rows : option (list SearchAnalyticsRow))
    : list SearchAnalyticsRow :=
  filter (isOpportunity args) (orDefault rows []).

(** How many of [n] entries [slice(0, limit)] keeps. *)
Definition kept (n : nat) (limit : Z) : nat :=
  if limit <? 0 then Z.to_nat (Z.of_nat n + limit) else Nat.min (Z.to_nat limit) n.

(** The different queries of the rows. *)
Definition queriesOf (rows : option (list SearchAnalyticsRow)) : list string :=
  nodup string_dec (map queryOf (orDefault rows [])).

End WeeklySpec.

(** Vocabulary for the handlers. *)
Module HandlerSpec.

Import Client Tools.

(** The url that an entry of a batch is about. *)
Definition urlOf (entry : BatchEntry) : string :=
  match entry with
  | inl formatted => fi_url formatted
  | inr (url, _) => url
  end.

Definition fulfilled {A : Type} (o : Outcome A) : bool :=
  match o with Returned _ => true | _ => false end.

Definition summaryOf (body : InspectionBody) : option BatchSummary :=
  match body with
  | Batch summary _ => Some summary
  | Inspection _ => None
  end.

Definition resultsOf (body : InspectionBody) : list BatchEntry :=
  match body with
  | Batch _ results => results
  | Inspection _ => []
  end.

(** A page that is indexed, and nothing else known about it. *)
Definition passResult : UrlInspectionResult :=
  Some (mkInspectionResult
          (Some (mkIndexStatusResult (Some "PASS") None None None None None None None None))
          None None).

(** A remote inspection that knows two pages. *)
Definition twoPages : string -> list string -> nat -> nat * list (Outcome UrlInspectionResult) :=
  fun _ urls n =>
    (n, map (fun url => if String.eqb url "https://a.com/" then Returned passResult
                        else Thrown (mkError "404 Not Found")) urls).

End HandlerSpec.

(** Reading comma-separated text back. *)
Module CsvSpec.

Import JsString Client SearchAnalyticsTools Opportunities Tools ExportTool.

Definition isQuote (c : ascii) : bool := Ascii.eqb c (ascii_of_nat 34).
Definition isComma (c : ascii) : bool := Ascii.eqb c ","%char.
Definition isNewline (c : ascii) : bool := Ascii.eqb c (ascii_of_nat 10).

(** Where a reader of comma-separated text is: before the first field of
    a record, before a later field, inside a field without quotes, inside
    a quoted field, or just after a quote inside a quoted field. *)
Inductive CsvState : Type :=
| RecordStart | FieldStart | InPlain | InQuoted | QuoteSeen.

Definition snoc (field : string) (c : ascii) : string :=
  (field ++ String c EmptyString)%string.

(** A reader of comma-separated text: fields are separated by commas and
    records by newlines; a field that starts with a quote runs to the
    next single quote, two quotes in it standing for one.  [None] for
    text that is not well formed. *)
Fixpoint read (st : CsvState) (field : string) (record : list string)
    (records : list (list string)) (s : string) : option (list (list string)) :=
  match s with
  | EmptyString =>
      match st with
      | RecordStart => Some records
      | FieldStart | InPlain | QuoteSeen => Some (records ++ [record ++ [field]])
      | InQuoted => None
      end
  | String c rest =>
      match st with
      | RecordStart | FieldStart =>
          if isQuote c then read InQuoted EmptyString record records rest
          else if isComma c then
            read FieldStart EmptyString (record ++ [EmptyString]) records rest
          else if isNewline c then
            read RecordStart EmptyString [] (records ++ [record ++ [EmptyString]]) rest
          else read InPlain (String c EmptyString) record records rest
      | InPlain =>
          if isQuote c then None
          else if isComma c then
            read FieldStart EmptyString (record ++ [field]) records rest
          else if isNewline c then
            read RecordStart EmptyString [] (records ++ [record ++ [field]]) rest
          else read InPlain (snoc field c) record records rest
      | InQuoted =>
          if isQuote c then read QuoteSeen field record records rest
          else read InQuoted (snoc field c) record records rest
      | QuoteSeen =>
          if isQuote c then read InQuoted (snoc field c) record records rest
          else if isComma c then
            read FieldStart EmptyString (record ++ [field]) records rest
          else if isNewline c then
            read RecordStart EmptyString [] (records ++ [record ++ [field]]) rest
          else None
      end
  end.

Definition readCSV (s : string) : option (list (list string)) :=
  read RecordStart EmptyString [] [] s.

(** The reader is at the start of a field. *)
Definition starting (st : CsvState) : Prop := st = RecordStart \/ st = FieldStart.

(** What follows a field: a comma, a newline, or the end of the text. *)
Inductive Terminator : Type := Comma | Newline | EndOfText.

Definition terminated (t : Terminator) (rest : string) : string :=
  match t with
  | Comma => String ","%char rest
  | Newline => String (ascii_of_nat 10) rest
  | EndOfText => EmptyString
  end.

Definition after (t : Terminator) (record : list string) (records : list (list string))
    (v rest : string) : option (list (list string)) :=
  match t with
  | Comma => read FieldStart "" (record ++ [v]) records rest
  | Newline => read RecordStart "" [] (records ++ [record ++ [v]]) rest
  | EndOfText => Some (records ++ [record ++ [v]])
  end.

(** Where the reader is after a line of values. *)
Definition afterLine (t : Terminator) (record : list string)
    (records : list (list string)) (vs : list string) (rest : string)
    : option (list (list string)) :=
  match t with
  | Comma => read FieldStart "" (record ++ vs) records rest
  | Newline => read RecordStart "" [] (records ++ [record ++ vs]) rest
  | EndOfText => Some (records ++ [record ++ vs])
  end.

(** A line as [convertToCSV] writes it when every value is escaped. *)
Definition lineOf (vs : list string) : string := join "," (map escapeCSVValue vs).

(** A text without comma, quote and newline. *)
Fixpoint plain (s : string) : bool :=
  match s with
  | EmptyString => true
  | String c rest => negb (isQuote c || isComma c || isNewline c) && plain rest
  end.

(** The cells of a data row: its keys under the dimensions, then the
    four metrics as they are printed. *)
Definition cellsOf (String_ : Q -> string) (dimensions : list string)
    (row : SearchAnalyticsRow) : list string :=
  map (fun index => orEmpty (keyAt row index)) (seq 0 (List.length dimensions))
  ++ [ String_ (clicks row);
       String_ (impressions row);
       (JsNumber.toFixed (ctr row * 100) 2 ++ "%")%string;
       JsNumber.toFixed (position row) 1 ].

(** A stand-in for [String(x)] on whole numbers. *)
Definition printWhole (x : Q) : string := JsNumber.stringOfZ (Qfloor x).

End CsvSpec.

(** More calendar checks. *)
Module DateSpec2.

Import JsDate DateSpec.

(** The day of the month that [civilFromDays] finds for a day of the era
    is a day of its month. *)
Definition eraValid (doe : Z) : bool :=
  let yoe := (doe - doe / 1460 + doe / 36524 - doe / 146096) / 365 in
  let doy := doe - (365 * yoe + yoe / 4 - yoe / 100) in
  let mp := (5 * doy + 2) / 153 in
  let d := doy - (153 * mp + 2) / 5 + 1 in
  let m := if mp <? 10 then mp + 3 else mp - 9 in
  let y := if m <=? 2 then yoe + 1 else yoe in
  (1 <=? d) && (d <=? daysInMonth y m).

Definition sameDate (a b : Z * Z * Z) : bool :=
  (fst (fst a) =? fst (fst b)) && (snd (fst a) =? snd (fst b)) && (snd a =? snd b).

(** [civilFromDays] finds every day of the year [y] again. *)
Definition yearCheck (y : Z) : bool :=
  allFrom
    (fun m =>
       allFrom (fun d => sameDate (civilFromDays (daysFromCivil y m d)) (y, m, d))
         1 (Z.to_nat (daysInMonth y m)))
    1 12.

(** [pad width n] has [width] characters, which are the digits of [n]. *)
Definition padCheck (width : nat) (n : Z) : bool :=
  match digitsValue 0 (list_ascii_of_string (pad width n)) with
  | Some v => (v =? n) && (String.length (pad width n) =? width)%nat
  | None => false
  end.

(** The day that a time value falls on, as a time value. *)
Definition startOfDay (t : Z) : Z := MakeDate (Day t) 0.

(** The time values whose date is printed with a year of four digits. *)
Definition fourDigitYear (t : Z) : Prop := 0 <= YearFromTime t <= 9999.

(** A year of four digits is written with four characters. *)
Definition yearCheck4 (y : Z) : bool :=
  (String.length (JsNumber.stringOfZ y) =? 4)%nat.

(** Midnight of 0000-01-01, the first day with a year of four digits. *)
Definition firstDay : Z := MakeDate (daysFromCivil 0 1 1) 0.

(** Midnight of 1000-01-01, from where on the year has four digits
    without padding. *)
Definition year1000 : Z := MakeDate (daysFromCivil 1000 1 1) 0.

(** Midnight of 9999-12-31, the last one. *)
Definition lastDay : Z := MakeDate (daysFromCivil 9999 12 31) 0.

End DateSpec2.
(* ================================================================== *)
(** ** Concrete services and inputs used by the examples *)
(* ================================================================== *)

Module Fixtures.

Import Client.

(** An operation that counts its attempts and always fails the same way. *)
Definition failing (msg : string) : Operation nat unit :=
  fun n => (S n, inl (mkError msg)).

(** The same for an operation of any result type. *)
Definition failingWith {T : Type} (msg : string) : Operation nat T :=
  fun n => (S n, inl (mkError msg)).

(** A service that always has as many rows as a request asks for. *)
Definition someRow : ApiRow :=
  mkApiRow (Some ["shoes"]) (Some 1%Q) (Some 10%Q) (Some (1 # 10)) (Some 3%Q).

Definition fullService : Request -> Operation unit ApiResponse :=
  fun request w =>
    (w, inr (mkApiResponse (Some (repeat someRow (Z.to_nat (rq_rowLimit request))))
                           (Some "auto"))).

(** A service that has 30000 rows in all. *)
Definition smallService : Request -> Operation unit ApiResponse :=
  fun request w =>
    (w, inr (mkApiResponse
               (Some (repeat someRow
                        (Z.to_nat (Z.min (rq_rowLimit request)
                                     (30000 - rq_startRow request)))))
               (Some "auto"))).

Definition queryFor (rowLimit startRow : option Z) : SearchAnalyticsQuery :=
  mkQuery "sc-domain:example.com" "2024-01-01" "2024-01-31" (Some ["query"]) None
    rowLimit startRow None None.

(** The offset and the size of the page that a call asked for. *)
Definition pageOf (c : Call) : Z * Z :=
  (rq_startRow (call_request c), rq_rowLimit (call_request c)).

Definition pagesOf {World : Type} (result : option (Result World)) : list (Z * Z) :=
  match result with
  | Some (_, _, log) => map pageOf log
  | None => []
  end.

(** Daily rows; the ctr is what the service would send, clicks over
    impressions. *)
Definition daily (date : string) (clicks impressions position : Q) : SearchAnalyticsRow :=
  mkRow (Some [date]) clicks impressions (clicks / impressions) position.

(** 2024-01-07 is a Sunday, 2024-01-01 and 2024-01-08 are Mondays. *)
Definition januaryRows : list SearchAnalyticsRow :=
  [ daily "2024-01-08" 4 40 2;
    daily "2024-01-03" 1 100 3;
    mkRow None 9 9 1 1;
    daily "2024-01-05" 1 1 6;
    daily "2024-02-01" 5 50 8 ].

(** Rows of a query by (query, page). *)
Definition pageRow (query page : string) (clicks impressions ctr position : Q)
    : SearchAnalyticsRow :=
  mkRow (Some [query; page]) clicks impressions ctr position.

(** A period whose rows add up to the given clicks and impressions. *)
Definition period (clicks impressions : Q) : option (list SearchAnalyticsRow) :=
  Some [mkRow None clicks impressions 0 3].

Definition sampleOpportunityRows : list SearchAnalyticsRow :=
  [ pageRow "a" "https://example.com/x" 10 1000 (1 # 100) 10;
    pageRow "b" "https://example.com/y" 1 110 (1 # 100) 4;
    pageRow "c" "https://example.com/z" 0 99 0 5;
    pageRow "d" "https://example.com/" 50 5000 (1 # 100) 20;
    pageRow "e" "https://example.com/w" 3 100 (3 # 100) 6;
    pageRow "f" "https://example.com/v" 1 200 (1 # 200) 3 ].

(** Two rows of one query and one page. *)
Definition repeatedPageRows : option (list SearchAnalyticsRow) :=
  Some [ pageRow "shoes" "https://example.com/a" 5 500 (1 # 100) (32 # 10);
         pageRow "shoes" "https://example.com/a" 3 300 (1 # 100) (78 # 10) ].

(** Two pages for the query "shoes", one page for "hats", two pages with
    few impressions for "socks", two pages ranking low for "boots". *)
Definition shoesRows : option (list SearchAnalyticsRow) :=
  Some [ pageRow "shoes" "https://example.com/b" 3 300 (1 # 100) (78 # 10);
         pageRow "hats" "https://example.com/h" 9 900 (1 # 100) 2;
         pageRow "socks" "https://example.com/s1" 1 20 (1 # 20) 4;
         pageRow "boots" "https://example.com/b1" 9 900 (1 # 100) 9;
         pageRow "shoes" "https://example.com/a" 5 500 (1 # 100) (32 # 10);
         pageRow "socks" "https://example.com/s2" 1 20 (1 # 20) 5;
         pageRow "boots" "https://example.com/b2" 1 100 (1 # 100) 6 ].

Definition defaultCannibalizationArgs : Opportunities.CannibalizationArgs :=
  Opportunities.mkCannibalizationArgs (Some "sc-domain:example.com") false None None.

End Fixtures.


(** More concrete inputs. *)
Module FixturesMore.

Import Client FormattersMore SearchAnalyticsTools SearchAnalyticsReport Fixtures.

Definition weeklyArgs : QueryArgs :=
  mkQueryArgs "sc-domain:example.com" "2024-01-01" "2024-02-04" (Some ["date"])
    (Some Weekly) (Some CompactFormat).

Definition januaryResponse : SearchAnalyticsResponse :=
  mkResponse (Some januaryRows) (Some "byProperty").

(** Rows whose ctr is their clicks over their impressions. *)
Definition consistentRows : list SearchAnalyticsRow :=
  [ pageRow "a" "https://example.com/x" 10 1000 (1 # 100) 10;
    pageRow "d" "https://example.com/" 50 5000 (1 # 100) 20;
    pageRow "e" "https://example.com/w" 3 100 (3 # 100) 6;
    pageRow "g" "https://example.com/u" 2 400 (1 # 200) 7 ].

End FixturesMore.
(* ================================================================== *)
(** ** Facts about the client *)
(* ================================================================== *)

Module ClientFacts.

Import Client ClientSpec Fixtures.

Section Retry.

Context {World T : Type}.
Variable operation : Operation World T.

(** The fuel of the retry loop does not matter once it covers the
    iterations that the loop condition allows. *)
Lemma withRetry_loop_fuel (fuel1 fuel2 retries attempt : nat) lastError (w : World) :
  (retries < attempt + fuel1)%nat -> (retries < attempt + fuel2)%nat ->
  withRetry_loop fuel1 operation retries attempt lastError w
  = withRetry_loop fuel2 operation retries attempt lastError w.
Proof.
  revert fuel2 attempt lastError w.
  induction fuel1 as [|f1 IH]; intros fuel2 attempt lastError w H1 H2.
  - destruct fuel2; simpl; destruct (Nat.leb_spec attempt retries); try lia; reflexivity.
  - destruct fuel2 as [|f2]; simpl.
    + destruct (Nat.leb_spec attempt retries); [lia | reflexivity].
    + destruct (Nat.leb_spec attempt retries) as [Hle|Hgt]; [|reflexivity].
      destruct (operation w) as [w1 [e|v]]; [|reflexivity].
      destruct (negb (isRetryableError e) || (attempt =? retries)%nat) eqn:Hstop;
        [reflexivity|].
      apply orb_false_iff in Hstop as [_ Hne]. apply Nat.eqb_neq in Hne.
      rewrite (IH f2 (S attempt) (Some e) w1) by lia. reflexivity.
Qed.

(** A value on the first attempt: one attempt, no sleep. *)
Lemma withRetry_success (w w1 : World) (v : T) :
  operation w = (w1, inr v) ->
  withRetry operation MAX_RETRIES w = (w1, Returned v, [Attempt]).
Proof. intros H. unfold withRetry, MAX_RETRIES. simpl. now rewrite H. Qed.

(** [withRetry] makes at least one and at most four attempts. *)
Lemma withRetry_attempt_bounds (w : World) :
  let '(_, _, events) := withRetry operation MAX_RETRIES w in
  (1 <= List.length (filter (fun ev => match ev with Attempt => true | _ => false end)
                       events) <= 4)%nat.
Proof.
  unfold withRetry, MAX_RETRIES. simpl.
  destruct (operation w) as [w1 [e1|v]]; simpl; [|lia].
  destruct (isRetryableError e1); simpl; [|lia].
  destruct (operation w1) as [w2 [e2|v]]; simpl; [|lia].
  destruct (isRetryableError e2); simpl; [|lia].
  destruct (operation w2) as [w3 [e3|v]]; simpl; [|lia].
  destruct (isRetryableError e3); simpl; [|lia].
  destruct (operation w3) as [w4 [e4|v]]; simpl; [|lia].
  destruct (isRetryableError e4); simpl; lia.
Qed.

End Retry.

(** C2.  An operation that fails with a retryable error on each of its
    attempts is attempted exactly four times by [withRetry], with sleeps of
    1000, 2000 and 4000 ms in between, and the error of the fourth attempt
    is thrown; an operation that fails with an error that is not retryable
    is attempted once and that error is thrown at once. *)
Theorem withRetry_attempts {World T : Type} (operation : Operation World T) :
  (forall (w0 w1 w2 w3 w4 : World) (e1 e2 e3 e4 : Error),
      operation w0 = (w1, inl e1) -> isRetryableError e1 = true ->
      operation w1 = (w2, inl e2) -> isRetryableError e2 = true ->
      operation w2 = (w3, inl e3) -> isRetryableError e3 = true ->
      operation w3 = (w4, inl e4) -> isRetryableError e4 = true ->
      withRetry operation MAX_RETRIES w0
      = (w4, Thrown e4,
         [Attempt; Sleep 1000; Attempt; Sleep 2000; Attempt; Sleep 4000; Attempt]))
  /\ (forall (w0 w1 : World) (e : Error),
      operation w0 = (w1, inl e) -> isRetryableError e = false ->
      withRetry operation MAX_RETRIES w0 = (w1, Thrown e, [Attempt])).
Proof.
  split.
  - intros w0 w1 w2 w3 w4 e1 e2 e3 e4 H1 R1 H2 R2 H3 R3 H4 R4.
    unfold withRetry, MAX_RETRIES. simpl.
    rewrite H1, R1. simpl. rewrite H2, R2. simpl. rewrite H3, R3. simpl.
    rewrite H4, R4. reflexivity.
  - intros w0 w1 e H R.
    unfold withRetry, MAX_RETRIES. simpl. rewrite H, R. reflexivity.
Qed.

Lemma withRetry_attempts_witness :
  withRetry (failing "Quota exceeded for quota metric") MAX_RETRIES 0%nat
  = (4%nat, Thrown (mkError "Quota exceeded for quota metric"),
     [Attempt; Sleep 1000; Attempt; Sleep 2000; Attempt; Sleep 4000; Attempt])
  /\ withRetry (failing "403 Forbidden") MAX_RETRIES 0%nat
     = (1%nat, Thrown (mkError "403 Forbidden"), [Attempt]).
Proof.
  split.
  - apply (proj1 (withRetry_attempts (failing "Quota exceeded for quota metric"))
             0%nat 1%nat 2%nat 3%nat 4%nat
             (mkError "Quota exceeded for quota metric")
             (mkError "Quota exceeded for quota metric")
             (mkError "Quota exceeded for quota metric")
             (mkError "Quota exceeded for quota metric")); reflexivity.
  - apply (proj2 (withRetry_attempts (failing "403 Forbidden")) 0%nat 1%nat
             (mkError "403 Forbidden")); reflexivity.
Defined.


(** The substrings that make a message retryable. *)
Lemma isRetryableError_iff (error : Error) :
  isRetryableError error = true <->
  exists needle,
    In needle ["quota"; "rate limit"; "econnreset"; "etimedout"; "enotfound";
               "500"; "503"]
    /\ JsString.includes (JsString.toLowerCase (message error)) needle = true.
Proof.
  unfold isRetryableError. cbv zeta.
  set (m := JsString.toLowerCase (message error)).
  split.
  - intros H.
    destruct (JsString.includes m "quota") eqn:E1;
      [exists "quota"; simpl; auto|].
    destruct (JsString.includes m "rate limit") eqn:E2;
      [exists "rate limit"; simpl; auto|].
    destruct (JsString.includes m "econnreset") eqn:E3;
      [exists "econnreset"; simpl; auto|].
    destruct (JsString.includes m "etimedout") eqn:E4;
      [exists "etimedout"; simpl; auto 6|].
    destruct (JsString.includes m "enotfound") eqn:E5;
      [exists "enotfound"; simpl; auto 7|].
    destruct (JsString.includes m "500") eqn:E6;
      [exists "500"; simpl; auto 8|].
    destruct (JsString.includes m "503") eqn:E7;
      [exists "503"; simpl; auto 9|].
    simpl in H. discriminate.
  - intros (needle & Hin & Hinc). simpl in Hin.
    repeat (destruct Hin as [<-|Hin]; [rewrite Hinc|]);
      try contradiction;
      repeat match goal with
             | |- context [JsString.includes m ?n] => destruct (JsString.includes m n)
             end; reflexivity.
Qed.

(** C5.  Of the server statuses, [isRetryableError] knows 500 and 503 only:
    an error whose message carries 502 or 504 (and nothing else that the
    function looks for) is classified as not retryable, like a 403. *)
Theorem isRetryableError_misses_502_504 :
  isRetryableError (mkError "Request failed with status code 502") = false
  /\ isRetryableError (mkError "504 Gateway Timeout") = false
  /\ isRetryableError (mkError "Request failed with status code 500") = true
  /\ isRetryableError (mkError "503 Service Unavailable") = true
  /\ isRetryableError (mkError "403 Forbidden") = false.
Proof. repeat split; reflexivity. Qed.

Section Getters.

Context {World : Type}.
Variable sites_get : string -> Operation World SiteData.
Variable sitemaps_get : string -> string -> Operation World SitemapData.

Lemma tryOrNull_returns {A B : Type} (r : World * Outcome A * list RetryEvent)
    (f : A -> B) :
  exists w' v events, tryOrNull World r f = (w', Returned v, events).
Proof. destruct r as [[w' [a|e|]] events]; simpl; eauto. Qed.

Lemma tryOrNull_thrown {A B : Type} (w' : World) (e : Error) events (f : A -> B) :
  tryOrNull World (w', Thrown e, events) f = (w', Returned None, events).
Proof. reflexivity. Qed.

End Getters.

(** C10.  [getSite] and [getSitemap] never throw: whatever the remote call
    does, they return; and whenever the retry-wrapped remote call throws
    (for any error at all, not-found or not), what they return is [null]. *)
Theorem getSite_getSitemap_swallow_errors {World : Type}
    (sites_get : string -> Operation World SiteData)
    (sitemaps_get : string -> string -> Operation World SitemapData)
    (siteUrl feedpath : string) (w : World) :
  (exists w' v events, getSite sites_get siteUrl w = (w', Returned v, events))
  /\ (exists w' v events,
        getSitemap sitemaps_get siteUrl feedpath w = (w', Returned v, events))
  /\ (forall w' e events,
        withRetry (sites_get siteUrl) MAX_RETRIES w = (w', Thrown e, events) ->
        getSite sites_get siteUrl w = (w', Returned None, events))
  /\ (forall w' e events,
        withRetry (sitemaps_get siteUrl feedpath) MAX_RETRIES w = (w', Thrown e, events) ->
        getSitemap sitemaps_get siteUrl feedpath w = (w', Returned None, events)).
Proof.
  repeat split.
  - apply tryOrNull_returns.
  - apply tryOrNull_returns.
  - intros w' e events H. unfold getSite. rewrite H. reflexivity.
  - intros w' e events H. unfold getSitemap. rewrite H. reflexivity.
Qed.

(** A permission error and a not-found error give the same answer, and so
    does an error that is still there after the last retry. *)
Lemma getSite_getSitemap_swallow_errors_witness :
  getSite (fun _ => failingWith "403 Forbidden: user lacks permission") "sc-domain:a.com" 0%nat
  = (1%nat, Returned None, [Attempt])
  /\ getSite (fun _ => failingWith "404 Not Found") "sc-domain:a.com" 0%nat
     = (1%nat, Returned None, [Attempt])
  /\ getSitemap (fun _ _ => failingWith "503 Service Unavailable")
       "sc-domain:a.com" "/sitemap.xml" 0%nat
     = (4%nat, Returned None,
        [Attempt; Sleep 1000; Attempt; Sleep 2000; Attempt; Sleep 4000; Attempt]).
Proof.
  split; [|split].
  - apply (proj1 (proj2 (proj2
      (getSite_getSitemap_swallow_errors
         (fun _ => failingWith "403 Forbidden: user lacks permission")
         (fun _ _ => failingWith "503 Service Unavailable")
         "sc-domain:a.com" "/sitemap.xml" 0%nat)))
      1%nat (mkError "403 Forbidden: user lacks permission") [Attempt]).
    reflexivity.
  - apply (proj1 (proj2 (proj2
      (getSite_getSitemap_swallow_errors
         (fun _ => failingWith "404 Not Found")
         (fun _ _ => failingWith "503 Service Unavailable")
         "sc-domain:a.com" "/sitemap.xml" 0%nat)))
      1%nat (mkError "404 Not Found") [Attempt]).
    reflexivity.
  - apply (proj2 (proj2 (proj2
      (getSite_getSitemap_swallow_errors
         (fun _ => failingWith "404 Not Found")
         (fun _ _ => failingWith "503 Service Unavailable")
         "sc-domain:a.com" "/sitemap.xml" 0%nat)))
      4%nat (mkError "503 Service Unavailable")).
    reflexivity.
Defined.

End ClientFacts.

(* ================================================================== *)
(** ** Facts about pagination *)
(* ================================================================== *)

Module PaginationFacts.

Import Client ClientSpec Fixtures.

(** [pageCount] is the ceiling: the least number of pages of 25000 rows
    that hold [rowLimit] rows. *)
Lemma pageCount_ceiling (rowLimit : Z) :
  0 < rowLimit ->
  MAX_ROWS_PER_REQUEST * (Z.of_nat (pageCount rowLimit) - 1) < rowLimit
  /\ rowLimit <= MAX_ROWS_PER_REQUEST * Z.of_nat (pageCount rowLimit).
Proof.
  intros Hpos. unfold pageCount.
  replace (Qceiling (inject_Z rowLimit / inject_Z MAX_ROWS_PER_REQUEST))
    with (- (- rowLimit / 25000))
    by (unfold Qceiling, Qfloor; simpl; now rewrite Z.mul_1_r).
  unfold MAX_ROWS_PER_REQUEST.
  assert (H : 0 <= - (- rowLimit / 25000)) by (Z.div_mod_to_equations; lia).
  rewrite Z2Nat.id by exact H.
  Z.div_mod_to_equations; lia.
Qed.

Section Pagination.

Context {World : Type}.
Variable searchanalytics_query : Request -> Operation World ApiResponse.

Lemma searchAnalytics_rec_page (depth : nat) (query : SearchAnalyticsQuery)
    (k s : Z) (w : World) :
  k <= MAX_ROWS_PER_REQUEST ->
  searchAnalytics_rec searchanalytics_query depth (withPage query k s) w
  = Some (searchAnalyticsOnce searchanalytics_query (withPage query k s) w).
Proof.
  intros Hk. destruct depth; simpl; unfold rowLimitOf; simpl;
    destruct (Z.gtb_spec k MAX_ROWS_PER_REQUEST); try lia; reflexivity.
Qed.

(** [this.searchAnalytics] as the loop uses it: on a page, it is the single
    call. *)
Variable self : SearchAnalyticsQuery -> World -> option (Result World).
Hypothesis self_page :
  forall query k s w,
    k <= MAX_ROWS_PER_REQUEST ->
    self (withPage query k s) w
    = Some (searchAnalyticsOnce searchanalytics_query (withPage query k s) w).

Lemma once_shape (query : SearchAnalyticsQuery) (w : World) :
  exists w1 r events,
    searchAnalyticsOnce searchanalytics_query query w = (w1, r, [mkCall (requestOf query) events r])
    /\ (exists r0,
          withRetry (searchanalytics_query (requestOf query)) MAX_RETRIES w
          = (w1, r0, events)
          /\ r = mapOutcome convertResponse r0).
Proof.
  unfold searchAnalyticsOnce.
  destruct (withRetry (searchanalytics_query (requestOf query)) MAX_RETRIES w)
    as [[w1 r0] events].
  exists w1, (mapOutcome convertResponse r0), events. split; [reflexivity|].
  exists r0. split; reflexivity.
Qed.

(** The loop returns within its fuel, and its calls are chained pages. *)
Lemma paginate_calls (fuel : nat) (query : SearchAnalyticsQuery) (total : Z) :
  forall (allRows : list SearchAnalyticsRow) (s : Z) (agg : option string)
         (w : World) (log : list Call),
    (Z.to_nat (total - rowCount allRows) <= fuel)%nat ->
    exists w' r calls,
      paginate fuel self query total allRows s agg w log = Some (w', r, log ++ calls)
      /\ PageCalls s calls.
Proof.
  induction fuel as [|fuel IH]; intros allRows s agg w log Hfuel.
  - simpl. destruct (Z.ltb_spec (rowCount allRows) total); [lia|].
    eexists _, _, []. rewrite app_nil_r. split; [reflexivity | constructor].
  - simpl. destruct (Z.ltb_spec (rowCount allRows) total) as [Hlt|Hge].
    2:{ eexists _, _, []. rewrite app_nil_r. split; [reflexivity | constructor]. }
    set (k := Z.min MAX_ROWS_PER_REQUEST (total - rowCount allRows)).
    assert (Hk : 1 <= k <= MAX_ROWS_PER_REQUEST)
      by (unfold k, MAX_ROWS_PER_REQUEST; lia).
    rewrite self_page by lia.
    destruct (once_shape (withPage query k s) w) as (w1 & r & events & Honce & _).
    rewrite Honce.
    set (c := mkCall (requestOf (withPage query k s)) events r).
    assert (Hlast : PageCalls s [c]).
    { constructor; simpl; try assumption; try reflexivity.
      - intros Hne; now contradiction Hne.
      - constructor. }
    destruct r as [response|e|].
    2,3: eexists _, _, [c]; split; [reflexivity | exact Hlast].
    destruct (rows response) as [[|row rs]|] eqn:Hrows.
    1,3: eexists _, _, [c]; split; [reflexivity | exact Hlast].
    destruct (Z.ltb_spec (rowCount (row :: rs)) k) as [Hshort|Hfull].
    { eexists _, _, [c]; split; [reflexivity | exact Hlast]. }
    destruct (IH (allRows ++ row :: rs) (s + k) (responseAggregationType response)
                w1 (log ++ [c])) as (w' & r' & calls & Hrec & Hcalls).
    { unfold rowCount in *. rewrite length_app. lia. }
    exists w', r', (c :: calls). split.
    + rewrite Hrec. now rewrite <- app_assoc.
    + constructor; simpl; try assumption; try reflexivity.
      intros _. unfold fullPage, returnedRows, c.
      cbn [call_result call_request]. rewrite Hrows. cbn [option_map].
      change (rq_rowLimit (requestOf (withPage query k s))) with k.
      apply andb_true_iff. split; [apply Z.ltb_lt | apply Z.leb_le];
        unfold rowCount in *; cbn [List.length] in *; lia.
Qed.

(** With a service that fills every page, the loop asks for the pages
    [j0], [j0 + 1], ... up to the last one. *)
Lemma paginate_full (query : SearchAnalyticsQuery) :
  returnsFullPages searchanalytics_query ->
  MAX_ROWS_PER_REQUEST < rowLimitOf query ->
  forall (m j0 fuel : nat) (allRows : list SearchAnalyticsRow) (s : Z)
         (agg : option string) (w : World) (log : list Call),
    (m + j0 = pageCount (rowLimitOf query))%nat ->
    rowCount allRows
    = Z.min (rowLimitOf query) (MAX_ROWS_PER_REQUEST * Z.of_nat j0) ->
    ((0 < m)%nat -> s = startRowOf query + MAX_ROWS_PER_REQUEST * Z.of_nat j0) ->
    (m <= fuel)%nat ->
    exists w' r calls,
      paginate fuel self query (rowLimitOf query) allRows s agg w log
      = Some (w', Returned r, log ++ calls)
      /\ map call_request calls = map (pageRequest query) (seq j0 m).
Proof.
  intros Hfull Hbig.
  pose proof (pageCount_ceiling (rowLimitOf query)) as Hceil.
  assert (Hpos : 0 < rowLimitOf query) by (unfold MAX_ROWS_PER_REQUEST in *; lia).
  specialize (Hceil Hpos).
  induction m as [|m IH]; intros j0 fuel allRows s agg w log Hm Hlen Hs Hfuel.
  - (* all pages are in *)
    assert (Hdone : rowCount allRows = rowLimitOf query).
    { simpl in Hm. rewrite <- Hm in Hceil. unfold MAX_ROWS_PER_REQUEST in *. lia. }
    destruct fuel; simpl; rewrite Hdone, Z.ltb_irrefl;
      eexists _, _, []; rewrite app_nil_r; split; reflexivity.
  - destruct fuel as [|fuel]; [lia|].
    assert (Hj0 : MAX_ROWS_PER_REQUEST * Z.of_nat j0 < rowLimitOf query).
    { unfold MAX_ROWS_PER_REQUEST in *. lia. }
    assert (Hlen' : rowCount allRows = MAX_ROWS_PER_REQUEST * Z.of_nat j0)
      by (unfold MAX_ROWS_PER_REQUEST in *; lia).
    simpl. destruct (Z.ltb_spec (rowCount allRows) (rowLimitOf query)); [|lia].
    set (k := Z.min MAX_ROWS_PER_REQUEST (rowLimitOf query - rowCount allRows)).
    assert (Hk : 1 <= k <= MAX_ROWS_PER_REQUEST)
      by (unfold k, MAX_ROWS_PER_REQUEST in *; lia).
    rewrite self_page by lia.
    rewrite (Hs ltac:(lia)).
    set (s0 := startRowOf query + MAX_ROWS_PER_REQUEST * Z.of_nat j0).
    destruct (once_shape (withPage query k s0) w)
      as (w1 & r & events & Honce & r0 & Hretry & Hr).
    rewrite Honce.
    destruct (Hfull (requestOf (withPage query k s0)) w)
      as (w1' & data & rs & events' & Hcall & Hrows & Hcount).
    { simpl. unfold rowLimitOf. simpl. lia. }
    rewrite Hretry in Hcall. inversion Hcall; subst w1' r0 events'. clear Hcall.
    simpl in Hr. subst r.
    assert (Hn : rowCount (map convertRow rs) = k).
    { unfold rowCount. rewrite length_map, Hcount. simpl. unfold rowLimitOf. reflexivity. }
    unfold convertResponse at 1 2 3. simpl. rewrite Hrows. simpl.
    destruct (map convertRow rs) as [|row rows'] eqn:Hmap.
    { unfold rowCount in Hn. simpl in Hn. lia. }
    rewrite Hn, Z.ltb_irrefl.
    set (c := mkCall _ events _).
    destruct (IH (S j0) fuel (allRows ++ row :: rows') (s0 + k)
                (responseAggregationType (convertResponse data)) w1 (log ++ [c]))
      as (w' & r' & calls & Hrec & Hreqs).
    + lia.
    + unfold rowCount in *. rewrite length_app, Nat2Z.inj_add, Hlen, Hn.
      unfold k, MAX_ROWS_PER_REQUEST in *. lia.
    + intros Hm0.
      assert (k = MAX_ROWS_PER_REQUEST).
      { unfold k, MAX_ROWS_PER_REQUEST in *. lia. }
      unfold s0. lia.
    + lia.
    + exists w', r', (c :: calls). split.
      * rewrite <- app_assoc in Hrec. exact Hrec.
      * simpl. rewrite Hreqs. f_equal.
        unfold c, pageRequest. simpl. unfold k, s0. rewrite Hlen'. reflexivity.
Qed.

End Pagination.


Lemma PageCalls_bounds (s : Z) (log : list Call) :
  PageCalls s log ->
  Forall (fun c => 1 <= rq_rowLimit (call_request c) <= MAX_ROWS_PER_REQUEST) log.
Proof. induction 1; constructor; assumption. Qed.

Lemma PageCalls_next (s : Z) (log : list Call) :
  PageCalls s log ->
  forall (i : nat) (c c' : Call),
    nth_error log i = Some c -> nth_error log (S i) = Some c' ->
    fullPage c = true
    /\ rq_startRow (call_request c')
       = rq_startRow (call_request c) + rq_rowLimit (call_request c).
Proof.
  induction 1 as [|s c0 rest Hs Hb Hfull Hrest IH]; intros i c c' Hi Hi'.
  - destruct i; discriminate.
  - destruct i as [|i].
    + simpl in Hi, Hi'. inversion Hi; subst c0. split.
      * apply Hfull. destruct rest; [discriminate | discriminate].
      * destruct rest as [|c1 rest]; [discriminate|].
        simpl in Hi'. inversion Hi'; subst c1.
        inversion Hrest; subst. lia.
    + simpl in Hi, Hi'. eapply IH; eassumption.
Qed.

Lemma PageCalls_stop (s : Z) (log : list Call) :
  PageCalls s log ->
  forall (i : nat) (c : Call),
    nth_error log i = Some c -> fullPage c = false -> List.length log = S i.
Proof.
  induction 1 as [|s c0 rest Hs Hb Hfull Hrest IH]; intros i c Hi Hshort.
  - destruct i; discriminate.
  - destruct i as [|i]; simpl in Hi.
    + inversion Hi; subst c0. destruct rest as [|c1 rest]; [reflexivity|].
      rewrite Hfull in Hshort by discriminate. discriminate.
    + simpl. f_equal. eapply IH; eassumption.
Qed.

Lemma countOr_rowLimit (query : SearchAnalyticsQuery) :
  MAX_ROWS_PER_REQUEST < rowLimitOf query ->
  countOr (q_rowLimit query) MAX_ROWS_PER_REQUEST = rowLimitOf query.
Proof.
  unfold rowLimitOf, countOr, MAX_ROWS_PER_REQUEST.
  destruct (q_rowLimit query) as [n|]; [|lia].
  intros H. destruct (Z.eqb_spec n 0); [lia | reflexivity].
Qed.

Lemma countOr_startRow (query : SearchAnalyticsQuery) :
  countOr (q_startRow query) 0 = startRowOf query.
Proof.
  unfold startRowOf, countOr. destruct (q_startRow query) as [n|]; [|reflexivity].
  destruct (Z.eqb_spec n 0); congruence.
Qed.

(** C1.  [searchAnalytics] always returns.  For [rowLimit <= 25000] it makes
    exactly one (retry-wrapped) remote call, with the [rowLimit] and
    [startRow] of the query, and that call is a single attempt when the
    service answers it.  For [rowLimit > 25000] the first call starts
    at the [startRow] of the query, each further call starts where the one
    before ended (so the offsets grow strictly), a call that comes back
    without a full, non-empty page is the last one, and if the service
    fills every page the calls are exactly the [ceil(rowLimit / 25000)]
    pages of the query.  No call asks for more than 25000 rows. *)
Theorem searchAnalytics_pagination {World : Type}
    (searchanalytics_query : Request -> Operation World ApiResponse)
    (query : SearchAnalyticsQuery) (w : World) :
  exists w' r log,
    searchAnalytics searchanalytics_query query w = Some (w', r, log)
    /\ Forall (fun c => rq_rowLimit (call_request c) <= MAX_ROWS_PER_REQUEST) log
    /\ (rowLimitOf query <= MAX_ROWS_PER_REQUEST ->
        exists c r0,
          log = [c] /\ call_request c = requestOf query
          /\ withRetry (searchanalytics_query (requestOf query)) MAX_RETRIES w
             = (w', r0, call_events c)
          /\ r = mapOutcome convertResponse r0
          /\ (forall w1 data,
                searchanalytics_query (requestOf query) w = (w1, inr data) ->
                call_events c = [Attempt]))
    /\ (MAX_ROWS_PER_REQUEST < rowLimitOf query ->
        (forall c, nth_error log 0 = Some c ->
                   rq_startRow (call_request c) = startRowOf query)
        /\ (forall i c c',
              nth_error log i = Some c -> nth_error log (S i) = Some c' ->
              rq_startRow (call_request c')
              = rq_startRow (call_request c) + rq_rowLimit (call_request c)
              /\ rq_startRow (call_request c) < rq_startRow (call_request c'))
        /\ (forall i c,
              nth_error log i = Some c -> fullPage c = false ->
              List.length log = S i)
        /\ (returnsFullPages searchanalytics_query ->
            List.length log = pageCount (rowLimitOf query)
            /\ map call_request log
               = map (pageRequest query) (seq 0 (pageCount (rowLimitOf query))))).
Proof.
  unfold searchAnalytics. cbn [searchAnalytics_rec].
  destruct (Z.gtb_spec (rowLimitOf query) MAX_ROWS_PER_REQUEST) as [Hbig|Hsmall].
  - (* paginated *)
    unfold searchAnalyticsPaginated.
    rewrite countOr_rowLimit, countOr_startRow by exact Hbig.
    destruct (paginate_calls searchanalytics_query
                (searchAnalytics_rec searchanalytics_query 0)
                (searchAnalytics_rec_page searchanalytics_query 0)
                (Z.to_nat (rowLimitOf query)) query (rowLimitOf query)
                [] (startRowOf query) None w [])
      as (w' & r & calls & Hrun & Hcalls).
    { unfold rowCount. simpl. rewrite Z.sub_0_r. lia. }
    simpl in Hrun. exists w', r, calls. split; [exact Hrun|].
    pose proof (PageCalls_bounds _ _ Hcalls) as Hb.
    split; [|split; [lia|]].
    { eapply Forall_impl; [|exact Hb]. simpl. intros c Hc. lia. }
    intros _. repeat apply conj.
    + intros c Hc. destruct calls as [|c0 rest]; [discriminate|].
      simpl in Hc. inversion Hc; subst c0. now inversion Hcalls.
    + intros i c c' Hi Hi'.
      destruct (PageCalls_next _ _ Hcalls i c c' Hi Hi') as [_ Hnext].
      split; [exact Hnext|].
      apply nth_error_In in Hi. rewrite Forall_forall in Hb.
      specialize (Hb c Hi). lia.
    + intros i c Hi Hshort. eapply PageCalls_stop; eassumption.
    + intros Hfull.
      destruct (paginate_full searchanalytics_query
                  (searchAnalytics_rec searchanalytics_query 0)
                  (searchAnalytics_rec_page searchanalytics_query 0)
                  query Hfull Hbig
                  (pageCount (rowLimitOf query)) 0%nat
                  (Z.to_nat (rowLimitOf query)) [] (startRowOf query) None w [])
        as (w2 & r2 & calls2 & Hrun2 & Hreqs).
      * lia.
      * unfold rowCount, MAX_ROWS_PER_REQUEST in *. simpl. lia.
      * intros _. lia.
      * pose proof (pageCount_ceiling (rowLimitOf query)) as Hc.
        unfold MAX_ROWS_PER_REQUEST in *. lia.
      * simpl in Hrun2. rewrite Hrun in Hrun2. inversion Hrun2; subst.
        split; [|exact Hreqs].
        apply (f_equal (@List.length Request)) in Hreqs.
        now rewrite !length_map, length_seq in Hreqs.
  - (* one call *)
    destruct (once_shape searchanalytics_query query w)
      as (w1 & r & events & Honce & r0 & Hretry & Hr).
    rewrite Honce. eexists w1, r, _. split; [reflexivity|].
    split; [|split; [|lia]].
    + constructor; [|constructor]. simpl. exact Hsmall.
    + intros _. eexists _, r0. repeat apply conj; try reflexivity; try assumption.
      intros w2 data Hop. cbn [call_events].
      rewrite (ClientFacts.withRetry_success _ _ _ _ Hop) in Hretry.
      now inversion Hretry.
Qed.

Lemma fullService_returnsFullPages : returnsFullPages fullService.
Proof.
  intros request w Hpos. unfold fullService.
  eexists w, _, _, [Attempt]. split; [reflexivity|]. split; [reflexivity|].
  rewrite repeat_length. now apply Z2Nat.id.
Qed.

Lemma searchAnalytics_pagination_witness :
  exists w' r log,
    searchAnalytics fullService (queryFor (Some 60000) (Some 100)) tt = Some (w', r, log)
    /\ map pageOf log = [(100, 25000); (25100, 25000); (50100, 10000)].
Proof.
  destruct (searchAnalytics_pagination fullService (queryFor (Some 60000) (Some 100)) tt)
    as (w' & r & log & Hrun & _ & _ & Hbig).
  exists w', r, log. split; [exact Hrun|].
  destruct Hbig as (_ & _ & _ & Hpages); [reflexivity|].
  destruct (Hpages fullService_returnsFullPages) as [_ Hreqs]. clear Hpages.
  rename Hreqs into Hpages.
  change pageOf with (fun c => (fun q => (rq_startRow q, rq_rowLimit q)) (call_request c)).
  rewrite <- (map_map call_request (fun q => (rq_startRow q, rq_rowLimit q))), Hpages.
  reflexivity.
Defined.

(** The same by running the model, and runs that stop early. *)
Example searchAnalytics_pages_60000 :
  pagesOf (searchAnalytics fullService (queryFor (Some 60000) (Some 100)) tt)
  = [(100, 25000); (25100, 25000); (50100, 10000)].
Proof. vm_compute. reflexivity. Qed.

Example searchAnalytics_pages_one_call :
  pagesOf (searchAnalytics fullService (queryFor (Some 25000) None) tt) = [(0, 25000)]
  /\ pagesOf (searchAnalytics fullService (queryFor None None) tt) = [(0, 1000)].
Proof. vm_compute. split; reflexivity. Qed.

Example searchAnalytics_pages_short_page :
  pagesOf (searchAnalytics smallService (queryFor (Some 100000) None) tt)
  = [(0, 25000); (25000, 25000)].
Proof. vm_compute. reflexivity. Qed.

End PaginationFacts.

(* ================================================================== *)
(** ** Facts about strings and [stripUrlPrefix] *)
(* ================================================================== *)

Module JsStringFacts.

Import JsString.

Lemma startsWith_app (p r : string) : startsWith (p ++ r)%string p = true.
Proof.
  induction p as [|c p IH]; simpl; [reflexivity|].
  now rewrite Ascii.eqb_refl, IH.
Qed.

Lemma startsWith_inv (s p : string) :
  startsWith s p = true -> s = (p ++ sliceFrom s (String.length p))%string.
Proof.
  revert s; induction p as [|c p IH]; intros s H; simpl in *; [reflexivity|].
  destruct s as [|d s]; [discriminate|].
  apply andb_true_iff in H as [Hc Hs].
  apply Ascii.eqb_eq in Hc; subst d.
  simpl. f_equal. now apply IH.
Qed.

Lemma sliceFrom_app (p r : string) : sliceFrom (p ++ r)%string (String.length p) = r.
Proof. induction p as [|c p IH]; simpl; auto. Qed.

Lemma isEmpty_false (s : string) : s <> "" -> isEmpty s = false.
Proof. destruct s; [congruence | reflexivity]. Qed.

End JsStringFacts.

Module FormattersFacts.

Import JsString JsStringFacts Formatters UrlSpec.

Lemma stripped_app (p rest : string) : stripped (p ++ rest)%string p = orElse rest "/".
Proof. unfold stripped. now rewrite sliceFrom_app. Qed.

Lemma orElse_remainder (rest : string) : orElse rest "/" = remainder rest.
Proof. now destruct rest. Qed.

Lemma startsWith_hasPrefix (s p : string) : startsWith s p = true <-> hasPrefix p s.
Proof.
  split.
  - intros H. eexists. now apply startsWith_inv.
  - intros [rest ->]. apply startsWith_app.
Qed.

Lemma startsWith_false (s p : string) : ~ hasPrefix p s -> startsWith s p = false.
Proof.
  intros H. destruct (startsWith s p) eqn:E; [|reflexivity].
  exfalso. now apply H, startsWith_hasPrefix.
Qed.

Lemma dropTrailingSlash_slash (p : string) : dropTrailingSlash (p ++ "/") = p.
Proof.
  induction p as [|c p IH]; [reflexivity|].
  cbn [append dropTrailingSlash]. rewrite IH.
  destruct (p ++ "/")%string eqn:E; [|reflexivity].
  destruct p; discriminate.
Qed.

Lemma dropTrailingSlash_none (s : string) :
  (forall q, s <> (q ++ "/")%string) -> dropTrailingSlash s = s.
Proof.
  induction s as [|c s IH]; intros H; [reflexivity|].
  cbn [dropTrailingSlash]. destruct s as [|d s].
  - destruct (Ascii.eqb_spec c "/") as [->|]; [|reflexivity].
    exfalso. now apply (H "").
  - f_equal. apply IH. intros q Hq. apply (H (String c q)).
    cbn [append]. now rewrite Hq.
Qed.

Lemma dropTrailingSlash_spec (siteUrl p : string) :
  withoutTrailingSlash siteUrl p -> dropTrailingSlash siteUrl = p.
Proof.
  intros [->|[-> H]]; [apply dropTrailingSlash_slash | now apply dropTrailingSlash_none].
Qed.

(** The loop over the candidate prefixes strips the first one that the
    url starts with. *)
Lemma stripFirst_find (url : string) (prefixes : list string) :
  stripFirst url prefixes
  = match find (startsWith url) prefixes with
    | Some p => stripped url p
    | None => url
    end.
Proof.
  induction prefixes as [|p rest IH]; simpl; [reflexivity|].
  destruct (startsWith url p); [reflexivity | exact IH].
Qed.

Lemma stripUrlPrefix_domain (domain url : string) :
  stripUrlPrefix url (Some ("sc-domain:" ++ domain)%string)
  = stripFirst url (domainPrefixes domain).
Proof.
  unfold stripUrlPrefix.
  change (isEmpty ("sc-domain:" ++ domain)%string) with false.
  rewrite startsWith_app, sliceFrom_app. simpl.
  destruct url as [|c url]; [reflexivity | reflexivity].
Qed.

(** The two forms without [www.] are always removed as they stand; a form
    with [www.] is, unless the url also starts with the form without it
    (which takes a domain that itself begins like [www.]). *)
Lemma stripUrlPrefix_plain_forms (domain rest : string) :
  stripUrlPrefix (("https://" ++ domain) ++ rest)%string
    (Some ("sc-domain:" ++ domain)%string) = orElse rest "/"
  /\ stripUrlPrefix (("http://" ++ domain) ++ rest)%string
       (Some ("sc-domain:" ++ domain)%string) = orElse rest "/".
Proof.
  split; rewrite stripUrlPrefix_domain, stripFirst_find.
  - cbn [domainPrefixes find]. rewrite startsWith_app. apply stripped_app.
  - cbn [domainPrefixes find].
    change (startsWith (("http://" ++ domain) ++ rest) ("https://" ++ domain))
      with false.
    change (startsWith (("http://" ++ domain) ++ rest) ("https://www." ++ domain))
      with false.
    rewrite startsWith_app. apply stripped_app.
Qed.

Lemma stripUrlPrefix_www_forms (domain rest : string) :
  (startsWith (("https://www." ++ domain) ++ rest) ("https://" ++ domain) = false ->
   stripUrlPrefix (("https://www." ++ domain) ++ rest)%string
     (Some ("sc-domain:" ++ domain)%string) = orElse rest "/")
  /\ (startsWith (("http://www." ++ domain) ++ rest) ("http://" ++ domain) = false ->
      stripUrlPrefix (("http://www." ++ domain) ++ rest)%string
        (Some ("sc-domain:" ++ domain)%string) = orElse rest "/").
Proof.
  split; intros Hplain; rewrite stripUrlPrefix_domain, stripFirst_find;
    cbn [domainPrefixes find].
  - rewrite Hplain, startsWith_app. apply stripped_app.
  - change (startsWith (("http://www." ++ domain) ++ rest) ("https://" ++ domain))
      with false.
    change (startsWith (("http://www." ++ domain) ++ rest) ("https://www." ++ domain))
      with false.
    rewrite Hplain, startsWith_app. apply stripped_app.
Qed.

Lemma append_assoc3 (a b c : string) : ((a ++ b) ++ c = a ++ b ++ c)%string.
Proof. induction a as [|x a IH]; [reflexivity|]. cbn [append]. now rewrite IH. Qed.

(** A property that is a URL prefix. *)
Lemma stripUrlPrefix_site (siteUrl url : string) :
  ~ hasPrefix "sc-domain:" siteUrl ->
  stripUrlPrefix url (Some siteUrl)
  = if isEmpty siteUrl || isEmpty url then url
    else if startsWith url (dropTrailingSlash siteUrl)
         then stripped url (dropTrailingSlash siteUrl) else url.
Proof.
  intros Hdom. unfold stripUrlPrefix. now rewrite (startsWith_false _ _ Hdom).
Qed.

(** Where the host ends, the path begins. *)
Lemma fromSlash_host (host rest : string) :
  noSlash host = true -> pathStart rest ->
  remainder (fromSlash (host ++ rest)) = remainder rest.
Proof.
  intros Hhost Hrest. induction host as [|c host IH].
  - cbn [append]. destruct Hrest as [->|[r ->]]; reflexivity.
  - cbn [noSlash] in Hhost. apply andb_true_iff in Hhost as [Hc Hhost].
    cbn [append fromSlash]. apply negb_true_iff in Hc. rewrite Hc.
    now apply IH.
Qed.

(** C9 (as amended).  [stripUrlPrefix] removes the prefix of the property
    from the front of the url and returns what follows it, or ["/"] when
    nothing follows.  For a domain property [sc-domain:<domain>] the
    prefix is the first of [https://domain], [https://www.domain],
    [http://domain] and [http://www.domain] that the url begins with; for
    a URL-prefix property it is the property's URL without its trailing
    slash.  A url that begins with no such prefix, and any url when there
    is no property, is returned as it is.  What is returned is the path
    of the url when the prefix is its scheme and host and a path or
    nothing follows. *)
Theorem stripUrlPrefix_spec :
  (forall url,
      stripUrlPrefix url None = url /\ stripUrlPrefix url (Some "") = url)
  /\ (forall siteUrl, stripUrlPrefix "" (Some siteUrl) = "")
  /\ (forall domain rest,
        stripUrlPrefix ("https://" ++ domain ++ rest) (Some ("sc-domain:" ++ domain))
        = remainder rest
        /\ (~ hasPrefix ("https://" ++ domain) ("https://www." ++ domain ++ rest) ->
            stripUrlPrefix ("https://www." ++ domain ++ rest)
              (Some ("sc-domain:" ++ domain))
            = remainder rest)
        /\ stripUrlPrefix ("http://" ++ domain ++ rest) (Some ("sc-domain:" ++ domain))
           = remainder rest
        /\ (~ hasPrefix ("http://" ++ domain) ("http://www." ++ domain ++ rest) ->
            stripUrlPrefix ("http://www." ++ domain ++ rest)
              (Some ("sc-domain:" ++ domain))
            = remainder rest))%string
  /\ (forall domain url,
        ~ hasPrefix ("https://" ++ domain) url ->
        ~ hasPrefix ("https://www." ++ domain) url ->
        ~ hasPrefix ("http://" ++ domain) url ->
        ~ hasPrefix ("http://www." ++ domain) url ->
        stripUrlPrefix url (Some ("sc-domain:" ++ domain)) = url)%string
  /\ (forall siteUrl p rest,
        ~ hasPrefix "sc-domain:" siteUrl ->
        withoutTrailingSlash siteUrl p ->
        (p ++ rest)%string <> "" ->
        stripUrlPrefix (p ++ rest) (Some siteUrl) = remainder rest)
  /\ (forall siteUrl p url,
        ~ hasPrefix "sc-domain:" siteUrl ->
        withoutTrailingSlash siteUrl p ->
        ~ hasPrefix p url ->
        stripUrlPrefix url (Some siteUrl) = url)
  /\ (forall domain rest,
        noSlash domain = true -> pathStart rest ->
        pathOf ("https://" ++ domain ++ rest)
        = Some (stripUrlPrefix ("https://" ++ domain ++ rest)
                  (Some ("sc-domain:" ++ domain)))
        /\ pathOf ("http://" ++ domain ++ rest)
           = Some (stripUrlPrefix ("http://" ++ domain ++ rest)
                     (Some ("sc-domain:" ++ domain)))
        /\ (~ hasPrefix ("https://" ++ domain) ("https://www." ++ domain ++ rest) ->
            pathOf ("https://www." ++ domain ++ rest)
            = Some (stripUrlPrefix ("https://www." ++ domain ++ rest)
                      (Some ("sc-domain:" ++ domain))))
        /\ (~ hasPrefix ("http://" ++ domain) ("http://www." ++ domain ++ rest) ->
            pathOf ("http://www." ++ domain ++ rest)
            = Some (stripUrlPrefix ("http://www." ++ domain ++ rest)
                      (Some ("sc-domain:" ++ domain)))))%string
  /\ (forall scheme host siteUrl rest,
        scheme = "https://" \/ scheme = "http://" ->
        noSlash host = true -> pathStart rest ->
        withoutTrailingSlash siteUrl (scheme ++ host) ->
        pathOf (scheme ++ host ++ rest)
        = Some (stripUrlPrefix (scheme ++ host ++ rest) (Some siteUrl)))%string
  /\ stripUrlPrefix "https://example.com/blog/post" (Some "sc-domain:example.com")
     = "/blog/post"
  /\ stripUrlPrefix "https://other.com/x" (Some "sc-domain:example.com")
     = "https://other.com/x".
Proof.
  assert (Hsite : forall siteUrl p rest,
             ~ hasPrefix "sc-domain:" siteUrl ->
             withoutTrailingSlash siteUrl p ->
             (p ++ rest)%string <> "" ->
             stripUrlPrefix (p ++ rest) (Some siteUrl) = remainder rest).
  { intros siteUrl p rest Hdom Hp Hurl.
    rewrite (stripUrlPrefix_site _ _ Hdom), (dropTrailingSlash_spec _ _ Hp).
    rewrite (isEmpty_false _ Hurl), orb_false_r.
    destruct siteUrl as [|c siteUrl]; cbn [isEmpty].
    - destruct Hp as [Hp|[<- _]]; [destruct p; discriminate|].
      cbn [append] in *. now destruct rest.
    - rewrite startsWith_app, stripped_app. apply orElse_remainder. }
  split; [intros url; split; reflexivity|].
  split.
  { intros siteUrl. unfold stripUrlPrefix.
    now rewrite orb_true_r. }
  split.
  { intros domain rest.
    destruct (stripUrlPrefix_plain_forms domain rest) as [Hs Hp].
    destruct (stripUrlPrefix_www_forms domain rest) as [Hsw Hpw].
    rewrite !append_assoc3 in Hs, Hp, Hsw, Hpw. rewrite <- !orElse_remainder.
    split; [exact Hs|]. split.
    { intros Hno. apply Hsw. apply startsWith_false. exact Hno. }
    split; [exact Hp|].
    intros Hno. apply Hpw. apply startsWith_false. exact Hno. }
  split.
  { intros domain url H1 H2 H3 H4.
    rewrite stripUrlPrefix_domain, stripFirst_find. cbn [domainPrefixes find].
    now rewrite !startsWith_false. }
  split; [exact Hsite|].
  split.
  { intros siteUrl p url Hdom Hp Hno.
    rewrite (stripUrlPrefix_site _ _ Hdom), (dropTrailingSlash_spec _ _ Hp).
    rewrite (startsWith_false _ _ Hno). now destruct (isEmpty siteUrl || isEmpty url). }
  split.
  { intros domain rest Hhost Hrest.
    destruct (stripUrlPrefix_plain_forms domain rest) as [Hs Hp].
    destruct (stripUrlPrefix_www_forms domain rest) as [Hsw Hpw].
    rewrite !append_assoc3 in Hs, Hp, Hsw, Hpw. rewrite Hs, Hp, orElse_remainder.
    assert (Hwww : noSlash ("www." ++ domain) = true) by exact Hhost.
    split; [|split; [|split]].
    - unfold pathOf; cbn [append dropPrefix Ascii.eqb Bool.eqb].
      now rewrite fromSlash_host.
    - unfold pathOf; cbn [append dropPrefix Ascii.eqb Bool.eqb].
      now rewrite fromSlash_host.
    - intros Hno. rewrite Hsw by (now apply startsWith_false).
      rewrite orElse_remainder.
      change ("https://www." ++ domain ++ rest)%string
        with ("https://" ++ ("www." ++ domain) ++ rest)%string.
      unfold pathOf; cbn [append dropPrefix Ascii.eqb Bool.eqb].
      exact (f_equal Some (fromSlash_host ("www." ++ domain) rest Hwww Hrest)).
    - intros Hno. rewrite Hpw by (now apply startsWith_false).
      rewrite orElse_remainder.
      change ("http://www." ++ domain ++ rest)%string
        with ("http://" ++ ("www." ++ domain) ++ rest)%string.
      unfold pathOf; cbn [append dropPrefix Ascii.eqb Bool.eqb].
      exact (f_equal Some (fromSlash_host ("www." ++ domain) rest Hwww Hrest)). }
  split.
  { intros scheme host siteUrl rest Hscheme Hhost Hrest Hp.
    assert (Hdom : ~ hasPrefix "sc-domain:" siteUrl).
    { intros [r ->]. destruct Hscheme as [-> | ->], Hp as [Hp|[Hp _]];
        cbn [append] in Hp; discriminate. }
    pose proof (Hsite siteUrl (scheme ++ host)%string rest Hdom Hp) as Hstrip.
    rewrite append_assoc3 in Hstrip. rewrite Hstrip.
    - destruct Hscheme as [-> | ->]; unfold pathOf;
        cbn [append dropPrefix Ascii.eqb Bool.eqb]; now rewrite fromSlash_host.
    - destruct Hscheme as [-> | ->]; discriminate. }
  split; reflexivity.
Qed.

Lemma stripUrlPrefix_spec_witness :
  stripUrlPrefix "http://www.example.com/shop" (Some "sc-domain:example.com") = "/shop"
  /\ stripUrlPrefix "ftp://example.com/x" (Some "sc-domain:example.com")
     = "ftp://example.com/x"
  /\ stripUrlPrefix "https://example.com" (Some "https://example.com/") = "/"
  /\ stripUrlPrefix "https://example.org/a" (Some "https://example.com/")
     = "https://example.org/a"
  /\ pathOf "https://example.com/a?b=1"
     = Some (stripUrlPrefix "https://example.com/a?b=1" (Some "https://example.com")).
Proof.
  destruct stripUrlPrefix_spec
    as (_ & _ & Hforms & Hkeep & Hurl & Hother & _ & Hpath & _).
  split; [|split; [|split; [|split]]].
  - destruct (Hforms "example.com" "/shop") as (_ & _ & _ & Hwww).
    apply Hwww. intros [rest Hrest]. discriminate.
  - apply (Hkeep "example.com" "ftp://example.com/x");
      intros [rest Hrest]; discriminate.
  - apply (Hurl "https://example.com/" "https://example.com" "").
    + intros [rest Hrest]. discriminate.
    + now left.
    + discriminate.
  - apply (Hother "https://example.com/" "https://example.com" "https://example.org/a").
    + intros [rest Hrest]. discriminate.
    + now left.
    + intros [rest Hrest]. discriminate.
  - apply (Hpath "https://" "example.com" "https://example.com" "/a?b=1").
    + now left.
    + reflexivity.
    + right. now eexists.
    + right. split; [reflexivity|]. intros q Hq.
      assert (Hlast : dropTrailingSlash "https://example.com" = q)
        by (rewrite Hq; apply dropTrailingSlash_slash).
      vm_compute in Hlast. subst q. discriminate.
Defined.

(** The claim has only the path remain.  For a property that is a folder
    of a site, the folder goes with the prefix: what remains of
    [https://example.com/blog/post] is [/post], and its path is
    [/blog/post]. *)
Lemma stripUrlPrefix_not_only_the_path :
  ~ (forall url siteUrl path,
       pathOf url = Some path ->
       stripUrlPrefix url (Some siteUrl) <> url ->
       stripUrlPrefix url (Some siteUrl) = path).
Proof.
  intros H.
  specialize (H "https://example.com/blog/post" "https://example.com/blog/"
                "/blog/post" eq_refl).
  vm_compute in H. discriminate H. intros E. discriminate E.
Qed.

(** Each of the four forms is removed for an ordinary domain. *)
Example stripUrlPrefix_four_forms :
  map (fun url => stripUrlPrefix url (Some "sc-domain:example.com"))
    [ "https://example.com/a"; "https://www.example.com/b";
      "http://example.com/c"; "http://www.example.com/d"; "https://example.com" ]
  = [ "/a"; "/b"; "/c"; "/d"; "/" ].
Proof. reflexivity. Qed.

(** A prefix is matched as text, wherever the host name ends; and the
    folder of a URL-prefix property is removed with it. *)
Example stripUrlPrefix_matches_text :
  stripUrlPrefix "https://example.community/x" (Some "sc-domain:example.com")
  = "munity/x"
  /\ pathOf "https://example.community/x" = Some "/x"
  /\ stripUrlPrefix "https://example.com/blog/post" (Some "https://example.com/blog/")
     = "/post"
  /\ pathOf "https://example.com/blog/post" = Some "/blog/post".
Proof. repeat split. Qed.

End FormattersFacts.

(* ================================================================== *)
(** ** Facts about dates *)
(* ================================================================== *)

Module DateFacts.

Import JsDate DateSpec.

Lemma allFrom_spec (f : Z -> bool) (n : nat) :
  forall z, allFrom f z n = true ->
            forall x, z <= x < z + Z.of_nat n -> f x = true.
Proof.
  induction n as [|n IH]; intros z H x Hx; [lia|].
  simpl in H. apply andb_true_iff in H as [Hz Hrest].
  destruct (Z.eq_dec x z) as [->|Hne]; [exact Hz|].
  apply (IH (z + 1) Hrest). lia.
Qed.

(** Every day of the era passes the check. *)
Lemma eraCheck_all (doe : Z) : 0 <= doe < 146097 -> eraCheck doe = true.
Proof.
  intros H. apply (allFrom_spec eraCheck (Z.to_nat 146097) 0); [|lia].
  vm_compute. reflexivity.
Qed.

(** [daysFromCivil] undoes [civilFromDays], whose months are 1 to 12. *)
Lemma civil_roundtrip (n : Z) :
  1 <= snd (fst (civilFromDays n)) <= 12
  /\ daysFromCivil (fst (fst (civilFromDays n))) (snd (fst (civilFromDays n)))
       (snd (civilFromDays n)) = n.
Proof.
  unfold civilFromDays.
  set (z := n + 719468). set (era := z / 146097). set (doe := z - era * 146097).
  assert (Hdoe : 0 <= doe < 146097).
  { unfold doe, era. pose proof (Z.mod_pos_bound z 146097 ltac:(lia)) as Hb.
    rewrite Z.mod_eq in Hb by lia. lia. }
  pose proof (eraCheck_all doe Hdoe) as Hc. unfold eraCheck in Hc.
  set (yoe := (doe - doe / 1460 + doe / 36524 - doe / 146096) / 365) in *.
  set (doy := doe - (365 * yoe + yoe / 4 - yoe / 100)) in *.
  set (mp := (5 * doy + 2) / 153) in *.
  set (d := doy - (153 * mp + 2) / 5 + 1) in *.
  set (m := if mp <? 10 then mp + 3 else mp - 9) in *.
  cbv zeta in Hc. cbn [fst snd].
  repeat (apply andb_true_iff in Hc as [Hc ?]).
  repeat match goal with
         | H : (_ <=? _) = true |- _ => apply Z.leb_le in H
         | H : (_ <? _) = true |- _ => apply Z.ltb_lt in H
         | H : (_ =? _) = true |- _ => apply Z.eqb_eq in H
         end.
  split; [lia|].
  unfold daysFromCivil.
  set (y' := if m <=? 2
             then (if m <=? 2 then yoe + era * 400 + 1 else yoe + era * 400) - 1
             else (if m <=? 2 then yoe + era * 400 + 1 else yoe + era * 400)).
  assert (Hy : y' = yoe + era * 400) by (unfold y'; destruct (m <=? 2); lia).
  rewrite Hy.
  replace ((yoe + era * 400) / 400) with era
    by (rewrite Z.div_add by lia; rewrite (Z.div_small yoe 400) by lia; lia).
  replace (yoe + era * 400 - era * 400) with yoe by lia.
  match goal with
  | H : (if m >? 2 then m - 3 else m + 9) = mp |- _ => rewrite H
  end.
  unfold doe in *. lia.
Qed.

(** Within a month, the day number grows with the day of the month. *)
Lemma daysFromCivil_day (y m d : Z) : daysFromCivil y m d = daysFromCivil y m 1 + d - 1.
Proof. unfold daysFromCivil. lia. Qed.

Lemma Day_MakeDate (day time : Z) :
  0 <= time < msPerDay -> Day (MakeDate day time) = day.
Proof.
  intros H. unfold Day, MakeDate.
  rewrite Z.add_comm, Z.div_add by (unfold msPerDay; lia).
  rewrite Z.div_small by exact H. lia.
Qed.

Lemma toISODate_MakeDate (day time : Z) :
  0 <= time < msPerDay -> toISODate (MakeDate day time) = toISODate (day * msPerDay).
Proof.
  intros H. unfold toISODate.
  rewrite (Day_MakeDate day time H).
  replace (day * msPerDay) with (MakeDate day 0) by (unfold MakeDate; lia).
  rewrite Day_MakeDate by (unfold msPerDay; lia). reflexivity.
Qed.

(** In a process on UTC, [setDate] moves a date by whole days. *)
Lemma setDate_utc (t date : Z) :
  setDate 0 t date
  = MakeDate (Day t - DateFromTime t + date) (TimeWithinDay t).
Proof.
  unfold setDate, LocalTime, UTC. rewrite Z.mul_0_l, Z.add_0_r, Z.sub_0_r.
  unfold MakeDay, YearFromTime, MonthFromTime, DateFromTime.
  destruct (civil_roundtrip (Day t)) as [Hm Hround].
  set (c := civilFromDays (Day t)) in *.
  replace ((snd (fst c) - 1) / 12) with 0 by (symmetry; apply Z.div_small; lia).
  replace ((snd (fst c) - 1) mod 12) with (snd (fst c) - 1)
    by (symmetry; apply Z.mod_small; lia).
  rewrite Z.add_0_r.
  replace (snd (fst c) - 1 + 1) with (snd (fst c)) by lia.
  rewrite (daysFromCivil_day _ _ (snd c)) in Hround.
  f_equal. lia.
Qed.

(** [mondayOnOrBefore] is what its name says. *)
Lemma mondayOnOrBefore_spec (day : Z) :
  WeekDay (RollupSpec.mondayOnOrBefore day * msPerDay) = 1
  /\ RollupSpec.mondayOnOrBefore day <= day < RollupSpec.mondayOnOrBefore day + 7.
Proof.
  unfold WeekDay, Day, RollupSpec.mondayOnOrBefore.
  rewrite Z.div_mul by (unfold msPerDay; lia).
  split; Z.div_mod_to_equations; lia.
Qed.

End DateFacts.

(* ================================================================== *)
(** ** Facts about arrays and maps *)
(* ================================================================== *)

Module JsArrayFacts.

Import JsArray.

Section Sort.

Context {A : Type}.
Variable cmp : A -> A -> comparison.

Lemma insertSorted_perm (x : A) (l : list A) :
  Permutation (insertSorted cmp x l) (x :: l).
Proof.
  induction l as [|y l IH]; simpl; [reflexivity|].
  destruct (cmp x y); try reflexivity.
  rewrite IH. apply perm_swap.
Qed.

(** Sorting rearranges, it neither drops nor invents. *)
Lemma sort_perm (l : list A) : Permutation (sort cmp l) l.
Proof.
  induction l as [|x l IH]; simpl; [reflexivity|].
  rewrite insertSorted_perm. now constructor.
Qed.

Lemma sort_In (l : list A) (x : A) : In x (sort cmp l) <-> In x l.
Proof.
  split; apply Permutation_in; [apply sort_perm | symmetry; apply sort_perm].
Qed.

Lemma sort_length (l : list A) : List.length (sort cmp l) = List.length l.
Proof. apply Permutation_length, sort_perm. Qed.

(** [a] may stand before [b]. *)
Definition inOrder (a b : A) : Prop := cmp a b <> Gt.

Hypothesis cmp_total : forall x y, cmp x y = Gt -> cmp y x <> Gt.
Hypothesis cmp_trans : forall x y z, inOrder x y -> inOrder y z -> inOrder x z.

Lemma insertSorted_sorted (x : A) (l : list A) :
  StronglySorted inOrder l -> StronglySorted inOrder (insertSorted cmp x l).
Proof.
  induction 1 as [|y l Hl IH Hy]; simpl.
  - constructor; constructor.
  - destruct (cmp x y) eqn:Hxy.
    + constructor; [now constructor|].
      assert (Hle : inOrder x y) by (unfold inOrder; congruence).
      constructor; [exact Hle|].
      eapply Forall_impl; [|exact Hy]. intros z Hz. eapply cmp_trans; eassumption.
    + constructor; [now constructor|].
      assert (Hle : inOrder x y) by (unfold inOrder; congruence).
      constructor; [exact Hle|].
      eapply Forall_impl; [|exact Hy]. intros z Hz. eapply cmp_trans; eassumption.
    + constructor; [exact IH|].
      rewrite Forall_forall. intros z Hz.
      apply (Permutation_in _ (insertSorted_perm x l)) in Hz.
      destruct Hz as [<-|Hz].
      * now apply cmp_total.
      * rewrite Forall_forall in Hy. now apply Hy.
Qed.

(** The result of a sort is in order, every element against all later ones. *)
Lemma sort_sorted (l : list A) : StronglySorted inOrder (sort cmp l).
Proof.
  induction l as [|x l IH]; simpl; [constructor|].
  now apply insertSorted_sorted.
Qed.

End Sort.

Lemma slice0_firstn {A : Type} (l : list A) (n : Z) :
  0 <= n -> slice0 l n = firstn (Z.to_nat n) l.
Proof. intros H. unfold slice0. destruct (Z.ltb_spec n 0); [lia | reflexivity]. Qed.

Lemma firstn_In {A : Type} (n : nat) (l : list A) (x : A) :
  In x (firstn n l) -> In x l.
Proof.
  revert n. induction l as [|y l IH]; intros [|n]; simpl; try contradiction.
  intros [->|H]; [now left | right; eapply IH; exact H].
Qed.

Lemma slice0_incl {A : Type} (l : list A) (n : Z) (x : A) : In x (slice0 l n) -> In x l.
Proof.
  unfold slice0. destruct (n <? 0); intros H; eapply firstn_In; exact H.
Qed.

Lemma firstn_sorted {A : Type} (R : A -> A -> Prop) (n : nat) (l : list A) :
  StronglySorted R l -> StronglySorted R (firstn n l).
Proof.
  intros H. revert n. induction H as [|x l Hl IH Hx]; intros [|n]; simpl;
    try constructor.
  - apply IH.
  - rewrite Forall_forall in *. intros y Hy. apply Hx.
    eapply firstn_In; exact Hy.
Qed.

Lemma slice0_sorted {A : Type} (R : A -> A -> Prop) (l : list A) (n : Z) :
  StronglySorted R l -> StronglySorted R (slice0 l n).
Proof. intros H. unfold slice0. destruct (n <? 0); now apply firstn_sorted. Qed.

Lemma sum_app (l : list Q) (x : Q) : sum (l ++ [x]) = (sum l + x)%Q.
Proof. unfold sum. now rewrite fold_left_app. Qed.

End JsArrayFacts.

Module JsMapFacts.

Import JsMap.

Section Map.

Context {V : Type}.

Lemma has_get (m : t V) (key : string) : has m key = true <-> get m key <> None.
Proof.
  induction m as [|[k v] m IH]; simpl.
  - split; [discriminate | congruence].
  - destruct (String.eqb k key); simpl; [split; [discriminate | reflexivity] | exact IH].
Qed.

Lemma has_false_get (m : t V) (key : string) : has m key = false <-> get m key = None.
Proof.
  destruct (has m key) eqn:H.
  - apply has_get in H. split; [discriminate | contradiction].
  - split; [|reflexivity]. intros _.
    destruct (get m key) eqn:G; [|reflexivity].
    assert (has m key = true) by (apply has_get; congruence). congruence.
Qed.

Lemma get_set_same (m : t V) (key : string) (v : V) : get (set m key v) key = Some v.
Proof.
  induction m as [|[k v'] m IH]; simpl.
  - now rewrite String.eqb_refl.
  - destruct (String.eqb k key) eqn:E; simpl; rewrite E; [reflexivity | exact IH].
Qed.

Lemma set_set (m : t V) (key : string) (v v' : V) :
  set (set m key v) key v' = set m key v'.
Proof.
  induction m as [|[k v0] m IH]; simpl.
  - now rewrite String.eqb_refl.
  - destruct (String.eqb k key) eqn:E; simpl; rewrite E; [reflexivity|].
    now rewrite IH.
Qed.

Lemma get_set_other (m : t V) (key key' : string) (v : V) :
  key <> key' -> get (set m key v) key' = get m key'.
Proof.
  intros Hne. induction m as [|[k v'] m IH]; simpl.
  - destruct (String.eqb_spec key key'); [contradiction | reflexivity].
  - destruct (String.eqb_spec k key) as [->|Hk]; simpl.
    + destruct (String.eqb_spec key key'); [contradiction | reflexivity].
    + now rewrite IH.
Qed.

Lemma keys_set (m : t V) (key : string) (v : V) :
  map fst (set m key v) = if has m key then map fst m else map fst m ++ [key].
Proof.
  induction m as [|[k v'] m IH]; simpl; [reflexivity|].
  destruct (String.eqb k key); simpl; [reflexivity|].
  rewrite IH. now destruct (has m key).
Qed.

Lemma has_In (m : t V) (key : string) : has m key = true <-> In key (map fst m).
Proof.
  induction m as [|[k v] m IH]; simpl; [split; [discriminate | contradiction]|].
  rewrite orb_true_iff, IH. now rewrite String.eqb_eq.
Qed.

Lemma set_NoDup (m : t V) (key : string) (v : V) :
  NoDup (map fst m) -> NoDup (map fst (set m key v)).
Proof.
  intros H. rewrite keys_set. destruct (has m key) eqn:E; [exact H|].
  apply NoDup_app; [exact H | repeat constructor; intros [] | ].
  intros x Hx [<-|[]].
  apply has_In in Hx. congruence.
Qed.

Lemma In_get (m : t V) (key : string) (v : V) :
  NoDup (map fst m) -> In (key, v) m -> get m key = Some v.
Proof.
  induction m as [|[k v'] m IH]; simpl; [contradiction|].
  intros Hnd [Heq|Hin].
  - inversion Heq; subst. now rewrite String.eqb_refl.
  - inversion Hnd as [|? ? Hk Hm]; subst.
    destruct (String.eqb_spec k key) as [->|Hne].
    + exfalso. apply Hk. apply in_map_iff. now exists (key, v).
    + now apply IH.
Qed.

Lemma get_In (m : t V) (key : string) (v : V) : get m key = Some v -> In (key, v) m.
Proof.
  induction m as [|[k v'] m IH]; simpl; [discriminate|].
  destruct (String.eqb_spec k key) as [->|Hne].
  - intros H. inversion H. now left.
  - intros H. right. now apply IH.
Qed.

End Map.

End JsMapFacts.

(* ================================================================== *)
(** ** Facts about the rollup *)
(* ================================================================== *)

Module RollupFacts.

Import Client SearchAnalyticsTools RollupSpec JsArrayFacts JsMapFacts Fixtures.

Lemma compare_Gt_flip (a b : string) :
  String_as_OT.compare a b = Gt -> String_as_OT.compare b a = Lt.
Proof.
  intros H. destruct (String_as_OT.compare_spec a b) as [?|?|Hlt]; try discriminate.
  exact Hlt.
Qed.

Lemma compare_le_cases (a b : string) :
  String_as_OT.compare a b <> Gt <-> String_as_OT.lt a b \/ a = b.
Proof.
  destruct (String_as_OT.compare_spec a b) as [Heq|Hlt|Hgt].
  - split; [now right | discriminate].
  - split; [now left | discriminate].
  - split; [congruence|]. intros [Hlt| ->].
    + exfalso. apply (StrictOrder_Irreflexive a).
      eapply (StrictOrder_Transitive a b a); eassumption.
    + exfalso. now apply (StrictOrder_Irreflexive b).
Qed.

Lemma byKey_total (x y : SearchAnalyticsRow) : byKey x y = Gt -> byKey y x <> Gt.
Proof.
  unfold byKey, JsArray.localeCompare. intros H.
  rewrite (compare_Gt_flip _ _ H). discriminate.
Qed.

Lemma byKey_trans (x y z : SearchAnalyticsRow) :
  byKey x y <> Gt -> byKey y z <> Gt -> byKey x z <> Gt.
Proof.
  unfold byKey, JsArray.localeCompare.
  rewrite !compare_le_cases. intros [Hxy|Hxy] [Hyz|Hyz].
  - left. eapply (StrictOrder_Transitive _ (sortKey y)); eassumption.
  - left. now rewrite <- Hyz.
  - left. now rewrite Hxy.
  - right. congruence.
Qed.

Lemma groupRows_step (tz : Z) (g : Granularity) (row : SearchAnalyticsRow)
    (rest : list SearchAnalyticsRow) (m : JsMap.t Bucket) :
  groupRows tz g (row :: rest) m
  = match dateKeyOf row with
    | None => groupRows tz g rest m
    | Some d =>
        match JsDate.parse d with
        | None => None
        | Some date => groupRows tz g rest (addRow m (bucketKeyOf tz g date) d row)
        end
    end.
Proof.
  unfold dateKeyOf. simpl. destruct (keyAt row 0) as [d|]; [|reflexivity].
  destruct (JsString.isEmpty d); reflexivity.
Qed.

Lemma addRow_spec (m : JsMap.t Bucket) (k d : string) (row : SearchAnalyticsRow) :
  addRow m k d row
  = JsMap.set m k
      (grown (match JsMap.get m k with Some b => b | None => emptyBucket end) d row).
Proof.
  unfold addRow. destruct (JsMap.has m k) eqn:Hhas; simpl.
  - apply has_get in Hhas. destruct (JsMap.get m k) as [b|]; [reflexivity | congruence].
  - rewrite get_set_same.
    apply has_false_get in Hhas. rewrite Hhas.
    apply set_set.
Qed.

Lemma bucketOf_snoc (ms : list SearchAnalyticsRow) (d : string) (row : SearchAnalyticsRow) :
  dateKeyOf row = Some d ->
  bucketOf (ms ++ [row]) = grown (bucketOf ms) d row.
Proof.
  intros Hd. unfold bucketOf, grown. simpl.
  rewrite !map_app. simpl. rewrite !sum_app, Hd. reflexivity.
Qed.

Lemma members_snoc (tz : Z) (g : Granularity) (key : string)
    (rows : list SearchAnalyticsRow) (row : SearchAnalyticsRow) :
  members tz g key (rows ++ [row])
  = members tz g key rows ++ (if inBucket tz g key row then [row] else []).
Proof. unfold members. rewrite filter_app. reflexivity. Qed.

Section Grouping.

Variable tz : Z.
Variable g : Granularity.

(** The grouping loop: every key holds the aggregate of its rows. *)
Lemma groupRows_inv (rest : list SearchAnalyticsRow) :
  forall (processed : list SearchAnalyticsRow) (m : JsMap.t Bucket),
    NoDup (map fst m) ->
    (forall k, JsMap.get m k = aggregate tz g k processed) ->
    datesReadable rest ->
    exists m',
      groupRows tz g rest m = Some m'
      /\ NoDup (map fst m')
      /\ (forall k, JsMap.get m' k = aggregate tz g k (processed ++ rest)).
Proof.
  induction rest as [|row rest IH]; intros processed m Hnd Hget Hread.
  - exists m. rewrite app_nil_r. auto.
  - rewrite groupRows_step.
    inversion Hread as [|? ? Hrow Hrest]; subst.
    replace (processed ++ row :: rest) with ((processed ++ [row]) ++ rest)
      by (now rewrite <- app_assoc).
    destruct (dateKeyOf row) as [d|] eqn:Hd.
    + destruct (JsDate.parse d) as [date|] eqn:Hp; [|now specialize (Hrow d eq_refl)].
      apply IH; [| |exact Hrest].
      * rewrite addRow_spec. now apply set_NoDup.
      * intros k. rewrite addRow_spec.
        unfold aggregate. rewrite members_snoc.
        unfold inBucket, bucketKeyOfRow. rewrite Hd, Hp. simpl.
        destruct (String.eqb_spec (bucketKeyOf tz g date) k) as [<-|Hne].
        -- rewrite get_set_same, Hget.
           set (ms := members tz g (bucketKeyOf tz g date) processed).
           assert (Hb : match aggregate tz g (bucketKeyOf tz g date) processed with
                        | Some b => b
                        | None => emptyBucket
                        end = bucketOf ms)
             by (unfold aggregate; fold ms; destruct ms; reflexivity).
           rewrite Hb, <- (bucketOf_snoc ms d row Hd).
           destruct ms as [|r0 ms']; reflexivity.
        -- rewrite get_set_other by exact Hne. rewrite Hget, app_nil_r. reflexivity.
    + apply IH; [exact Hnd| |exact Hrest].
      intros k. rewrite Hget. unfold aggregate. rewrite members_snoc.
      unfold inBucket, bucketKeyOfRow. rewrite Hd. now rewrite app_nil_r.
Qed.

End Grouping.


Lemma sortKey_bucketRow (entry : string * Bucket) : sortKey (bucketRow entry) = fst entry.
Proof. now destruct entry. Qed.

(** The rows that the rollup makes of the buckets. *)
Lemma rollupWith_spec (tz : Z) (g : Granularity) (rows : list SearchAnalyticsRow) :
  datesReadable rows ->
  exists out,
    rollupWith tz g rows = Some out
    /\ (forall o, In o out ->
         exists key,
           keys o = Some [key]
           /\ members tz g key rows <> []
           /\ clicks o = JsArray.sum (map clicks (members tz g key rows))
           /\ impressions o = JsArray.sum (map impressions (members tz g key rows))
           /\ position o
              = (JsArray.sum (map position (members tz g key rows))
                 / inject_Z (Z.of_nat (List.length (members tz g key rows))))%Q
           /\ ctr o = if JsCompare.ltb 0 (impressions o)
                      then (clicks o / impressions o)%Q else 0%Q)
    /\ (forall row key,
          In row rows -> bucketKeyOfRow tz g row = Some key ->
          exists o, In o out /\ keys o = Some [key])
    /\ NoDup (map sortKey out).
Proof.
  intros Hread.
  destruct (groupRows_inv tz g rows [] [] (NoDup_nil _) (fun k => eq_refl) Hread)
    as (m & Hrun & Hnd & Hget).
  simpl in Hget.
  unfold rollupWith. rewrite Hrun. eexists. split; [reflexivity|].
  split; [|split].
  - intros o Ho. apply sort_In in Ho. apply in_map_iff in Ho as ([k b] & <- & Hin).
    exists k. pose proof (In_get m k b Hnd Hin) as Hk. rewrite Hget in Hk.
    unfold aggregate in Hk.
    destruct (members tz g k rows) as [|r0 ms] eqn:Hms; [discriminate|].
    inversion Hk; subst b. clear Hk.
    split; [reflexivity|]. split; [discriminate|].
    split; [reflexivity|]. split; [reflexivity|]. split; [|reflexivity].
    unfold bucketRow, bucketOf. cbn [position b_positions].
    rewrite length_map. reflexivity.
  - intros row key Hin Hkey.
    assert (Hmem : In row (members tz g key rows)).
    { apply filter_In. split; [exact Hin|].
      unfold inBucket. rewrite Hkey. apply String.eqb_refl. }
    specialize (Hget key). unfold aggregate in Hget.
    destruct (members tz g key rows) as [|r0 ms]; [contradiction|].
    apply get_In in Hget.
    eexists. split.
    + apply sort_In. apply in_map. exact Hget.
    + reflexivity.
  - eapply Permutation_NoDup.
    + apply Permutation_map. symmetry. apply sort_perm.
    + rewrite map_map.
      erewrite map_ext; [exact Hnd|]. intros entry. apply sortKey_bucketRow.
Qed.

Lemma januaryRows_readable : datesReadable januaryRows.
Proof.
  unfold datesReadable, januaryRows.
  repeat constructor; intros d Hd; vm_compute in Hd; inversion Hd; subst d;
    vm_compute; discriminate.
Qed.

(** The rollup of the sample rows by week and by month.  In the first week,
    the input ctr values are 1/100 and 1/1, with a mean above 1/2; the
    bucket has 2 clicks over 101 impressions. *)
Example rollup_weekly_january :
  option_map (map (fun o => (keys o, Qred (clicks o), Qred (impressions o),
                             Qred (ctr o), Qred (position o))))
    (rollupByGranularity 0 januaryRows Weekly "2024-01-01" "2024-02-04")
  = Some [ (Some ["2024-01-01"], 2, 101, 2 # 101, 9 # 2);
           (Some ["2024-01-08"], 4, 40, 1 # 10, 2);
           (Some ["2024-01-29"], 5, 50, 1 # 10, 8) ]%Q.
Proof. vm_compute. reflexivity. Qed.

Example rollup_monthly_january :
  option_map (map (fun o => (keys o, Qred (clicks o), Qred (impressions o),
                             Qred (ctr o), Qred (position o))))
    (rollupByGranularity 0 januaryRows Monthly "2024-01-01" "2024-02-04")
  = Some [ (Some ["2024-01"], 6, 141, 2 # 47, 11 # 3);
           (Some ["2024-02"], 5, 50, 1 # 10, 8) ]%Q.
Proof. vm_compute. reflexivity. Qed.

(** 35 days from January 1 to February 4 resolve ['auto'] to weekly. *)
Example auto_resolves_to_weekly :
  effectiveGranularity Auto "2024-01-01" "2024-02-04" = Some Weekly
  /\ effectiveGranularity Auto "2024-01-01" "2024-04-01" = Some Monthly
  /\ effectiveGranularity Auto "2024-01-01" "2024-01-22" = None.
Proof. vm_compute. repeat split; reflexivity. Qed.

(** In a process on UTC the weekly key of a date is the day that lies
    [getDay() - 1] days before it. *)
Lemma weekly_key_utc (t : Z) :
  bucketKeyOf 0 Weekly t
  = JsDate.toISODate ((JsDate.Day t - JsDate.WeekDay t + 1) * JsDate.msPerDay).
Proof.
  unfold bucketKeyOf. rewrite DateFacts.setDate_utc.
  rewrite DateFacts.toISODate_MakeDate
    by (apply Z.mod_pos_bound; unfold JsDate.msPerDay; lia).
  unfold JsDate.getDate, JsDate.getDay, JsDate.LocalTime.
  rewrite Z.mul_0_l, Z.add_0_r. f_equal. lia.
Qed.

(** C3.  With the process on UTC, the weekly bucket key of a date is the
    Monday on or before it from Monday to Saturday, but for a Sunday it is
    the Monday after it: the key of the Sunday 2024-01-07 is 2024-01-08,
    while the Monday on or before it is 2024-01-01, and the row of that
    Sunday is put into one bucket with the row of 2024-01-08. *)
Theorem weekly_key_of_sunday_is_the_next_monday :
  (forall t,
      bucketKeyOf 0 Weekly t
      = JsDate.toISODate
          ((if JsDate.WeekDay t =? 0
            then mondayOnOrBefore (JsDate.Day t) + 7
            else mondayOnOrBefore (JsDate.Day t)) * JsDate.msPerDay))
  /\ option_map JsDate.WeekDay (JsDate.parse "2024-01-07") = Some 0
  /\ option_map (bucketKeyOf 0 Weekly) (JsDate.parse "2024-01-07") = Some "2024-01-08"
  /\ option_map (fun t => JsDate.toISODate
                            (mondayOnOrBefore (JsDate.Day t) * JsDate.msPerDay))
       (JsDate.parse "2024-01-07") = Some "2024-01-01"
  /\ option_map (map keys)
       (rollupByGranularity 0
          [daily "2024-01-01" 1 10 1; daily "2024-01-07" 2 20 2; daily "2024-01-08" 3 30 3]
          Weekly "2024-01-01" "2024-01-31")
     = Some [Some ["2024-01-01"]; Some ["2024-01-08"]].
Proof.
  split.
  { intros t. rewrite weekly_key_utc. f_equal. f_equal.
    unfold mondayOnOrBefore, JsDate.WeekDay.
    destruct (Z.eqb_spec ((JsDate.Day t + 4) mod 7) 0) as [H|H];
      revert H; generalize (JsDate.Day t); intros n H;
      Z.div_mod_to_equations; lia. }
  vm_compute. repeat split; reflexivity.
Qed.

(** West of Greenwich the local day of a date-only string is the day
    before, and the keys are Tuesdays: at UTC-5, the key of the Sunday
    2024-01-07 and of the Monday 2024-01-01 is 2024-01-02. *)
Example weekly_key_west_of_greenwich :
  map (fun d => option_map (bucketKeyOf (-300) Weekly) (JsDate.parse d))
    ["2024-01-01"; "2024-01-07"; "2024-01-08"]
  = [Some "2024-01-02"; Some "2024-01-02"; Some "2024-01-09"].
Proof. vm_compute. reflexivity. Qed.

End RollupFacts.

(* ================================================================== *)
(** ** Facts about the period comparison *)
(* ================================================================== *)

Module CompareFacts.

Import Client SearchAnalyticsTools OpportunitySpec Fixtures.

Lemma firstChar_app (a b : string) :
  firstChar (a ++ b)%string = match firstChar a with Some c => Some c | None => firstChar b end.
Proof. destruct a; reflexivity. Qed.

Lemma firstChar_uint (d : Decimal.uint) :
  firstChar (NilZero.string_of_uint d) <> Some "+"%char.
Proof. destruct d; simpl; discriminate. Qed.

Lemma firstChar_stringOfZ (n : Z) : firstChar (JsNumber.stringOfZ n) <> Some "+"%char.
Proof.
  unfold JsNumber.stringOfZ, NilZero.string_of_int.
  destruct (Z.to_int n) as [d|d]; [apply firstChar_uint | simpl; discriminate].
Qed.

Lemma firstChar_zeros (k : nat) (s : string) :
  firstChar s <> Some "+"%char -> firstChar (JsNumber.zeros k ++ s)%string <> Some "+"%char.
Proof. destruct k; simpl; [auto | discriminate]. Qed.

Lemma firstChar_takeString (k : nat) (s : string) :
  firstChar s <> Some "+"%char -> firstChar (JsNumber.takeString k s) <> Some "+"%char.
Proof. destruct k, s; simpl; auto; discriminate. Qed.

(** [toFixed] never writes a plus sign in front. *)
Lemma toFixed_no_plus (x : Q) (f : nat) :
  firstChar (JsNumber.toFixed x f) <> Some "+"%char.
Proof.
  unfold JsNumber.toFixed.
  set (n := Qfloor _). set (m := JsNumber.padStart0 (f + 1) (JsNumber.stringOfZ n)).
  assert (Hm : firstChar m <> Some "+"%char)
    by (apply firstChar_zeros, firstChar_stringOfZ).
  destruct (Qle_bool 0 x); destruct f; rewrite ?firstChar_app; simpl;
    try discriminate; try exact Hm.
  destruct (firstChar (JsNumber.takeString (String.length m - S f) m)) eqn:E.
  - rewrite <- E. now apply firstChar_takeString.
  - discriminate.
Qed.

(** No percent change starts with a plus sign. *)
Lemma percentChange_no_plus (now base : Q) :
  firstChar (percentChange now base) <> Some "+"%char.
Proof.
  unfold percentChange. destruct (JsCompare.truthy base); [|simpl; discriminate].
  rewrite firstChar_app.
  pose proof (toFixed_no_plus ((now - base) / base * 100) 1) as H.
  destruct (firstChar (JsNumber.toFixed ((now - base) / base * 100) 1));
    [exact H | simpl; discriminate].
Qed.

(** C6.  For 120 clicks against 100 the [changes] block of
    [report.comparePeriods] has [clicksPercent = "20.0%"], without a plus
    sign (and ["50.0%"] for 150 impressions against 100); a decrease is
    written with its minus sign, and a baseline of zero gives ["N/A"]. *)
Theorem comparePeriods_percent_without_plus :
  option_map ch_clicksPercent (comparePeriods_changes (period 120 150) (period 100 100))
  = Some "20.0%"
  /\ option_map ch_impressionsPercent
       (comparePeriods_changes (period 120 150) (period 100 100))
     = Some "50.0%"
  /\ option_map ch_clicksPercent (comparePeriods_changes (period 80 100) (period 100 100))
     = Some "-20.0%"
  /\ option_map ch_clicksPercent (comparePeriods_changes (period 100 100) (period 100 100))
     = Some "0.0%"
  /\ option_map ch_clicksPercent (comparePeriods_changes (period 120 150) (period 0 100))
     = Some "N/A".
Proof. vm_compute. repeat split; reflexivity. Qed.

End CompareFacts.

(* ================================================================== *)
(** ** Facts about the opportunity tools *)
(* ================================================================== *)

Module OpportunityFacts.

Import Client SearchAnalyticsTools Opportunities OpportunitySpec.
Import JsArrayFacts JsMapFacts Fixtures.

Lemma StronglySorted_impl {A : Type} (R R' : A -> A -> Prop) (l : list A) :
  (forall a b, R a b -> R' a b) -> StronglySorted R l -> StronglySorted R' l.
Proof.
  intros HR. induction 1 as [|x l Hl IH Hx]; constructor; [exact IH|].
  eapply Forall_impl; [|exact Hx]. intros b. apply HR.
Qed.

Lemma slice0_cutTo {O : Type} (l : list O) (limit : Z) :
  JsArray.slice0 l limit = cutTo limit l.
Proof.
  unfold JsArray.slice0, cutTo.
  destruct (Z.ltb_spec limit 0), (Z.leb_spec 0 limit); try lia; [|reflexivity].
  f_equal. lia.
Qed.

(** Sorting by a descending integer score and cutting to [limit]. *)
Lemma topBy_sort {O : Type} (score : O -> Z) (candidates : list O) (limit : Z) :
  TopBy score candidates limit
    (JsArray.slice0
       (JsArray.sort (fun a b => Z.compare (score b) (score a)) candidates) limit).
Proof.
  exists (JsArray.sort (fun a b => Z.compare (score b) (score a)) candidates).
  split; [apply sort_perm|]. split; [|apply slice0_cutTo].
  eapply StronglySorted_impl; [|apply sort_sorted].
  - unfold inOrder. intros a b H. now apply Z.compare_le_iff.
  - intros x y H. rewrite Z.compare_antisym, H. discriminate.
  - unfold inOrder. cbv beta. intros x y z Hxy Hyz.
    change (score y <= score x) in Hxy. change (score z <= score y) in Hyz.
    change (score z <= score x). lia.
Qed.

(** The same for a rational score. *)
Lemma topByQ_sort {O : Type} (score : O -> Q) (candidates : list O) (limit : Z) :
  TopByQ score candidates limit
    (JsArray.slice0
       (JsArray.sort (fun a b => Qcompare (score b) (score a)) candidates) limit).
Proof.
  exists (JsArray.sort (fun a b => Qcompare (score b) (score a)) candidates).
  split; [apply sort_perm|]. split; [|apply slice0_cutTo].
  eapply StronglySorted_impl; [|apply sort_sorted].
  - unfold inOrder. intros a b H. now apply Qle_alt.
  - intros x y H. rewrite <- Qcompare_antisym, H. discriminate.
  - unfold inOrder. cbv beta. intros x y z Hxy Hyz.
    apply Qle_alt in Hxy. apply Qle_alt in Hyz.
    apply Qle_alt. eapply Qle_trans; eassumption.
Qed.

Lemma fold_left_sum {O : Type} (score : O -> Z) (l : list O) (acc : Z) :
  fold_left (fun sum o => sum + score o) l acc = acc + sumZ (map score l).
Proof.
  revert acc. induction l as [|o l IH]; intros acc; simpl; [lia|].
  rewrite IH. unfold sumZ. simpl. lia.
Qed.

Lemma leb_iff (a b : Q) : JsCompare.leb a b = true <-> (a <= b)%Q.
Proof. apply Qle_bool_iff. Qed.

Lemma ltb_iff (a b : Q) : JsCompare.ltb a b = true <-> (a < b)%Q.
Proof.
  unfold JsCompare.ltb. rewrite negb_true_iff. split.
  - intros H. apply Qnot_le_lt. intros Hle. apply Qle_bool_iff in Hle. congruence.
  - intros H. destruct (Qle_bool b a) eqn:E; [|reflexivity].
    apply Qle_bool_iff in E. exfalso. now apply (Qlt_not_le a b).
Qed.

Lemma isOpportunity_iff (args : LowCtrArgs) (row : SearchAnalyticsRow) :
  isOpportunity args row = true <->
  (minImpressions args <= impressions row /\ ctr row < maxCtr args
   /\ minPosition args <= position row /\ position row <= maxPosition args)%Q.
Proof.
  unfold isOpportunity. rewrite !andb_true_iff, !leb_iff, ltb_iff. tauto.
Qed.

Lemma potentialOf_toOpportunity (args : LowCtrArgs) (row : SearchAnalyticsRow) :
  potentialOf (toOpportunity args row) = potentialClicksOf row.
Proof. unfold toOpportunity. destruct (a_compact args); reflexivity. Qed.

Lemma rounded_unique (x : Q) (n m : Z) : rounded x n -> rounded x m -> n = m.
Proof.
  unfold rounded. intros [Hn1 Hn2] [Hm1 Hm2].
  assert (H1 : (inject_Z n < inject_Z (m + 1))%Q).
  { rewrite inject_Z_plus. change (inject_Z 1) with 1%Q. lra. }
  assert (H2 : (inject_Z m < inject_Z (n + 1))%Q).
  { rewrite inject_Z_plus. change (inject_Z 1) with 1%Q. lra. }
  rewrite <- Zlt_Qlt in H1, H2. lia.
Qed.

(** [Math.round] gives the nearest whole number, the greater one at a
    tie, and no other. *)
Lemma Math_round_rounded (x : Q) (n : Z) :
  rounded x n <-> JsNumber.Math_round x = n.
Proof.
  assert (Hself : rounded x (JsNumber.Math_round x)).
  { unfold rounded, JsNumber.Math_round.
    pose proof (Qfloor_le (x + (1 # 2))) as Hle.
    pose proof (Qlt_floor (x + (1 # 2))) as Hlt.
    rewrite inject_Z_plus in Hlt. change (inject_Z 1) with 1%Q in Hlt.
    set (a := inject_Z (Qfloor (x + (1 # 2)))) in *. split; lra. }
  split.
  - intros H. exact (rounded_unique x _ _ Hself H).
  - intros <-. exact Hself.
Qed.



(** The sample rows under the defaults with a limit of 2: rows [c] (too few
    impressions), [e] (ctr not below 3%) and [f] (position above 4) are
    dropped, [d] (200) and [a] (40) are returned, [b] (5) is cut off, and
    the total is that of the two returned entries. *)
Example lowCtrHighPos_sample :
  lowCtrHighPos (mkLowCtrArgs (Some "sc-domain:example.com") true
                   None None None None (Some 2))
    (Some sampleOpportunityRows)
  = ([ CompactOpportunity "d" "/" 50 5000 "1.00%" (Formatters.formatPosition 20) 200;
       CompactOpportunity "a" "/x" 10 1000 "1.00%" (Formatters.formatPosition 10) 40 ],
     240).
Proof. vm_compute. reflexivity. Qed.


(** *** Cannibalization *)

Lemma addPage_spec (m : JsMap.t (list PageEntry)) (row : SearchAnalyticsRow) :
  addPage m row
  = JsMap.set m (queryOf row)
      ((match JsMap.get m (queryOf row) with Some pages => pages | None => [] end)
       ++ [pageEntryOf row]).
Proof.
  unfold addPage. fold (queryOf row).
  destruct (JsMap.has m (queryOf row)) eqn:Hhas; simpl.
  - apply has_get in Hhas.
    destruct (JsMap.get m (queryOf row)); [reflexivity | congruence].
  - rewrite get_set_same. apply has_false_get in Hhas. rewrite Hhas.
    apply set_set.
Qed.

Lemma groupOf_snoc (query : string) (rows : list SearchAnalyticsRow)
    (row : SearchAnalyticsRow) :
  groupOf query (rows ++ [row])
  = groupOf query rows
    ++ (if String.eqb (queryOf row) query then [pageEntryOf row] else []).
Proof.
  unfold groupOf. rewrite filter_app, map_app. simpl.
  destruct (String.eqb (queryOf row) query); reflexivity.
Qed.

(** The loop that fills [queryMap]: every query holds its page entries. *)
Lemma groupByQuery_inv (rest : list SearchAnalyticsRow) :
  forall (processed : list SearchAnalyticsRow) (m : JsMap.t (list PageEntry)),
    NoDup (map fst m) ->
    (forall q, JsMap.get m q = groupAgg q processed) ->
    NoDup (map fst (fold_left addPage rest m))
    /\ (forall q, JsMap.get (fold_left addPage rest m) q = groupAgg q (processed ++ rest)).
Proof.
  induction rest as [|row rest IH]; intros processed m Hnd Hget.
  - simpl. rewrite app_nil_r. auto.
  - simpl.
    replace (processed ++ row :: rest) with ((processed ++ [row]) ++ rest)
      by (now rewrite <- app_assoc).
    apply IH.
    + rewrite addPage_spec. now apply set_NoDup.
    + intros q. rewrite addPage_spec. unfold groupAgg. rewrite groupOf_snoc.
      destruct (String.eqb_spec (queryOf row) q) as [<-|Hne].
      * rewrite get_set_same, Hget. unfold groupAgg.
        destruct (groupOf (queryOf row) processed); reflexivity.
      * rewrite get_set_other by exact Hne. rewrite Hget, app_nil_r. reflexivity.
Qed.

Lemma groupByQuery_spec (rows : list SearchAnalyticsRow) :
  NoDup (map fst (groupByQuery rows))
  /\ (forall q, JsMap.get (groupByQuery rows) q = groupAgg q rows).
Proof.
  apply (groupByQuery_inv rows [] []); [constructor | reflexivity].
Qed.

Lemma In_groupByQuery (rows : list SearchAnalyticsRow) (q : string) (pages : list PageEntry) :
  In (q, pages) (groupByQuery rows) <-> pages = groupOf q rows /\ pages <> [].
Proof.
  destruct (groupByQuery_spec rows) as [Hnd Hget]. split.
  - intros Hin. apply (In_get _ _ _ Hnd) in Hin. rewrite Hget in Hin.
    unfold groupAgg in Hin. destruct (groupOf q rows) eqn:E; [discriminate|].
    inversion Hin; subst. split; [reflexivity | discriminate].
  - intros [-> Hne]. apply get_In. rewrite Hget. unfold groupAgg.
    destruct (groupOf q rows); [contradiction | reflexivity].
Qed.

Lemma qualifiesb_iff (args : CannibalizationArgs) (pages : list PageEntry) :
  qualifiesb args pages = true <-> qualifies args pages.
Proof.
  unfold qualifiesb, qualifies, JsCompare.ltb.
  rewrite andb_true_iff, negb_involutive, negb_true_iff, Nat.ltb_ge, Qle_bool_iff.
  tauto.
Qed.

Lemma collectIssues_spec (args : CannibalizationArgs) (m : JsMap.t (list PageEntry)) :
  collectIssues args m
  = map (issueOf args) (filter (fun entry => qualifiesb args (snd entry)) m).
Proof.
  induction m as [|[q pages] m IH]; [reflexivity|].
  cbn [collectIssues filter snd]. unfold qualifiesb at 1.
  fold (minImpressionsOf args).
  destruct (List.length pages <? 2)%nat; [exact IH|].
  destruct (JsCompare.ltb (totalImpressionsOf pages) (minImpressionsOf args));
    [exact IH|].
  cbn [negb andb map]. now rewrite IH.
Qed.

Lemma collectIssues_v1_spec (args : CannibalizationArgs) (m : JsMap.t (list PageEntry)) :
  collectIssues_v1 (minImpressionsOf args) m
  = map issueOf_v1 (filter (fun entry => qualifiesb args (snd entry)) m).
Proof.
  induction m as [|[q pages] m IH]; [reflexivity|].
  cbn [collectIssues_v1 filter snd]. unfold qualifiesb at 1.
  destruct (List.length pages <? 2)%nat; [exact IH|].
  destruct (JsCompare.ltb (totalImpressionsOf pages) (minImpressionsOf args));
    [exact IH|].
  cbn [negb andb map]. now rewrite IH.
Qed.

Lemma NoDup_keys_filter {V : Type} (f : string * V -> bool) (m : JsMap.t V) :
  NoDup (map fst m) -> NoDup (map fst (filter f m)).
Proof.
  induction m as [|entry m IH]; simpl; [auto|].
  intros Hnd. inversion Hnd as [|? ? Hnotin Hrest]; subst.
  destruct (f entry); simpl; [|now apply IH].
  constructor; [|now apply IH].
  intros Hin. apply Hnotin.
  apply in_map_iff in Hin as (e & He & Hin). apply filter_In in Hin as [Hin _].
  apply in_map_iff. now exists e.
Qed.

Lemma byPosition_sorted (pages : list PageEntry) :
  StronglySorted (fun a b => (pe_position a <= pe_position b)%Q)
    (JsArray.sort byPosition pages).
Proof.
  eapply StronglySorted_impl; [|apply sort_sorted].
  - unfold inOrder, byPosition. intros a b H. now apply Qle_alt.
  - unfold byPosition. intros x y H. rewrite <- Qcompare_antisym, H. discriminate.
  - unfold inOrder, byPosition. intros x y z Hxy Hyz.
    apply Qle_alt in Hxy. apply Qle_alt in Hyz.
    apply Qle_alt. eapply Qle_trans; eassumption.
Qed.

(** Rounding keeps the order of positions. *)
Lemma formatPosition_mono (x y : Q) :
  (x <= y)%Q -> (Formatters.formatPosition x <= Formatters.formatPosition y)%Q.
Proof.
  intros H. unfold Formatters.formatPosition, JsNumber.Math_round.
  apply Qmult_le_compat_r; [|discriminate].
  rewrite <- Zle_Qle. apply Qfloor_resp_le.
  apply Qplus_le_compat; [|apply Qle_refl].
  apply Qmult_le_compat_r; [exact H | discriminate].
Qed.

Lemma StronglySorted_map {A B : Type} (R : A -> A -> Prop) (R' : B -> B -> Prop)
    (f : A -> B) (l : list A) :
  (forall a b, R a b -> R' (f a) (f b)) ->
  StronglySorted R l -> StronglySorted R' (map f l).
Proof.
  intros HR. induction 1 as [|x l Hl IH Hx]; simpl; constructor; [exact IH|].
  rewrite Forall_forall in *. intros b Hb.
  apply in_map_iff in Hb as (a & <- & Ha). apply HR. now apply Hx.
Qed.

Lemma consolidate_not_menu (page : string) : consolidate page <> menu.
Proof. unfold consolidate, menu. simpl. discriminate. Qed.

Lemma recommendationFor_iff (siteUrl : option string) (best : PageEntry)
    (others : list PageEntry) :
  (recommendationFor siteUrl (best :: others)
   = consolidate (Formatters.stripUrlPrefix (pe_page best) siteUrl)
   <-> (pe_position best < 5)%Q)
  /\ (recommendationFor siteUrl (best :: others) = menu
      <-> ~ (pe_position best < 5)%Q).
Proof.
  unfold recommendationFor.
  destruct (JsCompare.ltb (pe_position best) 5) eqn:E.
  - apply ltb_iff in E. split; split; intros H; try reflexivity; try exact E.
    + exfalso. now apply (consolidate_not_menu _ H).
    + contradiction.
  - assert (Hn : ~ (pe_position best < 5)%Q)
      by (intros H; apply ltb_iff in H; congruence).
    split; split; intros H; try reflexivity; try exact Hn.
    + exfalso. symmetry in H. now apply (consolidate_not_menu _ H).
    + contradiction.
Qed.


Lemma issuesOf_eq (args : CannibalizationArgs) (rows : option (list SearchAnalyticsRow)) :
  issuesOf args rows
  = map (issueOf args)
      (filter (fun entry => qualifiesb args (snd entry))
         (groupByQuery (orDefault rows []))).
Proof. apply collectIssues_spec. Qed.

Lemma issuesOf_v1_eq (args : CannibalizationArgs) (rows : option (list SearchAnalyticsRow)) :
  issuesOf_v1 args rows
  = map issueOf_v1
      (filter (fun entry => qualifiesb args (snd entry))
         (groupByQuery (orDefault rows []))).
Proof. apply collectIssues_v1_spec. Qed.

(** The entries that become issues: the qualifying groups. *)
Lemma In_qualifying (args : CannibalizationArgs) (rows : list SearchAnalyticsRow)
    (q : string) (pages : list PageEntry) :
  In (q, pages) (filter (fun entry => qualifiesb args (snd entry)) (groupByQuery rows))
  <-> pages = groupOf q rows /\ qualifies args pages.
Proof.
  rewrite filter_In, In_groupByQuery. cbn [snd]. rewrite qualifiesb_iff.
  split; [tauto|]. intros [Hp Hq]. split; [split; [exact Hp|] | exact Hq].
  destruct Hq as [Hlen _]. intros Hnil. rewrite Hnil in Hlen. simpl in Hlen. lia.
Qed.

Lemma NoDup_map_filter {A B : Type} (h : A -> B) (p : A -> bool) (l : list A) :
  NoDup (map h l) -> NoDup (map h (filter p l)).
Proof.
  induction l as [|x l IH]; simpl; [auto|].
  intros Hnd. inversion Hnd as [|? ? Hnotin Hrest]; subst.
  destruct (p x); simpl; [|now apply IH].
  constructor; [|now apply IH].
  intros Hin. apply Hnotin.
  apply in_map_iff in Hin as (y & Hy & Hin). apply filter_In in Hin as [Hin _].
  apply in_map_iff. now exists y.
Qed.

Lemma NoDup_map_snd {A B C : Type} (f : A -> B) (g : A -> C) (b : B) (l : list A) :
  (forall x, In x l -> f x = b) ->
  NoDup (map (fun x => (f x, g x)) l) -> NoDup (map g l).
Proof.
  induction l as [|x l IH]; simpl; intros Hf Hnd; [constructor|].
  inversion Hnd as [|? ? Hnotin Hrest]; subst.
  constructor; [|apply IH; auto].
  intros Hin. apply Hnotin.
  apply in_map_iff in Hin as (y & Hy & Hin).
  apply in_map_iff. exists y. split; [|exact Hin].
  rewrite Hy. f_equal. rewrite (Hf y) by auto. symmetry. apply Hf. now left.
Qed.

(** With unique key pairs, the entries of a group are as many as its
    pages. *)
Lemma distinctPages_length (q : string) (rows : list SearchAnalyticsRow) :
  uniqueKeys rows -> distinctPages (groupOf q rows) = List.length (groupOf q rows).
Proof.
  intros Hu. unfold distinctPages. rewrite nodup_fixed_point; [apply length_map|].
  unfold groupOf. rewrite map_map. cbn [pageEntryOf pe_page].
  apply (NoDup_map_snd queryOf (fun row => orEmpty (keyAt row 1)) q).
  - intros row Hin. apply filter_In in Hin as [_ Hq]. now apply String.eqb_eq.
  - apply (NoDup_map_filter keyPair). exact Hu.
Qed.

(** What the tool reports, whatever the rows: the groups of at least two
    entries with enough impressions, one issue per query. *)
Lemma issuesOf_groups (args : CannibalizationArgs)
    (rows : option (list SearchAnalyticsRow)) (q : string) :
  (exists i, In i (issuesOf args rows) /\ i_query i = q)
  <-> qualifies args (groupOf q (orDefault rows [])).
Proof.
  rewrite issuesOf_eq. split.
  - intros (i & Hin & <-).
    apply in_map_iff in Hin as ([q pages] & <- & Hin).
    apply In_qualifying in Hin as [-> Hq]. exact Hq.
  - intros Hq. exists (issueOf args (q, groupOf q (orDefault rows []))).
    split; [|reflexivity].
    apply in_map. apply In_qualifying. now split.
Qed.

Lemma issuesOf_v1_groups (args : CannibalizationArgs)
    (rows : option (list SearchAnalyticsRow)) (q : string) :
  (exists i, In i (issuesOf_v1 args rows) /\ ci_query i = q)
  <-> qualifies args (groupOf q (orDefault rows [])).
Proof.
  rewrite issuesOf_v1_eq. split.
  - intros (i & Hin & <-).
    apply in_map_iff in Hin as ([q pages] & <- & Hin).
    apply In_qualifying in Hin as [-> Hq]. exact Hq.
  - intros Hq. exists (issueOf_v1 (q, groupOf q (orDefault rows []))).
    split; [|reflexivity].
    apply in_map. apply In_qualifying. now split.
Qed.

(** On rows dimensioned by (query, page), where no pair of keys comes
    twice, the entries of a group are distinct pages. *)
Lemma issuesOf_distinct_pages (args : CannibalizationArgs)
    (rows : option (list SearchAnalyticsRow)) (q : string) :
  uniqueKeys (orDefault rows []) ->
  (exists i, In i (issuesOf args rows) /\ i_query i = q)
  <-> ((2 <= distinctPages (groupOf q (orDefault rows [])))%nat
       /\ (minImpressionsOf args
            <= totalImpressionsOf (groupOf q (orDefault rows [])))%Q).
Proof.
  intros Hunique. rewrite issuesOf_groups. unfold qualifies.
  now rewrite distinctPages_length.
Qed.

Lemma issuesOf_v1_distinct_pages (args : CannibalizationArgs)
    (rows : option (list SearchAnalyticsRow)) (q : string) :
  uniqueKeys (orDefault rows []) ->
  (exists i, In i (issuesOf_v1 args rows) /\ ci_query i = q)
  <-> ((2 <= distinctPages (groupOf q (orDefault rows [])))%nat
       /\ (minImpressionsOf args
            <= totalImpressionsOf (groupOf q (orDefault rows [])))%Q).
Proof.
  intros Hunique. rewrite issuesOf_v1_groups. unfold qualifies.
  now rewrite distinctPages_length.
Qed.

Lemma shoesRows_uniqueKeys : uniqueKeys (orDefault shoesRows []).
Proof.
  unfold uniqueKeys.
  rewrite <- (nodup_fixed_point keyPair_dec (l := map keyPair (orDefault shoesRows []))
              ltac:(vm_compute; repeat constructor; simpl; intuition discriminate)).
  apply NoDup_nodup.
Qed.



(** Outside such input the test is on the number of entries: two rows of
    one query with the same page, which a query by query and page does
    not return, would be reported as an issue of one page. *)
Remark cannibalization_counts_entries_not_pages :
  ~ ((exists i, In i (issuesOf defaultCannibalizationArgs repeatedPageRows)
                /\ i_query i = "shoes")
     <-> ((2 <= distinctPages (groupOf "shoes" (orDefault repeatedPageRows [])))%nat
          /\ (minImpressionsOf defaultCannibalizationArgs
               <= totalImpressionsOf (groupOf "shoes" (orDefault repeatedPageRows [])))%Q)).
Proof.
  intros [Himp _].
  assert (Hex : exists i, In i (issuesOf defaultCannibalizationArgs repeatedPageRows)
                          /\ i_query i = "shoes").
  { eexists. split; [left; reflexivity | reflexivity]. }
  destruct (Himp Hex) as [Hpages _]. vm_compute in Hpages. lia.
Qed.

(** The sample rows: "boots" (1000 impressions, best position 6) and
    "shoes" (800 impressions, best position 3.2) are reported in this
    order, "hats" has one page and "socks" 40 impressions. *)
Example cannibalization_sample :
  map (fun i => (i_query i, map fp_page (i_pages i), Qred (i_totalImpressions i),
                 i_recommendation i))
    (cannibalization defaultCannibalizationArgs shoesRows)
  = [ ("boots", ["/b2"; "/b1"], 1000%Q, menu);
      ("shoes", ["/a"; "/b"], 800%Q, consolidate "/a") ].
Proof. vm_compute. reflexivity. Qed.

End OpportunityFacts.
(* ================================================================== *)
(** ** Facts about the rollup on any host *)
(* ================================================================== *)

(** The sum of an array, as [reduce] makes it, is the sum of its
    elements. *)
Module SumFacts.

Import ReportSpec.

Lemma fold_left_total (l : list Q) (a : Q) :
  (fold_left Qplus l a == a + total l)%Q.
Proof.
  revert a. induction l as [|x l IH]; intros a; cbn [fold_left total].
  - ring.
  - rewrite IH. ring.
Qed.

Lemma sum_total (l : list Q) : (JsArray.sum l == total l)%Q.
Proof. unfold JsArray.sum. rewrite fold_left_total. ring. Qed.

End SumFacts.

Module HostRollupFacts.

Import Client SearchAnalyticsTools RollupSpec ReportSpec HostDate HostRollup HostRollupSpec.
Import JsArrayFacts JsMapFacts SumFacts Fixtures.

(** *** The order of keys *)

Lemma N_of_ascii_inj (x y : ascii) : N_of_ascii x = N_of_ascii y -> x = y.
Proof.
  intros H. rewrite <- (ascii_N_embedding x), <- (ascii_N_embedding y). now rewrite H.
Qed.

(** The comparison of the sort puts [a] first exactly when [a] comes
    before [b] in the dictionary. *)
Lemma compare_before (a b : string) : String_as_OT.compare a b = Lt <-> before a b.
Proof.
  split.
  - revert b. induction a as [|x a IH]; intros [|y b] H;
      cbn [String_as_OT.compare] in H; try discriminate.
    + constructor.
    + change (Ascii_as_OT.compare x y)
        with (N.compare (N_of_ascii x) (N_of_ascii y)) in H.
      destruct (N.compare_spec (N_of_ascii x) (N_of_ascii y)) as [Heq|Hlt|Hgt].
      * apply N_of_ascii_inj in Heq. subst y. apply before_tail. now apply IH.
      * now apply before_head.
      * discriminate.
  - induction 1 as [y b|x y a b Hlt|x a b Hab IH]; cbn [String_as_OT.compare].
    + reflexivity.
    + change (Ascii_as_OT.compare x y)
        with (N.compare (N_of_ascii x) (N_of_ascii y)).
      now rewrite (proj2 (N.compare_lt_iff _ _) Hlt).
    + change (Ascii_as_OT.compare x x)
        with (N.compare (N_of_ascii x) (N_of_ascii x)).
      now rewrite N.compare_refl.
Qed.

Lemma sortKey_keyText (row : SearchAnalyticsRow) : sortKey row = keyText row.
Proof.
  unfold sortKey, keyText, keyAt. destruct (keys row) as [[|k ks]|]; reflexivity.
Qed.

(** Rows in the order of the sort, no two with one key, are in strictly
    ascending order of key. *)
Lemma sorted_strictly (l : list SearchAnalyticsRow) :
  StronglySorted (inOrder byKey) l ->
  NoDup (map sortKey l) ->
  StronglySorted (fun a b => before (keyText a) (keyText b)) l.
Proof.
  induction 1 as [|x l Hl IH Hx]; intros Hnd; [constructor|].
  cbn [map] in Hnd. inversion Hnd as [|? ? Hnotin Hrest]; subst.
  constructor; [now apply IH|].
  rewrite Forall_forall in *. intros y Hy.
  specialize (Hx y Hy). unfold inOrder, byKey, JsArray.localeCompare in Hx.
  apply RollupFacts.compare_le_cases in Hx as [Hlt|Heq].
  - rewrite <- !sortKey_keyText. now apply compare_before.
  - exfalso. apply Hnotin. rewrite Heq. now apply in_map.
Qed.

(** *** The grouping loop *)

Lemma groupRows_host_step (host : Host) (g : Granularity) (row : SearchAnalyticsRow)
    (rest : list SearchAnalyticsRow) (m : JsMap.t Bucket) :
  groupRows host g (row :: rest) m
  = match dateKeyOf row with
    | None => groupRows host g rest m
    | Some d =>
        match bucketKeyOf host g (newDate host d) with
        | Returned k => groupRows host g rest (addRow m k d row)
        | Thrown e => Thrown e
        | ThrownUndefined => ThrownUndefined
        end
    end.
Proof.
  unfold dateKeyOf. simpl. destruct (keyAt row 0) as [d|]; [|reflexivity].
  destruct (JsString.isEmpty d); reflexivity.
Qed.

(** The only failure of a key is the [RangeError] of a week that begins
    at no valid date. *)
Lemma bucketKeyOf_outcome (host : Host) (g : Granularity) (date : option Z) :
  match bucketKeyOf host g date with
  | Returned _ => True
  | Thrown e => e = invalidTime /\ g <> Monthly /\ mondayOf host date = None
  | ThrownUndefined => False
  end.
Proof.
  destruct g; cbn [bucketKeyOf]; try exact I;
    destruct (mondayOf host date); cbn [toISODate]; try exact I;
    (split; [reflexivity | split; [discriminate | reflexivity]]).
Qed.

Lemma monthly_returns (host : Host) (date : option Z) :
  exists key, bucketKeyOf host Monthly date = Returned key.
Proof. eexists. reflexivity. Qed.

Lemma members_host_snoc (host : Host) (g : Granularity) (key : string)
    (rows : list SearchAnalyticsRow) (row : SearchAnalyticsRow) :
  members host g key (rows ++ [row])
  = members host g key rows ++ (if inBucket host g key row then [row] else []).
Proof. unfold members. rewrite filter_app. reflexivity. Qed.

Section Grouping.

Variable host : Host.
Variable g : Granularity.

(** One more row in a bucket. *)
Lemma aggregate_addRow (processed : list SearchAnalyticsRow) (m : JsMap.t Bucket)
    (row : SearchAnalyticsRow) (d key : string) :
  dateKeyOf row = Some d ->
  bucketKeyOf host g (newDate host d) = Returned key ->
  (forall k, JsMap.get m k = aggregate host g k processed) ->
  forall k,
    JsMap.get (addRow m key d row) k = aggregate host g k (processed ++ [row]).
Proof.
  intros Hd Hk Hget k. rewrite RollupFacts.addRow_spec.
  unfold aggregate. rewrite members_host_snoc.
  unfold inBucket, keyOfRow. rewrite Hd. cbn [option_map]. rewrite Hk.
  destruct (String.eqb_spec key k) as [<-|Hne].
  - rewrite get_set_same, Hget.
    set (ms := members host g key processed).
    assert (Hb : match aggregate host g key processed with
                 | Some b => b
                 | None => emptyBucket
                 end = bucketOf ms)
      by (unfold aggregate; fold ms; destruct ms; reflexivity).
    rewrite Hb, <- (RollupFacts.bucketOf_snoc ms d row Hd).
    destruct ms as [|r0 ms']; reflexivity.
  - rewrite get_set_other by exact Hne.
    rewrite Hget, app_nil_r. reflexivity.
Qed.

(** The grouping loop: it ends at the first row whose key cannot be made,
    and otherwise every key holds the aggregate of its rows. *)
Lemma groupRows_host_inv (rest : list SearchAnalyticsRow) :
  forall (processed : list SearchAnalyticsRow) (m : JsMap.t Bucket),
    NoDup (map fst m) ->
    (forall k, JsMap.get m k = aggregate host g k processed) ->
    match groupRows host g rest m with
    | Returned m' =>
        NoDup (map fst m')
        /\ (forall k, JsMap.get m' k = aggregate host g k (processed ++ rest))
    | Thrown e =>
        exists row, In row rest /\ keyOfRow host g row = Some (Thrown e)
    | ThrownUndefined => False
    end.
Proof.
  induction rest as [|row rest IH]; intros processed m Hnd Hget.
  - cbn [groupRows]. rewrite app_nil_r. auto.
  - rewrite groupRows_host_step.
    replace (processed ++ row :: rest) with ((processed ++ [row]) ++ rest)
      by (now rewrite <- app_assoc).
    destruct (dateKeyOf row) as [d|] eqn:Hd.
    + pose proof (bucketKeyOf_outcome host g (newDate host d)) as Hout.
      destruct (bucketKeyOf host g (newDate host d)) as [key|e|] eqn:Hk;
        [| |contradiction].
      * assert (Hnd' : NoDup (map fst (addRow m key d row)))
          by (rewrite RollupFacts.addRow_spec; now apply set_NoDup).
        specialize (IH (processed ++ [row]) (addRow m key d row) Hnd'
                      (aggregate_addRow processed m row d key Hd Hk Hget)).
        destruct (groupRows host g rest (addRow m key d row)) as [m'|e|];
          [exact IH | | exact IH].
        destruct IH as (row0 & Hin & Hrow0).
        exists row0. split; [now right | exact Hrow0].
      * exists row. split; [now left|]. unfold keyOfRow. rewrite Hd. cbn [option_map].
        now rewrite Hk.
    + specialize (IH (processed ++ [row]) m Hnd).
      assert (Hget' : forall k, JsMap.get m k = aggregate host g k (processed ++ [row])).
      { intros k. rewrite Hget. unfold aggregate. rewrite members_host_snoc.
        unfold inBucket, keyOfRow. rewrite Hd. cbn [option_map]. now rewrite app_nil_r. }
      specialize (IH Hget').
      destruct (groupRows host g rest m) as [m'|e|]; [exact IH | | exact IH].
      destruct IH as (row0 & Hin & Hrow0). exists row0. split; [now right | exact Hrow0].
Qed.

End Grouping.

Lemma keyOfRow_thrown (host : Host) (g : Granularity) (row : SearchAnalyticsRow)
    (e : Error) :
  keyOfRow host g row = Some (Thrown e) -> e = invalidTime /\ g <> Monthly.
Proof.
  unfold keyOfRow. destruct (dateKeyOf row) as [d|]; [|discriminate].
  cbn [option_map]. intros H.
  pose proof (bucketKeyOf_outcome host g (newDate host d)) as Hout.
  destruct (bucketKeyOf host g (newDate host d)); try discriminate.
  inversion H; subst. split; apply Hout.
Qed.

(** The rows that the rollup makes of the buckets. *)
Lemma rollupWith_host_spec (host : Host) (g : Granularity) (rows : list SearchAnalyticsRow) :
  match rollupWith host g rows with
  | Returned out =>
      (forall o, In o out ->
         exists key,
           keys o = Some [key]
           /\ members host g key rows <> []
           /\ clicks o = JsArray.sum (map clicks (members host g key rows))
           /\ impressions o = JsArray.sum (map impressions (members host g key rows))
           /\ position o
              = (JsArray.sum (map position (members host g key rows))
                 / inject_Z (Z.of_nat (List.length (members host g key rows))))%Q
           /\ ctr o = if JsCompare.ltb 0 (impressions o)
                      then (clicks o / impressions o)%Q else 0%Q)
      /\ (forall row key,
            In row rows -> keyOfRow host g row = Some (Returned key) ->
            exists o, In o out /\ keys o = Some [key])
      /\ StronglySorted (fun a b => before (keyText a) (keyText b)) out
  | Thrown e =>
      e = invalidTime /\ g <> Monthly
      /\ exists row, In row rows /\ keyOfRow host g row = Some (Thrown invalidTime)
  | ThrownUndefined => False
  end.
Proof.
  pose proof (groupRows_host_inv host g rows [] [] (NoDup_nil _) (fun k => eq_refl)) as Hinv.
  unfold rollupWith.
  destruct (groupRows host g rows []) as [m|e|]; cbn [mapOutcome]; [| |exact Hinv].
  - destruct Hinv as [Hnd Hget]. cbn [app] in Hget.
    split; [|split].
    + intros o Ho. apply sort_In in Ho. apply in_map_iff in Ho as ([k b] & <- & Hin).
      exists k. pose proof (In_get m k b Hnd Hin) as Hk. rewrite Hget in Hk.
      unfold aggregate in Hk.
      destruct (members host g k rows) as [|r0 ms] eqn:Hms; [discriminate|].
      inversion Hk; subst b. clear Hk.
      split; [reflexivity|]. split; [discriminate|].
      split; [reflexivity|]. split; [reflexivity|]. split; [|reflexivity].
      unfold bucketRow, bucketOf. cbn [position b_positions].
      rewrite length_map. reflexivity.
    + intros row key Hin Hkey.
      assert (Hmem : In row (members host g key rows)).
      { apply filter_In. split; [exact Hin|].
        unfold inBucket. rewrite Hkey. apply String.eqb_refl. }
      specialize (Hget key). unfold aggregate in Hget.
      destruct (members host g key rows) as [|r0 ms]; [contradiction|].
      apply get_In in Hget.
      eexists. split.
      * apply sort_In. apply in_map. exact Hget.
      * reflexivity.
    + apply sorted_strictly.
      * apply sort_sorted; [exact RollupFacts.byKey_total | exact RollupFacts.byKey_trans].
      * eapply Permutation_NoDup.
        -- apply Permutation_map. symmetry. apply sort_perm.
        -- rewrite map_map.
           erewrite map_ext; [exact Hnd|]. intros entry. apply RollupFacts.sortKey_bucketRow.
  - destruct Hinv as (row & Hin & Hrow).
    destruct (keyOfRow_thrown host g row e Hrow) as [-> Hg].
    split; [reflexivity|]. split; [exact Hg|]. now exists row.
Qed.

Lemma groupRows_withCtr (host : Host) (g : Granularity) (f : SearchAnalyticsRow -> Q)
    (rows : list SearchAnalyticsRow) :
  forall m, groupRows host g (map (withCtr f) rows) m = groupRows host g rows m.
Proof.
  induction rows as [|row rows IH]; intros m; [reflexivity|].
  cbn [map]. rewrite !groupRows_host_step.
  change (dateKeyOf (withCtr f row)) with (dateKeyOf row).
  destruct (dateKeyOf row) as [d|]; [|apply IH].
  destruct (bucketKeyOf host g (newDate host d)) as [key|e|]; try reflexivity.
  change (addRow m key d (withCtr f row)) with (addRow m key d row).
  apply IH.
Qed.

(** *** The granularity of ['auto'] *)

Lemma daySpan_days (start end_ : Z) : daySpan start end_ = days start end_.
Proof.
  unfold daySpan, days, Qceiling. f_equal.
  rewrite Zdiv_Qdiv. apply Qfloor_comp.
  unfold JsDate.msPerDay, Z.sub. rewrite !inject_Z_plus, !inject_Z_opp. field.
Qed.

Lemma resolve_effective (host : Host) (startDate endDate : string) :
  resolve host startDate endDate = effective host Auto startDate endDate.
Proof.
  unfold resolve, effective, resolveAuto.
  destruct (newDate host startDate) as [start|]; [|reflexivity].
  destruct (newDate host endDate) as [end_|]; [|reflexivity].
  rewrite daySpan_days, !Z.gtb_ltb. reflexivity.
Qed.

Lemma effective_not_auto (host : Host) (granularity g : Granularity)
    (startDate endDate : string) :
  effective host granularity startDate endDate = Some g -> g <> Auto.
Proof.
  unfold effective. destruct granularity; try (intros H; inversion H; discriminate).
  destruct (newDate host startDate); [|discriminate].
  destruct (newDate host endDate); [|discriminate].
  destruct (90 <? _); [intros H; inversion H; discriminate|].
  destruct (21 <? _); [intros H; inversion H; discriminate | discriminate].
Qed.

Lemma rollup_host_effective (host : Host) (rows : list SearchAnalyticsRow)
    (granularity g : Granularity) (startDate endDate : string) :
  effective host granularity startDate endDate = Some g ->
  rollupByGranularity host rows granularity startDate endDate = rollupWith host g rows.
Proof.
  intros Hg. unfold rollupByGranularity. destruct granularity.
  - now inversion Hg.
  - now inversion Hg.
  - now rewrite resolve_effective, Hg.
Qed.

(** C4.  On any host, whatever it makes of the date keys and whatever its
    time zone: a call that rolls up by week or by month (after ['auto']
    is resolved) either returns or, by week only, throws the RangeError
    of a row whose week begins at no valid date.  When it returns, each
    row carries one bucket key and stands for the non-empty list of input
    rows of that bucket; its clicks and impressions are the sums over
    these rows (as [reduce] makes them, and as plain sums), its position
    is the sum of their positions divided by their number, and its ctr is
    its clicks divided by its impressions, or 0 when the impressions are
    not positive; every input bucket has its
    row; the rows are in strictly ascending order of key, so there is one
    row per key.  The ctr values of the input play no part.  By month the
    call always returns. *)
Theorem rollup_aggregates (host : Host) (rows : list SearchAnalyticsRow)
    (granularity : Granularity) (startDate endDate : string) (g : Granularity) :
  effective host granularity startDate endDate = Some g ->
  match rollupByGranularity host rows granularity startDate endDate with
  | Returned out =>
      (forall o, In o out ->
         exists key,
           keys o = Some [key]
           /\ members host g key rows <> []
           /\ clicks o = JsArray.sum (map clicks (members host g key rows))
           /\ impressions o = JsArray.sum (map impressions (members host g key rows))
           /\ position o
              = (JsArray.sum (map position (members host g key rows))
                 / inject_Z (Z.of_nat (List.length (members host g key rows))))%Q
           /\ ((0 < impressions o)%Q -> ctr o = (clicks o / impressions o)%Q)
           /\ (~ (0 < impressions o)%Q -> ctr o = 0%Q)
           /\ (clicks o == total (map clicks (members host g key rows)))%Q
           /\ (impressions o == total (map impressions (members host g key rows)))%Q
           /\ (position o
               == total (map position (members host g key rows))
                  / inject_Z (Z.of_nat (List.length (members host g key rows))))%Q)
      /\ (forall row key,
            In row rows -> keyOfRow host g row = Some (Returned key) ->
            exists o, In o out /\ keys o = Some [key])
      /\ StronglySorted (fun a b => before (keyText a) (keyText b)) out
      /\ (forall f : SearchAnalyticsRow -> Q,
            rollupByGranularity host (map (withCtr f) rows) granularity startDate endDate
            = Returned out)
  | Thrown e =>
      g = Weekly /\ e = invalidTime
      /\ exists row, In row rows /\ keyOfRow host Weekly row = Some (Thrown invalidTime)
  | ThrownUndefined => False
  end
  /\ (g = Monthly ->
      exists out,
        rollupByGranularity host rows granularity startDate endDate = Returned out).
Proof.
  intros Hg.
  pose proof (rollupWith_host_spec host g rows) as Hspec.
  pose proof (effective_not_auto _ _ _ _ _ Hg) as Hauto.
  rewrite !(rollup_host_effective host rows _ _ _ _ Hg).
  split.
  - destruct (rollupWith host g rows) as [out|e|] eqn:Hrun; [| |exact Hspec].
    + destruct Hspec as (Hagg & Hall & Hsorted).
      split.
      { intros o Ho. destruct (Hagg o Ho) as (key & Hk & Hne & Hc & Hi & Hp & Hctr).
        exists key. repeat (split; [assumption|]).
        assert (Hsums : (clicks o == total (map clicks (members host g key rows)))%Q
                        /\ (impressions o
                            == total (map impressions (members host g key rows)))%Q
                        /\ (position o
                            == total (map position (members host g key rows))
                               / inject_Z (Z.of_nat
                                             (List.length (members host g key rows))))%Q).
        { rewrite Hc, Hi, Hp, !sum_total. repeat split; reflexivity. }
        rewrite Hctr. destruct (JsCompare.ltb 0 (impressions o)) eqn:E.
        - split; [reflexivity|]. split; [|exact Hsums].
          intros Hn. apply OpportunityFacts.ltb_iff in E. contradiction.
        - split; [|split; [reflexivity | exact Hsums]].
          intros Hpos. apply OpportunityFacts.ltb_iff in Hpos. congruence. }
      split; [exact Hall|]. split; [exact Hsorted|].
      intros f. rewrite (rollup_host_effective host _ _ _ _ _ Hg).
      unfold rollupWith in *. now rewrite groupRows_withCtr.
    + destruct Hspec as (-> & Hmonthly & row & Hin & Hrow).
      assert (Hweekly : g = Weekly) by (destruct g; congruence).
      subst g. split; [reflexivity|]. split; [reflexivity|]. now exists row.
  - intros ->. destruct (rollupWith host Monthly rows) as [out|e|].
    + now exists out.
    + now destruct Hspec as (_ & Hmonthly & _).
    + contradiction.
Qed.

(** The sample rows for five weeks from January 1: ['auto'] is weekly,
    and the weeks come in the order of their Mondays, not in the order in
    which the rows bring them.  In the first week the input ctr values are
    1/100 and 1, with a mean above 1/2; the bucket has 2 clicks over 101
    impressions. *)
Lemma rollup_aggregates_witness :
  exists out,
    rollupByGranularity (fixedHost 0) januaryRows Auto "2024-01-01" "2024-02-04"
    = Returned out
    /\ map (fun o => (keyText o, Qred (clicks o), Qred (impressions o),
                      Qred (ctr o), Qred (position o))) out
       = [ ("2024-01-01", 2, 101, 2 # 101, 9 # 2);
           ("2024-01-08", 4, 40, 1 # 10, 2);
           ("2024-01-29", 5, 50, 1 # 10, 8) ]%Q
    /\ StronglySorted (fun a b => before (keyText a) (keyText b)) out.
Proof.
  assert (Hg : effective (fixedHost 0) Auto "2024-01-01" "2024-02-04" = Some Weekly)
    by (vm_compute; reflexivity).
  pose proof (rollup_aggregates (fixedHost 0) januaryRows Auto
                "2024-01-01" "2024-02-04" Weekly) as H.
  specialize (H Hg). destruct H as [H _].
  destruct (rollupByGranularity (fixedHost 0) januaryRows Auto
              "2024-01-01" "2024-02-04") as [out|e|] eqn:E.
  - exists out. split; [reflexivity|]. split; [|apply H].
    vm_compute in E. inversion E. vm_compute. reflexivity.
  - vm_compute in E. discriminate E.
  - contradiction.
Defined.

(** A date key that the host does not read: by month its rows make the
    bucket [NaN-NaN], which is put after the months; by week the call
    throws. *)
Example rollup_of_an_unreadable_date :
  mapOutcome (map (fun o => (keyText o, Qred (clicks o), Qred (impressions o))))
    (rollupByGranularity (fixedHost 0)
       [daily "soon" 1 10 1; daily "2024-01-05" 2 20 2; daily "later" 3 30 3]
       Monthly "" "")
  = Returned [("2024-01", 2, 20); ("NaN-NaN", 4, 40)]%Q
  /\ rollupByGranularity (fixedHost 0)
       [daily "soon" 1 10 1; daily "2024-01-05" 2 20 2; daily "later" 3 30 3]
       Weekly "" ""
     = Thrown invalidTime.
Proof. split; vm_compute; reflexivity. Qed.

(** A range that the host does not read keeps ['auto'] from rolling up. *)
Example auto_with_an_unreadable_range :
  rollupByGranularity (fixedHost 0) januaryRows Auto "2024-01-01" "soon"
  = Returned januaryRows.
Proof. reflexivity. Qed.

End HostRollupFacts.

(* ================================================================== *)
(** ** More about the client: the retry loop in general *)
(* ================================================================== *)

Module RetryFacts.

Import JsString Client ClientMore RetrySpec Fixtures JsStringFacts.

Section Retry.

Context {World T : Type}.
Variable operation : Operation World T.
Variable retries : nat.

(** The loop from iteration [attempt] on: it runs the operation through a
    chain of retryable failures and stops at the first answer that is a
    value, an error that is not retryable, or the answer of the last
    iteration. *)
Lemma withRetry_loop_run (fuel attempt : nat) (lastError : option Error) (w : World) :
  (attempt + fuel = S retries)%nat -> (1 <= fuel)%nat ->
  exists es wl w' x,
    withRetry_loop fuel operation retries attempt lastError w
    = (w', settle x, backoffFrom attempt (S (List.length es)))
    /\ FailsThrough operation w es wl
    /\ Forall (fun e => isRetryableError e = true) es
    /\ operation wl = (w', x)
    /\ (List.length es < fuel)%nat
    /\ match x with
       | inl e => isRetryableError e = false \/ S (List.length es) = fuel
       | inr _ => True
       end.
Proof.
  revert attempt lastError w.
  induction fuel as [|fuel' IH]; intros attempt lastError w Hsum Hpos; [lia|].
  cbn [withRetry_loop].
  destruct (Nat.leb_spec attempt retries) as [Hle|Hgt]; [|lia].
  destruct (operation w) as [w1 [e|v]] eqn:Hop.
  - destruct (isRetryableError e) eqn:Hr; cbn [negb orb].
    + destruct (Nat.eqb_spec attempt retries) as [Heq|Hne].
      * exists [], w, w1, (inl e). cbn [List.length backoffFrom settle].
        split; [reflexivity|]. split; [constructor|]. split; [constructor|].
        split; [exact Hop|]. split; [lia|]. right. lia.
      * destruct (IH (S attempt) (Some e) w1) as (es & wl & w' & x & Hrun & Hch & Hall & Hlast & Hlen & Hx);
          [lia | lia |].
        exists (e :: es), wl, w', x. rewrite Hrun. cbn [List.length].
        split; [reflexivity|].
        split; [econstructor; eassumption|].
        split; [constructor; assumption|].
        split; [assumption|].
        split; [lia|].
        destruct x; [|exact I]. destruct Hx; [now left | right; lia].
    + exists [], w, w1, (inl e). cbn [List.length backoffFrom settle].
      split; [reflexivity|]. split; [constructor|]. split; [constructor|].
      split; [exact Hop|]. split; [lia|]. now left.
  - exists [], w, w1, (inr v). cbn [List.length backoffFrom settle].
    split; [reflexivity|]. split; [constructor|]. split; [constructor|].
    split; [exact Hop|]. split; [lia|]. exact I.
Qed.

(** The other way round: a chain of retryable failures followed by a
    final answer fixes what the loop does. *)
Lemma withRetry_loop_chain (es : list Error) :
  forall (fuel attempt : nat) (lastError : option Error) (w wl w' : World) (x : Error + T),
    FailsThrough operation w es wl ->
    Forall (fun e => isRetryableError e = true) es ->
    operation wl = (w', x) ->
    (attempt + List.length es <= retries)%nat ->
    (List.length es < fuel)%nat ->
    match x with
    | inl e => isRetryableError e = false \/ (attempt + List.length es = retries)%nat
    | inr _ => True
    end ->
    withRetry_loop fuel operation retries attempt lastError w
    = (w', settle x, backoffFrom attempt (S (List.length es))).
Proof.
  induction es as [|e es IH]; intros fuel attempt lastError w wl w' x Hch Hall Hlast Hle Hfuel Hx.
  - inversion Hch; subst. destruct fuel as [|fuel']; [cbn in Hfuel; lia|].
    cbn [withRetry_loop List.length backoffFrom].
    destruct (Nat.leb_spec attempt retries) as [_|Hgt]; [|cbn in Hle; lia].
    rewrite Hlast. destruct x as [e|v]; [|reflexivity].
    destruct Hx as [Hr|Heq].
    + rewrite Hr. reflexivity.
    + cbn in Heq. rewrite Nat.add_0_r in Heq. subst attempt.
      rewrite Nat.eqb_refl, orb_true_r. reflexivity.
  - inversion Hch as [|w0 w1 w2 e0 es0 Hop Hrest]; subst.
    inversion Hall as [|e0 es0 Hr Hall']; subst.
    cbn [List.length] in *.
    destruct fuel as [|fuel']; [lia|].
    cbn [withRetry_loop].
    destruct (Nat.leb_spec attempt retries) as [_|Hgt]; [|lia].
    rewrite Hop, Hr. cbn [negb orb].
    destruct (Nat.eqb_spec attempt retries) as [Heq|Hne]; [lia|].
    rewrite (IH fuel' (S attempt) (Some e) w1 wl w' x); try assumption; try lia.
    + reflexivity.
    + destruct x; [|exact I]. destruct Hx; [now left | right; lia].
Qed.

End Retry.

(** The sleeps of a backoff trace add up to a geometric sum. *)
Lemma sleepTotal_backoffFrom (k attempt : nat) :
  sleepTotal (backoffFrom attempt (S k))
  = RETRY_DELAY_MS * 2 ^ Z.of_nat attempt * (2 ^ Z.of_nat k - 1).
Proof.
  revert attempt. induction k as [|k IH]; intros attempt.
  - cbn. lia.
  - change (sleepTotal (backoffFrom attempt (S (S k))))
      with (RETRY_DELAY_MS * 2 ^ Z.of_nat attempt
            + sleepTotal (backoffFrom (S attempt) (S k))).
    rewrite IH.
    rewrite !Nat2Z.inj_succ, !Z.pow_succ_r by lia.
    unfold RETRY_DELAY_MS. ring.
Qed.

Lemma attempts_backoffFrom (k attempt : nat) :
  attempts (backoffFrom attempt k) = k.
Proof.
  revert attempt. induction k as [|k IH]; intros attempt; [reflexivity|].
  destruct k as [|k]; [reflexivity|].
  specialize (IH (S attempt)).
  unfold attempts in *. cbn [backoffFrom filter List.length] in *.
  now rewrite IH.
Qed.

(** X1.  Whatever the operation does and whatever [retries] is,
    [withRetry] runs it through a chain of failures that are all
    retryable and stops at the first attempt that returns a value, fails
    with an error that is not retryable, or is attempt number
    [retries + 1]; it returns that value or throws that very error, it
    never throws [undefined], and between two attempts it sleeps
    [1000 * 2^i] ms after attempt [i] (from 0). *)
Theorem withRetry_runs_to_first_final_answer {World T : Type}
    (operation : Operation World T) (retries : nat) (w : World) :
  exists (es : list Error) (wl w' : World) (x : Error + T),
    withRetry operation retries w
    = (w', settle x, backoffFrom 0 (S (List.length es)))
    /\ FailsThrough operation w es wl
    /\ Forall (fun e => isRetryableError e = true) es
    /\ operation wl = (w', x)
    /\ (List.length es <= retries)%nat
    /\ match x with
       | inl e => isRetryableError e = false \/ List.length es = retries
       | inr _ => True
       end.
Proof.
  destruct (withRetry_loop_run operation retries (S retries) 0 None w)
    as (es & wl & w' & x & Hrun & Hch & Hall & Hlast & Hlen & Hx); [lia | lia |].
  exists es, wl, w', x.
  split; [exact Hrun|]. split; [exact Hch|]. split; [exact Hall|].
  split; [exact Hlast|]. split; [lia|].
  destruct x; [|exact I]. destruct Hx; [now left | right; lia].
Qed.

Lemma withRetry_trace {World T : Type}
    (operation : Operation World T) (retries : nat) (w : World) :
  exists k, (1 <= k <= retries + 1)%nat
            /\ snd (withRetry operation retries w) = backoffFrom 0 k.
Proof.
  destruct (withRetry_loop_run operation retries (S retries) 0 None w)
    as (es & wl & w' & x & Hrun & _ & _ & _ & Hlen & _); [lia | lia |].
  exists (S (List.length es)). split; [lia|].
  unfold withRetry. now rewrite Hrun.
Qed.

(** X2.  [withRetry] makes between one and [retries + 1] attempts, and
    with [k] attempts it has slept [1000 * (2^(k-1) - 1)] ms in all: never
    more than [1000 * (2^retries - 1)], which is 7 seconds for the three
    retries that every method of the client uses. *)
Theorem withRetry_backoff_budget {World T : Type}
    (operation : Operation World T) (retries : nat) (w : World) :
  let events := snd (withRetry operation retries w) in
  ((1 <= attempts events <= retries + 1)%nat
   /\ sleepTotal events = 1000 * (2 ^ Z.of_nat (attempts events - 1) - 1)
   /\ sleepTotal events <= 1000 * (2 ^ Z.of_nat retries - 1))
  /\ sleepTotal (snd (withRetry operation MAX_RETRIES w)) <= 7000.
Proof.
  assert (Hgen : forall r,
    let events := snd (withRetry operation r w) in
    (1 <= attempts events <= r + 1)%nat
    /\ sleepTotal events = 1000 * (2 ^ Z.of_nat (attempts events - 1) - 1)
    /\ sleepTotal events <= 1000 * (2 ^ Z.of_nat r - 1)).
  { intros r. destruct (withRetry_trace operation r w) as (k & Hk & Hev).
    cbv zeta. rewrite Hev. destruct k as [|k]; [lia|].
    rewrite attempts_backoffFrom, sleepTotal_backoffFrom.
    replace (S k - 1)%nat with k by lia.
    assert (Hpow : 2 ^ Z.of_nat k <= 2 ^ Z.of_nat r)
      by (apply Z.pow_le_mono_r; lia).
    unfold RETRY_DELAY_MS. cbn [Z.of_nat Z.pow].
    split; [lia|]. split; lia. }
  split; [apply Hgen|].
  destruct (Hgen MAX_RETRIES) as (_ & _ & H). cbv zeta in H.
  unfold MAX_RETRIES in *. change (2 ^ Z.of_nat 3) with 8 in H. lia.
Qed.

(** X3.  Recovery.  If the operation fails [n <= retries] times in a row
    with retryable errors and then returns a value, [withRetry] returns
    that value after [n + 1] attempts; if instead it then fails with an
    error that is not retryable, that error is thrown at once, with no
    further attempt. *)
Theorem withRetry_recovers {World T : Type}
    (operation : Operation World T) (retries : nat)
    (es : list Error) (w wl w' : World) :
  FailsThrough operation w es wl ->
  Forall (fun e => isRetryableError e = true) es ->
  (List.length es <= retries)%nat ->
  (forall v, operation wl = (w', inr v) ->
     withRetry operation retries w
     = (w', Returned v, backoffFrom 0 (S (List.length es))))
  /\ (forall e, operation wl = (w', inl e) -> isRetryableError e = false ->
     withRetry operation retries w
     = (w', Thrown e, backoffFrom 0 (S (List.length es)))).
Proof.
  intros Hch Hall Hlen. split.
  - intros v Hlast.
    apply (withRetry_loop_chain operation retries es (S retries) 0 None w wl w' (inr v));
      try assumption; try lia.
  - intros e Hlast Hr.
    apply (withRetry_loop_chain operation retries es (S retries) 0 None w wl w' (inl e));
      try assumption; try lia; try (now left).
Qed.

Lemma withRetry_recovers_witness :
  withRetry (failingUntil 2 "503 Service Unavailable" "ok") MAX_RETRIES 0%nat
  = (3%nat, Returned "ok", [Attempt; Sleep 1000; Attempt; Sleep 2000; Attempt]).
Proof.
  refine (proj1 (withRetry_recovers (failingUntil 2 "503 Service Unavailable" "ok")
                   MAX_RETRIES
                   [mkError "503 Service Unavailable"; mkError "503 Service Unavailable"]
                   0%nat 2%nat 3%nat _ _ _) "ok" _).
  - apply (FailsThrough_cons _ 0%nat 1%nat); [reflexivity|].
    apply (FailsThrough_cons _ 1%nat 2%nat); [reflexivity|].
    apply FailsThrough_nil.
  - repeat constructor.
  - unfold MAX_RETRIES. cbn. lia.
  - reflexivity.
Defined.

(** *** [isRetryableError] looks for text anywhere in the message *)

Lemma toLowerCase_app (a b : string) :
  toLowerCase (a ++ b) = (toLowerCase a ++ toLowerCase b)%string.
Proof. induction a as [|c a IH]; cbn; [reflexivity | now rewrite IH]. Qed.

Lemma startsWith_append (s p rest : string) :
  startsWith s p = true -> startsWith (s ++ rest) p = true.
Proof.
  revert s. induction p as [|c p IH]; intros s H; [reflexivity|].
  destruct s as [|d s]; cbn in *; [discriminate|].
  apply andb_true_iff in H as [Hc Hp]. rewrite Hc. cbn. now apply IH.
Qed.

Lemma includes_append (s needle rest : string) :
  includes s needle = true -> includes (s ++ rest) needle = true.
Proof.
  induction s as [|c s IH]; intros H.
  - cbn in H. rewrite orb_false_r in H.
    destruct needle; [|cbn in H; discriminate].
    destruct rest; reflexivity.
  - cbn [includes] in H. apply orb_true_iff in H as [H|H].
    + change (String c s ++ rest)%string with (String c (s ++ rest)).
      cbn [includes].
      change (String c (s ++ rest)) with (String c s ++ rest)%string.
      rewrite (startsWith_append _ _ _ H). reflexivity.
    + change (String c s ++ rest)%string with (String c (s ++ rest)).
      cbn [includes]. rewrite (IH H). apply orb_true_r.
Qed.

Lemma includes_prepend (pre s needle : string) :
  includes s needle = true -> includes (pre ++ s) needle = true.
Proof.
  intros H. induction pre as [|c pre IH]; [exact H|].
  change (String c pre ++ s)%string with (String c (pre ++ s)).
  cbn [includes]. rewrite IH. apply orb_true_r.
Qed.

(** X4.  [isRetryableError] ignores the case of the letters of a message,
    and a message stays retryable when it is embedded in a longer one:
    the function cannot tell a status code from the same digits elsewhere
    in the text. *)
Theorem isRetryableError_case_and_context (m : string) :
  (forall m', sameUpToCase m m' ->
     isRetryableError (mkError m') = isRetryableError (mkError m))
  /\ (isRetryableError (mkError m) = true ->
      forall pre post : string,
        isRetryableError (mkError (pre ++ m ++ post)) = true).
Proof.
  split.
  - intros m' H. unfold isRetryableError, sameUpToCase in *. cbn [message].
    now rewrite H.
  - intros H pre post.
    apply ClientFacts.isRetryableError_iff in H as (needle & Hin & Hinc).
    apply ClientFacts.isRetryableError_iff. exists needle. split; [exact Hin|].
    cbn [message] in *. rewrite !toLowerCase_app.
    apply includes_prepend, includes_append, Hinc.
Qed.

Lemma isRetryableError_case_and_context_witness :
  isRetryableError (mkError "Order 5003 was rejected: 403 Forbidden") = true.
Proof.
  apply (proj2 (isRetryableError_case_and_context "500") eq_refl
           "Order " "3 was rejected: 403 Forbidden").
Defined.

(** *** The list operations *)

Lemma awaitThen_thrown {World A B : Type} (w : World) (e : Error) events (f : A -> B) :
  awaitThen (w, Thrown e, events) f = (w, Thrown e, events).
Proof. reflexivity. Qed.

Lemma stringOr_nonempty (x : option string) (d : string) :
  d <> "" -> stringOr x d <> "".
Proof.
  intros Hd. unfold stringOr, truthyString.
  destruct x as [s|]; [|exact Hd].
  destruct s; cbn; [exact Hd | discriminate].
Qed.

(** X5.  [listSites] and [listSitemaps] do not swallow errors (unlike
    [getSite] and [getSitemap]): what the retry-wrapped remote call
    throws, they throw.  When the call returns, they return one entry
    per entry of the answer, in the same order, none at all when the
    answer has no list; and every site listed has a permission level that
    is not empty. *)
Theorem listSites_listSitemaps_behaviour {World : Type}
    (sites_list : Operation World SitesListData)
    (sitemaps_list : string -> Operation World SitemapsListData)
    (siteUrl : string) (w : World) :
  (forall w' e events,
     withRetry sites_list MAX_RETRIES w = (w', Thrown e, events) ->
     listSites sites_list w = (w', Thrown e, events))
  /\ (forall w' e events,
     withRetry (sitemaps_list siteUrl) MAX_RETRIES w = (w', Thrown e, events) ->
     listSitemaps sitemaps_list siteUrl w = (w', Thrown e, events))
  /\ (forall w' data events,
     withRetry sites_list MAX_RETRIES w = (w', Returned data, events) ->
     exists sites,
       listSites sites_list w = (w', Returned sites, events)
       /\ List.length sites = List.length (listOr (siteEntry data))
       /\ (siteEntry data = None -> sites = [])
       /\ Forall (fun site => permissionLevel site <> "") sites)
  /\ (forall w' data events,
     withRetry (sitemaps_list siteUrl) MAX_RETRIES w = (w', Returned data, events) ->
     exists sitemaps,
       listSitemaps sitemaps_list siteUrl w = (w', Returned sitemaps, events)
       /\ List.length sitemaps = List.length (listOr (sitemap data))
       /\ (sitemap data = None -> sitemaps = [])).
Proof.
  split; [|split; [|split]].
  - intros w' e events H. unfold listSites. now rewrite H.
  - intros w' e events H. unfold listSitemaps. now rewrite H.
  - intros w' data events H. unfold listSites. rewrite H. cbn.
    eexists. split; [reflexivity|].
    split; [apply length_map|].
    split; [intros ->; reflexivity|].
    apply Forall_forall. intros site Hin.
    apply in_map_iff in Hin as (s & <- & _). cbn.
    apply stringOr_nonempty. discriminate.
  - intros w' data events H. unfold listSitemaps. rewrite H. cbn.
    eexists. split; [reflexivity|].
    split; [apply length_map|].
    intros ->; reflexivity.
Qed.

Lemma listSites_listSitemaps_behaviour_witness :
  listSites (failingWith "403 Forbidden") 0%nat
  = (1%nat, Thrown (mkError "403 Forbidden"), [Attempt]).
Proof.
  apply (proj1 (listSites_listSitemaps_behaviour
                  (failingWith "403 Forbidden")
                  (fun _ => failingWith "403 Forbidden") "sc-domain:a.com" 0%nat)
           1%nat (mkError "403 Forbidden") [Attempt]).
  reflexivity.
Defined.

End RetryFacts.

(* ================================================================== *)
(** ** More about pagination: what the pages add up to *)
(* ================================================================== *)

Module PagesFacts.

Import Client ClientMore ClientSpec RetrySpec PagesSpec Fixtures.

Lemma withRetry_not_undefined {World T : Type} (operation : Operation World T)
    (w w' : World) events :
  withRetry operation MAX_RETRIES w <> (w', ThrownUndefined, events).
Proof.
  destruct (RetryFacts.withRetry_loop_run operation MAX_RETRIES
              (S MAX_RETRIES) 0 None w)
    as (es & wl & w1 & x & Hrun & _); [reflexivity | unfold MAX_RETRIES; lia |].
  unfold withRetry. rewrite Hrun. destruct x; intros H; inversion H.
Qed.

Section Pages.

Context {World : Type}.
Variable searchanalytics_query : Request -> Operation World ApiResponse.

Variable self : SearchAnalyticsQuery -> World -> option (Result World).
Hypothesis self_page :
  forall query k s w,
    k <= MAX_ROWS_PER_REQUEST ->
    self (withPage query k s) w
    = Some (searchAnalyticsOnce searchanalytics_query (withPage query k s) w).

(** The loop hands back the rows it had, followed by the rows of its
    calls in the order of the calls; an error ends it with the error of
    the call that failed. *)
Lemma paginate_rows (fuel : nat) (query : SearchAnalyticsQuery) (total : Z) :
  forall (allRows : list SearchAnalyticsRow) (s : Z) (agg : option string)
         (w : World) (log : list Call),
    (Z.to_nat (total - rowCount allRows) <= fuel)%nat ->
    exists w' r calls,
      paginate fuel self query total allRows s agg w log = Some (w', r, log ++ calls)
      /\ match r with
         | Returned response =>
             rows response = Some (allRows ++ List.concat (map rowsOf calls))
             /\ (rowCount allRows <= total -> Forall honoursLimit calls ->
                 rowCount (allRows ++ List.concat (map rowsOf calls)) <= total)
         | Thrown e =>
             exists init c, calls = init ++ [c] /\ call_result c = Thrown e
         | ThrownUndefined => False
         end.
Proof.
  induction fuel as [|fuel IH]; intros allRows s agg w log Hfuel.
  - simpl. destruct (Z.ltb_spec (rowCount allRows) total); [lia|].
    eexists _, _, []. rewrite app_nil_r. split; [reflexivity|].
    cbn. rewrite app_nil_r. split; [reflexivity | lia].
  - simpl. destruct (Z.ltb_spec (rowCount allRows) total) as [Hlt|Hge].
    2:{ eexists _, _, []. rewrite app_nil_r. split; [reflexivity|].
        cbn. rewrite app_nil_r. split; [reflexivity | lia]. }
    set (k := Z.min MAX_ROWS_PER_REQUEST (total - rowCount allRows)).
    assert (Hk : 1 <= k <= MAX_ROWS_PER_REQUEST)
      by (unfold k, MAX_ROWS_PER_REQUEST; lia).
    rewrite self_page by lia.
    destruct (PaginationFacts.once_shape searchanalytics_query (withPage query k s) w)
      as (w1 & r & events & Honce & r0 & Hretry & Hr0).
    rewrite Honce.
    set (c := mkCall (requestOf (withPage query k s)) events r).
    destruct r as [response|e|].
    + destruct (rows response) as [[|row rs]|] eqn:Hrows.
      * eexists _, _, [c]. split; [reflexivity|].
        cbn [map List.concat]. unfold rowsOf at 1 2. cbn [c call_result].
        rewrite Hrows. cbn [listOr app]. rewrite app_nil_r.
        split; [reflexivity | lia].
      * destruct (Z.ltb_spec (rowCount (row :: rs)) k) as [Hshort|Hfull].
        { eexists _, _, [c]. split; [reflexivity|].
          cbn [map List.concat]. unfold rowsOf at 1 2. cbn [c call_result].
          rewrite Hrows. cbn [listOr]. rewrite app_nil_r.
          split; [reflexivity|]. intros _ _.
          unfold rowCount in *. rewrite length_app. unfold k in Hshort. lia. }
        destruct (IH (allRows ++ row :: rs) (s + k) (responseAggregationType response)
                    w1 (log ++ [c])) as (w' & r' & calls & Hrec & Hres).
        { unfold rowCount in *. rewrite length_app. cbn [List.length] in *. lia. }
        exists w', r', (c :: calls). split.
        { rewrite Hrec. now rewrite <- app_assoc. }
        assert (Hc : rowsOf c = row :: rs).
        { unfold rowsOf. cbn [c call_result]. now rewrite Hrows. }
        destruct r' as [response'|e'|].
        -- destruct Hres as [Hrows' Hbound]. cbn [map List.concat]. rewrite Hc.
           rewrite app_assoc. split; [exact Hrows'|].
           intros Hle Hall. inversion Hall as [|c0 l0 Hhon Hall']; subst.
           apply Hbound; [|exact Hall'].
           unfold honoursLimit in Hhon. rewrite Hc in Hhon.
           change (rq_rowLimit (call_request c)) with k in Hhon.
           unfold rowCount in *. rewrite length_app. unfold k in Hhon. lia.
        -- destruct Hres as (init & c' & -> & Hc'). exists (c :: init), c'.
           split; [reflexivity | exact Hc'].
        -- exact Hres.
      * eexists _, _, [c]. split; [reflexivity|].
        cbn [map List.concat]. unfold rowsOf at 1 2. cbn [c call_result].
        rewrite Hrows. cbn [listOr app]. rewrite app_nil_r.
        split; [reflexivity | lia].
    + eexists _, _, [c]. split; [reflexivity|].
      exists [], c. split; reflexivity.
    + exfalso. destruct r0; try discriminate.
      exact (withRetry_not_undefined _ _ _ _ Hretry).
Qed.

End Pages.

(** X6.  A paginated query ([rowLimit > 25000]) makes at least one call.
    If it returns, its rows are a list (never [undefined]): the rows of
    all its calls, in the order of the calls; and if no call brought more
    rows than it asked for, there are at most [rowLimit] of them.  If it
    throws, it throws the error of its last call, and the rows of the
    calls before are lost.  It never throws [undefined]. *)
Theorem searchAnalytics_paginated_rows {World : Type}
    (searchanalytics_query : Request -> Operation World ApiResponse)
    (query : SearchAnalyticsQuery) (w : World) :
  MAX_ROWS_PER_REQUEST < rowLimitOf query ->
  exists w' r log,
    searchAnalytics searchanalytics_query query w = Some (w', r, log)
    /\ log <> []
    /\ match r with
       | Returned response =>
           rows response = Some (List.concat (map rowsOf log))
           /\ (Forall honoursLimit log ->
               rowCount (List.concat (map rowsOf log)) <= rowLimitOf query)
       | Thrown e =>
           exists init c, log = init ++ [c] /\ call_result c = Thrown e
       | ThrownUndefined => False
       end.
Proof.
  intros Hbig.
  unfold searchAnalytics. cbn [searchAnalytics_rec].
  destruct (Z.gtb_spec (rowLimitOf query) MAX_ROWS_PER_REQUEST) as [_|Hle]; [|lia].
  unfold searchAnalyticsPaginated.
  rewrite PaginationFacts.countOr_rowLimit by exact Hbig.
  rewrite PaginationFacts.countOr_startRow.
  destruct (paginate_rows searchanalytics_query
              (searchAnalytics_rec searchanalytics_query 0)
              (fun q k s w0 H =>
                 PaginationFacts.searchAnalytics_rec_page searchanalytics_query 0 q k s w0 H)
              (Z.to_nat (rowLimitOf query)) query (rowLimitOf query)
              [] (startRowOf query) None w [])
    as (w' & r & calls & Hrun & Hres).
  { unfold rowCount. cbn. lia. }
  cbn [app] in Hrun. exists w', r, calls. split; [exact Hrun|].
  split.
  - intros ->. 
    assert (Hfuel : exists f, Z.to_nat (rowLimitOf query) = S f).
    { exists (Z.to_nat (rowLimitOf query) - 1)%nat. unfold MAX_ROWS_PER_REQUEST in *. lia. }
    destruct Hfuel as (f & Hf). rewrite Hf in Hrun. cbn [paginate] in Hrun.
    destruct (Z.ltb_spec (rowCount []) (rowLimitOf query)) as [_|Hge];
      [|unfold rowCount, MAX_ROWS_PER_REQUEST in *; cbn in Hge; lia].
    rewrite PaginationFacts.searchAnalytics_rec_page in Hrun
      by (unfold MAX_ROWS_PER_REQUEST; lia).
    destruct (PaginationFacts.once_shape searchanalytics_query
                (withPage query
                   (Z.min MAX_ROWS_PER_REQUEST (rowLimitOf query - rowCount []))
                   (startRowOf query)) w)
      as (w1 & r1 & events & Honce & _).
    rewrite Honce in Hrun.
    destruct r1 as [response|e|]; [|discriminate Hrun|discriminate Hrun].
    destruct (rows response) as [[|row rs]|]; try discriminate Hrun.
    destruct (_ <? _); [discriminate Hrun|].
    destruct (PaginationFacts.paginate_calls searchanalytics_query
                (searchAnalytics_rec searchanalytics_query 0)
                (fun q k s w0 H =>
                   PaginationFacts.searchAnalytics_rec_page searchanalytics_query 0 q k s w0 H)
                f query (rowLimitOf query) ([] ++ row :: rs)
                (startRowOf query
                 + Z.min MAX_ROWS_PER_REQUEST (rowLimitOf query - rowCount []))
                (responseAggregationType response) w1
                ([] ++ [mkCall
                          (requestOf
                             (withPage query
                                (Z.min MAX_ROWS_PER_REQUEST
                                   (rowLimitOf query - rowCount []))
                                (startRowOf query))) events (Returned response)]))
      as (w2 & r2 & calls2 & Hrec & _).
    { unfold rowCount. cbn [app List.length]. lia. }
    rewrite Hrec in Hrun. cbn [app] in Hrun. discriminate Hrun.
  - destruct r as [response|e|]; [|exact Hres|exact Hres].
    destruct Hres as [Hrows Hbound]. cbn [app] in *.
    split; [exact Hrows|]. intros Hall. apply Hbound; [|exact Hall].
    unfold rowCount, MAX_ROWS_PER_REQUEST in *. cbn. lia.
Qed.

Lemma searchAnalytics_paginated_rows_witness :
  exists w' r log,
    searchAnalytics (flakyService 30000 100000) (queryFor (Some 60000) None) tt
    = Some (w', r, log)
    /\ log <> []
    /\ match r with
       | Returned response =>
           rows response = Some (List.concat (map rowsOf log))
           /\ (Forall honoursLimit log ->
               rowCount (List.concat (map rowsOf log))
               <= rowLimitOf (queryFor (Some 60000) None))
       | Thrown e =>
           exists init c, log = init ++ [c] /\ call_result c = Thrown e
       | ThrownUndefined => False
       end.
Proof.
  apply (searchAnalytics_paginated_rows (flakyService 30000 100000)
           (queryFor (Some 60000) None) tt).
  reflexivity.
Defined.

End PagesFacts.

(* ================================================================== *)
(** ** More about the formatters *)
(* ================================================================== *)

Module FormatFacts.

Import JsString JsNumber Client ClientMore Formatters FormattersMore FormatSpec.
Import JsStringFacts.

(** *** Rounding *)

Lemma Math_round_bounds (x : Q) :
  (x - (1 # 2) < inject_Z (Math_round x) /\ inject_Z (Math_round x) <= x + (1 # 2))%Q.
Proof.
  unfold Math_round. split.
  - pose proof (Qlt_floor (x + (1 # 2))) as H.
    rewrite inject_Z_plus in H. change (inject_Z 1) with 1%Q in H.
    set (a := inject_Z (Qfloor (x + (1 # 2)))) in *. lra.
  - apply Qfloor_le.
Qed.

Lemma Math_round_inject_Z (n : Z) : Math_round (inject_Z n) = n.
Proof.
  unfold Math_round, Qfloor, Qplus, inject_Z. cbn [Qnum Qden].
  change (Z.pos (1 * 2)) with 2. change (Z.pos 1) with 1. change (Z.pos 2) with 2.
  Z.div_mod_to_equations. lia.
Qed.

Lemma Math_round_scaled (n : Z) (k : positive) :
  Math_round (inject_Z n / inject_Z (Z.pos k) * inject_Z (Z.pos k)) = n.
Proof.
  rewrite <- (Math_round_inject_Z n) at 2.
  unfold Math_round. apply Qfloor_comp.
  field. discriminate.
Qed.

Lemma formatPosition_bounds (x : Q) :
  (x - (1 # 20) < formatPosition x /\ formatPosition x <= x + (1 # 20))%Q.
Proof.
  unfold formatPosition.
  destruct (Math_round_bounds (x * 10)) as [Hlo Hhi].
  set (r := Math_round (x * 10)) in *.
  split.
  - apply Qlt_shift_div_l; [reflexivity | lra].
  - apply Qle_shift_div_r; [reflexivity | lra].
Qed.

Lemma formatCtrFull_mono (x y : Q) :
  (x <= y)%Q -> (formatCtrFull x <= formatCtrFull y)%Q.
Proof.
  intros H. unfold formatCtrFull, Math_round.
  apply Qmult_le_compat_r; [|discriminate].
  rewrite <- Zle_Qle. apply Qfloor_resp_le.
  apply Qplus_le_compat; [|apply Qle_refl].
  apply Qmult_le_compat_r; [exact H | discriminate].
Qed.

(** X7.  [formatPosition] and the full-format [formatCtr] give a whole
    number of tenths and of ten-thousandths, they never reverse the order
    of two values, and they leave a value that they returned as it is:
    rounding a second time changes nothing. *)
Theorem rounding_is_monotone_and_idempotent (x y : Q) :
  (hasDecimals 1 (formatPosition x)
   /\ ((x <= y)%Q -> (formatPosition x <= formatPosition y)%Q)
   /\ formatPosition (formatPosition x) = formatPosition x)
  /\ (hasDecimals 4 (formatCtrFull x)
      /\ ((x <= y)%Q -> (formatCtrFull x <= formatCtrFull y)%Q)
      /\ formatCtrFull (formatCtrFull x) = formatCtrFull x).
Proof.
  split.
  - unfold formatPosition at 1 4 5.
    set (r := Math_round (x * 10)) in *.
    split; [exists r; reflexivity|].
    split; [apply OpportunityFacts.formatPosition_mono|].
    unfold formatPosition. f_equal. f_equal. apply (Math_round_scaled r 10).
  - unfold formatCtrFull at 1 4 5.
    set (r := Math_round (x * 10000)) in *.
    split; [exists r; reflexivity|].
    split; [apply formatCtrFull_mono|].
    unfold formatCtrFull. f_equal. f_equal. apply (Math_round_scaled r 10000).
Qed.

(** *** Rows *)

Lemma keysOf_formatRow (row : SearchAnalyticsRow) (options : FormatOptions) :
  keysOf (formatRow row options)
  = listOr (processKeys (keys row) (fo_siteUrl options)).
Proof.
  unfold formatRow. destruct (isCompact options); [|reflexivity].
  destruct (processKeys (keys row) (fo_siteUrl options)) as [[|k [|k2 ks]]|];
    reflexivity.
Qed.

Lemma processKeys_keeps (ks : option (list string)) (siteUrl : option string) :
  Forall2 (fun k k' => looksLikeUrl k = false \/ truthyString siteUrl = None -> k' = k)
    (listOr ks) (listOr (processKeys ks siteUrl)).
Proof.
  unfold processKeys. destruct ks as [ks|]; [|constructor].
  destruct (truthyString siteUrl) as [site|].
  - cbn [listOr]. induction ks as [|k ks IH]; cbn [map]; constructor; [|exact IH].
    intros [H|H]; [|discriminate]. unfold processKey. now rewrite H.
  - cbn [listOr]. induction ks as [|k ks IH]; constructor; auto.
Qed.


(** *** The compact ctr *)

Lemma digitsOnly_app (a b : string) :
  digitsOnly (a ++ b) = digitsOnly a && digitsOnly b.
Proof.
  induction a as [|c a IH]; cbn; [reflexivity|].
  now rewrite IH, andb_assoc.
Qed.

Lemma digitsOnly_uint (d : Decimal.uint) :
  digitsOnly (NilEmpty.string_of_uint d) = true.
Proof. induction d; cbn; auto. Qed.

Lemma digitsOnly_stringOfZ (n : Z) :
  0 <= n -> digitsOnly (stringOfZ n) = true /\ stringOfZ n <> "".
Proof.
  intros Hn. unfold stringOfZ, NilZero.string_of_int.
  destruct n as [|p|p]; [split; [reflexivity | discriminate] | | lia].
  cbn [Z.to_int]. unfold NilZero.string_of_uint.
  destruct (Pos.to_uint p) eqn:E; cbn;
    try (split; [try apply digitsOnly_uint; reflexivity | discriminate]).
Qed.

Lemma digitsOnly_zeros (k : nat) : digitsOnly (zeros k) = true.
Proof. induction k; cbn; auto. Qed.

Lemma length_zeros (k : nat) : String.length (zeros k) = k.
Proof. induction k; cbn; auto. Qed.

Lemma length_append (a b : string) :
  String.length (a ++ b) = (String.length a + String.length b)%nat.
Proof. induction a as [|c a IH]; cbn; auto. Qed.

Lemma append_assoc (a b c : string) :
  ((a ++ b) ++ c = a ++ (b ++ c))%string.
Proof. induction a as [|x a IH]; cbn; [reflexivity | now rewrite IH]. Qed.

Lemma take_slice (n : nat) (s : string) :
  s = (takeString n s ++ sliceFrom s n)%string.
Proof.
  revert s. induction n as [|n IH]; intros s; [destruct s; reflexivity|].
  destruct s as [|c s]; [reflexivity|]. cbn. f_equal. apply IH.
Qed.

Lemma length_sliceFrom (n : nat) (s : string) :
  String.length (sliceFrom s n) = (String.length s - n)%nat.
Proof.
  revert s. induction n as [|n IH]; intros s; cbn; [lia|].
  destruct s as [|c s]; [reflexivity|]. cbn. apply IH.
Qed.

Lemma length_takeString (n : nat) (s : string) :
  String.length (takeString n s) = Nat.min n (String.length s).
Proof.
  revert s. induction n as [|n IH]; intros s; [reflexivity|].
  destruct s as [|c s]; [reflexivity|]. cbn. now rewrite IH.
Qed.

(** The digits that [toFixed] prints: the integer part, not empty, and
    [f] decimals. *)
Lemma toFixed_digits (x : Q) (f : nat) :
  exists a b : string,
    padStart0 (f + 1)
      (stringOfZ (Qfloor (Qabs x * inject_Z (10 ^ Z.of_nat f) + (1 # 2))%Q))
    = (a ++ b)%string
    /\ a = takeString (String.length (a ++ b) - f) (a ++ b)
    /\ b = sliceFrom (a ++ b)%string (String.length (a ++ b) - f)
    /\ digitsOnly a = true /\ a <> ""
    /\ digitsOnly b = true /\ String.length b = f.
Proof.
  set (n := Qfloor _).
  assert (Hn : 0 <= n).
  { change 0 with (Qfloor 0). apply Qfloor_resp_le.
    assert (0 <= Qabs x)%Q by apply Qabs_nonneg.
    assert (0 <= inject_Z (10 ^ Z.of_nat f))%Q.
    { change 0%Q with (inject_Z 0). rewrite <- Zle_Qle. apply Z.pow_nonneg. lia. }
    assert (0 <= Qabs x * inject_Z (10 ^ Z.of_nat f))%Q by (apply Qmult_le_0_compat; assumption).
    set (y := (Qabs x * inject_Z (10 ^ Z.of_nat f))%Q) in *. lra. }
  destruct (digitsOnly_stringOfZ n Hn) as [Hd Hne].
  set (m := padStart0 (f + 1) (stringOfZ n)).
  assert (Hm : digitsOnly m = true).
  { unfold m, padStart0. now rewrite digitsOnly_app, digitsOnly_zeros, Hd. }
  assert (Hlen : (f + 1 <= String.length m)%nat).
  { unfold m, padStart0. rewrite length_append, length_zeros. lia. }
  set (k := String.length m) in *.
  exists (takeString (k - f) m), (sliceFrom m (k - f)).
  rewrite <- (take_slice (k - f) m). fold k.
  rewrite (take_slice (k - f) m) in Hm. rewrite digitsOnly_app in Hm.
  apply andb_true_iff in Hm as [Ha Hb].
  split; [reflexivity|]. split; [reflexivity|]. split; [reflexivity|].
  split; [exact Ha|]. split.
  - intros E. apply (f_equal String.length) in E.
    rewrite length_takeString in E. fold k in E. cbn in E. lia.
  - split; [exact Hb|]. rewrite length_sliceFrom. fold k. lia.
Qed.

Lemma Qle_bool_percent (x : Q) : Qle_bool 0 (x * 100) = Qle_bool 0 x.
Proof. apply eq_true_iff_eq. rewrite !Qle_bool_iff. split; intros H; lra. Qed.

(** The shape of what [toFixed] prints with at least one decimal. *)
Lemma toFixed_shape (x : Q) (f : nat) :
  exists a b : string,
    toFixed x (S f) = ((if Qle_bool 0 x then "" else "-") ++ a ++ "." ++ b)%string
    /\ digitsOnly a = true /\ a <> ""
    /\ digitsOnly b = true /\ String.length b = S f.
Proof.
  destruct (toFixed_digits x (S f)) as (a & b & Hm & Ha & Hb & Hda & Hna & Hdb & Hlb).
  exists a, b. split; [|repeat (split; [assumption|]); assumption].
  unfold toFixed. cbv zeta. rewrite Hm, <- Ha, <- Hb. reflexivity.
Qed.

(** [toFixed] and the roundings see the value of a number only. *)
Lemma toFixed_comp (x y : Q) (f : nat) : (x == y)%Q -> toFixed x f = toFixed y f.
Proof.
  intros H. unfold toFixed. cbv zeta.
  assert (Hs : Qle_bool 0 x = Qle_bool 0 y).
  { apply eq_true_iff_eq. rewrite !Qle_bool_iff. now rewrite H. }
  assert (Hn : Qfloor (Qabs x * inject_Z (10 ^ Z.of_nat f) + (1 # 2))
               = Qfloor (Qabs y * inject_Z (10 ^ Z.of_nat f) + (1 # 2))).
  { apply Qfloor_comp. now rewrite H. }
  now rewrite Hs, Hn.
Qed.

Lemma formatPosition_comp (x y : Q) : (x == y)%Q -> formatPosition x = formatPosition y.
Proof.
  intros H. unfold formatPosition, Math_round.
  do 2 f_equal. apply Qfloor_comp. now rewrite H.
Qed.

(** X9.  In the compact format the ctr is printed as a percentage with
    exactly two decimals: a minus sign if the ctr is negative, at least
    one digit, a point, two digits and the percent sign. *)
Theorem formatCtr_compact_shape (ctr : Q) :
  (Qabs (ctr * 100) < inject_Z (10 ^ 21))%Q ->
  exists a b : string,
    formatCtr ctr true
    = inr ((if Qle_bool 0 ctr then "" else "-") ++ a ++ "." ++ b ++ "%")%string
    /\ digitsOnly a = true /\ a <> ""
    /\ digitsOnly b = true /\ String.length b = 2%nat.
Proof.
  intros _.
  destruct (toFixed_digits (ctr * 100) 2) as (a & b & Hm & Ha & Hb & Hda & Hna & Hdb & Hlb).
  exists a, b. split; [|repeat (split; [assumption|]); assumption].
  unfold formatCtr, formatCtrCompact, toFixed. cbv zeta.
  rewrite Hm, <- Ha, <- Hb.
  assert (Hs : Qle_bool 0 (ctr * 100) = Qle_bool 0 ctr).
  { apply eq_true_iff_eq. rewrite !Qle_bool_iff. split; intros H; lra. }
  rewrite Hs. f_equal. now rewrite !append_assoc.
Qed.

Lemma formatCtr_compact_shape_witness :
  exists a b : string,
    formatCtr (-(1 # 30)) true
    = inr ("-" ++ a ++ "." ++ b ++ "%")%string
    /\ digitsOnly a = true /\ a <> ""
    /\ digitsOnly b = true /\ String.length b = 2%nat.
Proof.
  apply (formatCtr_compact_shape (-(1 # 30))). reflexivity.
Defined.

(** *** What [stripUrlPrefix] can return *)

Lemma stripped_shape (url p : string) :
  startsWith url p = true ->
  isEmpty (stripped url p) = false
  /\ (stripped url p = "/" \/ endsWith url (stripped url p)).
Proof.
  intros H. unfold stripped, orElse.
  destruct (sliceFrom url (String.length p)) as [|c rest] eqn:E; cbn.
  - split; [reflexivity | now left].
  - split; [reflexivity|]. right. exists p. rewrite <- E.
    now apply startsWith_inv.
Qed.

Lemma endsWith_refl (url : string) : endsWith url url.
Proof. now exists ""%string. Qed.

Lemma stripFirst_shape (url : string) (prefixes : list string) :
  isEmpty url = false ->
  isEmpty (stripFirst url prefixes) = false
  /\ (stripFirst url prefixes = "/" \/ endsWith url (stripFirst url prefixes)).
Proof.
  intros Hu. induction prefixes as [|p rest IH]; cbn.
  - split; [exact Hu | right; apply endsWith_refl].
  - destruct (startsWith url p) eqn:E; [now apply stripped_shape | exact IH].
Qed.

(** X10.  What [stripUrlPrefix] returns is empty only if the url is, and
    it is either ["/"] or the end of the url: the function only ever
    removes text from the front. *)
Theorem stripUrlPrefix_returns_suffix (url : string) (siteUrl : option string) :
  isEmpty (stripUrlPrefix url siteUrl) = isEmpty url
  /\ (stripUrlPrefix url siteUrl = "/" \/ endsWith url (stripUrlPrefix url siteUrl)).
Proof.
  unfold stripUrlPrefix.
  destruct siteUrl as [site|]; [|split; [reflexivity | right; apply endsWith_refl]].
  destruct (isEmpty site); cbn [orb];
    [split; [reflexivity | right; apply endsWith_refl]|].
  destruct (isEmpty url) eqn:Hu;
    [split; [now rewrite Hu | right; apply endsWith_refl]|].
  destruct (startsWith site "sc-domain:").
  - rewrite <- Hu at 2. now apply stripFirst_shape.
  - destruct (startsWith url (dropTrailingSlash site)) eqn:E.
    + destruct (stripped_shape _ _ E) as [H1 H2]. split; [exact H1 | exact H2].
    + split; [exact Hu | right; apply endsWith_refl].
Qed.

End FormatFacts.

(* ================================================================== *)
(** ** More about the rollup and the period comparison *)
(* ================================================================== *)

Module ReportFacts.

Import Client ClientMore Formatters FormattersMore SearchAnalyticsTools.
Import SearchAnalyticsReport RollupSpec ReportSpec FormatSpec.
Import JsArrayFacts JsMapFacts SumFacts Fixtures FixturesMore.

(** *** Sums *)

Lemma total_perm (l l' : list Q) : Permutation l l' -> (total l == total l')%Q.
Proof.
  induction 1; cbn [total] in *.
  - reflexivity.
  - now rewrite IHPermutation.
  - ring.
  - now rewrite IHPermutation1.
Qed.

Lemma total_app (l l' : list Q) : (total (l ++ l') == total l + total l')%Q.
Proof.
  induction l as [|x l IH]; cbn [app total] in *; [ring|].
  rewrite IH. ring.
Qed.

Lemma queryTotals_total (rs : list SearchAnalyticsRow) (acc : Q * Q) :
  (fst (fold_left queryTotalsStep rs acc) == fst acc + total (map clicks rs))%Q
  /\ (snd (fold_left queryTotalsStep rs acc)
      == snd acc + total (map impressions rs))%Q.
Proof.
  revert acc. induction rs as [|row rs IH]; intros acc;
    cbn [fold_left map total].
  - split; ring.
  - destruct (IH (queryTotalsStep acc row)) as [H1 H2].
    rewrite H1, H2. cbn [queryTotalsStep fst snd]. split; ring.
Qed.

(** Bounds of a sum. *)
Lemma total_le (f g : SearchAnalyticsRow -> Q) (l : list SearchAnalyticsRow) :
  Forall (fun row => f row <= g row)%Q l ->
  (total (map f l) <= total (map g l))%Q.
Proof.
  induction 1 as [|row l Hrow _ IH]; cbn [map total]; [lra|].
  set (a := total (map f l)) in *. set (b := total (map g l)) in *. lra.
Qed.

Lemma total_nonneg (f : SearchAnalyticsRow -> Q) (l : list SearchAnalyticsRow) :
  Forall (fun row => 0 <= f row)%Q l -> (0 <= total (map f l))%Q.
Proof.
  induction 1 as [|row l Hrow _ IH]; cbn [map total]; [lra|].
  set (a := total (map f l)) in *. lra.
Qed.

(** *** The grouping loop keeps the totals *)

Lemma overBuckets_set (f : Bucket -> Q) (m : JsMap.t Bucket) (k : string) (v : Bucket) :
  (overBuckets f (JsMap.set m k v)
   == overBuckets f m
      - match JsMap.get m k with Some old => f old | None => 0 end
      + f v)%Q.
Proof.
  unfold overBuckets.
  induction m as [|[k0 v0] m IH]; cbn [JsMap.set JsMap.get map total snd].
  - ring.
  - destruct (String.eqb k0 k); cbn [map total snd].
    + ring.
    + rewrite IH. ring.
Qed.

Lemma overBuckets_addRow (f : Bucket -> Q) (g : SearchAnalyticsRow -> Q)
    (m : JsMap.t Bucket) (k d : string) (row : SearchAnalyticsRow) :
  (forall b, f (grown b d row) == f b + g row)%Q ->
  (f emptyBucket == 0)%Q ->
  (overBuckets f (addRow m k d row) == overBuckets f m + g row)%Q.
Proof.
  intros Hgrow Hempty. rewrite RollupFacts.addRow_spec, overBuckets_set, Hgrow.
  destruct (JsMap.get m k) as [b|]; [ring | rewrite Hempty; ring].
Qed.

Lemma groupRows_total (tz : Z) (gr : Granularity) (f : Bucket -> Q)
    (g : SearchAnalyticsRow -> Q) :
  (forall b d row, f (grown b d row) == f b + g row)%Q ->
  (f emptyBucket == 0)%Q ->
  forall (rows : list SearchAnalyticsRow) (m m' : JsMap.t Bucket),
    groupRows tz gr rows m = Some m' ->
    (overBuckets f m' == overBuckets f m + total (map g (filter hasDate rows)))%Q.
Proof.
  intros Hgrow Hempty rows.
  induction rows as [|row rows IH]; intros m m' Hrun.
  - cbn in Hrun. inversion Hrun; subst. cbn. ring.
  - rewrite RollupFacts.groupRows_step in Hrun.
    cbn [filter]. unfold hasDate at 1.
    destruct (dateKeyOf row) as [d|].
    + destruct (JsDate.parse d) as [date|]; [|discriminate].
      rewrite (IH _ _ Hrun), overBuckets_addRow by (auto || apply Hgrow).
      cbn [map total]. ring.
    + exact (IH _ _ Hrun).
Qed.

Lemma set_Forall {V : Type} (P : string * V -> Prop) (m : JsMap.t V) (k : string) (v : V) :
  Forall P m -> (forall k', P (k', v)) -> Forall P (JsMap.set m k v).
Proof.
  intros Hall Hv. induction Hall as [|[k0 v0] m H0 Hm IH]; cbn [JsMap.set].
  - constructor; [apply Hv | constructor].
  - destruct (String.eqb k0 k); constructor; try assumption; apply Hv.
Qed.

(** No bucket is empty. *)
Lemma groupRows_nonempty (tz : Z) (gr : Granularity) (rs : list SearchAnalyticsRow) :
  forall (m m' : JsMap.t Bucket),
    Forall (fun entry => b_positions (snd entry) <> []) m ->
    groupRows tz gr rs m = Some m' ->
    Forall (fun entry => b_positions (snd entry) <> []) m'.
Proof.
  induction rs as [|row rs IH]; intros m m' Hall Hrun.
  - cbn in Hrun. now inversion Hrun; subst.
  - rewrite RollupFacts.groupRows_step in Hrun.
    destruct (dateKeyOf row) as [d|]; [|exact (IH _ _ Hall Hrun)].
    destruct (JsDate.parse d) as [date|]; [|discriminate].
    apply (IH (addRow m (bucketKeyOf tz gr date) d row) m'); [|exact Hrun].
    rewrite RollupFacts.addRow_spec. apply set_Forall; [exact Hall|].
    intros k'. cbn. intros E. now apply app_eq_nil in E as [_ E].
Qed.

Lemma overBuckets_count (m : JsMap.t Bucket) :
  Forall (fun entry => b_positions (snd entry) <> []) m ->
  (inject_Z (Z.of_nat (List.length m))
   <= overBuckets (fun b => inject_Z (Z.of_nat (List.length (b_positions b)))) m)%Q.
Proof.
  unfold overBuckets.
  induction 1 as [|[k b] m Hb _ IH]; cbn [List.length map total snd].
  - apply Qle_refl.
  - rewrite Nat2Z.inj_succ. unfold Z.succ. rewrite inject_Z_plus.
    assert (H1 : (1 <= inject_Z (Z.of_nat (List.length (b_positions b))))%Q).
    { change 1%Q with (inject_Z 1). rewrite <- Zle_Qle.
      cbn in Hb. destruct (b_positions b); [congruence | cbn [List.length]; lia]. }
    change (inject_Z 1) with 1%Q.
    set (x := inject_Z (Z.of_nat (List.length (b_positions b)))) in *.
    set (n := inject_Z (Z.of_nat (List.length m))) in *.
    set (t := total _) in *. lra.
Qed.

Lemma total_ones {A : Type} (l : list A) :
  (total (map (fun _ => 1%Q) l) == inject_Z (Z.of_nat (List.length l)))%Q.
Proof.
  induction l as [|x l IH]; cbn [map total List.length]; [reflexivity|].
  rewrite IH, Nat2Z.inj_succ. unfold Z.succ. rewrite inject_Z_plus.
  change (inject_Z 1) with 1%Q. ring.
Qed.

(** The rollup keeps the totals of the rows that have a date, and it
    makes no more rows than there are such rows. *)
Lemma rollupWith_total (tz : Z) (gr : Granularity)
    (rs out : list SearchAnalyticsRow) :
  rollupWith tz gr rs = Some out ->
  (total (map clicks out) == total (map clicks (filter hasDate rs)))%Q
  /\ (total (map impressions out)
      == total (map impressions (filter hasDate rs)))%Q
  /\ (List.length out <= List.length (filter hasDate rs))%nat.
Proof.
  unfold rollupWith. destruct (groupRows tz gr rs []) as [m|] eqn:Hrun; [|discriminate].
  intros H. inversion H; subst out. clear H.
  pose proof (sort_perm byKey (map bucketRow m)) as Hperm.
  split; [|split].
  - rewrite (total_perm _ _ (Permutation_map clicks Hperm)), map_map.
    rewrite (map_ext (fun x => clicks (bucketRow x)) (fun e => b_clicks (snd e)))
      by (now intros [k b]).
    fold (overBuckets b_clicks m).
    rewrite (groupRows_total tz gr b_clicks clicks
               (fun b d row => Qeq_refl _) (Qeq_refl _) rs [] m Hrun).
    cbn. ring.
  - rewrite (total_perm _ _ (Permutation_map impressions Hperm)), map_map.
    rewrite (map_ext (fun x => impressions (bucketRow x)) (fun e => b_impressions (snd e)))
      by (now intros [k b]).
    fold (overBuckets b_impressions m).
    rewrite (groupRows_total tz gr b_impressions impressions
               (fun b d row => Qeq_refl _) (Qeq_refl _) rs [] m Hrun).
    cbn. ring.
  - rewrite (Permutation_length Hperm), length_map.
    apply Nat2Z.inj_le. rewrite Zle_Qle.
    rewrite <- (total_ones (filter hasDate rs)).
    eapply Qle_trans;
      [apply overBuckets_count, (groupRows_nonempty tz gr rs [] m (Forall_nil _) Hrun)|].
    rewrite (groupRows_total tz gr
               (fun b => inject_Z (Z.of_nat (List.length (b_positions b))))
               (fun _ => 1%Q)) with (rows := rs) (m := []) (m' := m).
    + cbn. rewrite Qplus_0_l. apply Qle_refl.
    + intros b d row. cbn [grown b_positions]. rewrite length_app. cbn [List.length].
      rewrite Nat2Z.inj_add, inject_Z_plus. reflexivity.
    + reflexivity.
    + exact Hrun.
Qed.

Lemma rollup_effective (tz : Z) (rs : list SearchAnalyticsRow)
    (granularity g : Granularity) (startDate endDate : string) :
  effectiveGranularity granularity startDate endDate = Some g ->
  rollupByGranularity tz rs granularity startDate endDate = rollupWith tz g rs.
Proof.
  unfold effectiveGranularity, rollupByGranularity.
  destruct granularity.
  - intros H. now inversion H.
  - intros H. now inversion H.
  - destruct (JsDate.parse startDate); [|discriminate].
    destruct (JsDate.parse endDate); [|discriminate].
    intros H. now rewrite H.
Qed.

Lemma length_formatRows (rs : list SearchAnalyticsRow) (options : FormatOptions) :
  List.length (formatRows (Some rs) options) = List.length rs.
Proof. apply length_map. Qed.

(** X11.  When [searchanalytics.query] rolls its rows up by week or by
    month, the totals that it reports are the totals of the daily rows
    that have a date key: the rollup neither loses nor counts twice a
    click or an impression of such a row.  The row count that it reports
    is the number of rows that it returns, and there are no more of them
    than daily rows with a date. *)
Theorem queryReport_rollup_keeps_totals (tz : Z) (args : QueryArgs)
    (response : SearchAnalyticsResponse) (rs : list SearchAnalyticsRow)
    (granularity g : Granularity) :
  rows response = Some rs ->
  qa_granularity args = Some granularity ->
  includesDate (qa_dimensions args) = true ->
  effectiveGranularity granularity (qa_startDate args) (qa_endDate args) = Some g ->
  datesReadable rs ->
  exists report c i,
    queryReport tz args response = Some report
    /\ qr_totals report = Some (c, i)
    /\ (c == total (map clicks (filter hasDate rs)))%Q
    /\ (i == total (map impressions (filter hasDate rs)))%Q
    /\ qr_rowCount report = Z.of_nat (List.length (qr_rows report))
    /\ qr_rowCount report <= Z.of_nat (List.length (filter hasDate rs)).
Proof.
  intros Hrows Hgran Hdate Heff Hread.
  destruct (RollupFacts.rollupWith_spec tz g rs Hread) as (out & Hrun & _).
  destruct (rollupWith_total tz g rs out Hrun) as (Hc & Hi & Hlen).
  unfold queryReport, rolledUp.
  rewrite Hgran, Hrows, Hdate, (rollup_effective _ _ _ _ _ _ Heff), Hrun.
  cbn [rows responseAggregationType queryTotals option_map].
  destruct (queryTotals_total out (0%Q, 0%Q)) as [Hfst Hsnd].
  destruct (fold_left queryTotalsStep out (0%Q, 0%Q)) as [c i] eqn:Hfold.
  cbn [fst snd] in Hfst, Hsnd.
  eexists _, c, i. split; [reflexivity|]. cbn [qr_totals qr_rowCount qr_rows].
  split; [reflexivity|].
  split; [rewrite Hfst, Hc; ring|].
  split; [rewrite Hsnd, Hi; ring|].
  split; [now rewrite length_formatRows|].
  unfold rowCount. lia.
Qed.

Lemma queryReport_rollup_keeps_totals_witness :
  exists report c i,
    queryReport 0 weeklyArgs januaryResponse = Some report
    /\ qr_totals report = Some (c, i)
    /\ (c == total (map clicks (filter hasDate januaryRows)))%Q
    /\ (i == total (map impressions (filter hasDate januaryRows)))%Q
    /\ qr_rowCount report = Z.of_nat (List.length (qr_rows report))
    /\ qr_rowCount report <= Z.of_nat (List.length (filter hasDate januaryRows)).
Proof.
  apply (queryReport_rollup_keeps_totals 0 weeklyArgs januaryResponse januaryRows
           Weekly Weekly eq_refl eq_refl eq_refl eq_refl
           RollupFacts.januaryRows_readable).
Defined.

(** X12.  On any host, a rollup by week or by month keeps the clicks
    within the impressions: if no daily row has more clicks than
    impressions and none has negative clicks, the same holds for every
    bucket, and the ctr of every bucket lies between 0 and 1.  By month
    the rollup always returns; by week it returns or throws. *)
Theorem rollup_keeps_ranges (host : HostDate.Host) (rs : list SearchAnalyticsRow)
    (granularity g : Granularity) (startDate endDate : string) :
  HostRollupSpec.effective host granularity startDate endDate = Some g ->
  Forall (fun row => 0 <= clicks row /\ clicks row <= impressions row)%Q rs ->
  match HostRollup.rollupByGranularity host rs granularity startDate endDate with
  | Returned out =>
      Forall (fun o => (0 <= clicks o /\ clicks o <= impressions o)
                       /\ (0 <= ctr o /\ ctr o <= 1))%Q out
  | Thrown e => g = Weekly
  | ThrownUndefined => False
  end
  /\ (g = Monthly ->
      exists out,
        HostRollup.rollupByGranularity host rs granularity startDate endDate
        = Returned out).
Proof.
  intros Heff Hall.
  rewrite !(HostRollupFacts.rollup_host_effective host rs _ _ _ _ Heff).
  pose proof (HostRollupFacts.rollupWith_host_spec host g rs) as Hspec.
  pose proof (HostRollupFacts.effective_not_auto _ _ _ _ _ Heff) as Hauto.
  split.
  - destruct (HostRollup.rollupWith host g rs) as [out|e|]; [| |exact Hspec].
    + destruct Hspec as (Hout & _).
      apply Forall_forall. intros o Ho.
      destruct (Hout o Ho) as (key & _ & Hne & Hc & Hi & _ & Hctr).
      set (ms := HostRollupSpec.members host g key rs) in *.
      assert (Hms : Forall (fun row => 0 <= clicks row
                                       /\ clicks row <= impressions row)%Q ms).
      { apply Forall_forall. intros row Hrow. apply filter_In in Hrow as [Hrow _].
        exact (proj1 (Forall_forall _ _) Hall row Hrow). }
      assert (Hclicks : (0 <= clicks o /\ clicks o <= impressions o)%Q).
      { rewrite Hc, Hi, !sum_total. split.
        - apply total_nonneg. eapply Forall_impl; [|exact Hms]. intros row H. apply H.
        - apply total_le. eapply Forall_impl; [|exact Hms]. intros row H. apply H. }
      split; [exact Hclicks|].
      rewrite Hctr. destruct (JsCompare.ltb 0 (impressions o)) eqn:E.
      * apply OpportunityFacts.ltb_iff in E. split.
        -- apply Qle_shift_div_l; [exact E|]. rewrite Qmult_0_l. apply Hclicks.
        -- apply Qle_shift_div_r; [exact E|]. rewrite Qmult_1_l. apply Hclicks.
      * split; [apply Qle_refl | discriminate].
    + destruct Hspec as (_ & Hmonthly & _). destruct g; congruence.
  - intros ->. destruct (HostRollup.rollupWith host Monthly rs) as [out|e|].
    + now exists out.
    + now destruct Hspec as (_ & Hmonthly & _).
    + contradiction.
Qed.

Lemma rollup_keeps_ranges_witness :
  exists out,
    HostRollup.rollupByGranularity (HostRollupSpec.fixedHost 0) januaryRows
      Monthly "" ""
    = Returned out
    /\ Forall (fun o => (0 <= clicks o /\ clicks o <= impressions o)
                        /\ (0 <= ctr o /\ ctr o <= 1))%Q out.
Proof.
  pose proof (rollup_keeps_ranges (HostRollupSpec.fixedHost 0) januaryRows
                Monthly Monthly "" "") as H.
  specialize (H eq_refl).
  assert (Hrows : Forall (fun row => 0 <= clicks row
                                     /\ clicks row <= impressions row)%Q januaryRows)
    by (repeat constructor; vm_compute; discriminate).
  specialize (H Hrows). destruct H as [H _].
  destruct (HostRollup.rollupByGranularity (HostRollupSpec.fixedHost 0) januaryRows
              Monthly "" "") as [out|e|] eqn:E.
  - exists out. split; [reflexivity | exact H].
  - discriminate H.
  - contradiction.
Defined.

(** *** The period comparison *)

Lemma totalsOf_total (rs : list SearchAnalyticsRow) (acc : Totals) :
  (t_clicks (fold_left totalsStep rs acc) == t_clicks acc + total (map clicks rs))%Q
  /\ (t_impressions (fold_left totalsStep rs acc)
      == t_impressions acc + total (map impressions rs))%Q
  /\ (t_position (fold_left totalsStep rs acc)
      == t_position acc + total (map position rs))%Q
  /\ t_count (fold_left totalsStep rs acc) = t_count acc + Z.of_nat (List.length rs).
Proof.
  revert acc. induction rs as [|row rs IH]; intros acc;
    cbn [fold_left map total List.length].
  - repeat split; try ring.
  - destruct (IH (totalsStep acc row)) as (H1 & H2 & H3 & H4).
    rewrite H1, H2, H3, H4. cbn [totalsStep t_clicks t_impressions t_position t_count].
    repeat split; try ring. lia.
Qed.

Lemma truthy_iff (x : Q) : JsCompare.truthy x = false <-> (x == 0)%Q.
Proof.
  unfold JsCompare.truthy. rewrite negb_false_iff. apply Qeq_bool_iff.
Qed.

Lemma percentChange_NA (now base : Q) :
  percentChange now base = "N/A" <-> (base == 0)%Q.
Proof.
  unfold percentChange. rewrite <- truthy_iff.
  destruct (JsCompare.truthy base); split; try reflexivity; try discriminate.
  intros H. exfalso.
  destruct (FormatFacts.toFixed_shape ((now - base) / base * 100) 0)
    as (a & b & Hfix & _ & Hna & _ & Hlb).
  rewrite Hfix in H. apply (f_equal String.length) in H.
  rewrite !FormatFacts.length_append, Hlb in H.
  destruct a; [congruence|].
  destruct (Qle_bool 0 ((now - base) / base * 100)); cbn in H; lia.
Qed.

(** X14.  [report.comparePeriods] has a [changes] block exactly when both
    periods came back with a list of rows.  In that block a percentage is
    ["N/A"] exactly when the total of the second period is zero, the
    position change is ["N/A"] exactly when one of the periods has no
    row, and the absolute changes are the differences of the totals. *)
Theorem comparePeriods_edge_cases :
  (forall rows1 rows2 : option (list SearchAnalyticsRow),
     comparePeriods_changes rows1 rows2 = None <-> rows1 = None \/ rows2 = None)
  /\ (forall r1 r2 : list SearchAnalyticsRow,
       exists ch,
         comparePeriods_changes (Some r1) (Some r2) = Some ch
         /\ (ch_clicksPercent ch = "N/A" <-> (total (map clicks r2) == 0)%Q)
         /\ (ch_impressionsPercent ch = "N/A"
             <-> (total (map impressions r2) == 0)%Q)
         /\ (ch_avgPosition ch = inr "N/A" <-> r1 = [] \/ r2 = [])
         /\ (ch_clicks ch == total (map clicks r1) - total (map clicks r2))%Q
         /\ (ch_impressions ch
             == total (map impressions r1) - total (map impressions r2))%Q).
Proof.
  split.
  - intros [r1|] [r2|]; cbn; split; try discriminate; try tauto;
      intros [H|H]; discriminate.
  - intros r1 r2. unfold comparePeriods_changes, totalsOf, changesOf. cbn [option_map].
    destruct (totalsOf_total r1 (mkTotals 0 0 0 0 0)) as (Hc1 & Hi1 & _ & Hn1).
    destruct (totalsOf_total r2 (mkTotals 0 0 0 0 0)) as (Hc2 & Hi2 & _ & Hn2).
    set (t1 := fold_left totalsStep r1 _) in *.
    set (t2 := fold_left totalsStep r2 _) in *.
    cbn [t_clicks t_impressions t_count] in Hc1, Hi1, Hn1, Hc2, Hi2, Hn2.
    eexists. split; [reflexivity|].
    cbn [ch_clicksPercent ch_impressionsPercent ch_avgPosition ch_clicks ch_impressions].
    split; [rewrite percentChange_NA, Hc2; split; intros H; lra|].
    split; [rewrite percentChange_NA, Hi2; split; intros H; lra|].
    split; [|split; [rewrite Hc1, Hc2; ring | rewrite Hi1, Hi2; ring]].
    rewrite Hn1, Hn2.
    destruct r1 as [|x1 r1], r2 as [|x2 r2]; cbn [List.length];
      repeat match goal with
             | |- context [?a =? 0] =>
                 destruct (Z.eqb_spec a 0); [try lia|]
             end; cbn [negb andb];
      split; try discriminate; try tauto; try lia;
      intros [H|H]; discriminate.
Qed.

(** X15.  Comparing a period with itself gives no change: the absolute
    changes are zero, the position change is zero, and a percentage is
    ["0.0%"], or ["N/A"] when the total is zero. *)
Theorem comparePeriods_same_period (rs : list SearchAnalyticsRow) :
  rs <> [] ->
  exists ch p,
    comparePeriods_changes (Some rs) (Some rs) = Some ch
    /\ (ch_clicks ch == 0)%Q /\ (ch_impressions ch == 0)%Q
    /\ ch_avgPosition ch = inl p /\ (p == 0)%Q
    /\ ch_clicksPercent ch
       = (if JsCompare.truthy (total (map clicks rs)) then "0.0%" else "N/A")
    /\ ch_impressionsPercent ch
       = (if JsCompare.truthy (total (map impressions rs)) then "0.0%" else "N/A").
Proof.
  intros Hne. unfold comparePeriods_changes, totalsOf, changesOf. cbn [option_map].
  destruct (totalsOf_total rs (mkTotals 0 0 0 0 0)) as (Hc & Hi & _ & Hn).
  set (t := fold_left totalsStep rs _) in *.
  cbn [t_clicks t_impressions t_count] in Hc, Hi, Hn.
  assert (Hcount : (t_count t =? 0) = false).
  { apply Z.eqb_neq. rewrite Hn. destruct rs; [congruence | cbn [List.length]; lia]. }
  assert (Hpc : forall x y : Q, (x == 0 + y)%Q ->
            percentChange x x = if JsCompare.truthy y then "0.0%" else "N/A").
  { intros x y Hxy. unfold percentChange.
    assert (Ht : JsCompare.truthy x = JsCompare.truthy y).
    { unfold JsCompare.truthy. f_equal. apply eq_true_iff_eq.
      rewrite !Qeq_bool_iff, Hxy. split; intros H; lra. }
    rewrite Ht. destruct (JsCompare.truthy y) eqn:E; [|reflexivity].
    rewrite (FormatFacts.toFixed_comp _ 0 1); [reflexivity|].
    assert (Hx : ~ (x == 0)%Q).
    { intros H0. rewrite <- Ht in E. apply truthy_iff in H0. congruence. }
    field. exact Hx. }
  eexists _, _. split; [reflexivity|].
  cbn [ch_clicksPercent ch_impressionsPercent ch_avgPosition ch_clicks ch_impressions].
  rewrite Hcount. cbn [negb andb].
  split; [ring|]. split; [ring|]. split; [reflexivity|].
  split.
  - rewrite (FormatFacts.formatPosition_comp _ 0) by ring. reflexivity.
  - split; [apply Hpc, Hc | apply Hpc, Hi].
Qed.

Lemma comparePeriods_same_period_witness :
  exists ch p,
    comparePeriods_changes (Some januaryRows) (Some januaryRows) = Some ch
    /\ (ch_clicks ch == 0)%Q /\ (ch_impressions ch == 0)%Q
    /\ ch_avgPosition ch = inl p /\ (p == 0)%Q
    /\ ch_clicksPercent ch
       = (if JsCompare.truthy (total (map clicks januaryRows)) then "0.0%" else "N/A")
    /\ ch_impressionsPercent ch
       = (if JsCompare.truthy (total (map impressions januaryRows))
          then "0.0%" else "N/A").
Proof.
  apply (comparePeriods_same_period januaryRows). discriminate.
Defined.

End ReportFacts.

(* ================================================================== *)
(** ** More about the opportunity tools and the weekly summary *)
(* ================================================================== *)

Module WeeklyFacts.

Import JsString JsNumber Client Formatters FormattersMore SearchAnalyticsTools.
Import Opportunities WeeklySummary.
Import OpportunitySpec ReportSpec FormatSpec WeeklySpec.
Import JsArrayFacts JsMapFacts Fixtures FixturesMore.

(** *** [calcTotals] *)

Lemma weekStep_total (rs : list SearchAnalyticsRow) (acc : WeekTotals) :
  (wt_clicks (fold_left weekStep rs acc) == wt_clicks acc + total (map clicks rs))%Q
  /\ (wt_impressions (fold_left weekStep rs acc)
      == wt_impressions acc + total (map impressions rs))%Q
  /\ (wt_position (fold_left weekStep rs acc)
      == wt_position acc + total (map weighted rs))%Q
  /\ (wt_totalImpressions (fold_left weekStep rs acc)
      == wt_totalImpressions acc + total (map impressions rs))%Q.
Proof.
  revert acc. induction rs as [|row rs IH]; intros acc; cbn [fold_left map total].
  - repeat split; ring.
  - destruct (IH (weekStep acc row)) as (H1 & H2 & H3 & H4).
    rewrite H1, H2, H3, H4.
    cbn [weekStep wt_clicks wt_impressions wt_position wt_totalImpressions].
    unfold weighted. repeat split; ring.
Qed.

(** X20.  The totals of a week are missing exactly when the query came
    back without rows.  Otherwise the position that is reported (before
    it is rounded) is the sum of the positions of the rows, each weighted
    with its impressions, over the sum of the impressions, and the ctr is
    the sum of the clicks over the sum of the impressions, not a mean of
    the ctr values of the rows; both are 0 when the impressions add up to
    zero. *)
Theorem weekly_totals (rows : option (list SearchAnalyticsRow)) :
  (calcTotals rows = None <-> rows = None \/ rows = Some [])
  /\ (forall rs,
        rows = Some rs -> rs <> [] ->
        (~ (total (map impressions rs) == 0)%Q ->
         (posOfTotals (calcTotals rows)
          == total (map weighted rs) / total (map impressions rs))%Q
         /\ (ctrOfTotals (calcTotals rows)
             == total (map clicks rs) / total (map impressions rs))%Q)
        /\ ((total (map impressions rs) == 0)%Q ->
            posOfTotals (calcTotals rows) = 0%Q
            /\ ctrOfTotals (calcTotals rows) = 0%Q)).
Proof.
  split.
  - destruct rows as [[|row rs]|]; cbn; split; try discriminate; auto;
      intros [H|H]; discriminate.
  - intros rs -> Hne.
    assert (Hcalc : calcTotals (Some rs)
                    = Some (fold_left weekStep rs (mkWeekTotals 0 0 0 0 0)))
      by (destruct rs; [congruence | reflexivity]).
    rewrite Hcalc. cbn [posOfTotals ctrOfTotals].
    destruct (weekStep_total rs (mkWeekTotals 0 0 0 0 0)) as (Hc & Hi & Hp & Ht).
    cbn [wt_clicks wt_impressions wt_position wt_totalImpressions] in Hc, Hi, Hp, Ht.
    set (t := fold_left weekStep rs _) in *.
    split.
    + intros Hpos.
      assert (Ht1 : JsCompare.truthy (wt_totalImpressions t) = true).
      { destruct (JsCompare.truthy (wt_totalImpressions t)) eqn:E; [reflexivity|].
        apply ReportFacts.truthy_iff in E. exfalso. apply Hpos.
        rewrite <- E, Ht. ring. }
      assert (Ht2 : JsCompare.truthy (wt_impressions t) = true).
      { destruct (JsCompare.truthy (wt_impressions t)) eqn:E; [reflexivity|].
        apply ReportFacts.truthy_iff in E. exfalso. apply Hpos.
        rewrite <- E, Hi. ring. }
      rewrite Ht1, Ht2. split.
      * rewrite Hp, Ht, !Qplus_0_l. reflexivity.
      * rewrite Hc, Hi, !Qplus_0_l. reflexivity.
    + intros Hzero.
      assert (Ht1 : JsCompare.truthy (wt_totalImpressions t) = false)
        by (apply ReportFacts.truthy_iff; rewrite Ht, Hzero; ring).
      assert (Ht2 : JsCompare.truthy (wt_impressions t) = false)
        by (apply ReportFacts.truthy_iff; rewrite Hi, Hzero; ring).
      now rewrite Ht1, Ht2.
Qed.

(** The dated sample rows: the ctr of the week is 11 clicks over 191
    impressions, and the position is 786/191, where the plain mean of the
    four positions is 19/4. *)
Lemma weekly_totals_witness :
  (posOfTotals (calcTotals (Some (filter hasDate januaryRows))) == 786 # 191)%Q
  /\ (ctrOfTotals (calcTotals (Some (filter hasDate januaryRows))) == 11 # 191)%Q.
Proof.
  destruct (proj1 (proj2 (weekly_totals (Some (filter hasDate januaryRows)))
                     (filter hasDate januaryRows) eq_refl
                     ltac:(discriminate))
              ltac:(vm_compute; discriminate)) as [Hp Hc].
  split; [rewrite Hp | rewrite Hc]; vm_compute; reflexivity.
Defined.

(** X21.  The ctr entry of the [changes] block of [report.weeklySummary]
    always carries its sign: a plus sign when the ctr did not fall, a
    minus sign when it fell; then the change in percentage points with
    two decimals and a percent sign.  There is no such entry unless both
    weeks have totals. *)
Theorem weekly_ctr_change_is_signed (current previous : WeekTotals) :
  let diff := (ctrOfTotals (Some current) - ctrOfTotals (Some previous))%Q in
  (Qabs (diff * 100) < inject_Z (10 ^ 21))%Q ->
  (exists a b : string,
     ctrChange (Some current) (Some previous)
     = Some ((if Qle_bool 0 diff then "+" else "-") ++ a ++ "." ++ b ++ "%")%string
     /\ digitsOnly a = true /\ a <> ""
     /\ digitsOnly b = true /\ String.length b = 2%nat)
  /\ ctrChange None (Some previous) = None
  /\ ctrChange (Some current) None = None.
Proof.
  intros diff _. split; [|split; reflexivity].
  destruct (FormatFacts.toFixed_shape (diff * 100) 1)
    as (a & b & Hfix & Hda & Hna & Hdb & Hlb).
  exists a, b. split; [|repeat (split; [assumption|]); assumption].
  unfold ctrChange, signed. fold diff. cbv zeta. rewrite Hfix.
  rewrite FormatFacts.Qle_bool_percent. f_equal.
  destruct (Qle_bool 0 diff); cbn [String.append];
    now rewrite !FormatFacts.append_assoc.
Qed.

Lemma weekly_ctr_change_is_signed_witness :
  ctrChange (Some (mkWeekTotals 10 1000 0 3000 1000))
            (Some (mkWeekTotals 30 1000 0 3000 1000))
  = Some "-2.00%"
  /\ exists a b : string,
       ctrChange (Some (mkWeekTotals 10 1000 0 3000 1000))
                 (Some (mkWeekTotals 30 1000 0 3000 1000))
       = Some ("-" ++ a ++ "." ++ b ++ "%")%string
       /\ digitsOnly a = true /\ a <> ""
       /\ digitsOnly b = true /\ String.length b = 2%nat.
Proof.
  split; [vm_compute; reflexivity|].
  apply (proj1 (weekly_ctr_change_is_signed (mkWeekTotals 10 1000 0 3000 1000)
                  (mkWeekTotals 30 1000 0 3000 1000) eq_refl)).
Defined.

(** *** How many entries the opportunity tools return *)

Lemma slice0_length {A : Type} (l : list A) (limit : Z) :
  List.length (JsArray.slice0 l limit) = kept (List.length l) limit.
Proof.
  unfold JsArray.slice0, kept. destruct (Z.ltb_spec limit 0).
  - rewrite length_firstn. lia.
  - apply length_firstn.
Qed.

Lemma kept_le (n : nat) (limit : Z) : (kept n limit <= n)%nat.
Proof. unfold kept. destruct (Z.ltb_spec limit 0); lia. Qed.

Lemma lowCtrHighPos_counts_le (args : LowCtrArgs)
    (rows : option (list SearchAnalyticsRow)) :
  (opportunitiesFound args rows <= List.length (orDefault rows []))%nat.
Proof.
  unfold opportunitiesFound, lowCtrHighPos, lowCtrOpportunities. cbn [fst].
  rewrite slice0_length, sort_length, length_map.
  eapply Nat.le_trans; [apply kept_le | apply filter_length_le].
Qed.

(** X16.  The number of opportunities that [opportunities.lowCtrHighPos]
    reports is the number of rows that pass its filter, cut to [limit]:
    the smaller of the two for a limit that is not negative, and for a
    negative limit [-n] all but the last [n] of them.  A response without
    rows gives no opportunity and a total of 0.  The earlier version of
    the tool differs in its default limit only. *)
Theorem lowCtrHighPos_counts (args : LowCtrArgs)
    (rows : option (list SearchAnalyticsRow)) :
  opportunitiesFound args rows
  = kept (List.length (passing args rows)) (limit args)
  /\ List.length (fst (lowCtrHighPos_v1 args rows))
     = kept (List.length (passing args rows)) (orDefault (a_limit args) 50)
  /\ (opportunitiesFound args rows <= List.length (orDefault rows []))%nat
  /\ lowCtrHighPos args None = ([], 0).
Proof.
  unfold opportunitiesFound, lowCtrHighPos, lowCtrHighPos_v1, lowCtrOpportunities, passing.
  cbn [fst].
  rewrite !slice0_length, !sort_length, !length_map.
  split; [reflexivity|]. split; [reflexivity|]. split.
  - eapply Nat.le_trans; [apply kept_le|]. apply filter_length_le.
  - unfold limit. destruct (a_limit args) as [n|]; cbn [orDefault filter map];
      unfold JsArray.slice0; cbn [JsArray.sort fold_right List.length];
      destruct (_ <? 0); rewrite firstn_nil; reflexivity.
Qed.

Lemma Math_round_nonneg (x : Q) : (0 <= x)%Q -> 0 <= Math_round x.
Proof.
  intros H. unfold Math_round. change 0 with (Qfloor 0).
  apply Qfloor_resp_le. lra.
Qed.

Lemma sumZ_nonneg {O : Type} (score : O -> Z) (l : list O) :
  Forall (fun o => 0 <= score o) l -> 0 <= sumZ (map score l).
Proof.
  unfold sumZ. induction 1 as [|o l Ho _ IH]; cbn [map fold_right]; lia.
Qed.

(** X17.  If the ctr of every row is its clicks over its impressions, the
    tool is not asked for rows with a ctr of 5% or more ([maxCtr] is 3%
    when not given) nor for rows with negative impressions, then no
    opportunity has a negative potential, and neither has the total. *)
Theorem lowCtrHighPos_potential_nonneg (args : LowCtrArgs)
    (rows : option (list SearchAnalyticsRow)) :
  (0 <= minImpressions args)%Q ->
  (maxCtr args <= 1 # 20)%Q ->
  Forall consistent (orDefault rows []) ->
  Forall (fun o => 0 <= potentialOf o) (fst (lowCtrHighPos args rows))
  /\ 0 <= snd (lowCtrHighPos args rows).
Proof.
  intros Hmin Hmax Hcons.
  assert (Hall : Forall (fun o => 0 <= potentialOf o) (fst (lowCtrHighPos args rows))).
  { apply Forall_forall. intros o Ho.
    unfold lowCtrHighPos, lowCtrOpportunities in Ho. cbn [fst] in Ho.
    apply slice0_incl in Ho. apply sort_In in Ho.
    apply in_map_iff in Ho as (row & <- & Hrow).
    apply filter_In in Hrow as [Hin Hopp].
    rewrite OpportunityFacts.potentialOf_toOpportunity.
    apply OpportunityFacts.isOpportunity_iff in Hopp as (Hi & Hc & _).
    pose proof (proj1 (Forall_forall _ _) Hcons row Hin) as Hrow.
    unfold consistent in Hrow. unfold potentialClicksOf.
    apply Math_round_nonneg. rewrite <- Hrow.
    set (i := impressions row) in *. set (c := ctr row) in *.
    set (m := minImpressions args) in *. set (x := maxCtr args) in *.
    nra. }
  split; [exact Hall|].
  unfold lowCtrHighPos, totalPotential. cbn [snd].
  rewrite OpportunityFacts.fold_left_sum.
  unfold lowCtrHighPos in Hall. cbn [fst] in Hall.
  pose proof (sumZ_nonneg _ _ Hall). lia.
Qed.

Lemma lowCtrHighPos_potential_nonneg_witness :
  Forall (fun o => 0 <= potentialOf o)
    (fst (lowCtrHighPos (mkLowCtrArgs None false None None None None None)
            (Some consistentRows)))
  /\ 0 <= snd (lowCtrHighPos (mkLowCtrArgs None false None None None None None)
                (Some consistentRows)).
Proof.
  apply (lowCtrHighPos_potential_nonneg
           (mkLowCtrArgs None false None None None None None)
           (Some consistentRows)).
  - vm_compute. discriminate.
  - vm_compute. discriminate.
  - repeat (constructor; [vm_compute; reflexivity|]). constructor.
Defined.

(** *** The counts of [opportunities.cannibalization] *)

Lemma In_keys_groupByQuery (rs : list SearchAnalyticsRow) (q : string) :
  In q (map fst (groupByQuery rs)) <-> In q (map queryOf rs).
Proof.
  rewrite !in_map_iff. split.
  - intros ([q' pages] & Hq & Hin). cbn in Hq. subst q'.
    apply OpportunityFacts.In_groupByQuery in Hin as [Hp Hne].
    unfold groupOf in Hp.
    destruct (filter (fun row => String.eqb (queryOf row) q) rs) as [|row l] eqn:E;
      [subst pages; now contradiction Hne|].
    assert (Hrow : In row (filter (fun row => String.eqb (queryOf row) q) rs))
      by (rewrite E; now left).
    apply filter_In in Hrow as [Hin Heq]. apply String.eqb_eq in Heq.
    now exists row.
  - intros (row & Hq & Hin). exists (q, groupOf q rs). split; [reflexivity|].
    apply OpportunityFacts.In_groupByQuery. split; [reflexivity|].
    unfold groupOf. intros Hnil. apply map_eq_nil in Hnil.
    assert (Hrow : In row (filter (fun row => String.eqb (queryOf row) q) rs)).
    { apply filter_In. split; [exact Hin|]. now apply String.eqb_eq. }
    rewrite Hnil in Hrow. contradiction.
Qed.

(** X18.  [opportunities.cannibalization] reports as
    [totalQueriesAnalyzed] the number of different queries among the
    rows (a row without keys counts under the empty query); the number of
    issues never exceeds it, and every issue has at least two page
    entries. *)
Theorem cannibalization_counts (args : CannibalizationArgs)
    (rows : option (list SearchAnalyticsRow)) :
  totalQueriesAnalyzed rows = List.length (queriesOf rows)
  /\ (issuesFound args rows <= totalQueriesAnalyzed rows)%nat
  /\ Forall (fun issue => (2 <= List.length (i_pages issue))%nat)
       (cannibalization args rows).
Proof.
  unfold totalQueriesAnalyzed, issuesFound, queriesOf.
  set (rs := orDefault rows []).
  destruct (OpportunityFacts.groupByQuery_spec rs) as [Hnd _].
  split; [|split].
  - rewrite <- (length_map fst (groupByQuery rs)).
    apply Permutation_length, NoDup_Permutation;
      [exact Hnd | apply NoDup_nodup |].
    intros q. rewrite nodup_In. apply In_keys_groupByQuery.
  - unfold cannibalization. rewrite slice0_length.
    eapply Nat.le_trans; [apply kept_le|].
    rewrite sort_length, OpportunityFacts.issuesOf_eq, length_map.
    apply filter_length_le.
  - apply Forall_forall. intros issue Hin.
    unfold cannibalization in Hin. apply slice0_incl in Hin. apply sort_In in Hin.
    rewrite OpportunityFacts.issuesOf_eq in Hin.
    apply in_map_iff in Hin as ([q pages] & <- & Hentry).
    apply filter_In in Hentry as [_ Hq]. cbn [snd] in Hq.
    apply OpportunityFacts.qualifiesb_iff in Hq as [Hlen _].
    unfold issueOf. cbn [i_pages snd]. now rewrite length_map, sort_length.
Qed.

End WeeklyFacts.

(* ================================================================== *)
(** ** The tool handlers *)
(* ================================================================== *)

Module HandlerFacts.

Import JsString Client ClientMore Tools HandlerSpec Fixtures.

Lemma andThen_local {World A B : Type} (a : A) (w : World)
    (rest : A -> World -> World * Outcome B * list RetryEvent) :
  andThen (local (Returned a) w) rest = rest a w.
Proof.
  unfold andThen, local. destruct (rest a w) as [[w' r] events]. reflexivity.
Qed.

Lemma andThen_done {World A B : Type} (first : World * Outcome A * list RetryEvent)
    (f : A -> B) :
  andThen first (fun a => done (f a))
  = let '(w, r, events) := first in (w, mapOutcome f r, events).
Proof.
  destruct first as [[w [a|e|]] events]; cbn; [|reflexivity|reflexivity].
  now rewrite app_nil_r.
Qed.

Lemma requireFull_readonly {World Body : Type} (env : Env) (feature : string)
    (rest : World -> Handled World Body) (w : World) :
  env_scope env = Returned Readonly ->
  requireFull env feature rest w
  = (w, Returned (textError (getScopeUpgradeMessage feature)), []).
Proof. intros H. unfold requireFull. rewrite H. reflexivity. Qed.

Lemma requireFull_full {World Body : Type} (env : Env) (feature : string)
    (rest : World -> Handled World Body) (w : World) :
  env_scope env = Returned Full ->
  requireFull env feature rest w = rest w.
Proof. intros H. unfold requireFull. rewrite H. apply andThen_local. Qed.

(** X24.  [handleSitemapTool], once the client is created:
    [sitemaps.get] never throws, and whatever makes the remote call
    fail, a missing sitemap or a missing permission, it answers
    ["Sitemap not found"]; [sitemaps.list] throws what the remote call
    throws; [sitemaps.submit] and [sitemaps.delete] under the read-only
    scope answer with the upgrade message and make no remote call, and
    under the full scope each of them reports success, with its own
    message, when its remote call returns, and throws what the call
    throws.  If the client cannot be created, the handler throws before
    any remote call, whatever the tool. *)
Theorem handleSitemapTool_behaviour {World : Type} (scope : Outcome Scope)
    (sitemaps_list : string -> Operation World SitemapsListData)
    (sitemaps_get : string -> string -> Operation World SitemapData)
    (sitemaps_submit sitemaps_delete : string -> string -> Operation World unit)
    (args : SitemapArgs) (w : World) :
  let handle env :=
    handleSitemapTool env sitemaps_list sitemaps_get sitemaps_submit sitemaps_delete in
  let ready := mkEnv (Returned tt) scope in
  (exists w' result events,
     handle ready "sitemaps.get" args w = (w', Returned result, events))
  /\ (forall w' e events,
        withRetry (sitemaps_get (sm_siteUrl args) (sm_feedpath args)) MAX_RETRIES w
        = (w', Thrown e, events) ->
        handle ready "sitemaps.get" args w
        = (w', Returned (textError ("Sitemap not found: " ++ sm_feedpath args)), events))
  /\ (forall w' e events,
        withRetry (sitemaps_list (sm_siteUrl args)) MAX_RETRIES w
        = (w', Thrown e, events) ->
        handle ready "sitemaps.list" args w = (w', Thrown e, events))
  /\ (scope = Returned Readonly ->
      handle ready "sitemaps.submit" args w
      = (w, Returned (textError (getScopeUpgradeMessage "sitemaps.submit")), [])
      /\ handle ready "sitemaps.delete" args w
         = (w, Returned (textError (getScopeUpgradeMessage "sitemaps.delete")), []))
  /\ (scope = Returned Full ->
      forall w' events,
        withRetry (sitemaps_submit (sm_siteUrl args) (sm_feedpath args)) MAX_RETRIES w
        = (w', Returned tt, events) ->
        handle ready "sitemaps.submit" args w
        = (w', Returned (jsonResult
                           (SitemapDone true ("Sitemap submitted: " ++ sm_feedpath args)
                              (sm_siteUrl args) (sm_feedpath args))), events))
  /\ (scope = Returned Full ->
      forall w' events,
        withRetry (sitemaps_delete (sm_siteUrl args) (sm_feedpath args)) MAX_RETRIES w
        = (w', Returned tt, events) ->
        handle ready "sitemaps.delete" args w
        = (w', Returned (jsonResult
                           (SitemapDone true
                              ("Sitemap deleted from GSC: " ++ sm_feedpath args)
                              (sm_siteUrl args) (sm_feedpath args))), events))
  /\ (scope = Returned Full ->
      forall w' e events,
        (withRetry (sitemaps_submit (sm_siteUrl args) (sm_feedpath args)) MAX_RETRIES w
         = (w', Thrown e, events) ->
         handle ready "sitemaps.submit" args w = (w', Thrown e, events))
        /\ (withRetry (sitemaps_delete (sm_siteUrl args) (sm_feedpath args))
              MAX_RETRIES w
            = (w', Thrown e, events) ->
            handle ready "sitemaps.delete" args w = (w', Thrown e, events)))
  /\ (forall e name,
        handle (mkEnv (Thrown e) scope) name args w = (w, Thrown e, [])).
Proof.
  intros handle ready. unfold handle, ready, handleSitemapTool. cbn [env_create].
  rewrite !andThen_local. cbn zeta.
  change (String.eqb "sitemaps.get" "sitemaps.list") with false.
  change (String.eqb "sitemaps.get" "sitemaps.get") with true.
  change (String.eqb "sitemaps.list" "sitemaps.list") with true.
  change (String.eqb "sitemaps.submit" "sitemaps.list") with false.
  change (String.eqb "sitemaps.submit" "sitemaps.get") with false.
  change (String.eqb "sitemaps.submit" "sitemaps.submit") with true.
  change (String.eqb "sitemaps.delete" "sitemaps.list") with false.
  change (String.eqb "sitemaps.delete" "sitemaps.get") with false.
  change (String.eqb "sitemaps.delete" "sitemaps.submit") with false.
  change (String.eqb "sitemaps.delete" "sitemaps.delete") with true.
  cbv iota.
  split; [|split; [|split; [|split; [|split; [|split; [|split]]]]]].
  - destruct (ClientFacts.tryOrNull_returns
                (withRetry (sitemaps_get (sm_siteUrl args) (sm_feedpath args))
                   MAX_RETRIES w)
                (fun data : SitemapData =>
                   {| path := stringOr (smd_path data) (sm_feedpath args);
                      lastSubmitted := truthyString (smd_lastSubmitted data);
                      isPending := truthyBool (smd_isPending data);
                      isSitemapsIndex := truthyBool (smd_isSitemapsIndex data);
                      type := truthyString (smd_type data);
                      lastDownloaded := truthyString (smd_lastDownloaded data);
                      warnings := truthyString (smd_warnings data);
                      errors := truthyString (smd_errors data) |}))
      as (w' & v & events & Hget).
    unfold getSitemap. rewrite Hget. unfold andThen.
    destruct v as [sitemap|]; cbn; eauto.
  - intros w' e events H. unfold getSitemap. rewrite H. cbn. now rewrite app_nil_r.
  - intros w' e events H. unfold listSitemaps. rewrite H. reflexivity.
  - intros ->. split; now apply requireFull_readonly.
  - intros -> w' events H.
    rewrite requireFull_full by reflexivity.
    unfold submitSitemap. rewrite H. cbn. now rewrite app_nil_r.
  - intros -> w' events H.
    rewrite requireFull_full by reflexivity.
    unfold deleteSitemap. rewrite H. cbn. now rewrite app_nil_r.
  - intros -> w' e events. rewrite !requireFull_full by reflexivity.
    split; intros H.
    + unfold submitSitemap. rewrite H. reflexivity.
    + unfold deleteSitemap. rewrite H. reflexivity.
  - intros e name. reflexivity.
Qed.

Lemma handleSitemapTool_behaviour_witness :
  handleSitemapTool (mkEnv (Returned tt) (Returned Full))
    (fun _ => failingWith "500") (fun _ _ => failingWith "403 Forbidden")
    (fun _ _ => failingWith "500") (fun _ _ n => (S n, inr tt))
    "sitemaps.get" (mkSitemapArgs "sc-domain:a.com" "https://a.com/sitemap.xml") 0%nat
  = (1%nat, Returned (textError "Sitemap not found: https://a.com/sitemap.xml"),
     [Attempt])
  /\ handleSitemapTool (mkEnv (Returned tt) (Returned Full))
       (fun _ => failingWith "500") (fun _ _ => failingWith "403 Forbidden")
       (fun _ _ => failingWith "500") (fun _ _ n => (S n, inr tt))
       "sitemaps.delete" (mkSitemapArgs "sc-domain:a.com" "https://a.com/sitemap.xml")
       0%nat
     = (1%nat,
        Returned (jsonResult
                    (SitemapDone true "Sitemap deleted from GSC: https://a.com/sitemap.xml"
                       "sc-domain:a.com" "https://a.com/sitemap.xml")),
        [Attempt]).
Proof.
  pose proof (handleSitemapTool_behaviour (Returned Full)
                (fun _ => failingWith "500")
                (fun _ _ => failingWith "403 Forbidden")
                (fun _ _ => failingWith "500") (fun _ _ n => (S n, inr tt))
                (mkSitemapArgs "sc-domain:a.com" "https://a.com/sitemap.xml")
                0%nat) as (_ & Hget & _ & _ & _ & Hdelete & _).
  split.
  - apply (Hget 1%nat (mkError "403 Forbidden") [Attempt]). reflexivity.
  - apply (Hdelete eq_refl 1%nat [Attempt]). reflexivity.
Defined.

(** *** URL inspection *)

Lemma batch_entries (urls : list string) :
  forall results : list (Outcome UrlInspectionResult),
    List.length results = List.length urls ->
    let entries := map (fun p => batchEntry (snd p) (fst p)) (combine results urls) in
    map urlOf entries = urls
    /\ (List.length (filter isIndexed entries)
        <= List.length (filter fulfilled results))%nat
    /\ Forall2 (fun entry result =>
                  forall e, result = Thrown e -> entry = inr (urlOf entry, message e))
         entries results.
Proof.
  induction urls as [|url urls IH]; intros [|result results] Hlen;
    try discriminate; cbn [combine map filter List.length].
  - split; [reflexivity|]. split; [lia | constructor].
  - destruct (IH results) as (Hurls & Hcount & Hall); [now inversion Hlen|].
    cbv zeta in Hurls, Hcount, Hall. cbn [fst snd].
    split; [|split].
    + f_equal; [|exact Hurls]. destruct result; reflexivity.
    + destruct result as [value|e|]; cbn [batchEntry isIndexed fulfilled].
      * destruct (match fi_indexStatus _ with Some _ => _ | None => _ end);
          cbn [List.length]; lia.
      * exact Hcount.
      * exact Hcount.
    + constructor; [|exact Hall].
      intros e ->. reflexivity.
Qed.

(** X25.  [handleUrlInspectionTool] checks the scope before anything
    else: under the read-only scope every call, whatever the tool name
    and whether or not the client could be created, is answered with the
    upgrade message for that name, without a remote call.  Under the full
    scope a batch of more than 10 urls is refused without a remote call;
    a batch of up to 10 urls never fails as a whole: it has one entry per
    url, in the order of the urls, an inspection that failed is reported
    under its url with the message of its error, [total] is the number of
    urls, [indexed] counts inspections that succeeded only, and
    [indexed + notIndexed = total]. *)
Theorem handleUrlInspectionTool_behaviour {World : Type}
    (urlInspection_inspect : string -> string -> Operation World UrlInspectionResult)
    (allSettled_inspectUrl :
       string -> list string -> World -> World * list (Outcome UrlInspectionResult))
    (args : InspectionArgs) (w : World) :
  (forall siteUrl urls w0,
     List.length (snd (allSettled_inspectUrl siteUrl urls w0)) = List.length urls) ->
  let handle env := handleUrlInspectionTool env urlInspection_inspect allSettled_inspectUrl in
  (forall create name,
     handle (mkEnv create (Returned Readonly)) name args w
     = (w, Returned (textError (getScopeUpgradeMessage name)), []))
  /\ ((10 < List.length (ia_urls args))%nat ->
      handle (mkEnv (Returned tt) (Returned Full)) "urlInspection.batchInspect" args w
      = (w, Returned (textError "Maximum 10 URLs allowed per batch inspection"), []))
  /\ ((List.length (ia_urls args) <= 10)%nat ->
      exists body summary,
        handle (mkEnv (Returned tt) (Returned Full)) "urlInspection.batchInspect" args w
        = (fst (allSettled_inspectUrl (ia_siteUrl args) (ia_urls args) w),
           Returned (jsonResult body), [])
        /\ summaryOf body = Some summary
        /\ map urlOf (resultsOf body) = ia_urls args
        /\ total summary = Z.of_nat (List.length (ia_urls args))
        /\ indexed summary + notIndexed summary = total summary
        /\ 0 <= indexed summary
           <= Z.of_nat (List.length
                          (filter fulfilled
                             (snd (allSettled_inspectUrl (ia_siteUrl args)
                                     (ia_urls args) w))))
        /\ Forall2 (fun entry result =>
                      forall e, result = Thrown e -> entry = inr (urlOf entry, message e))
             (resultsOf body)
             (snd (allSettled_inspectUrl (ia_siteUrl args) (ia_urls args) w))).
Proof.
  intros Hsettled handle. unfold handle, handleUrlInspectionTool.
  split; [|split].
  - intros create name. now apply requireFull_readonly.
  - intros Hmany. rewrite requireFull_full by reflexivity.
    cbn [env_create]. rewrite andThen_local. cbn zeta.
    change (String.eqb "urlInspection.batchInspect" "urlInspection.inspect") with false.
    change (String.eqb "urlInspection.batchInspect" "urlInspection.batchInspect")
      with true.
    cbv iota.
    destruct (Nat.ltb_spec 10 (List.length (ia_urls args))); [reflexivity | lia].
  - intros Hfew. rewrite requireFull_full by reflexivity.
    cbn [env_create]. rewrite andThen_local. cbn zeta.
    change (String.eqb "urlInspection.batchInspect" "urlInspection.inspect") with false.
    change (String.eqb "urlInspection.batchInspect" "urlInspection.batchInspect")
      with true.
    cbv iota.
    destruct (Nat.ltb_spec 10 (List.length (ia_urls args))); [lia|].
    specialize (Hsettled (ia_siteUrl args) (ia_urls args) w).
    destruct (allSettled_inspectUrl (ia_siteUrl args) (ia_urls args) w)
      as [w' results].
    cbn [fst snd] in *.
    destruct (batch_entries (ia_urls args) results Hsettled) as (Hurls & Hcount & Hall).
    cbv zeta in Hurls, Hcount, Hall.
    eexists _, _. split; [reflexivity|].
    unfold batchBody. cbn [summaryOf resultsOf total indexed notIndexed].
    split; [reflexivity|]. split; [exact Hurls|]. cbn [total indexed notIndexed].
    split; [reflexivity|]. split; [lia|]. split; [lia | exact Hall].
Qed.

Lemma handleUrlInspectionTool_behaviour_witness :
  exists body summary,
    handleUrlInspectionTool (mkEnv (Returned tt) (Returned Full))
      (fun _ _ => failingWith "500") twoPages "urlInspection.batchInspect"
      (mkInspectionArgs "sc-domain:a.com" "" ["https://a.com/"; "https://a.com/x"])
      0%nat
    = (0%nat, Returned (jsonResult body), [])
    /\ summaryOf body = Some summary
    /\ total summary = 2 /\ indexed summary + notIndexed summary = total summary.
Proof.
  destruct (proj2 (proj2
              (handleUrlInspectionTool_behaviour (fun _ _ => failingWith "500") twoPages
                 (mkInspectionArgs "sc-domain:a.com" ""
                    ["https://a.com/"; "https://a.com/x"])
                 0%nat
                 (fun _ urls _ => length_map _ urls)))
              (le_S _ _ (le_S _ _ (le_S _ _ (le_S _ _ (le_S _ _ (le_S _ _ (le_S _ _
                 (le_S _ _ (le_n 2))))))))))
    as (body & summary & Hrun & Hsum & _ & Htotal & Hadd & _).
  exists body, summary. split; [exact Hrun|]. split; [exact Hsum|].
  split; [exact Htotal | exact Hadd].
Defined.

(** *** The tool index *)

Lemma someNamed_In (names : list string) (name : string) :
  someNamed names name = true <-> In name names.
Proof.
  unfold someNamed. rewrite existsb_exists. split.
  - intros (n & Hin & Heq). apply String.eqb_eq in Heq. now subst.
  - intros Hin. exists name. split; [exact Hin | apply String.eqb_refl].
Qed.

Lemma someNamed_false (names : list string) (name : string) :
  ~ In name names -> someNamed names name = false.
Proof.
  intros H. destruct (someNamed names name) eqn:E; [|reflexivity].
  now apply someNamed_In in E.
Qed.

(** X26.  [handleToolCall] hands each of the thirteen tools to the
    handler of its own group, and a name that is not a tool to none: it
    answers ["Unknown tool"] without touching anything.  What a handler
    throws comes back as an error result with the message of the
    exception.  The default property is used only when the arguments name
    no site. *)
Theorem handleToolCall_routing {World Body Args : Type}
    (getSiteUrl : Args -> option string) (setSiteUrl : Args -> string -> Args)
    (hSearch hSitemap hInspect hOpportunity hExport : Handler World Body Args)
    (name : string) (args : Args) (defaultProperty : option string) (w : World) :
  let call :=
    handleToolCall getSiteUrl setSiteUrl hSearch hSitemap hInspect hOpportunity hExport
      name args defaultProperty w in
  let args' := injectDefault getSiteUrl setSiteUrl args defaultProperty in
  (In name searchAnalyticsToolNames -> call = catchAll (hSearch name args' w))
  /\ (In name sitemapToolNames -> call = catchAll (hSitemap name args' w))
  /\ (In name urlInspectionToolNames -> call = catchAll (hInspect name args' w))
  /\ (In name opportunityToolNames -> call = catchAll (hOpportunity name args' w))
  /\ (In name exportToolNames -> call = catchAll (hExport name args' w))
  /\ (~ In name getAllToolNames ->
      call = (w, textError ("Unknown tool: " ++ name), []))
  /\ (forall w' e events,
        route hSearch hSitemap hInspect hOpportunity hExport name args' w
        = (w', Thrown e, events) ->
        call = (w', textError ("Error: " ++ message e), events))
  /\ (truthyString (getSiteUrl args) <> None -> args' = args)
  /\ (truthyString defaultProperty = None -> args' = args).
Proof.
  intros call args'. unfold call, handleToolCall. fold args'. unfold route.
  split; [|split; [|split; [|split; [|split; [|split; [|split; [|split]]]]]]].
  - intros Hin. apply someNamed_In in Hin. now rewrite Hin.
  - intros Hin. cbn in Hin.
    repeat (destruct Hin as [<-|Hin]; [reflexivity|]). contradiction.
  - intros Hin. cbn in Hin.
    repeat (destruct Hin as [<-|Hin]; [reflexivity|]). contradiction.
  - intros Hin. cbn in Hin.
    repeat (destruct Hin as [<-|Hin]; [reflexivity|]). contradiction.
  - intros Hin. cbn in Hin.
    repeat (destruct Hin as [<-|Hin]; [reflexivity|]). contradiction.
  - intros Hnot. unfold getAllToolNames in Hnot.
    rewrite !in_app_iff in Hnot.
    rewrite !someNamed_false by tauto. reflexivity.
  - intros w' e events H. unfold route in H. rewrite H. reflexivity.
  - intros H. unfold args', injectDefault.
    destruct (truthyString defaultProperty); [|reflexivity].
    destruct (truthyString (getSiteUrl args)); [reflexivity | congruence].
  - intros H. unfold args', injectDefault. now rewrite H.
Qed.

Lemma handleToolCall_routing_witness :
  handleToolCall (fun args : option string => args) (fun _ site => Some site)
    (fun _ _ w => done (textError "search") w)
    (fun _ _ w => done (textError "sitemap") w)
    (fun _ _ w => done (textError "inspect") w)
    (fun _ _ w => done (textError "opportunity") w)
    (fun name (args : option string) (w : nat) =>
       (w, Thrown (mkError "boom"), []) : Handled nat unit)
    "export.csv" None (Some "sc-domain:a.com") 0%nat
  = (0%nat, textError "Error: boom", []).
Proof.
  apply (proj1 (proj2 (proj2 (proj2 (proj2 (proj2 (proj2
           (handleToolCall_routing (fun args : option string => args)
              (fun _ site => Some site)
              (fun _ _ w => done (textError "search") w)
              (fun _ _ w => done (textError "sitemap") w)
              (fun _ _ w => done (textError "inspect") w)
              (fun _ _ w => done (textError "opportunity") w)
              (fun name (args : option string) (w : nat) =>
                 (w, Thrown (mkError "boom"), []) : Handled nat unit)
              "export.csv" None (Some "sc-domain:a.com") 0%nat)))))))
           0%nat (mkError "boom") []).
  reflexivity.
Defined.

(** *** Resources *)

(** X27.  [getAllResources] always returns, and what it returns starts
    with the resource [gsc://sites].  When the client is created and the
    sites are listed, one sitemap resource per site follows, in the order
    of the answer of the remote call; when the client cannot be created
    or the listing fails, for whatever reason, the base resource is all
    there is. *)
Theorem getAllResources_behaviour {World : Type} (env : Env)
    (sites_list : Operation World SitesListData)
    (encodeURIComponent : string -> string) (w : World) :
  (exists w' rest events,
     getAllResources env sites_list encodeURIComponent w
     = (w', baseResource :: rest, events))
  /\ (env_create env = Returned tt ->
      forall w' data events,
        withRetry sites_list MAX_RETRIES w = (w', Returned data, events) ->
        getAllResources env sites_list encodeURIComponent w
        = (w', baseResource
               :: map (fun site => siteResource encodeURIComponent (toSiteInfo site))
                    (listOr (siteEntry data)),
           events))
  /\ (env_create env = Returned tt ->
      forall w' e events,
        withRetry sites_list MAX_RETRIES w = (w', Thrown e, events) ->
        getAllResources env sites_list encodeURIComponent w
        = (w', [baseResource], events))
  /\ (forall e, env_create env = Thrown e ->
      getAllResources env sites_list encodeURIComponent w = (w, [baseResource], [])).
Proof.
  unfold getAllResources, listSites.
  split; [|split; [|split]].
  - destruct (env_create env) as [[]|e|]; cbn [local andThen]; [|eauto|eauto].
    destruct (awaitThen (withRetry sites_list MAX_RETRIES w) _) as [[w' r] events].
    cbn [app]. destruct r; eauto.
  - intros -> w' data events H. rewrite andThen_local, H. cbn.
    now rewrite map_map.
  - intros -> w' e events H. rewrite andThen_local, H. reflexivity.
  - intros e ->. reflexivity.
Qed.

Lemma getAllResources_behaviour_witness :
  getAllResources (mkEnv (Returned tt) (Returned Readonly))
    (failingWith "invalid_grant") (fun s => s) 0%nat
  = (1%nat, [baseResource], [Attempt]).
Proof.
  apply (proj1 (proj2 (proj2
           (getAllResources_behaviour (mkEnv (Returned tt) (Returned Readonly))
              (failingWith "invalid_grant") (fun s => s) 0%nat)))
           eq_refl 1%nat (mkError "invalid_grant") [Attempt]).
  reflexivity.
Defined.

End HandlerFacts.

(* ================================================================== *)
(** ** The CSV export *)
(* ================================================================== *)

Module CsvFacts.

Import JsString JsNumber Client ClientMore SearchAnalyticsTools Opportunities Tools.
Import ExportTool CsvSpec FormatSpec Fixtures.

Lemma append_nil_r (s : string) : (s ++ "")%string = s.
Proof. induction s as [|c s IH]; cbn; [reflexivity | now rewrite IH]. Qed.

(** *** Plain text *)

Lemma includes_char (s : string) (c : ascii) :
  includes s (String c "")
  = match s with
    | EmptyString => false
    | String d rest => Ascii.eqb c d || includes rest (String c "")
    end.
Proof.
  destruct s as [|d rest]; cbn [includes startsWith]; [reflexivity|].
  now rewrite andb_true_r.
Qed.

Lemma needsQuotes_plain (s : string) : needsQuotes s = negb (plain s).
Proof.
  unfold needsQuotes, quote, newline.
  induction s as [|d rest IH]; [reflexivity|].
  rewrite (includes_char (String d rest) ","%char),
    (includes_char (String d rest) (ascii_of_nat 34)),
    (includes_char (String d rest) (ascii_of_nat 10)).
  cbn [plain]. unfold isQuote, isComma, isNewline.
  rewrite (Ascii.eqb_sym ","%char d), (Ascii.eqb_sym (ascii_of_nat 34) d),
    (Ascii.eqb_sym (ascii_of_nat 10) d).
  revert IH.
  generalize (includes rest ","), (includes rest (String (ascii_of_nat 34) "")),
    (includes rest (String (ascii_of_nat 10) "")), (plain rest).
  intros A B C P IH.
  destruct (Ascii.eqb d ","), (Ascii.eqb d (ascii_of_nat 34)),
    (Ascii.eqb d (ascii_of_nat 10)), A, B, C, P;
    try discriminate IH; reflexivity.
Qed.

Lemma escape_plain (s : string) : plain s = true -> escapeCSVValue s = s.
Proof. intros H. unfold escapeCSVValue. now rewrite needsQuotes_plain, H. Qed.

Lemma map_escape_plain (l : list string) :
  Forall (fun s => plain s = true) l -> map escapeCSVValue l = l.
Proof.
  induction 1 as [|s l Hs _ IH]; cbn [map]; [reflexivity|].
  now rewrite IH, escape_plain.
Qed.

Lemma plain_app (a b : string) : plain (a ++ b) = plain a && plain b.
Proof.
  induction a as [|c a IH]; cbn [String.append plain]; [reflexivity|].
  now rewrite IH, andb_assoc.
Qed.

Lemma digitsOnly_plain (s : string) : digitsOnly s = true -> plain s = true.
Proof.
  induction s as [|c s IH]; [reflexivity|].
  cbn [digitsOnly plain]. intros H. apply andb_true_iff in H as [Hc Hs].
  rewrite (IH Hs), andb_true_r.
  unfold isDigit in Hc. apply andb_true_iff in Hc as [H1 H2].
  apply Nat.leb_le in H1. apply Nat.leb_le in H2.
  unfold isQuote, isComma, isNewline.
  destruct (Ascii.eqb_spec c (ascii_of_nat 34)) as [->|_]; [cbn in H1; lia|].
  destruct (Ascii.eqb_spec c ","%char) as [->|_]; [cbn in H1; lia|].
  destruct (Ascii.eqb_spec c (ascii_of_nat 10)) as [->|_]; [cbn in H1; lia|].
  reflexivity.
Qed.

Lemma plain_toFixed (x : Q) (f : nat) : plain (toFixed x (S f)) = true.
Proof.
  destruct (FormatFacts.toFixed_shape x f) as (a & b & -> & Ha & _ & Hb & _).
  rewrite !plain_app, (digitsOnly_plain a Ha), (digitsOnly_plain b Hb).
  destruct (Qle_bool 0 x); reflexivity.
Qed.

Lemma plain_stringOfZ (n : Z) : plain (stringOfZ n) = true.
Proof.
  unfold stringOfZ, NilZero.string_of_int.
  assert (Hu : forall d, plain (NilZero.string_of_uint d) = true).
  { intros d. apply digitsOnly_plain. unfold NilZero.string_of_uint.
    destruct d; try reflexivity; apply (FormatFacts.digitsOnly_uint (_ d))
      || apply FormatFacts.digitsOnly_uint. }
  destruct (Z.to_int n) as [d|d]; [apply Hu|].
  cbn [plain]. now rewrite Hu.
Qed.

(** *** Reading one field *)

Lemma read_plain (v : string) :
  plain v = true ->
  forall field record records rest,
    read InPlain field record records (v ++ rest)
    = read InPlain (field ++ v) record records rest.
Proof.
  induction v as [|c v IH]; intros Hv field record records rest.
  - now rewrite append_nil_r.
  - cbn [plain] in Hv. apply andb_true_iff in Hv as [Hc Hv].
    apply negb_true_iff in Hc. apply orb_false_iff in Hc as [Hc Hn].
    apply orb_false_iff in Hc as [Hq Hc].
    cbn [String.append read]. rewrite Hq, Hc, Hn, (IH Hv).
    unfold snoc. now rewrite FormatFacts.append_assoc.
Qed.

Lemma read_start_plain (st : CsvState) (v : string) :
  starting st -> plain v = true -> v <> "" ->
  forall record records rest,
    read st "" record records (v ++ rest) = read InPlain v record records rest.
Proof.
  intros Hst Hv Hne record records rest.
  destruct v as [|c v]; [congruence|].
  cbn [plain] in Hv. apply andb_true_iff in Hv as [Hc Hv].
  apply negb_true_iff in Hc. apply orb_false_iff in Hc as [Hc Hn].
  apply orb_false_iff in Hc as [Hq Hc].
  destruct Hst as [-> | ->]; cbn [String.append read]; rewrite Hq, Hc, Hn;
    now rewrite (read_plain v Hv).
Qed.

Lemma read_quoted (v : string) :
  forall field record records rest,
    read InQuoted field record records (doubleQuotes v ++ rest)
    = read InQuoted (field ++ v) record records rest.
Proof.
  induction v as [|c v IH]; intros field record records rest.
  - now rewrite append_nil_r.
  - cbn [doubleQuotes]. fold (isQuote c).
    destruct (isQuote c) eqn:Hq; cbn [String.append read]; rewrite ?Hq.
    + rewrite IH. unfold snoc. now rewrite FormatFacts.append_assoc.
    + rewrite IH. unfold snoc. now rewrite FormatFacts.append_assoc.
Qed.

(** A field as [escapeCSVValue] writes it is read back as the value. *)
Lemma read_field (st : CsvState) (t : Terminator) (v : string) :
  starting st -> (t = EndOfText -> st = FieldStart) ->
  forall record records rest,
    read st "" record records (escapeCSVValue v ++ terminated t rest)
    = after t record records v rest.
Proof.
  intros Hst Hend record records rest. unfold escapeCSVValue.
  rewrite needsQuotes_plain.
  destruct (plain v) eqn:Hv; cbn [negb].
  - destruct v as [|c v].
    + cbn [String.append].
      destruct t; cbn [terminated after].
      * destruct Hst as [-> | ->]; reflexivity.
      * destruct Hst as [-> | ->]; reflexivity.
      * rewrite (Hend eq_refl). reflexivity.
    + rewrite (read_start_plain st (String c v) Hst Hv) by discriminate.
      destruct t; reflexivity.
  - unfold quote. rewrite !FormatFacts.append_assoc.
    cbn [String.append].
    assert (Hopen : forall s,
              read st "" record records (String (ascii_of_nat 34) s)
              = read InQuoted "" record records s)
      by (intros s; destruct Hst as [-> | ->]; reflexivity).
    rewrite Hopen, read_quoted. cbn [String.append].
    destruct t; reflexivity.
Qed.

(** *** Reading a line and a text *)

Lemma join_cons (sep x : string) (y : string) (l : list string) :
  join sep (x :: y :: l) = (x ++ sep ++ join sep (y :: l))%string.
Proof. reflexivity. Qed.

Lemma read_line (t : Terminator) (vs : list string) :
  forall st record records rest,
    vs <> [] -> starting st ->
    (t = EndOfText -> st = FieldStart \/ (2 <= List.length vs)%nat) ->
    read st "" record records
      (join "," (map escapeCSVValue vs) ++ terminated t rest)
    = afterLine t record records vs rest.
Proof.
  induction vs as [|v vs IH]; intros st record records rest Hne Hst Hend;
    [congruence|].
  destruct vs as [|v2 vs].
  - cbn [map join]. rewrite read_field; [destruct t; reflexivity | exact Hst |].
    intros Ht. destruct (Hend Ht) as [H|H]; [exact H | cbn in H; lia].
  - cbn [map]. rewrite join_cons, !FormatFacts.append_assoc.
    change (("," ++ join "," (escapeCSVValue v2 :: map escapeCSVValue vs)
               ++ terminated t rest)%string)
      with (terminated Comma
              (join "," (map escapeCSVValue (v2 :: vs)) ++ terminated t rest)%string).
    rewrite read_field; [|exact Hst | discriminate].
    cbn [after]. rewrite IH; [|discriminate | now right | now left].
    destruct t; cbn [afterLine]; rewrite <- app_assoc; reflexivity.
Qed.

Lemma read_lines (ls : list (list string)) :
  forall records,
    ls <> [] ->
    Forall (fun vs => (2 <= List.length vs)%nat) ls ->
    read RecordStart "" [] records (join newline (map lineOf ls))
    = Some (records ++ ls).
Proof.
  induction ls as [|vs ls IH]; intros records Hne Hall; [congruence|].
  inversion Hall as [|? ? Hvs Hrest]; subst.
  assert (Hvs' : vs <> []) by (destruct vs; [cbn in Hvs; lia | discriminate]).
  destruct ls as [|vs2 ls].
  - cbn [map join]. unfold lineOf.
    replace (join "," (map escapeCSVValue vs))
      with (join "," (map escapeCSVValue vs) ++ terminated EndOfText "")%string
      by apply append_nil_r.
    rewrite read_line; [reflexivity | exact Hvs' | now left | now right].
  - cbn [map]. rewrite join_cons. unfold lineOf at 1.
    change ((newline ++ join newline (lineOf vs2 :: map lineOf ls))%string)
      with (terminated Newline (join newline (map lineOf (vs2 :: ls)))).
    rewrite read_line; [|exact Hvs' | now left | discriminate].
    cbn [afterLine app]. rewrite IH; [|discriminate | exact Hrest].
    now rewrite <- app_assoc.
Qed.

Lemma join_app (sep : string) (a b : list string) :
  a <> [] -> b <> [] ->
  join sep (a ++ b) = (join sep a ++ sep ++ join sep b)%string.
Proof.
  intros Ha Hb. induction a as [|x a IH]; [congruence|].
  destruct a as [|y a].
  - destruct b as [|z b]; [congruence | reflexivity].
  - cbn [app]. rewrite !join_cons.
    change (y :: a ++ b) with ((y :: a) ++ b).
    rewrite IH by discriminate. now rewrite !FormatFacts.append_assoc.
Qed.

Section Csv.

Variable String_ : Q -> string.
Hypothesis String_plain : forall x, plain (String_ x) = true.

Lemma valuesOf_cells (dimensions : list string) (row : SearchAnalyticsRow) :
  valuesOf String_ dimensions row
  = map escapeCSVValue (cellsOf String_ dimensions row).
Proof.
  unfold valuesOf, cellsOf. rewrite map_app, map_map. f_equal.
  cbn [map]. rewrite !escape_plain; try reflexivity;
    try apply String_plain; try apply plain_toFixed.
  rewrite plain_app, plain_toFixed. reflexivity.
Qed.

Lemma length_cells (dimensions : list string) (row : SearchAnalyticsRow) :
  (2 <= List.length (cellsOf String_ dimensions row))%nat.
Proof. unfold cellsOf. rewrite length_app. cbn [List.length]. lia. Qed.

End Csv.

(** X23.  What [export.csv] writes can be read back: a reader of
    comma-separated text (commas between fields, newlines between
    records, quoted fields with doubled quotes) finds the header with the
    dimension names and the four metric names, and then for each row its
    keys exactly as they were, commas, quotes and newlines included,
    followed by the four metrics as printed.  This needs dimension names
    without such characters (the header is written without escaping),
    and at least one dimension when there are no rows. *)
Theorem convertToCSV_reads_back (String_ : Q -> string)
    (rows : list SearchAnalyticsRow) (dimensions : list string) :
  (forall x, plain (String_ x) = true) ->
  Forall (fun d => plain d = true) dimensions ->
  dimensions <> [] \/ rows <> [] ->
  readCSV (convertToCSV String_ rows dimensions)
  = Some ((dimensions ++ metricNames) :: map (cellsOf String_ dimensions) rows).
Proof.
  intros Hplain Hdims Hsome.
  assert (Hheader : Forall (fun d => plain d = true) (dimensions ++ metricNames)).
  { apply Forall_app. split; [exact Hdims|]. repeat constructor. }
  unfold readCSV, convertToCSV.
  destruct rows as [|row rows].
  - destruct Hsome as [Hd|Hr]; [|congruence].
    replace (join "," dimensions ++ ",clicks,impressions,ctr,position" ++ newline)%string
      with (join "," (map escapeCSVValue (dimensions ++ metricNames))
            ++ terminated Newline "")%string.
    + rewrite read_line; [reflexivity | | now left | discriminate].
      destruct dimensions; [congruence | discriminate].
    + rewrite (map_escape_plain _ Hheader), (join_app "," dimensions metricNames Hd)
        by discriminate.
      rewrite !FormatFacts.append_assoc. reflexivity.
  - assert (Htext :
      join newline
        (join "," (dimensions ++ metricNames)
         :: map (fun r => join "," (valuesOf String_ dimensions r)) (row :: rows))
      = join newline
          (map lineOf ((dimensions ++ metricNames)
                       :: map (cellsOf String_ dimensions) (row :: rows)))).
    { f_equal. cbn [map]. f_equal.
      - unfold lineOf. now rewrite (map_escape_plain _ Hheader).
      - f_equal.
        + unfold lineOf. now rewrite (valuesOf_cells String_ Hplain).
        + rewrite map_map. apply map_ext. intros r. unfold lineOf.
          now rewrite (valuesOf_cells String_ Hplain). }
    rewrite Htext, read_lines; [reflexivity | discriminate |].
    constructor.
    + rewrite length_app. cbn. lia.
    + apply Forall_forall. intros vs Hin. apply in_map_iff in Hin as (r & <- & _).
      apply length_cells.
Qed.

Lemma convertToCSV_reads_back_witness :
  readCSV (convertToCSV printWhole
             [mkRow (Some [("shoes, " ++ quote ++ "red" ++ quote)%string])
                10 1000 (1 # 100) (7 # 2)]
             ["query"])
  = Some [ ["query"; "clicks"; "impressions"; "ctr"; "position"];
           [("shoes, " ++ quote ++ "red" ++ quote)%string; "10"; "1000"; "1.00%"; "3.5"] ].
Proof.
  apply (convertToCSV_reads_back printWhole
           [mkRow (Some [("shoes, " ++ quote ++ "red" ++ quote)%string])
              10 1000 (1 # 100) (7 # 2)]
           ["query"]).
  - intros x. apply plain_stringOfZ.
  - repeat constructor.
  - left. discriminate.
Defined.

End CsvFacts.

(* ================================================================== *)
(** ** Dates written and read back; the weeks of the weekly summary *)
(* ================================================================== *)

Module DateFacts2.

Import JsString JsNumber JsDate DateSpec DateSpec2 DateFacts Client WeeklySummary.
Import SearchAnalyticsTools.

(** *** The calendar *)

Lemma eraValid_all (doe : Z) : 0 <= doe < 146097 -> eraValid doe = true.
Proof.
  intros H. apply (allFrom_spec eraValid (Z.to_nat 146097) 0); [|lia].
  vm_compute. reflexivity.
Qed.

Lemma yearCheck_all (y : Z) : 0 <= y < 400 -> yearCheck y = true.
Proof.
  intros H. apply (allFrom_spec yearCheck (Z.to_nat 400) 0); [|lia].
  vm_compute. reflexivity.
Qed.

Lemma isLeap_shift (y k : Z) : isLeap (y + k * 400) = isLeap y.
Proof.
  unfold isLeap.
  replace ((y + k * 400) mod 4) with (y mod 4)
    by (replace (k * 400) with (k * 100 * 4) by lia; now rewrite Z.mod_add).
  replace ((y + k * 400) mod 100) with (y mod 100)
    by (replace (k * 400) with (k * 4 * 100) by lia; now rewrite Z.mod_add).
  now rewrite Z.mod_add.
Qed.

Lemma daysInMonth_shift (y k m : Z) : daysInMonth (y + k * 400) m = daysInMonth y m.
Proof. unfold daysInMonth. now rewrite isLeap_shift. Qed.

Lemma daysInMonth_bounds (y m : Z) : 28 <= daysInMonth y m <= 31.
Proof.
  unfold daysInMonth.
  destruct (m =? 2); [destruct (isLeap y); lia|].
  destruct ((m =? 4) || (m =? 6) || (m =? 9) || (m =? 11)); lia.
Qed.

Lemma daysFromCivil_shift (y k m d : Z) :
  daysFromCivil (y + k * 400) m d = daysFromCivil y m d + k * 146097.
Proof.
  unfold daysFromCivil.
  set (y0 := if m <=? 2 then y - 1 else y).
  replace (if m <=? 2 then y + k * 400 - 1 else y + k * 400) with (y0 + k * 400)
    by (unfold y0; destruct (m <=? 2); lia).
  rewrite Z.div_add by lia.
  replace (y0 + k * 400 - (y0 / 400 + k) * 400) with (y0 - y0 / 400 * 400) by lia.
  lia.
Qed.

Lemma civilFromDays_shift (n k : Z) :
  civilFromDays (n + k * 146097)
  = (fst (fst (civilFromDays n)) + k * 400, snd (fst (civilFromDays n)),
     snd (civilFromDays n)).
Proof.
  unfold civilFromDays.
  replace (n + k * 146097 + 719468) with (n + 719468 + k * 146097) by lia.
  rewrite Z.div_add by lia.
  set (z := n + 719468). set (era := z / 146097).
  replace (z + k * 146097 - (era + k) * 146097) with (z - era * 146097) by lia.
  set (doe := z - era * 146097).
  set (yoe := (doe - doe / 1460 + doe / 36524 - doe / 146096) / 365).
  set (doy := doe - (365 * yoe + yoe / 4 - yoe / 100)).
  set (mp := (5 * doy + 2) / 153).
  set (m := if mp <? 10 then mp + 3 else mp - 9).
  cbn [fst snd]. clearbody m mp doy yoe doe era.
  destruct (m <=? 2); f_equal; f_equal; lia.
Qed.

(** The date that [civilFromDays] finds is a date of the calendar. *)
Lemma civil_valid (n : Z) :
  1 <= snd (fst (civilFromDays n)) <= 12
  /\ 1 <= snd (civilFromDays n)
     <= daysInMonth (fst (fst (civilFromDays n))) (snd (fst (civilFromDays n))).
Proof.
  split; [apply civil_roundtrip|].
  unfold civilFromDays.
  set (z := n + 719468). set (era := z / 146097). set (doe := z - era * 146097).
  assert (Hdoe : 0 <= doe < 146097).
  { unfold doe, era. pose proof (Z.mod_pos_bound z 146097 ltac:(lia)) as Hb.
    rewrite Z.mod_eq in Hb by lia. lia. }
  pose proof (eraValid_all doe Hdoe) as Hc. unfold eraValid in Hc.
  set (yoe := (doe - doe / 1460 + doe / 36524 - doe / 146096) / 365) in *.
  set (doy := doe - (365 * yoe + yoe / 4 - yoe / 100)) in *.
  set (mp := (5 * doy + 2) / 153) in *.
  set (d := doy - (153 * mp + 2) / 5 + 1) in *.
  set (m := if mp <? 10 then mp + 3 else mp - 9) in *.
  cbv zeta in Hc. cbn [fst snd].
  apply andb_true_iff in Hc as [H1 H2].
  apply Z.leb_le in H1. apply Z.leb_le in H2.
  replace (if m <=? 2 then yoe + era * 400 + 1 else yoe + era * 400)
    with ((if m <=? 2 then yoe + 1 else yoe) + era * 400)
    by (destruct (m <=? 2); lia).
  rewrite daysInMonth_shift. lia.
Qed.

(** [civilFromDays] undoes [daysFromCivil] on the dates of the calendar. *)
Lemma civil_of_days (y m d : Z) :
  1 <= m <= 12 -> 1 <= d <= daysInMonth y m ->
  civilFromDays (daysFromCivil y m d) = (y, m, d).
Proof.
  intros Hm Hd.
  set (k := y / 400). set (y0 := y mod 400).
  assert (Hy : y = y0 + k * 400)
    by (unfold y0, k; pose proof (Z.div_mod y 400 ltac:(lia)); lia).
  assert (Hy0 : 0 <= y0 < 400) by (unfold y0; apply Z.mod_pos_bound; lia).
  rewrite Hy in Hd |- *. rewrite daysInMonth_shift in Hd.
  rewrite daysFromCivil_shift, civilFromDays_shift.
  pose proof (yearCheck_all y0 Hy0) as Hc. unfold yearCheck in Hc.
  pose proof (allFrom_spec _ _ _ Hc m ltac:(lia)) as Hmonth. cbv beta in Hmonth.
  pose proof (allFrom_spec _ _ _ Hmonth d
                ltac:(pose proof (daysInMonth_bounds y0 m); lia)) as Hday.
  cbv beta in Hday. unfold sameDate in Hday. cbn [fst snd] in Hday.
  apply andb_true_iff in Hday as [Hday H3].
  apply andb_true_iff in Hday as [H1 H2].
  apply Z.eqb_eq in H1. apply Z.eqb_eq in H2. apply Z.eqb_eq in H3.
  now rewrite H1, H2, H3.
Qed.

(** The day numbers of the years 0 to 9999. *)
Lemma daysFromCivil_low (y m d : Z) :
  y <= -1 -> 1 <= m <= 12 -> 1 <= d <= 31 -> daysFromCivil y m d < -719528.
Proof.
  intros Hy Hm Hd. unfold daysFromCivil.
  destruct (Z.leb_spec m 2), (Z.gtb_spec m 2); try lia;
    Z.div_mod_to_equations; lia.
Qed.

Lemma daysFromCivil_high (y m d : Z) :
  10000 <= y -> 1 <= m <= 12 -> 1 <= d <= 31 -> 2932896 < daysFromCivil y m d.
Proof.
  intros Hy Hm Hd. unfold daysFromCivil.
  destruct (Z.leb_spec m 2), (Z.gtb_spec m 2); try lia;
    Z.div_mod_to_equations; lia.
Qed.

Lemma year_range (n : Z) :
  -719528 <= n <= 2932896 -> 0 <= fst (fst (civilFromDays n)) <= 9999.
Proof.
  intros Hn. destruct (civil_valid n) as [Hm Hd].
  destruct (civil_roundtrip n) as [_ Hround].
  pose proof (daysInMonth_bounds (fst (fst (civilFromDays n)))
                (snd (fst (civilFromDays n)))) as Hdim.
  set (y := fst (fst (civilFromDays n))) in *.
  set (m := snd (fst (civilFromDays n))) in *.
  set (d := snd (civilFromDays n)) in *.
  split.
  - destruct (Z.le_gt_cases 0 y) as [H|H]; [exact H|].
    pose proof (daysFromCivil_low y m d ltac:(lia) Hm ltac:(lia)). lia.
  - destruct (Z.le_gt_cases y 9999) as [H|H]; [exact H|].
    pose proof (daysFromCivil_high y m d ltac:(lia) Hm ltac:(lia)). lia.
Qed.

Lemma daysFromCivil_range (y m d : Z) :
  0 <= y <= 9999 -> 1 <= m <= 12 -> 1 <= d <= 31 ->
  -719528 <= daysFromCivil y m d <= 2932896.
Proof.
  intros Hy Hm Hd. unfold daysFromCivil.
  destruct (Z.leb_spec m 2), (Z.gtb_spec m 2); try lia;
    Z.div_mod_to_equations; lia.
Qed.

(** *** Digits *)

Lemma padCheck4_all (n : Z) : 0 <= n < 10000 -> padCheck 4 n = true.
Proof.
  intros H. apply (allFrom_spec (padCheck 4) (Z.to_nat 10000) 0); [|lia].
  vm_compute. reflexivity.
Qed.

Lemma padCheck2_all (n : Z) : 0 <= n < 100 -> padCheck 2 n = true.
Proof.
  intros H. apply (allFrom_spec (padCheck 2) (Z.to_nat 100) 0); [|lia].
  vm_compute. reflexivity.
Qed.

Lemma padCheck_spec (width : nat) (n : Z) :
  padCheck width n = true ->
  digitsValue 0 (list_ascii_of_string (pad width n)) = Some n
  /\ String.length (pad width n) = width.
Proof.
  unfold padCheck.
  destruct (digitsValue 0 (list_ascii_of_string (pad width n))) as [v|];
    [|discriminate].
  intros H. apply andb_true_iff in H as [Hv Hl].
  apply Z.eqb_eq in Hv. apply Nat.eqb_eq in Hl. now subst.
Qed.

Lemma digitValue_inv (c : ascii) (v : Z) :
  digitValue c = Some v ->
  0 <= v <= 9 /\ c = ascii_of_nat (Z.to_nat (v + 48)).
Proof.
  unfold digitValue. cbv zeta.
  destruct (Z.leb_spec 48 (Z.of_nat (nat_of_ascii c))) as [Hlo|]; [|discriminate].
  destruct (Z.leb_spec (Z.of_nat (nat_of_ascii c)) 57) as [Hhi|]; [|discriminate].
  cbn [andb]. intros Hv. inversion Hv; subst v. split; [lia|].
  replace (Z.of_nat (nat_of_ascii c) - 48 + 48) with (Z.of_nat (nat_of_ascii c)) by lia.
  now rewrite Nat2Z.id, ascii_nat_embedding.
Qed.

Lemma digitsValue_cons (acc : Z) (c : ascii) (l : list ascii) :
  digitsValue acc (c :: l)
  = match digitValue c with
    | Some v => digitsValue (10 * acc + v) l
    | None => None
    end.
Proof. reflexivity. Qed.

Lemma digitsValue_nil (acc : Z) : digitsValue acc [] = Some acc.
Proof. reflexivity. Qed.

Lemma digits2_value (a b : ascii) (n : Z) :
  digitsValue 0 [a; b] = Some n ->
  exists va vb, digitValue a = Some va /\ digitValue b = Some vb
                /\ n = 10 * va + vb.
Proof.
  rewrite digitsValue_cons.
  destruct (digitValue a) as [va|]; [|discriminate].
  rewrite digitsValue_cons.
  destruct (digitValue b) as [vb|]; [|discriminate].
  rewrite digitsValue_nil. intros H.
  assert (Hn : 10 * (10 * 0 + va) + vb = n) by congruence.
  exists va, vb. split; [reflexivity|]. split; [reflexivity | lia].
Qed.

Lemma digits4_value (a b c d : ascii) (n : Z) :
  digitsValue 0 [a; b; c; d] = Some n ->
  exists va vb vc vd,
    digitValue a = Some va /\ digitValue b = Some vb
    /\ digitValue c = Some vc /\ digitValue d = Some vd
    /\ n = 1000 * va + 100 * vb + 10 * vc + vd.
Proof.
  rewrite digitsValue_cons.
  destruct (digitValue a) as [va|]; [|discriminate].
  rewrite digitsValue_cons.
  destruct (digitValue b) as [vb|]; [|discriminate].
  rewrite digitsValue_cons.
  destruct (digitValue c) as [vc|]; [|discriminate].
  rewrite digitsValue_cons.
  destruct (digitValue d) as [vd|]; [|discriminate].
  rewrite digitsValue_nil. intros H.
  assert (Hn : 10 * (10 * (10 * (10 * 0 + va) + vb) + vc) + vd = n) by congruence.
  exists va, vb, vc, vd.
  split; [reflexivity|]. split; [reflexivity|]. split; [reflexivity|].
  split; [reflexivity | lia].
Qed.

Lemma length2 (s : string) :
  String.length s = 2%nat -> exists a b, s = String a (String b "").
Proof.
  destruct s as [|a [|b [|c s]]]; try discriminate. intros _. eauto.
Qed.

Lemma length4 (s : string) :
  String.length s = 4%nat ->
  exists a b c d, s = String a (String b (String c (String d ""))).
Proof.
  destruct s as [|a [|b [|c [|d [|e s]]]]]; try discriminate. intros _. eauto 6.
Qed.

(** The two characters of [pad 2 n] and the four of [pad 4 n]. *)
Lemma pad2_chars (n : Z) :
  0 <= n < 100 ->
  exists a b, pad 2 n = String a (String b "") /\ digitsValue 0 [a; b] = Some n.
Proof.
  intros H. destruct (padCheck_spec 2 n (padCheck2_all n H)) as [Hv Hl].
  destruct (length2 _ Hl) as (a & b & Hs). rewrite Hs in Hv. eauto.
Qed.

Lemma pad4_chars (n : Z) :
  0 <= n < 10000 ->
  exists a b c d,
    pad 4 n = String a (String b (String c (String d "")))
    /\ digitsValue 0 [a; b; c; d] = Some n.
Proof.
  intros H. destruct (padCheck_spec 4 n (padCheck4_all n H)) as [Hv Hl].
  destruct (length4 _ Hl) as (a & b & c & d & Hs). rewrite Hs in Hv. eauto 6.
Qed.

(** Digits that read as [n] are the digits that [pad] writes for [n]. *)
Lemma pad2_of_digits (a b : ascii) (n : Z) :
  digitsValue 0 [a; b] = Some n -> pad 2 n = String a (String b "").
Proof.
  intros H. destruct (digits2_value a b n H) as (va & vb & Ha & Hb & Hn).
  apply digitValue_inv in Ha as [Ra Ea]. apply digitValue_inv in Hb as [Rb Eb].
  destruct (pad2_chars n ltac:(lia)) as (a' & b' & Hs & Hv).
  destruct (digits2_value a' b' n Hv) as (va' & vb' & Ha' & Hb' & Hn').
  apply digitValue_inv in Ha' as [Ra' Ea']. apply digitValue_inv in Hb' as [Rb' Eb'].
  assert (va' = va /\ vb' = vb) as [-> ->] by lia.
  now rewrite Hs, Ea, Eb, Ea', Eb'.
Qed.

Lemma pad4_of_digits (a b c d : ascii) (n : Z) :
  digitsValue 0 [a; b; c; d] = Some n ->
  pad 4 n = String a (String b (String c (String d ""))).
Proof.
  intros H.
  destruct (digits4_value a b c d n H) as (va & vb & vc & vd & Ha & Hb & Hc & Hd & Hn).
  apply digitValue_inv in Ha as [Ra Ea]. apply digitValue_inv in Hb as [Rb Eb].
  apply digitValue_inv in Hc as [Rc Ec]. apply digitValue_inv in Hd as [Rd Ed].
  destruct (pad4_chars n ltac:(lia)) as (a' & b' & c' & d' & Hs & Hv).
  destruct (digits4_value a' b' c' d' n Hv)
    as (va' & vb' & vc' & vd' & Ha' & Hb' & Hc' & Hd' & Hn').
  apply digitValue_inv in Ha' as [Ra' Ea']. apply digitValue_inv in Hb' as [Rb' Eb'].
  apply digitValue_inv in Hc' as [Rc' Ec']. apply digitValue_inv in Hd' as [Rd' Ed'].
  assert (va' = va /\ vb' = vb /\ vc' = vc /\ vd' = vd) as (-> & -> & -> & ->) by lia.
  now rewrite Hs, Ea, Eb, Ec, Ed, Ea', Eb', Ec', Ed'.
Qed.

(** *** Writing a date and reading it back *)

Lemma toISODate_civil (t y m d : Z) :
  civilFromDays (Day t) = (y, m, d) -> 0 <= y <= 9999 ->
  toISODate t = (pad 4 y ++ "-" ++ pad 2 m ++ "-" ++ pad 2 d)%string.
Proof.
  intros Hc Hy. unfold toISODate. rewrite Hc.
  destruct (Z.leb_spec 0 y); [|lia]. destruct (Z.leb_spec y 9999); [|lia].
  reflexivity.
Qed.

(** A date that was written is read as the start of its day. *)
Lemma parse_toISODate (t : Z) :
  fourDigitYear t -> parse (toISODate t) = Some (startOfDay t).
Proof.
  unfold fourDigitYear, YearFromTime, startOfDay. intros Hy.
  destruct (civil_valid (Day t)) as [Hm Hd].
  destruct (civil_roundtrip (Day t)) as [_ Hround].
  pose proof (daysInMonth_bounds (fst (fst (civilFromDays (Day t))))
                (snd (fst (civilFromDays (Day t))))) as Hdim.
  destruct (civilFromDays (Day t)) as [[y m] d] eqn:Hc. cbn [fst snd] in *.
  rewrite (toISODate_civil t y m d Hc Hy).
  destruct (pad4_chars y ltac:(lia)) as (y1 & y2 & y3 & y4 & Hys & Hyv).
  destruct (pad2_chars m ltac:(lia)) as (m1 & m2 & Hms & Hmv).
  destruct (pad2_chars d ltac:(lia)) as (d1 & d2 & Hds & Hdv).
  rewrite Hys, Hms, Hds. unfold parse.
  cbn [String.append list_ascii_of_string].
  change (Ascii.eqb "-" "-") with true. cbn [andb].
  rewrite Hyv, Hmv, Hdv.
  destruct (Z.leb_spec 1 m); [|lia]. destruct (Z.leb_spec m 12); [|lia].
  destruct (Z.leb_spec 1 d); [|lia]. destruct (Z.leb_spec d (daysInMonth y m)); [|lia].
  cbn [andb]. now rewrite Hround.
Qed.

(** A date that was read is written as it was. *)
Lemma toISODate_parse (s : string) (t : Z) :
  parse s = Some t -> toISODate t = s.
Proof.
  unfold parse. intros H.
  rewrite <- (string_of_list_ascii_of_string s).
  destruct (list_ascii_of_string s)
    as [|y1 [|y2 [|y3 [|y4 [|h1 [|m1 [|m2 [|h2 [|d1 [|d2 [|x l]]]]]]]]]]];
    try discriminate.
  destruct (Ascii.eqb_spec h1 "-") as [->|]; [|discriminate].
  destruct (Ascii.eqb_spec h2 "-") as [->|]; [|discriminate].
  cbn [andb] in H.
  destruct (digitsValue 0 [y1; y2; y3; y4]) as [y|] eqn:Hyv; [|discriminate].
  destruct (digitsValue 0 [m1; m2]) as [m|] eqn:Hmv; [|discriminate].
  destruct (digitsValue 0 [d1; d2]) as [d|] eqn:Hdv; [|discriminate].
  destruct (Z.leb_spec 1 m); [|discriminate].
  destruct (Z.leb_spec m 12); [|discriminate].
  destruct (Z.leb_spec 1 d); [|discriminate].
  destruct (Z.leb_spec d (daysInMonth y m)); [|discriminate].
  cbn [andb] in H. inversion H; subst t. clear H.
  assert (Hy : 0 <= y <= 9999).
  { destruct (digits4_value _ _ _ _ _ Hyv) as (va & vb & vc & vd & Ha & Hb & Hc & Hd & ->).
    apply digitValue_inv in Ha as [? _]. apply digitValue_inv in Hb as [? _].
    apply digitValue_inv in Hc as [? _]. apply digitValue_inv in Hd as [? _]. lia. }
  rewrite (toISODate_civil _ y m d); [| |exact Hy].
  - rewrite (pad4_of_digits _ _ _ _ _ Hyv), (pad2_of_digits _ _ _ Hmv),
      (pad2_of_digits _ _ _ Hdv). reflexivity.
  - rewrite Day_MakeDate by (unfold msPerDay; lia).
    apply civil_of_days; lia.
Qed.

(** What is read is midnight of a day of the years 0 to 9999. *)
Lemma parse_range (s : string) (t : Z) :
  parse s = Some t ->
  exists n, t = MakeDate n 0 /\ -719528 <= n <= 2932896.
Proof.
  unfold parse. intros H.
  destruct (list_ascii_of_string s)
    as [|y1 [|y2 [|y3 [|y4 [|h1 [|m1 [|m2 [|h2 [|d1 [|d2 [|x l]]]]]]]]]]];
    try discriminate.
  destruct (Ascii.eqb h1 "-" && Ascii.eqb h2 "-"); [|discriminate].
  destruct (digitsValue 0 [y1; y2; y3; y4]) as [y|] eqn:Hyv; [|discriminate].
  destruct (digitsValue 0 [m1; m2]) as [m|] eqn:Hmv; [|discriminate].
  destruct (digitsValue 0 [d1; d2]) as [d|] eqn:Hdv; [|discriminate].
  destruct (Z.leb_spec 1 m); [|discriminate].
  destruct (Z.leb_spec m 12); [|discriminate].
  destruct (Z.leb_spec 1 d); [|discriminate].
  destruct (Z.leb_spec d (daysInMonth y m)); [|discriminate].
  cbn [andb] in H. inversion H; subst t. clear H.
  exists (daysFromCivil y m d). split; [reflexivity|].
  pose proof (daysInMonth_bounds y m).
  apply daysFromCivil_range; try lia.
  destruct (digits4_value _ _ _ _ _ Hyv) as (va & vb & vc & vd & Ha & Hb & Hc & Hd & ->).
  apply digitValue_inv in Ha as [? _]. apply digitValue_inv in Hb as [? _].
  apply digitValue_inv in Hc as [? _]. apply digitValue_inv in Hd as [? _]. lia.
Qed.

(** *** The two weeks of [report.weeklySummary] *)

Lemma startOfDay_back (e k : Z) :
  startOfDay (e - k * dayMs) = startOfDay e - k * dayMs.
Proof.
  unfold startOfDay, MakeDate, Day, dayMs, msPerDay.
  replace (e - k * (24 * 60 * 60 * 1000)) with (e + (- k) * 86400000) by lia.
  rewrite Z.div_add by lia. lia.
Qed.

Lemma fourDigitYear_range (e : Z) :
  firstDay <= e < lastDay + dayMs -> fourDigitYear e.
Proof.
  unfold firstDay, lastDay, fourDigitYear, YearFromTime. intros H.
  apply year_range.
  change (daysFromCivil 0 1 1) with (-719528) in H.
  change (daysFromCivil 9999 12 31) with 2932896 in H.
  unfold MakeDate, Day, dayMs, msPerDay in *.
  split.
  - apply Z.div_le_lower_bound; lia.
  - apply Z.lt_succ_r, Z.div_lt_upper_bound; lia.
Qed.

(** X22.  The weeks of [report.weeklySummary].  Whatever [endDate] is
    given (or none: yesterday), as long as the dates stay within the
    years 0 to 9999: the current period ends on the day of the end date
    and starts 6 days before, the previous period ends 7 days and starts
    13 days before it, so the two periods are adjacent weeks of 7 days;
    the dates are days of UTC, whatever the time zone of the process; and
    a given [endDate] is reported as it was given. *)
Theorem weeklySummary_weeks (endDate : option string) (now e : Z) :
  endOf endDate now = Some e ->
  firstDay + 13 * dayMs <= e < lastDay + dayMs ->
  let w := windowsOf e in
  parse (snd (currentRange w)) = Some (startOfDay e)
  /\ parse (fst (currentRange w)) = Some (startOfDay e - 6 * dayMs)
  /\ parse (snd (previousRange w)) = Some (startOfDay e - 7 * dayMs)
  /\ parse (fst (previousRange w)) = Some (startOfDay e - 13 * dayMs)
  /\ (forall s, endDate = Some s -> s <> "" -> snd (currentRange w) = s).
Proof.
  intros Hend Hrange w. unfold w, windowsOf, currentRange, previousRange, formatDateStr.
  cbn [w_end w_weekStart w_prevWeekEnd w_prevWeekStart fst snd]. unfold getTime.
  replace (e - 6 * dayMs - dayMs) with (e - 7 * dayMs) by lia.
  replace (e - 7 * dayMs - 6 * dayMs) with (e - 13 * dayMs) by lia.
  assert (Hd : 0 < dayMs) by (unfold dayMs; lia).
  split; [|split; [|split; [|split]]].
  - apply parse_toISODate, fourDigitYear_range. lia.
  - rewrite <- startOfDay_back. apply parse_toISODate, fourDigitYear_range. lia.
  - rewrite <- startOfDay_back. apply parse_toISODate, fourDigitYear_range. lia.
  - rewrite <- startOfDay_back. apply parse_toISODate, fourDigitYear_range. lia.
  - intros s -> Hs. unfold endOf, truthyString in Hend.
    destruct s as [|c s]; [congruence|]. cbn [JsString.isEmpty] in Hend.
    now apply toISODate_parse.
Qed.

Lemma weeklySummary_weeks_witness :
  currentRange (windowsOf 1706659200000) = ("2024-01-25", "2024-01-31")
  /\ previousRange (windowsOf 1706659200000) = ("2024-01-18", "2024-01-24")
  /\ snd (currentRange (windowsOf 1706659200000)) = "2024-01-31".
Proof.
  split; [vm_compute; reflexivity|]. split; [vm_compute; reflexivity|].
  refine (proj2 (proj2 (proj2 (proj2
            (weeklySummary_weeks (Some "2024-01-31") 0 1706659200000 _ _))))
            "2024-01-31" eq_refl _).
  - vm_compute. reflexivity.
  - split; [vm_compute; discriminate | vm_compute; reflexivity].
  - discriminate.
Defined.

(** *** The key of a month *)

Lemma pad4_year (y : Z) : 1000 <= y <= 9999 -> pad 4 y = stringOfZ y.
Proof.
  intros H.
  assert (Hc : yearCheck4 y = true)
    by (apply (allFrom_spec yearCheck4 (Z.to_nat 9000) 1000); [vm_compute; reflexivity | lia]).
  unfold yearCheck4 in Hc. apply Nat.eqb_eq in Hc.
  unfold pad, padStart0. now rewrite Hc.
Qed.

Lemma daysFromCivil_before_1000 (y m d : Z) :
  y <= 999 -> 1 <= m <= 12 -> 1 <= d <= 31 -> daysFromCivil y m d < -354285.
Proof.
  intros Hy Hm Hd. unfold daysFromCivil.
  destruct (Z.leb_spec m 2), (Z.gtb_spec m 2); try lia;
    Z.div_mod_to_equations; lia.
Qed.

Lemma toISODate_Day (t t' : Z) : Day t = Day t' -> toISODate t = toISODate t'.
Proof. intros H. unfold toISODate. now rewrite H. Qed.

(** The year and the month as the monthly key prints them are the first
    seven characters of the date. *)
Lemma month_key_of_day (t : Z) :
  -354285 <= Day t <= 2932896 ->
  (stringOfZ (YearFromTime t) ++ "-"
   ++ padStart0 2 (stringOfZ (MonthFromTime t + 1)))%string
  = substring 0 7 (toISODate t).
Proof.
  intros Hn. unfold YearFromTime, MonthFromTime.
  pose proof (year_range (Day t) ltac:(lia)) as Hy.
  destruct (civil_valid (Day t)) as [Hm Hd].
  destruct (civil_roundtrip (Day t)) as [_ Hround].
  pose proof (daysInMonth_bounds (fst (fst (civilFromDays (Day t))))
                (snd (fst (civilFromDays (Day t))))) as Hdim.
  destruct (civilFromDays (Day t)) as [[y m] d] eqn:Hc. cbn [fst snd] in *.
  assert (Hy1000 : 1000 <= y).
  { destruct (Z.le_gt_cases 1000 y) as [H|H]; [exact H|].
    pose proof (daysFromCivil_before_1000 y m d ltac:(lia) Hm ltac:(lia)). lia. }
  rewrite (toISODate_civil t y m d Hc Hy).
  replace (m - 1 + 1) with m by lia.
  fold (pad 2 m). rewrite <- (pad4_year y) by lia.
  destruct (pad4_chars y ltac:(lia)) as (y1 & y2 & y3 & y4 & Hys & _).
  destruct (pad2_chars m ltac:(lia)) as (m1 & m2 & Hms & _).
  rewrite Hys, Hms. reflexivity.
Qed.

(** X13.  The key of a monthly bucket depends on the time zone of the
    process.  For a day [YYYY-MM-DD] of the years 1000 to 9999: on UTC
    and east of it the key is [YYYY-MM], the first seven characters of
    the date; west of UTC it is the year and month of the day before, so
    the first day of a month is put into the month before. *)
Theorem monthly_key_by_time_zone (tz : Z) (s : string) (t : Z) :
  -1440 < tz < 1440 ->
  parse s = Some t ->
  year1000 + msPerDay <= t ->
  bucketKeyOf tz Monthly t
  = substring 0 7 (if 0 <=? tz then s else toISODate (t - msPerDay)).
Proof.
  intros Htz Hparse Hyear.
  pose proof (toISODate_parse s t Hparse) as Hs.
  destruct (parse_range s t Hparse) as (n & -> & Hn).
  unfold year1000 in Hyear. change (daysFromCivil 1000 1 1) with (-354285) in Hyear.
  assert (Hn' : -354284 <= n) by (unfold MakeDate, msPerDay in Hyear; lia).
  change (bucketKeyOf tz Monthly (MakeDate n 0))
    with (stringOfZ (YearFromTime (LocalTime tz (MakeDate n 0))) ++ "-"
          ++ padStart0 2 (stringOfZ (MonthFromTime (LocalTime tz (MakeDate n 0)) + 1)))%string.
  destruct (Z.leb_spec 0 tz) as [Heast|Hwest].
  - assert (Hday : Day (LocalTime tz (MakeDate n 0)) = n).
    { unfold LocalTime, MakeDate. rewrite Z.add_0_r.
      change (n * msPerDay + tz * 60000) with (MakeDate n (tz * 60000)).
      apply Day_MakeDate. unfold msPerDay. lia. }
    rewrite month_key_of_day by (rewrite Hday; lia).
    rewrite <- Hs. f_equal. apply toISODate_Day.
    rewrite Hday. symmetry. apply Day_MakeDate. unfold msPerDay. lia.
  - assert (Hday : Day (LocalTime tz (MakeDate n 0)) = n - 1).
    { unfold LocalTime, MakeDate. rewrite Z.add_0_r.
      replace (n * msPerDay + tz * 60000)
        with (MakeDate (n - 1) (msPerDay + tz * 60000))
        by (unfold MakeDate; lia).
      apply Day_MakeDate. unfold msPerDay. lia. }
    rewrite month_key_of_day by (rewrite Hday; lia).
    f_equal. apply toISODate_Day. rewrite Hday.
    replace (MakeDate n 0 - msPerDay) with (MakeDate (n - 1) 0)
      by (unfold MakeDate; lia).
    symmetry. apply Day_MakeDate. unfold msPerDay. lia.
Qed.

Lemma monthly_key_by_time_zone_witness :
  bucketKeyOf 330 Monthly 1706745600000 = "2024-02"
  /\ bucketKeyOf (-300) Monthly 1706745600000 = "2024-01".
Proof.
  split.
  - apply (monthly_key_by_time_zone 330 "2024-02-01" 1706745600000).
    + lia.
    + reflexivity.
    + vm_compute. discriminate.
  - apply (monthly_key_by_time_zone (-300) "2024-02-01" 1706745600000).
    + lia.
    + reflexivity.
    + vm_compute. discriminate.
Defined.

End DateFacts2.

(* ================================================================== *)
(** ** The opportunity tools and the client *)
(* ================================================================== *)

Module OpportunityHandlerFacts.

Import JsString Client ClientMore ClientSpec SearchAnalyticsTools Opportunities.
Import WeeklySummary Tools OpportunityHandler PagesSpec WeeklySpec Fixtures.

Lemma queryThen_once {World : Type} (env : Env)
    (searchanalytics_query : Request -> Operation World ApiResponse)
    (query : SearchAnalyticsQuery)
    (body : SearchAnalyticsResponse -> OpportunityBody) (w : World) :
  env_create env = Returned tt ->
  rowLimitOf query <= MAX_ROWS_PER_REQUEST ->
  exists w' r0 events,
    withRetry (searchanalytics_query (requestOf query)) MAX_RETRIES w = (w', r0, events)
    /\ queryThen env searchanalytics_query query body w
       = Some (w',
               mapOutcome (fun response => jsonResult (body response))
                 (mapOutcome convertResponse r0),
               [mkCall (requestOf query) events (mapOutcome convertResponse r0)]).
Proof.
  intros Hcreate Hlimit. unfold queryThen, searchAnalytics. rewrite Hcreate.
  cbn [searchAnalytics_rec].
  destruct (Z.gtb_spec (rowLimitOf query) MAX_ROWS_PER_REQUEST); [lia|].
  unfold searchAnalyticsOnce.
  destruct (withRetry (searchanalytics_query (requestOf query)) MAX_RETRIES w)
    as [[w' r0] events].
  exists w', r0, events. split; reflexivity.
Qed.


End OpportunityHandlerFacts.
(* ================================================================== *)
(** ** The two models of the rollup *)
(* ================================================================== *)

Module HostFacts.

Import Client SearchAnalyticsTools RollupSpec HostDate HostRollupSpec.

(** A calendar day is far from the ends of time. *)
Lemma parse_clip (s : string) (t : Z) :
  JsDate.parse s = Some t ->
  -8640000000000000 + 7 * JsDate.msPerDay <= t
  /\ t <= 8640000000000000 - 7 * JsDate.msPerDay.
Proof.
  intros H. destruct (DateFacts2.parse_range s t H) as (n & -> & Hn).
  unfold JsDate.MakeDate, JsDate.msPerDay. lia.
Qed.

Lemma TimeClip_in (t : Z) :
  -8640000000000000 <= t <= 8640000000000000 -> TimeClip t = Some t.
Proof.
  intros H. unfold TimeClip. destruct (Z.leb_spec (Z.abs t) 8640000000000000); [reflexivity|lia].
Qed.

(** On a fixed offset [setDate] moves a date by whole days. *)
Lemma setDate_fixed (tz t date : Z) :
  JsDate.setDate tz t date
  = t + (date - JsDate.getDate tz t) * JsDate.msPerDay.
Proof.
  unfold JsDate.setDate, JsDate.getDate, JsDate.LocalTime, JsDate.UTC.
  set (lt := t + tz * 60000).
  unfold JsDate.MakeDay, JsDate.YearFromTime, JsDate.MonthFromTime, JsDate.DateFromTime.
  destruct (DateFacts.civil_roundtrip (JsDate.Day lt)) as [Hm Hround].
  set (c := JsDate.civilFromDays (JsDate.Day lt)) in *.
  replace ((snd (fst c) - 1) / 12) with 0 by (symmetry; apply Z.div_small; lia).
  replace ((snd (fst c) - 1) mod 12) with (snd (fst c) - 1)
    by (symmetry; apply Z.mod_small; lia).
  rewrite Z.add_0_r.
  replace (snd (fst c) - 1 + 1) with (snd (fst c)) by lia.
  rewrite (DateFacts.daysFromCivil_day _ _ (snd c)) in Hround.
  unfold JsDate.MakeDate, JsDate.TimeWithinDay, JsDate.Day in *.
  pose proof (Z.div_mod lt JsDate.msPerDay ltac:(unfold JsDate.msPerDay; lia)) as Hdm.
  unfold lt in *. nia.
Qed.

Lemma setDate_fixedHost (tz t date : Z) :
  setDate (fixedHost tz) t date = TimeClip (JsDate.setDate tz t date).
Proof.
  unfold setDate, JsDate.setDate, LocalTime, UTC, JsDate.LocalTime, JsDate.UTC, fixedHost.
  cbn [LocalTZA]. reflexivity.
Qed.

Lemma getters_fixedHost (tz t : Z) :
  getDate (fixedHost tz) t = JsDate.getDate tz t
  /\ getDay (fixedHost tz) t = JsDate.getDay tz t
  /\ getFullYear (fixedHost tz) t = JsDate.getFullYear tz t
  /\ getMonth (fixedHost tz) t = JsDate.getMonth tz t.
Proof.
  unfold getDate, getDay, getFullYear, getMonth, LocalTime, fixedHost.
  cbn [LocalTZA]. repeat split.
Qed.

(** The key of a calendar day is the same in both models. *)
Lemma bucketKeyOf_fixedHost (tz : Z) (g : Granularity) (d : string) (t : Z) :
  JsDate.parse d = Some t ->
  HostRollup.bucketKeyOf (fixedHost tz) g (newDate (fixedHost tz) d)
  = Returned (SearchAnalyticsTools.bucketKeyOf tz g t).
Proof.
  intros Hp. destruct (parse_clip d t Hp) as [Hlo Hhi].
  unfold newDate. change (Date_parse (fixedHost tz) d) with (JsDate.parse d). rewrite Hp.
  rewrite TimeClip_in by (unfold JsDate.msPerDay in *; lia).
  destruct (getters_fixedHost tz t) as (Hdate & Hday & Hyear & Hmonth).
  assert (Hweek : HostRollup.toISODate
                    (HostRollup.mondayOf (fixedHost tz) (Some t))
                  = Returned (JsDate.toISODate
                                (JsDate.setDate tz t
                                   (JsDate.getDate tz t - JsDate.getDay tz t + 1)))).
  { unfold HostRollup.mondayOf. rewrite setDate_fixedHost, Hdate, Hday.
    rewrite TimeClip_in; [reflexivity|].
    rewrite setDate_fixed.
    assert (Hwd : 0 <= JsDate.getDay tz t < 7)
      by (unfold JsDate.getDay, JsDate.WeekDay; apply Z.mod_pos_bound; lia).
    unfold JsDate.msPerDay in *. nia. }
  destruct g; cbn [HostRollup.bucketKeyOf SearchAnalyticsTools.bucketKeyOf].
  - exact Hweek.
  - now rewrite Hyear, Hmonth.
  - exact Hweek.
Qed.

Lemma groupRows_fixedHost (tz : Z) (g : Granularity) (rows : list SearchAnalyticsRow) :
  forall (m m' : JsMap.t Bucket),
    SearchAnalyticsTools.groupRows tz g rows m = Some m' ->
    HostRollup.groupRows (fixedHost tz) g rows m = Returned m'.
Proof.
  induction rows as [|row rows IH]; intros m m' H.
  - cbn in H. inversion H. reflexivity.
  - rewrite RollupFacts.groupRows_step in H. rewrite HostRollupFacts.groupRows_host_step.
    destruct (dateKeyOf row) as [d|]; [|now apply IH].
    destruct (JsDate.parse d) as [t|] eqn:Hp; [|discriminate].
    rewrite (bucketKeyOf_fixedHost tz g d t Hp). now apply IH.
Qed.

(** Where the model on a fixed offset has an answer, the model on a host
    with that offset, which reads calendar days only, has the same. *)
Lemma rollup_fixedHost (tz : Z) (rows out : list SearchAnalyticsRow)
    (granularity : Granularity) (startDate endDate : string) :
  SearchAnalyticsTools.rollupByGranularity tz rows granularity startDate endDate
  = Some out ->
  HostRollup.rollupByGranularity (fixedHost tz) rows granularity startDate endDate
  = Returned out.
Proof.
  assert (Hwith : forall g,
             SearchAnalyticsTools.rollupWith tz g rows = Some out ->
             HostRollup.rollupWith (fixedHost tz) g rows = Returned out).
  { intros g. unfold SearchAnalyticsTools.rollupWith, HostRollup.rollupWith.
    destruct (SearchAnalyticsTools.groupRows tz g rows []) as [m|] eqn:Hrun;
      [|discriminate].
    rewrite (groupRows_fixedHost tz g rows [] m Hrun). intros H. inversion H.
    reflexivity. }
  unfold SearchAnalyticsTools.rollupByGranularity, HostRollup.rollupByGranularity.
  destruct granularity; try apply Hwith.
  unfold HostRollup.resolve, newDate, fixedHost. cbn [Date_parse].
  destruct (JsDate.parse startDate) as [start|] eqn:Hs; [|discriminate].
  destruct (JsDate.parse endDate) as [end_|] eqn:He; [|discriminate].
  destruct (parse_clip _ _ Hs) as [Hs1 Hs2]. destruct (parse_clip _ _ He) as [He1 He2].
  rewrite !TimeClip_in by (unfold JsDate.msPerDay in *; lia).
  destruct (resolveAuto start end_) as [g|]; [apply Hwith|].
  intros H. inversion H. reflexivity.
Qed.

End HostFacts.
